(* ===== verification/_CoqProject ===== *)
-Q . S2P
Prelude.v
GoLib.v
GoLibModel.v
Sha256.v
GoTime.v
GoJson.v
AuditChain.v
FeeStructure.v
FeeSchedule.v
FeeRules.v
MatchTypes.v
Evaluators.v
Confidence.v
Allocate.v
Engine.v
EngineDual.v
MatchEntities.v
Transaction.v
RuleDecode.v
RunPrepare.v
RunExecute.v
Events.v
Severity.v
Exceptions.v
Disputes.v
AuditEvent.v
Store.v
AuditRepo.v
Archive.v
ArchiveSafe.v
ArchiveLive.v
FeeFindings.v
RunMatch.v
RunOutcome.v
RunSettles.v
ManualMatch.v
DoubleMatch.v
Adjust.v
Lock.v
ExceptionRepo.v
Calls.v
Resolution.v
Bulk.v
DisputeCommands.v
AuditConsumer.v
Idempotency.v
Callback.v
CallbackOnce.v
