(* ===== verification/Prelude.v ===== *)
(** * Verification of the Matcher reconciliation engine

    Matcher reconciles financial transactions: a run takes the unmatched
    transactions of a reconciliation context, splits them into a left and a
    right side, normalises their amounts with fee schedules, lets a rule engine
    propose matches, and turns the proposals into match groups, statistics and
    exceptions.  People match, unmatch and adjust by hand, resolve and dispute
    the exceptions; every change leaves an event that becomes a record in a
    hash-chained audit trail, whose old partitions are archived.  This library
    is a shallow embedding of the parts of the Go sources that decide those
    results, with the theorems that they are right.

    ** Conventions

    A function returning [(T, error)] is a value of [res E T]; a method that
    assigns fields of its receiver is a computation in [st S E], which keeps
    the assignments made before an error.  A nil pointer is [None], a slice a
    list, a map a [gmap], a set-like map a [gset].  String enumerations are
    strings with their constants.  [time.Now()] and [uuid.New()] are arguments.
    Code outside the repository is a class of operations with its documented
    laws in a second class: [UUIDLib], [DecimalLib] (shopspring/decimal, read
    through its rational value), [AssertLib] (lib-commons assertions),
    [UnicodeLib], [FmtLib], [OutboxLib] and [UrlLib].  Each has an instance, at
    which the examples are evaluated.  Commands over the database are computations
    in [io] (Store): each statement and each check of the context or the lock
    is a step at which an environment [Env] may fail it, and theorems hold for
    every environment unless they name what they need of it.  Reads outside a
    transaction see the tables as last committed, without the lag of a replica,
    and a commit that reports an error has not happened.

    ** Files

    - [Prelude]: errors, receivers, stable sorting, list lemmas, tactics.
    - [GoLib], [GoLibModel]: the Go standard library functions used (strings,
      time as nanoseconds with saturating differences, binary64 floats) and the
      library classes with their instances.
    - [FeeStructure], [FeeSchedule], [FeeRules] (internal/shared/domain/fee):
      money, flat, percentage and tiered fees; schedules, parallel and cascading
      calculation, gross from net; predicates, fee rules and fee verification.
    - [MatchTypes], [Evaluators], [Confidence], [Allocate], [Engine],
      [EngineDual] (internal/matching/domain/services and value_objects):
      candidates, rules, day arithmetic and sorting; exact, tolerance and
      date-lag evaluators and FX rates; scores; one-to-many allocation; the 1:1,
      1:N and N:1 passes; and their symmetry.
    - [MatchEntities] (internal/matching/domain/entities), [Transaction]
      (internal/shared/domain): groups, items, runs, adjustments, fee
      variances, transactions and match rules, with every method that changes
      them.
    - [RuleDecode] (rule_config_decode*.go): stored JSON configurations to
      rule definitions.
    - [RunPrepare], [RunExecute] (internal/matching/services/command): source
      classification, candidate split, fee loading and normalisation, rule
      loading and engine dispatch; proposal processing, bookkeeping,
      statistics, exceptions.
    - [Events], [Severity] (internal/shared/domain): outbox events of groups
      and their truncation; severity of exceptions.
    - [Store] (internal/matching/adapters/postgres, the transaction repository
      and shared/adapters/postgres/common): the tables, transactions with
      commit and rollback, and the statements as functions on tables.
    - [FeeFindings], [RunMatch] (internal/matching/services/command): fee
      verification at commit, and the whole [RunMatch] use case.
    - [RunOutcome], [RunSettles]: what a call of [RunMatch] leaves behind.
    - [ManualMatch], [DoubleMatch], [Adjust], [Lock]
      (internal/matching/services/command and adapters/redis): matching and
      unmatching by hand, two matches of one transaction, adjustments with
      their audit record, and the lock of a context among many clients.
    - [Sha256], [GoTime], [GoJson]: SHA-256, calendar dates and encoding/json,
      byte for byte.
    - [AuditChain], [AuditRepo], [AuditConsumer] (internal/governance): audit
      records, their hash chain, the repository with concurrent writers, and
      the consumer of audit events.
    - [Archive], [ArchiveSafe], [ArchiveLive] (internal/governance/services):
      partitions, the archival worker, and when it finishes.
    - [Exceptions], [AuditEvent], [Disputes] (internal/exception/domain, ports
      and adapters/audit): the aggregates and their audit events.
    - [ExceptionRepo], [Calls], [Resolution], [Bulk], [DisputeCommands]
      (internal/exception/services/command, its PostgreSQL adapters and the
      gateway of internal/shared/adapters/cross): versioned updates, reasoning
      about calls of several transactions, force match and entry adjustment,
      bulk commands, disputes and comments.
    - [Idempotency], [Callback], [CallbackOnce] (internal/shared/domain,
      internal/exception/adapters/redis and services/command): idempotency keys
      and rate limits in Redis, callbacks of external systems, and their
      concurrent attempts.

    ** What the theorems show

    - Whole calls: a committed run settles every candidate exactly one way on
      the database and touches no other transaction; a failed call or a dry run
      changes nothing but its own row; a started run ends COMPLETED or FAILED
      unless the database fails or the request is cancelled in one window.
    - Rule definitions decoded from storage are well typed for the engine.
    - Runs: every candidate ends up in a group or is reported unmatched, never
      both; each unmatched one raises one exception; groups are exactly their
      proposals and are confirmed from score 90 on; in 1:1 contexts no
      transaction is matched twice and the statistics add up.
    - Engine: proposals are accepted by their rule, transactions are used once,
      no acceptable pair is left with both transactions free, and the result
      depends neither on input order nor on which side is called left.
    - Evaluators and scores: equivalence with declarative specifications,
      monotonicity in the tolerances, exactness of the floating-point score.
    - Allocation: conservation, bounds, totality, and the meaning of failures.
    - Fees: tiered fees are the marginal fee, breakdowns balance, gross-from-net
      results reproduce the net amount and flat fees converge, first-match
      resolution; the variances recorded at commit are exactly the differences
      beyond tolerance.
    - Entities: invariants along every sequence of calls, failed ones included.
    - Commands by hand: a manual match confirms exactly its transactions and
      unmatching it restores them; an adjustment is stored if and only if it is
      audited; the lock of a context has one holder.
    - Exceptions: concurrent updates of an exception behave as one after the
      other; every command on an exception or a dispute changes what it names,
      with one audit event in the same transaction, or nothing; what a
      resolution that fails half way leaves behind is listed exactly, and so is
      when a force match marks its transaction; a callback is applied once per
      lifetime of its completion while its attempts are in time.
    - Audit trail: chains are tamper evident up to SHA-256 collisions, writers
      keep one chain per tenant, a consumed event is one record, and no
      partition is dropped before a verified copy exists.
    - Behaviour that differs from its documentation, or loses work, is stated
      by theorems too: [commitMatchResults_stuck],
      [ManualMatch_double_match], [archivePartition_stuck],
      [auditLogRow_loses_hashes], [resolution_stuck], [severity_lost],
      [consumer_drops], [DeleteComment_statuses], [callback_repeats].

    ** Bounds

    The gross-from-net loop runs 100 times, the source's own [maxIterations],
    and running out is the source's error.  Trimming a string takes its length
    as fuel, which is enough because each step removes a character
    ([trim_front_spec]).  Every other loop recurses on the list it ranges over.

    ** Not modelled

    HTTP requests, RabbitMQ, logging, metrics and traces; a streaming event
    succeeds or fails, without its bytes.  Of PostgreSQL, what the statements
    do to rows and that primary keys are unique; other constraints are
    statement failures, and the JSON encoding of matching events is left to
    the library.  The goroutine that refreshes the lock is what the environment
    replies.  Listings and dashboards read only.  Of the exception context, the
    connectors to external systems and the routing rules, which no command
    calls; of governance, actor mappings and the worker loop; and
    the ingestion, configuration, discovery and reporting contexts, whose
    parsers and workers are mostly input and output. *)
From Stdlib Require Export ZArith Lia.
From stdpp Require Export base option list sorting strings gmap.
#[export] Set Warnings "-clear-no-such-hyp,-register-all".

(** ** Fallible computations

    A Go function returning [(T, error)] is a value of [res E T]: [Err e] when
    the returned error is non-nil, [Ok x] otherwise. *)

Inductive res (E A : Type) : Type :=
| Ok (a : A)
| Err (e : E).
Arguments Ok {E A} _.
Arguments Err {E A} _.

#[global] Instance res_ret E : MRet (res E) := fun A a => Ok a.
#[global] Instance res_bind E : MBind (res E) := fun A B f m =>
  match m with Ok a => f a | Err e => Err e end.
#[global] Instance res_fmap E : FMap (res E) := fun A B f m =>
  match m with Ok a => Ok (f a) | Err e => Err e end.

(** [if !b { return err }] *)
Definition ensure {E} (b : bool) (e : E) : res E unit :=
  if b then Ok tt else Err e.

(** [if err := f(); err != nil { return wrap(err) }] *)
Definition map_err {E F A} (f : E -> F) (m : res E A) : res F A :=
  match m with Ok a => Ok a | Err e => Err (f e) end.

Definition is_Ok {E A} (m : res E A) : bool :=
  match m with Ok _ => true | Err _ => false end.

Definition from_ok {E A} (d : A) (m : res E A) : A :=
  match m with Ok a => a | Err _ => d end.

(** Running [f] over a slice, stopping at the first error. *)
Fixpoint res_mapM {E A B} (f : A -> res E B) (l : list A) : res E (list B) :=
  match l with
  | [] => Ok []
  | x :: l => y ← f x; ys ← res_mapM f l; Ok (y :: ys)
  end.

(** A [for _, x := range l] loop over loop state [S], stopping at an error. *)
Fixpoint res_foldl {E A S} (f : S -> A -> res E S) (s : S) (l : list A) : res E S :=
  match l with
  | [] => Ok s
  | x :: l => s' ← f s x; res_foldl f s' l
  end.

Section res_lemmas.
Context {E : Type}.

Lemma res_bind_Ok {A B} (f : A -> res E B) (m : res E A) b :
  m ≫= f = Ok b <-> exists a, m = Ok a /\ f a = Ok b.
Proof. destruct m; simpl; naive_solver. Qed.

Lemma res_bind_Err {A B} (f : A -> res E B) (m : res E A) e :
  m ≫= f = Err e <-> m = Err e \/ exists a, m = Ok a /\ f a = Err e.
Proof. destruct m; simpl; naive_solver. Qed.

Lemma ensure_Ok (b : bool) (e : E) u : ensure b e = Ok u <-> b = true.
Proof. destruct b, u; simpl; naive_solver. Qed.

Lemma ensure_Err (b : bool) (e e' : E) : ensure b e = Err e' <-> b = false /\ e = e'.
Proof. destruct b; simpl; naive_solver. Qed.

Lemma map_err_Ok {F A} (f : E -> F) (m : res E A) a : map_err f m = Ok a <-> m = Ok a.
Proof. destruct m; simpl; naive_solver. Qed.

Lemma from_ok_spec {A} (d : A) (m : res E A) : is_Ok m = true -> m = Ok (from_ok d m).
Proof. by destruct m. Qed.

Lemma res_mapM_Ok {A B} (f : A -> res E B) l ys :
  res_mapM f l = Ok ys <-> Forall2 (fun x y => f x = Ok y) l ys.
Proof.
  revert ys. induction l as [|x l IH]; intros ys; simpl.
  - split; [intros [= <-]; constructor | by inversion 1].
  - split.
    + rewrite res_bind_Ok. intros (y & Hy & H). rewrite res_bind_Ok in H.
      destruct H as (ys' & Hys & [= <-]). constructor; [done|]. by apply IH.
    + inversion 1 as [|? y ? ys' Hy Hys]; subst. rewrite Hy. simpl.
      apply IH in Hys. by rewrite Hys.
Qed.

(** Loop invariant rule for [res_foldl]. *)
Lemma res_foldl_inv {A S} (I : S -> Prop) (f : S -> A -> res E S) l s s' :
  I s ->
  (forall t x t', x ∈ l -> I t -> f t x = Ok t' -> I t') ->
  res_foldl f s l = Ok s' -> I s'.
Proof.
  revert s. induction l as [|x l IH]; intros s Hs Hstep; simpl.
  - by intros [= <-].
  - rewrite res_bind_Ok. intros (t & Ht & H). eapply IH; [| |exact H].
    + eapply Hstep; [|exact Hs|exact Ht]. by left.
    + intros u y u' Hy. apply Hstep. by right.
Qed.

Lemma res_foldl_app {A S} (f : S -> A -> res E S) l1 l2 s :
  res_foldl f s (l1 ++ l2) = (t ← res_foldl f s l1; res_foldl f t l2).
Proof.
  revert s. induction l1 as [|x l1 IH]; intros s; simpl; [done|].
  destruct (f s x); simpl; [apply IH|done].
Qed.

(** [m] fails only with errors in [P]; the rules follow the shape of [m]. *)
Definition fails_only {A} (P : E -> Prop) (m : res E A) : Prop := forall e, m = Err e -> P e.

Lemma fails_only_Ok {A} (P : E -> Prop) (a : A) : fails_only P (Ok a).
Proof. done. Qed.
Lemma fails_only_Err {A} (P : E -> Prop) (e : E) : P e -> fails_only (A:=A) P (Err e).
Proof. by intros ? ? [= <-]. Qed.
Lemma fails_only_ensure (P : E -> Prop) b e : (b = false -> P e) -> fails_only P (ensure b e).
Proof. destruct b; intros H ? [=]; subst; auto. Qed.
Lemma fails_only_bind {A B} (P : E -> Prop) (m : res E A) (f : A -> res E B) :
  fails_only P m -> (forall a, m = Ok a -> fails_only P (f a)) -> fails_only P (m ≫= f).
Proof. intros Hm Hf e [H|(a & Ha & H)]%res_bind_Err; [by apply Hm|by eapply Hf]. Qed.
Lemma fails_only_foldl {A S} (P : E -> Prop) (f : S -> A -> res E S) l s :
  (forall t x, x ∈ l -> fails_only P (f t x)) -> fails_only P (res_foldl f s l).
Proof.
  revert s. induction l as [|x l IH]; intros s H; [done|]. simpl. apply fails_only_bind.
  - apply H. by left.
  - intros t _. apply IH. intros ? ? ?. apply H. by right.
Qed.
Lemma fails_only_False {A} (m : res E A) : fails_only (fun _ => False) m -> exists a, m = Ok a.
Proof. destruct m as [a|e]; [by exists a|]. intros H. by destruct (H e). Qed.
End res_lemmas.

(** ** Methods on a mutable receiver

    A Go method [func (x *S) M(...) error] that assigns fields of its receiver
    is a computation in [st S E]: it returns the final receiver together with
    the error, so assignments made before an error is returned are kept. *)

Definition st (S E A : Type) : Type := S -> S * res E A.

#[global] Instance st_ret S E : MRet (st S E) := fun A a s => (s, Ok a).
#[global] Instance st_bind S E : MBind (st S E) := fun A B f m s =>
  match m s with
  | (s', Ok a) => f a s'
  | (s', Err e) => (s', Err e)
  end.

Definition st_lift {S E A} (m : res E A) : st S E A := fun s => (s, m).
Definition st_modify {S E} (f : S -> S) : st S E unit := fun s => (f s, Ok tt).
Definition st_get {S E} : st S E S := fun s => (s, Ok s).
Definition st_ensure {S E} (b : bool) (e : E) : st S E unit := st_lift (ensure b e).
(** [if p != nil { ... *p ... }] *)
Definition st_when {S E A} (p : option A) (f : A -> st S E unit) : st S E unit :=
  match p with None => mret tt | Some a => f a end.

(** [inv] holds of the receiver whether or not the method fails. *)
Definition st_preserves {S E A} (inv : S -> Prop) (m : st S E A) : Prop :=
  forall s, inv s -> inv (m s).1.

Section st_lemmas.
Context {S E : Type} (inv : S -> Prop).

Lemma st_preserves_bind {A B} (m : st S E A) (f : A -> st S E B) :
  st_preserves inv m ->
  (forall a s s', inv s -> m s = (s', Ok a) -> inv (f a s').1) ->
  st_preserves inv (m ≫= f).
Proof.
  intros Hm Hf s Hs. unfold mbind, st_bind. specialize (Hm s Hs).
  destruct (m s) as [s' [a|e]] eqn:Em; simpl in *; [|done]. by eapply Hf.
Qed.

Lemma st_preserves_seq {A B} (m : st S E A) (f : A -> st S E B) :
  st_preserves inv m -> (forall a, st_preserves inv (f a)) -> st_preserves inv (m ≫= f).
Proof.
  intros Hm Hf. apply st_preserves_bind; [done|]. intros a s s' Hs Em. apply Hf.
  specialize (Hm s Hs). by rewrite Em in Hm.
Qed.

Lemma st_preserves_when {A} (p : option A) (f : A -> st S E unit) :
  (forall a, p = Some a -> st_preserves inv (f a)) -> st_preserves inv (st_when p f).
Proof. destruct p as [a|]; intros H s Hs; simpl; [|done]. by apply H. Qed.

Lemma st_preserves_lift {A} (m : res E A) : st_preserves inv (st_lift m).
Proof. by intros s Hs. Qed.

Lemma st_preserves_modify (f : S -> S) :
  (forall s, inv s -> inv (f s)) -> st_preserves inv (st_modify (E:=E) f).
Proof. intros H s Hs. by apply H. Qed.

(** A guard followed by the rest: the rest may use the guard. *)
Lemma st_preserves_ensure {A} (b : bool) (e : E) (k : st S E A) :
  (b = true -> st_preserves inv k) -> st_preserves inv (st_ensure b e ≫= fun _ => k).
Proof. intros H s Hs. unfold mbind, st_bind, st_ensure, st_lift. destruct b; simpl; [by apply H|done]. Qed.

Lemma st_preserves_lift_bind {A B} (m : res E A) (k : A -> st S E B) :
  (forall a, m = Ok a -> st_preserves inv (k a)) -> st_preserves inv (st_lift m ≫= k).
Proof. intros H s Hs. unfold mbind, st_bind, st_lift. destruct m; simpl; [by apply H|done]. Qed.
End st_lemmas.

(** Apply the rule for the first statement of a method's body. *)
Ltac st_step :=
  first [ apply st_preserves_ensure; intros ?
        | apply st_preserves_lift_bind; intros ? ?
        | apply st_preserves_when; intros ? _
        | apply st_preserves_modify
        | apply st_preserves_seq; [|intros ?] ].

(** ** Lists *)
Lemma Forall2_elem_of_r {X Y} (P : X -> Y -> Prop) l k y :
  Forall2 P l k -> y ∈ k -> exists x, x ∈ l /\ P x y.
Proof.
  intros HF [i Hi]%list_elem_of_lookup. destruct (Forall2_lookup_r _ _ _ _ _ HF Hi) as (x & Hx & HP).
  exists x. split; [by eapply list_elem_of_lookup_2|done].
Qed.

Lemma Forall2_elem_of_l {X Y} (P : X -> Y -> Prop) l k x :
  Forall2 P l k -> x ∈ l -> exists y, y ∈ k /\ P x y.
Proof.
  intros HF [i Hi]%list_elem_of_lookup. destruct (Forall2_lookup_l _ _ _ _ _ HF Hi) as (y & Hy & HP).
  exists y. split; [by eapply list_elem_of_lookup_2|done].
Qed.

Lemma elem_of_concat_fmap {X Y} (f : X -> list Y) l y : y ∈ concat (f <$> l) <-> exists x, x ∈ l /\ y ∈ f x.
Proof.
  induction l as [|x l IH]; cbn; [set_solver|]. rewrite elem_of_app, IH.
  split; [intros [?|(z & ? & ?)]; [exists x|exists z]; set_solver|intros (z & Hz & ?); set_solver].
Qed.

Lemma list_filter_iff_Forall {X} (P Q : X -> Prop) `{!forall x, Decision (P x), !forall x, Decision (Q x)} l :
  Forall (fun x => P x <-> Q x) l -> filter P l = filter Q l.
Proof.
  induction 1 as [|x l Hx _ IH]; [done|]. rewrite !filter_cons, IH. by repeat case_decide; try tauto.
Qed.

Lemma concat_fmap_snoc {X Y} (f : X -> list Y) l x : concat (f <$> (l ++ [x])) = concat (f <$> l) ++ f x.
Proof. by rewrite fmap_app, concat_app; cbn; rewrite app_nil_r. Qed.

Lemma concat_fmap_sublist {X Y} (f : X -> list Y) l k : sublist l k -> sublist (concat (f <$> l)) (concat (f <$> k)).
Proof. induction 1; cbn; [done|by apply sublist_app|by apply sublist_inserts_l]. Qed.

Lemma concat_fmap_app_perm {X Y} (f g : X -> list Y) l :
  concat ((fun x => f x ++ g x) <$> l) ≡ₚ concat (f <$> l) ++ concat (g <$> l).
Proof. induction l as [|x l IH]; cbn; [done|]. rewrite IH. solve_Permutation. Qed.

Lemma omap_snoc {X} (l : list (option X)) x : omap id (l ++ [Some x]) = omap id l ++ [x].
Proof. by rewrite omap_app. Qed.

(** Sublists of a slice that was filtered or flattened. *)
Create HintDb lists discriminated.
#[export] Hint Resolve sublist_app sublist_filter concat_fmap_sublist : lists.
#[export] Hint Extern 0 (sublist ?l ?l) => reflexivity : lists.

(** Invert every hypothesis saying that a chain of binds succeeded. *)
Ltac res_inv :=
  repeat match goal with
  | H : Ok _ = Ok _ |- _ => injection H as H; subst
  | H : Err _ = Err _ |- _ => injection H as H; subst
  | H : Ok _ = Err _ |- _ => discriminate H
  | H : Err _ = Ok _ |- _ => discriminate H
  | H : @mbind (res _) _ _ _ _ _ = Ok _ |- _ =>
      let x := fresh "x" in let Hx := fresh "Hx" in
      apply res_bind_Ok in H; destruct H as (x & Hx & H)
  | H : ensure _ _ = Ok ?u |- _ => apply ensure_Ok in H; try clear u
  | H : map_err _ _ = Ok _ |- _ => apply map_err_Ok in H
  end.

(** Turn boolean connectives in hypotheses into propositions. *)
Ltac bool_inv :=
  repeat match goal with
  | H : (_ && _)%bool = true |- _ => apply andb_prop in H; destruct H
  | H : (_ || _)%bool = false |- _ => apply orb_false_elim in H; destruct H
  | H : negb _ = true |- _ => apply negb_true_iff in H
  | H : negb _ = false |- _ => apply negb_false_iff in H
  | H : bool_decide _ = true |- _ => apply bool_decide_eq_true in H
  | H : bool_decide _ = false |- _ => apply bool_decide_eq_false in H
  end.

(** ** Three-way comparisons

    The [less] functions handed to [sort.SliceStable] compare one key after
    another.  [cmp_then] is that composition and [CmpOrder] says that a
    comparison is a total preorder; it is preserved by composition, by taking
    a key, and by the nil-first comparison of pointers. *)

Class CmpOrder {A} (cmp : A -> A -> comparison) : Prop := {
  cmp_antisym : forall a b, cmp b a = CompOpp (cmp a b);
  cmp_trans_lt : forall a b c, cmp a b = Lt -> cmp b c = Lt -> cmp a c = Lt;
  cmp_eq_l : forall a b c, cmp a b = Eq -> cmp a c = cmp b c;
}.

Definition cmp_then {A} (c1 c2 : A -> A -> comparison) (a b : A) : comparison :=
  match c1 a b with Eq => c2 a b | r => r end.

Definition cmp_on {A B} (f : A -> B) (c : B -> B -> comparison) (a b : A) : comparison :=
  c (f a) (f b).

(** [nil] sorts before any non-nil pointer. *)
Definition cmp_option {A} (c : A -> A -> comparison) (a b : option A) : comparison :=
  match a, b with
  | Some x, Some y => c x y
  | None, None => Eq
  | None, Some _ => Lt
  | Some _, None => Gt
  end.

Definition cmp_lt {A} (c : A -> A -> comparison) (a b : A) : bool :=
  match c a b with Lt => true | _ => false end.

Lemma cmp_refl {A} (c : A -> A -> comparison) `{!CmpOrder c} a : c a a = Eq.
Proof. pose proof (cmp_antisym a a). by destruct (c a a). Qed.

Lemma cmp_eq_r {A} (c : A -> A -> comparison) `{!CmpOrder c} a b z :
  c a b = Eq -> c z a = c z b.
Proof.
  intros H. rewrite (cmp_antisym a z), (cmp_antisym b z). by rewrite (cmp_eq_l a b z H).
Qed.

#[global] Instance cmp_then_order {A} (c1 c2 : A -> A -> comparison)
  `{!CmpOrder c1, !CmpOrder c2} : CmpOrder (cmp_then c1 c2).
Proof.
  split; unfold cmp_then.
  - intros a b. rewrite (cmp_antisym (cmp:=c1) a b), (cmp_antisym (cmp:=c2) a b).
    by destruct (c1 a b).
  - intros a b c. destruct (c1 a b) eqn:E1; [| |done].
    + rewrite (cmp_eq_l (cmp:=c1) a b c E1). intros H2.
      destruct (c1 b c); [|done..]. by apply (cmp_trans_lt (cmp:=c2)).
    + intros _. destruct (c1 b c) eqn:E2; [| |done]; intros H2.
      * by rewrite <- (cmp_eq_r c1 b c a E2), E1.
      * by rewrite (cmp_trans_lt (cmp:=c1) a b c E1 E2).
  - intros a b c. destruct (c1 a b) eqn:E1; [|done..]. intros E2.
    by rewrite (cmp_eq_l (cmp:=c1) a b c E1), (cmp_eq_l (cmp:=c2) a b c E2).
Qed.

#[global] Instance cmp_on_order {A B} (f : A -> B) (c : B -> B -> comparison)
  `{!CmpOrder c} : CmpOrder (cmp_on f c).
Proof.
  split; unfold cmp_on; intros.
  - apply cmp_antisym.
  - by eapply cmp_trans_lt.
  - by apply cmp_eq_l.
Qed.

#[global] Instance cmp_option_order {A} (c : A -> A -> comparison)
  `{!CmpOrder c} : CmpOrder (cmp_option c).
Proof.
  split.
  - intros [a|] [b|]; simpl; try done. apply cmp_antisym.
  - intros [a|] [b|] [d|]; simpl; try done. apply cmp_trans_lt.
  - intros [a|] [b|] [d|]; simpl; try done. apply cmp_eq_l.
Qed.

#[global] Instance Z_compare_order : CmpOrder Z.compare.
Proof.
  split; intros a b.
  - apply Z.compare_antisym.
  - intros c. rewrite !Z.compare_lt_iff. lia.
  - intros c. rewrite Z.compare_eq_iff. by intros ->.
Qed.

Lemma ascii_compare_trans_lt a b c :
  Ascii.compare a b = Lt -> Ascii.compare b c = Lt -> Ascii.compare a c = Lt.
Proof. unfold Ascii.compare. rewrite !N.compare_lt_iff. lia. Qed.

(** Go compares strings bytewise. *)
#[global] Instance string_compare_order : CmpOrder String.compare.
Proof.
  split.
  - intros a b. apply String.compare_antisym.
  - induction a as [|x a IH]; intros [|y b] [|z c]; simpl; try done.
    destruct (Ascii.compare x y) eqn:E1; [| |done].
    + apply Ascii.compare_eq_iff in E1 as ->. intros H1 H2.
      destruct (Ascii.compare y z); [|done..]. by eapply IH.
    + intros _. destruct (Ascii.compare y z) eqn:E2; [| |done]; intros H2.
      * apply Ascii.compare_eq_iff in E2 as ->. by rewrite E1.
      * by rewrite (ascii_compare_trans_lt _ _ _ E1 E2).
  - intros a b c H. by apply String.compare_eq_iff in H as ->.
Qed.

(** ** Stable sorting

    [sort.SliceStable] with a strict weak order has exactly one result; the
    model computes it by insertion. *)
Section stable_sort.
Context {A : Type} (less : A -> A -> bool).

Fixpoint insert_sorted (x : A) (l : list A) : list A :=
  match l with
  | [] => [x]
  | y :: l' => if less y x then y :: insert_sorted x l' else x :: y :: l'
  end.

Fixpoint stable_sort (l : list A) : list A :=
  match l with
  | [] => []
  | x :: l' => insert_sorted x (stable_sort l')
  end.

Lemma insert_sorted_perm x l : insert_sorted x l ≡ₚ x :: l.
Proof.
  induction l as [|y l IH]; simpl; [done|].
  destruct (less y x); [|done]. rewrite IH. by constructor.
Qed.

Lemma stable_sort_perm l : stable_sort l ≡ₚ l.
Proof.
  induction l as [|x l IH]; simpl; [done|]. by rewrite insert_sorted_perm, IH.
Qed.

Lemma stable_sort_elem_of x l : x ∈ stable_sort l <-> x ∈ l.
Proof. by rewrite stable_sort_perm. Qed.

Lemma stable_sort_length l : length (stable_sort l) = length l.
Proof. by rewrite stable_sort_perm. Qed.
End stable_sort.

Section stable_sort_cmp.
Context {A : Type} (cmp : A -> A -> comparison) `{!CmpOrder cmp}.
Let le (a b : A) : Prop := cmp b a <> Lt.

Lemma cmp_le_trans a b c : le a b -> le b c -> le a c.
Proof.
  unfold le. intros H1 H2 H3. destruct (cmp b a) eqn:E1; [|done|].
  - rewrite (cmp_eq_r cmp b a c E1) in H2. done.
  - assert (cmp a b = Lt) by (rewrite (cmp_antisym b a), E1; done).
    apply H2. by eapply cmp_trans_lt.
Qed.

Lemma insert_sorted_sorted x l :
  StronglySorted le l -> StronglySorted le (insert_sorted (cmp_lt cmp) x l).
Proof.
  induction l as [|y l IH]; simpl; intros Hl.
  - repeat constructor.
  - apply StronglySorted_cons in Hl as [Hy Hl]. unfold cmp_lt at 1.
    destruct (cmp y x) eqn:E.
    + constructor; [by constructor|]. constructor; [by unfold le; rewrite E|].
      eapply Forall_impl; [exact Hy|]. intros z Hz. eapply cmp_le_trans; [|exact Hz].
      by unfold le; rewrite E.
    + constructor; [by apply IH|]. rewrite (insert_sorted_perm _ x l).
      constructor; [|done]. unfold le. by rewrite (cmp_antisym y x), E.
    + constructor; [by constructor|]. constructor; [by unfold le; rewrite E|].
      eapply Forall_impl; [exact Hy|]. intros z Hz. eapply cmp_le_trans; [|exact Hz].
      by unfold le; rewrite E.
Qed.

Lemma stable_sort_sorted l : StronglySorted le (stable_sort (cmp_lt cmp) l).
Proof.
  induction l as [|x l IH]; simpl; [constructor|]. by apply insert_sorted_sorted.
Qed.

(** Two orderings of the same elements sort to the same slice as soon as no
    two distinct elements tie. *)
Lemma stable_sort_canonical l1 l2 :
  (forall a b, a ∈ l1 -> b ∈ l1 -> cmp a b = Eq -> a = b) ->
  l1 ≡ₚ l2 -> stable_sort (cmp_lt cmp) l1 = stable_sort (cmp_lt cmp) l2.
Proof.
  intros Hdist Hp. apply (StronglySorted_unique_strong le).
  - unfold le. intros a b Ha Hb H1 H2. apply Hdist.
    + by rewrite stable_sort_elem_of in Ha.
    + rewrite stable_sort_elem_of in Hb. by rewrite Hp.
    + rewrite (cmp_antisym b a). rewrite (cmp_antisym b a) in H2.
      destruct (cmp b a); done.
  - apply stable_sort_sorted.
  - apply stable_sort_sorted.
  - by rewrite !stable_sort_perm.
Qed.

Lemma insert_sorted_filter_eq x l a :
  StronglySorted le l ->
  filter (fun y => cmp a y = Eq) (insert_sorted (cmp_lt cmp) x l) =
  filter (fun y => cmp a y = Eq) (x :: l).
Proof.
  induction l as [|y l IH]; simpl; intros Hl; [done|].
  apply StronglySorted_cons in Hl as [Hy Hl].
  unfold cmp_lt at 1. destruct (cmp y x) eqn:E; try done.
  rewrite filter_cons, IH by done. rewrite !filter_cons.
  destruct (decide (cmp a y = Eq)) as [Ey|]; destruct (decide (cmp a x = Eq)) as [Ex|]; try done.
  rewrite (cmp_eq_l a x y Ex) in Ey. rewrite (cmp_antisym y x), E in Ey. done.
Qed.

(** Stability: elements that tie keep their relative order. *)
Lemma stable_sort_stable l a :
  filter (fun y => cmp a y = Eq) (stable_sort (cmp_lt cmp) l) =
  filter (fun y => cmp a y = Eq) l.
Proof.
  induction l as [|x l IH]; simpl; [done|].
  rewrite insert_sorted_filter_eq by apply stable_sort_sorted.
  by rewrite !filter_cons, IH.
Qed.
End stable_sort_cmp.

(** ** Lists with a distinguishing key *)
Lemma NoDup_fmap_key {A B} (f : A -> B) (l : list A) a b :
  NoDup (f <$> l) -> a ∈ l -> b ∈ l -> f a = f b -> a = b.
Proof.
  intros Hnd [i Hi]%list_elem_of_lookup_1 [j Hj]%list_elem_of_lookup_1 E.
  assert (i = j) as ->; [|congruence].
  eapply (NoDup_lookup (f <$> l)); [done|..]; rewrite list_lookup_fmap; [by rewrite Hi|].
  rewrite Hj. simpl. by rewrite E.
Qed.

Lemma StronglySorted_weaken {A} (R S : A -> A -> Prop) (l : list A) :
  (forall a b, R a b -> S a b) -> StronglySorted R l -> StronglySorted S l.
Proof.
  intros HRS Hl. induction Hl as [|x l _ IH Hx]; constructor; [done|].
  eapply Forall_impl; eauto.
Qed.

Lemma cmp_le_not_lt {A} (cmp : A -> A -> comparison) a b :
  cmp b a <> Lt -> cmp_lt cmp b a = false.
Proof. unfold cmp_lt. by destruct (cmp b a). Qed.

Lemma stable_sort_fmap {A B} (f : A -> B) (lessA : A -> A -> bool) (lessB : B -> B -> bool) l :
  (forall a b, lessB (f a) (f b) = lessA a b) ->
  stable_sort lessB (f <$> l) = f <$> stable_sort lessA l.
Proof.
  intros Hf. induction l as [|x l IH]; [done|]. cbn. rewrite IH.
  generalize (stable_sort lessA l) as k. induction k as [|y k IHk]; [done|]. cbn. rewrite Hf.
  destruct (lessA y x); [|done]. cbn. by rewrite IHk.
Qed.
