(* ===== verification/GoLib.v ===== *)
(** * The Go standard library and the third-party packages the program calls

    The parts of the standard library the modelled code uses are defined here:
    [strings.TrimSpace] on UTF-8 bytes, bytewise string comparison, instants
    and durations with the saturating [Time.Sub], and IEEE 754 binary64
    arithmetic with [math.Round].

    Packages that are not part of the repository are interfaces: a class of
    operations ([UUIDLib] for github.com/google/uuid, [DecimalLib] for
    github.com/shopspring/decimal, [AssertLib] for lib-commons' assert,
    [UnicodeLib] for the Unicode tables behind [strings.ToUpper] and
    [strings.EqualFold]) with a class of laws stating their documented
    behaviour.  [GoLibModel.v] shows that every law class can be satisfied. *)
From Stdlib Require Export QArith Qabs Qround Qminmax Lqa SpecFloat.
From stdpp Require Import pretty.
From S2P Require Export Prelude.

(** ** Strings *)

Abbreviation ascii := Ascii.ascii.

Definition byte_string (l : list nat) : list ascii := Ascii.ascii_of_nat <$> l.

(** The UTF-8 encodings of the runes with [unicode.IsSpace]. *)
Definition white_space : list (list ascii) := byte_string <$>
  [[9]; [10]; [11]; [12]; [13]; [32]; [194;133]; [194;160]; [225;154;128];
   [226;128;128]; [226;128;129]; [226;128;130]; [226;128;131]; [226;128;132];
   [226;128;133]; [226;128;134]; [226;128;135]; [226;128;136]; [226;128;137];
   [226;128;138]; [226;128;168]; [226;128;169]; [226;128;175]; [226;129;159];
   [227;128;128]].

Fixpoint strip_prefix (w s : list ascii) : option (list ascii) :=
  match w, s with
  | [], _ => Some s
  | _ :: _, [] => None
  | a :: w', b :: s' => if decide (a = b) then strip_prefix w' s' else None
  end.

Fixpoint strip_any (ws : list (list ascii)) (s : list ascii) : option (list ascii) :=
  match ws with
  | [] => None
  | w :: ws' => match strip_prefix w s with Some r => Some r | None => strip_any ws' s end
  end.

(** Drop encodings of [ws] from the front; [fuel] bounds the number of runes
    and the length of the input is always enough. *)
Fixpoint trim_front (fuel : nat) (ws : list (list ascii)) (s : list ascii) : list ascii :=
  match fuel with
  | O => s
  | S fuel' => match strip_any ws s with Some r => trim_front fuel' ws r | None => s end
  end.

Definition trim_left (s : list ascii) : list ascii := trim_front (length s) white_space s.
Definition trim_right (s : list ascii) : list ascii :=
  rev (trim_front (length s) (@rev ascii <$> white_space) (rev s)).

Definition strings_TrimSpace (s : string) : string :=
  String.string_of_list_ascii (trim_right (trim_left (String.list_ascii_of_string s))).

Lemma strip_prefix_app w s t r : strip_prefix w s = Some r -> strip_prefix w (s ++ t) = Some (r ++ t).
Proof.
  revert s; induction w as [|a w IH]; intros [|b s]; simpl; intros H; simplify_eq; try done.
  destruct (decide (a = b)); [by apply IH|done].
Qed.

Lemma strip_prefix_split w s r : strip_prefix w s = Some r -> s = w ++ r.
Proof.
  revert s; induction w as [|a w IH]; intros [|b s]; simpl; intros H; simplify_eq; try done.
  destruct (decide (a = b)); [subst; f_equal; by apply IH|done].
Qed.

Lemma strip_any_app ws s t : strip_any ws (s ++ t) = None -> strip_any ws s = None.
Proof.
  induction ws as [|w ws IH]; simpl; [done|].
  destruct (strip_prefix w s) eqn:E; [by rewrite (strip_prefix_app _ _ _ _ E)|].
  by destruct (strip_prefix w (s ++ t)).
Qed.

Lemma strip_any_split ws s r :
  Forall (fun w => w <> []) ws -> strip_any ws s = Some r -> exists p, p <> [] /\ s = p ++ r.
Proof.
  induction 1 as [|w ws Hw _ IH]; simpl; [done|].
  destruct (strip_prefix w s) eqn:E; [|done]. intros [= ->].
  exists w. split; [done|]. by apply strip_prefix_split.
Qed.

Lemma trim_front_spec ws fuel s :
  Forall (fun w => w <> []) ws -> (length s <= fuel)%nat ->
  strip_any ws (trim_front fuel ws s) = None /\ exists p, s = p ++ trim_front fuel ws s.
Proof.
  intros Hws. revert s; induction fuel as [|fuel IH]; intros s Hs; simpl.
  - assert (s = []) as -> by (destruct s; simpl in *; [done|lia]).
    split; [|by exists []]. destruct (strip_any ws []) as [r|] eqn:E; [|done].
    apply strip_any_split in E as (p & Hp & E'); [|done].
    symmetry in E'. apply app_nil in E' as [-> _]. done.
  - destruct (strip_any ws s) as [r|] eqn:E; [|split; [done|by exists []]].
    apply strip_any_split in E as (p & Hp & ->); [|done].
    destruct (IH r) as [H1 [q H2]].
    { rewrite length_app in Hs. destruct p; simpl in *; [done|lia]. }
    split; [done|]. exists (p ++ q). rewrite <- app_assoc. by f_equal.
Qed.

Lemma trim_front_id ws fuel s : strip_any ws s = None -> trim_front fuel ws s = s.
Proof. intros E. destruct fuel; simpl; [done|]. by rewrite E. Qed.

(** Trimming a trimmed string changes nothing. *)
Lemma strings_TrimSpace_idem s : strings_TrimSpace (strings_TrimSpace s) = strings_TrimSpace s.
Proof.
  unfold strings_TrimSpace. rewrite String.list_ascii_of_string_of_list_ascii. f_equal.
  set (l := String.list_ascii_of_string s). unfold trim_right, trim_left.
  destruct (trim_front_spec white_space (length l) l) as [H1 _];
    [by repeat constructor|done|].
  set (x := trim_front (length l) white_space l) in *.
  destruct (trim_front_spec (@rev ascii <$> white_space) (length x) (rev x)) as [H2 [p Hp]];
    [by repeat constructor|by rewrite length_rev|].
  set (y := trim_front (length x) _ (rev x)) in *.
  assert (E : trim_front (length (rev y)) white_space (rev y) = rev y).
  { apply trim_front_id. apply (f_equal (@rev ascii)) in Hp.
    rewrite rev_involutive, rev_app_distr in Hp. rewrite Hp in H1. by eapply strip_any_app. }
  rewrite E, rev_involutive. f_equal. by apply trim_front_id.
Qed.

(** [a < b] on Go strings. *)
Definition string_lt (a b : string) : bool := cmp_lt String.compare a b.

Definition string_empty (s : string) : bool := bool_decide (s = "").

Definition ascii_is_upper (c : ascii) : bool :=
  (65 <=? Ascii.nat_of_ascii c)%nat && (Ascii.nat_of_ascii c <=? 90)%nat.
Definition ascii_is_lower (c : ascii) : bool :=
  (97 <=? Ascii.nat_of_ascii c)%nat && (Ascii.nat_of_ascii c <=? 122)%nat.
Definition ascii_to_lower (c : ascii) : ascii :=
  if ascii_is_upper c then Ascii.ascii_of_nat (Ascii.nat_of_ascii c + 32) else c.
Definition ascii_to_upper (c : ascii) : ascii :=
  if ascii_is_lower c then Ascii.ascii_of_nat (Ascii.nat_of_ascii c - 32) else c.
Definition string_map (f : ascii -> ascii) (s : string) : string :=
  String.string_of_list_ascii (f <$> String.list_ascii_of_string s).
Definition string_is_ascii (s : string) : bool :=
  forallb (fun c => (Ascii.nat_of_ascii c <? 128)%nat) (String.list_ascii_of_string s).

Local Open Scope Z_scope.

(** ** Instants and durations: nanoseconds, an instant counting from 1970-01-01 UTC *)

Definition Time := Z.
Definition Duration := Z.
Bind Scope Z_scope with Time Duration.

Definition max_int64 : Z := 9223372036854775807.
Definition min_int64 : Z := -9223372036854775808.
Definition max_int32 : Z := 2147483647.

Definition nanos_per_second : Z := 1000000000.
Definition nanos_per_hour : Z := 3600 * nanos_per_second.
Definition nanos_per_day : Z := 24 * nanos_per_hour.

(** [time.Time{}] is January 1 of year 1. *)
Definition time_zero : Time := -62135596800 * nanos_per_second.
Definition time_IsZero (t : Time) : bool := bool_decide (t = time_zero).

Definition saturate_int64 (z : Z) : Z := Z.max min_int64 (Z.min max_int64 z).

(** [t.Sub(u)] saturates at the range of [time.Duration]. *)
Definition time_Sub (t u : Time) : Duration := saturate_int64 (t - u).
Definition time_Add (t : Time) (d : Duration) : Time := t + d.
Definition time_Before (t u : Time) : bool := (t <? u)%Z.
Definition time_After (t u : Time) : bool := (u <? t)%Z.
Definition time_Equal (t u : Time) : bool := (t =? u)%Z.

(** [time.Date(u.Year(), u.Month(), u.Day(), 0, 0, 0, 0, time.UTC)] for [u] in
    UTC: the last midnight not after [t]. *)
Definition utc_midnight (t : Time) : Time := (t / nanos_per_day) * nanos_per_day.

(** ** binary64 *)

Definition float64 := spec_float.
Definition f64_of_Z (z : Z) : float64 := binary_normalize 53 1024 z 0 false.
Definition f64_add : float64 -> float64 -> float64 := SFadd 53 1024.
Definition f64_mul : float64 -> float64 -> float64 := SFmul 53 1024.
(** The constant [n / d], correctly rounded as the compiler does. *)
Definition f64_const (n d : Z) : float64 := SFdiv 53 1024 (f64_of_Z n) (f64_of_Z d).

(** [int(math.Round(x))]: nearest integer, halves away from zero.  For an
    infinity or a NaN the conversion is implementation-specific; 0 here. *)
Definition int_of_math_Round (x : float64) : Z :=
  match x with
  | S754_finite s m e =>
      let n := if (0 <=? e)%Z then (Z.pos m * 2 ^ e)%Z
               else ((Z.pos m + 2 ^ (- e - 1)) / 2 ^ (- e))%Z in
      if s then (- n)%Z else n
  | _ => 0%Z
  end.

(** [int(x)]: the conversion drops the fraction. *)
Definition int_of_float64 (x : float64) : Z :=
  match x with
  | S754_finite s m e =>
      let n := if (0 <=? e)%Z then (Z.pos m * 2 ^ e)%Z else (Z.pos m / 2 ^ (- e))%Z in
      if s then (- n)%Z else n
  | _ => 0%Z
  end.

(** [Duration.Hours]: whole hours plus the rest as a fraction, in floats. *)
Definition duration_Hours (d : Duration) : float64 :=
  f64_add (f64_of_Z (Z.quot d nanos_per_hour))
    (SFdiv 53 1024 (f64_of_Z (Z.rem d nanos_per_hour)) (f64_of_Z nanos_per_hour)).

(** ** [strconv] on [int] (64 bits) *)

Definition digit_value (c : ascii) : option Z :=
  let n := Z.of_nat (Ascii.nat_of_ascii c) in
  if (48 <=? n) && (n <=? 57) then Some (n - 48) else None.

Fixpoint parse_digits (acc : Z) (s : string) : option Z :=
  match s with
  | EmptyString => Some acc
  | String c s' => match digit_value c with
                   | Some d => parse_digits (10 * acc + d) s'
                   | None => None
                   end
  end.

Definition parse_unsigned (s : string) : option Z :=
  match s with EmptyString => None | _ => parse_digits 0 s end.

(** [strconv.Atoi]: an optional sign (- is 45, + is 43) and decimal digits, in range. *)
Definition strconv_Atoi (s : string) : option Z :=
  let n := match s with
           | String c s' =>
               if (Ascii.nat_of_ascii c =? 45)%nat then Z.opp <$> parse_unsigned s'
               else if (Ascii.nat_of_ascii c =? 43)%nat then parse_unsigned s'
               else parse_unsigned s
           | EmptyString => None
           end in
  match n with
  | Some n => if (min_int64 <=? n) && (n <=? max_int64) then Some n else None
  | None => None
  end.

Definition strconv_Itoa (n : Z) : string := pretty n.

(** ** github.com/google/uuid *)

Class UUIDLib := {
  uuid : Type;
  uuid_eq_dec :: EqDecision uuid;
  uuid_countable :: Countable uuid;
  uuid_Nil : uuid;
  uuid_String : uuid -> string;
  uuid_Parse : string -> option uuid;
}.

Class UUIDLaws {U : UUIDLib} : Prop := {
  uuid_Parse_String : forall u, uuid_Parse (uuid_String u) = Some u;
}.
Arguments UUIDLaws : clear implicits.

Lemma uuid_String_inj {U : UUIDLib} {L : UUIDLaws U} u v :
  uuid_String u = uuid_String v -> u = v.
Proof.
  intros H. pose proof (uuid_Parse_String u) as Hu. rewrite H, uuid_Parse_String in Hu.
  congruence.
Qed.

(** ** github.com/shopspring/decimal

    [dec_Rat] is [Decimal.Rat], the rational number a decimal stands for; the
    other operations are specified by their effect on it. *)

Class DecimalLib := {
  decimal : Type;
  dec_Rat : decimal -> Q;
  dec_Zero : decimal;
  dec_New : Z -> Z -> decimal;
  dec_Add : decimal -> decimal -> decimal;
  dec_Sub : decimal -> decimal -> decimal;
  dec_Mul : decimal -> decimal -> decimal;
  dec_Div : decimal -> decimal -> decimal;
  dec_Neg : decimal -> decimal;
  dec_Abs : decimal -> decimal;
  dec_Equal : decimal -> decimal -> bool;
  dec_LessThan : decimal -> decimal -> bool;
  dec_LessThanOrEqual : decimal -> decimal -> bool;
  dec_GreaterThan : decimal -> decimal -> bool;
  dec_GreaterThanOrEqual : decimal -> decimal -> bool;
  dec_IsNegative : decimal -> bool;
  dec_IsPositive : decimal -> bool;
  dec_IsZero : decimal -> bool;
  dec_Round : decimal -> Z -> decimal;
  dec_RoundBank : decimal -> Z -> decimal;
  dec_RoundFloor : decimal -> Z -> decimal;
  dec_RoundCeil : decimal -> Z -> decimal;
  dec_Truncate : decimal -> Z -> decimal;
  dec_String : decimal -> string;
  dec_NewFromString : string -> option decimal;
  dec_NewFromFloat : float64 -> decimal;
}.

(** [decimal.NewFromInt(n)] is [decimal.New(n, 0)]. *)
Definition dec_NewFromInt `{DecimalLib} (n : Z) : decimal := dec_New n 0.

(** Rounding to [p] digits after the decimal point. *)
Definition q_scale (p : Z) : Q := inject_Z (10 ^ p).
Definition q_at (f : Q -> Z) (p : Z) (q : Q) : Q := inject_Z (f (q * q_scale p)%Q) / q_scale p.

Definition q_half_away (x : Q) : Z :=
  if Qle_bool 0 x then Qfloor (x + (1 # 2)) else - Qfloor (- x + (1 # 2)).
Definition q_half_even (x : Q) : Z :=
  let f := Qfloor x in
  match Qcompare (x - inject_Z f) (1 # 2) with
  | Lt => f
  | Gt => f + 1
  | Eq => if Z.even f then f else f + 1
  end.
Definition q_toward_zero (x : Q) : Z :=
  if Qle_bool 0 x then Qfloor x else - Qfloor (- x).

(** The digits kept by [Div] when the quotient is not exact. *)
Definition division_precision : Z := 16.

Local Open Scope Q_scope.
Class DecimalLaws {D : DecimalLib} : Prop := {
  dec_Rat_Zero : dec_Rat dec_Zero == 0;
  dec_Rat_New : forall n e, (0 <= e)%Z -> dec_Rat (dec_New n e) == inject_Z (n * 10 ^ e);
  dec_Rat_New_neg : forall n e, (e < 0)%Z ->
    dec_Rat (dec_New n e) == inject_Z n / inject_Z (10 ^ (- e));
  dec_Rat_Add : forall a b, dec_Rat (dec_Add a b) == dec_Rat a + dec_Rat b;
  dec_Rat_Sub : forall a b, dec_Rat (dec_Sub a b) == dec_Rat a - dec_Rat b;
  dec_Rat_Mul : forall a b, dec_Rat (dec_Mul a b) == dec_Rat a * dec_Rat b;
  dec_Rat_Div : forall a b, ~ dec_Rat b == 0 ->
    dec_Rat (dec_Div a b) == q_at q_half_away division_precision (dec_Rat a / dec_Rat b);
  dec_Rat_Neg : forall a, dec_Rat (dec_Neg a) == - dec_Rat a;
  dec_Rat_Abs : forall a, dec_Rat (dec_Abs a) == Qabs (dec_Rat a);
  dec_Equal_spec : forall a b, dec_Equal a b = true <-> dec_Rat a == dec_Rat b;
  dec_LessThan_spec : forall a b, dec_LessThan a b = true <-> dec_Rat a < dec_Rat b;
  dec_LessThanOrEqual_spec : forall a b,
    dec_LessThanOrEqual a b = true <-> dec_Rat a <= dec_Rat b;
  dec_GreaterThan_spec : forall a b, dec_GreaterThan a b = true <-> dec_Rat b < dec_Rat a;
  dec_GreaterThanOrEqual_spec : forall a b,
    dec_GreaterThanOrEqual a b = true <-> dec_Rat b <= dec_Rat a;
  dec_IsNegative_spec : forall a, dec_IsNegative a = true <-> dec_Rat a < 0;
  dec_IsPositive_spec : forall a, dec_IsPositive a = true <-> 0 < dec_Rat a;
  dec_IsZero_spec : forall a, dec_IsZero a = true <-> dec_Rat a == 0;
  dec_Rat_Round : forall a p, (0 <= p)%Z -> dec_Rat (dec_Round a p) == q_at q_half_away p (dec_Rat a);
  dec_Rat_RoundBank : forall a p, (0 <= p)%Z ->
    dec_Rat (dec_RoundBank a p) == q_at q_half_even p (dec_Rat a);
  dec_Rat_RoundFloor : forall a p, (0 <= p)%Z ->
    dec_Rat (dec_RoundFloor a p) == q_at Qfloor p (dec_Rat a);
  dec_Rat_RoundCeil : forall a p, (0 <= p)%Z ->
    dec_Rat (dec_RoundCeil a p) == q_at Qceiling p (dec_Rat a);
  dec_Rat_Truncate : forall a p, (0 <= p)%Z ->
    dec_Rat (dec_Truncate a p) == q_at q_toward_zero p (dec_Rat a);
}.
Local Close Scope Q_scope.
Arguments DecimalLaws : clear implicits.

(** ** lib-commons' assert and pointers: [true] stands for a nil error *)

Class AssertLib := {
  assert_That : bool -> bool;
  assert_NotEmpty : string -> bool;
  assert_NotNil : forall {A : Type}, option A -> bool;
}.

Class AssertLaws {L : AssertLib} : Prop := {
  assert_That_spec : forall b, assert_That b = b;
  assert_NotEmpty_spec : forall s, assert_NotEmpty s = negb (string_empty s);
  assert_NotNil_Some : forall A (a : A), assert_NotNil (Some a) = true;
  assert_NotNil_None : forall A, assert_NotNil (@None A) = false;
}.
Arguments AssertLaws : clear implicits.

Ltac assert_inv :=
  repeat match goal with
  | H : assert_That _ = true |- _ => rewrite assert_That_spec in H
  | H : assert_NotEmpty _ = true |- _ => rewrite assert_NotEmpty_spec in H
  end; bool_inv.

(** ** The Unicode case tables: specified on ASCII, where they are the usual
    letters, and as an equivalence for [strings.EqualFold] *)

Class UnicodeLib := {
  strings_ToUpper : string -> string;
  strings_ToLower : string -> string;
  strings_EqualFold : string -> string -> bool;
}.

Class UnicodeLaws {N : UnicodeLib} : Prop := {
  ToUpper_ascii : forall s, string_is_ascii s = true ->
    strings_ToUpper s = string_map ascii_to_upper s;
  ToLower_ascii : forall s, string_is_ascii s = true ->
    strings_ToLower s = string_map ascii_to_lower s;
  EqualFold_ascii : forall s t, string_is_ascii s = true -> string_is_ascii t = true ->
    strings_EqualFold s t = true <-> string_map ascii_to_lower s = string_map ascii_to_lower t;
  EqualFold_refl : forall s, strings_EqualFold s s = true;
  EqualFold_sym : forall s t, strings_EqualFold s t = strings_EqualFold t s;
  EqualFold_trans : forall s t u,
    strings_EqualFold s t = true -> strings_EqualFold t u = true -> strings_EqualFold s u = true;
}.
Arguments UnicodeLaws : clear implicits.

(** ** Working with decimals through [dec_Rat] *)

Ltac learn H :=
  let T := type of H in
  lazymatch goal with
  | _ : T |- _ => fail
  | _ => pose proof H
  end.

Section decimal_lemmas.
Context {D : DecimalLib} {L : DecimalLaws D}.
Local Open Scope Q_scope.

Lemma bool_false_spec (b : bool) P Q' : (b = true <-> P) -> (~ P <-> Q') -> b = false <-> Q'.
Proof. intros H1 H2. rewrite <- H2, <- H1. destruct b; naive_solver. Qed.

Lemma dec_LessThan_false a b : dec_LessThan a b = false <-> dec_Rat b <= dec_Rat a.
Proof. eapply bool_false_spec; [apply dec_LessThan_spec|]. split; intros; lra. Qed.
Lemma dec_LessThanOrEqual_false a b :
  dec_LessThanOrEqual a b = false <-> dec_Rat b < dec_Rat a.
Proof. eapply bool_false_spec; [apply dec_LessThanOrEqual_spec|]. split; intros; lra. Qed.
Lemma dec_GreaterThan_false a b : dec_GreaterThan a b = false <-> dec_Rat a <= dec_Rat b.
Proof. eapply bool_false_spec; [apply dec_GreaterThan_spec|]. split; intros; lra. Qed.
Lemma dec_GreaterThanOrEqual_false a b :
  dec_GreaterThanOrEqual a b = false <-> dec_Rat a < dec_Rat b.
Proof. eapply bool_false_spec; [apply dec_GreaterThanOrEqual_spec|]. split; intros; lra. Qed.
Lemma dec_IsNegative_false a : dec_IsNegative a = false <-> 0 <= dec_Rat a.
Proof. eapply bool_false_spec; [apply dec_IsNegative_spec|]. split; intros; lra. Qed.
Lemma dec_IsPositive_false a : dec_IsPositive a = false <-> dec_Rat a <= 0.
Proof. eapply bool_false_spec; [apply dec_IsPositive_spec|]. split; intros; lra. Qed.
Lemma dec_IsZero_false a : dec_IsZero a = false <-> ~ dec_Rat a == 0.
Proof. eapply bool_false_spec; [apply dec_IsZero_spec|]. done. Qed.
Lemma dec_Equal_false a b : dec_Equal a b = false <-> ~ dec_Rat a == dec_Rat b.
Proof. eapply bool_false_spec; [apply dec_Equal_spec|]. done. Qed.

Lemma dec_Rat_Abs_cases a :
  (0 <= dec_Rat a /\ dec_Rat (dec_Abs a) == dec_Rat a) \/
  (dec_Rat a < 0 /\ dec_Rat (dec_Abs a) == - dec_Rat a).
Proof.
  destruct (Qlt_le_dec (dec_Rat a) 0) as [H|H].
  - right. split; [done|]. rewrite dec_Rat_Abs. apply Qabs_neg. lra.
  - left. split; [done|]. rewrite dec_Rat_Abs. by apply Qabs_pos.
Qed.

Lemma dec_Rat_NewFromInt n : dec_Rat (dec_NewFromInt n) == n # 1.
Proof.
  unfold dec_NewFromInt. rewrite dec_Rat_New by lia. by rewrite Z.mul_1_r.
Qed.
End decimal_lemmas.

(** Replace the boolean comparisons of the library in hypotheses by
    inequalities between rationals. *)
Ltac dec_bool :=
  repeat match goal with
  | H : dec_Equal _ _ = true |- _ => apply dec_Equal_spec in H
  | H : dec_Equal _ _ = false |- _ => apply dec_Equal_false in H
  | H : dec_LessThan _ _ = true |- _ => apply dec_LessThan_spec in H
  | H : dec_LessThan _ _ = false |- _ => apply dec_LessThan_false in H
  | H : dec_LessThanOrEqual _ _ = true |- _ => apply dec_LessThanOrEqual_spec in H
  | H : dec_LessThanOrEqual _ _ = false |- _ => apply dec_LessThanOrEqual_false in H
  | H : dec_GreaterThan _ _ = true |- _ => apply dec_GreaterThan_spec in H
  | H : dec_GreaterThan _ _ = false |- _ => apply dec_GreaterThan_false in H
  | H : dec_GreaterThanOrEqual _ _ = true |- _ => apply dec_GreaterThanOrEqual_spec in H
  | H : dec_GreaterThanOrEqual _ _ = false |- _ => apply dec_GreaterThanOrEqual_false in H
  | H : dec_IsNegative _ = true |- _ => apply dec_IsNegative_spec in H
  | H : dec_IsNegative _ = false |- _ => apply dec_IsNegative_false in H
  | H : dec_IsPositive _ = true |- _ => apply dec_IsPositive_spec in H
  | H : dec_IsPositive _ = false |- _ => apply dec_IsPositive_false in H
  | H : dec_IsZero _ = true |- _ => apply dec_IsZero_spec in H
  | H : dec_IsZero _ = false |- _ => apply dec_IsZero_false in H
  end.

(** The same on the goal. *)
Ltac dec_goal :=
  match goal with
  | |- dec_Equal _ _ = true => apply dec_Equal_spec
  | |- dec_Equal _ _ = false => apply dec_Equal_false
  | |- dec_LessThan _ _ = true => apply dec_LessThan_spec
  | |- dec_LessThan _ _ = false => apply dec_LessThan_false
  | |- dec_LessThanOrEqual _ _ = true => apply dec_LessThanOrEqual_spec
  | |- dec_LessThanOrEqual _ _ = false => apply dec_LessThanOrEqual_false
  | |- dec_GreaterThan _ _ = true => apply dec_GreaterThan_spec
  | |- dec_GreaterThan _ _ = false => apply dec_GreaterThan_false
  | |- dec_IsNegative _ = true => apply dec_IsNegative_spec
  | |- dec_IsNegative _ = false => apply dec_IsNegative_false
  | |- dec_IsPositive _ = true => apply dec_IsPositive_spec
  | |- dec_IsPositive _ = false => apply dec_IsPositive_false
  | |- dec_IsZero _ = true => apply dec_IsZero_spec
  | |- dec_IsZero _ = false => apply dec_IsZero_false
  end.

(** Record the law of every decimal operation that occurs. *)
Ltac dec_facts :=
  repeat match goal with
  | |- context [dec_Rat dec_Zero] => learn (@dec_Rat_Zero _ _)
  | _ : context [dec_Rat dec_Zero] |- _ => learn (@dec_Rat_Zero _ _)
  | |- context [dec_Rat (dec_Add ?a ?b)] => learn (dec_Rat_Add a b)
  | _ : context [dec_Rat (dec_Add ?a ?b)] |- _ => learn (dec_Rat_Add a b)
  | |- context [dec_Rat (dec_Sub ?a ?b)] => learn (dec_Rat_Sub a b)
  | _ : context [dec_Rat (dec_Sub ?a ?b)] |- _ => learn (dec_Rat_Sub a b)
  | |- context [dec_Rat (dec_Mul ?a ?b)] => learn (dec_Rat_Mul a b)
  | _ : context [dec_Rat (dec_Mul ?a ?b)] |- _ => learn (dec_Rat_Mul a b)
  | |- context [dec_Rat (dec_Neg ?a)] => learn (dec_Rat_Neg a)
  | _ : context [dec_Rat (dec_Neg ?a)] |- _ => learn (dec_Rat_Neg a)
  | |- context [dec_Rat (dec_NewFromInt ?n)] => learn (dec_Rat_NewFromInt n)
  | _ : context [dec_Rat (dec_NewFromInt ?n)] |- _ => learn (dec_Rat_NewFromInt n)
  end.

Ltac dec_abs :=
  repeat match goal with
  | |- context [dec_Rat (dec_Abs ?a)] =>
      lazymatch goal with _ : (dec_Rat (dec_Abs a) == _)%Q |- _ => fail | _ => idtac end;
      destruct (dec_Rat_Abs_cases a) as [[? ?]|[? ?]]
  | _ : context [dec_Rat (dec_Abs ?a)] |- _ =>
      lazymatch goal with _ : (dec_Rat (dec_Abs a) == _)%Q |- _ => fail | _ => idtac end;
      destruct (dec_Rat_Abs_cases a) as [[? ?]|[? ?]]
  end.

(** Linear arithmetic over decimals. *)
Ltac dec_lra := dec_bool; try dec_goal; dec_facts; dec_abs; dec_facts;
  try first [lra | nra | exfalso; lra | exfalso; nra].

(** Case analysis on the minima and maxima of rationals that occur. *)
Ltac q_minmax :=
  repeat match goal with
  | |- context [Qmax ?a ?b] =>
      lazymatch goal with _ : (Qmax a b == _)%Q |- _ => fail | _ => idtac end;
      destruct (Qminmax.Q.max_spec a b) as [[? ?]|[? ?]]
  | _ : context [Qmax ?a ?b] |- _ =>
      lazymatch goal with _ : (Qmax a b == _)%Q |- _ => fail | _ => idtac end;
      destruct (Qminmax.Q.max_spec a b) as [[? ?]|[? ?]]
  | |- context [Qmin ?a ?b] =>
      lazymatch goal with _ : (Qmin a b == _)%Q |- _ => fail | _ => idtac end;
      destruct (Qminmax.Q.min_spec a b) as [[? ?]|[? ?]]
  | _ : context [Qmin ?a ?b] |- _ =>
      lazymatch goal with _ : (Qmin a b == _)%Q |- _ => fail | _ => idtac end;
      destruct (Qminmax.Q.min_spec a b) as [[? ?]|[? ?]]
  end.

(** ** Rounding moves a value by at most one unit of the last digit kept *)
Section rounding_lemmas.
  Local Open Scope Q_scope.

Lemma q_scale_pos p : (0 <= p)%Z -> 0 < q_scale p.
Proof.
  intros Hp. unfold q_scale. change 0 with (inject_Z 0). rewrite <- Zlt_Qlt.
  by apply Z.pow_pos_nonneg.
Qed.

Lemma Qfloor_bounds x : inject_Z (Qfloor x) <= x < inject_Z (Qfloor x) + 1.
Proof.
  split; [apply Qfloor_le|]. pose proof (Qlt_floor x) as H. by rewrite inject_Z_plus in H.
Qed.

Lemma Qceiling_bounds x : inject_Z (Qceiling x) - 1 < x <= inject_Z (Qceiling x).
Proof.
  split; [|apply Qle_ceiling]. pose proof (Qceiling_lt x) as H.
  unfold Z.sub in H. by rewrite inject_Z_plus in H.
Qed.

Lemma q_half_away_near x : Qabs (inject_Z (q_half_away x) - x) <= 1.
Proof.
  unfold q_half_away. destruct (Qle_bool 0 x) eqn:E; apply Qabs_Qle_condition.
  - pose proof (Qfloor_bounds (x + (1 # 2))). lra.
  - pose proof (Qfloor_bounds (- x + (1 # 2))). rewrite inject_Z_opp. lra.
Qed.

Lemma q_half_even_near x : Qabs (inject_Z (q_half_even x) - x) <= 1.
Proof.
  unfold q_half_even. pose proof (Qfloor_bounds x). apply Qabs_Qle_condition.
  destruct (_ ?= _); [destruct (Z.even _)|..]; rewrite ?inject_Z_plus; change (inject_Z 1) with 1; lra.
Qed.

Lemma q_toward_zero_near x : Qabs (inject_Z (q_toward_zero x) - x) <= 1.
Proof.
  unfold q_toward_zero. destruct (Qle_bool 0 x) eqn:E; apply Qabs_Qle_condition.
  - pose proof (Qfloor_bounds x). lra.
  - pose proof (Qfloor_bounds (- x)). rewrite inject_Z_opp. lra.
Qed.

Lemma Qfloor_near x : Qabs (inject_Z (Qfloor x) - x) <= 1.
Proof. apply Qabs_Qle_condition. pose proof (Qfloor_bounds x). lra. Qed.

Lemma Qceiling_near x : Qabs (inject_Z (Qceiling x) - x) <= 1.
Proof. apply Qabs_Qle_condition. pose proof (Qceiling_bounds x). lra. Qed.

(** A rounding that moves scaled values by at most one moves amounts by at
    most one unit of the last kept digit. *)
Lemma q_at_near f p x :
  (0 <= p)%Z -> (forall y, Qabs (inject_Z (f y) - y) <= 1) ->
  Qabs (q_at f p x - x) <= / q_scale p.
Proof.
  intros Hp Hf. pose proof (q_scale_pos p Hp) as Hs. specialize (Hf (x * q_scale p)).
  unfold q_at. set (s := q_scale p) in *. set (n := inject_Z (f (x * s))) in *.
  assert (E : n / s - x == (n - x * s) * / s) by (field; lra).
  rewrite E, Qabs_Qmult. assert (Hi : 0 < / s) by (by apply Qinv_lt_0_compat).
  rewrite (Qabs_pos (/ s)) by lra. rewrite <- (Qmult_1_l (/ s)) at 2.
  apply Qmult_le_compat_r; lra.
Qed.

Lemma q_half_away_nonneg x : 0 <= x -> (0 <= q_half_away x)%Z.
Proof.
  intros H. unfold q_half_away. apply Qle_bool_iff in H as E. rewrite E.
  apply (Qfloor_resp_le 0). lra.
Qed.

Lemma Qfloor_nonneg x : 0 <= x -> (0 <= Qfloor x)%Z.
Proof. intros H. by apply (Qfloor_resp_le 0). Qed.

Lemma q_half_even_nonneg x : 0 <= x -> (0 <= q_half_even x)%Z.
Proof.
  intros H%Qfloor_nonneg. unfold q_half_even.
  destruct (_ ?= _); [destruct (Z.even _)|..]; lia.
Qed.

Lemma Qceiling_nonneg x : 0 <= x -> (0 <= Qceiling x)%Z.
Proof. intros H. by apply (Qceiling_resp_le 0). Qed.

Lemma q_toward_zero_nonneg x : 0 <= x -> (0 <= q_toward_zero x)%Z.
Proof.
  intros H. unfold q_toward_zero. apply Qle_bool_iff in H as E. rewrite E.
  by apply Qfloor_nonneg.
Qed.

#[global] Instance q_half_away_proper : Proper (Qeq ==> eq) q_half_away.
Proof.
  intros x y E. unfold q_half_away. rewrite (Qleb_comp 0 0 (reflexivity _) x y E).
  by rewrite (Qfloor_comp _ _ (Qplus_comp _ _ E _ _ (reflexivity (1 # 2)))),
    (Qfloor_comp _ _ (Qplus_comp _ _ (Qopp_comp _ _ E) _ _ (reflexivity (1 # 2)))).
Qed.
#[global] Instance q_half_even_proper : Proper (Qeq ==> eq) q_half_even.
Proof.
  intros x y E. unfold q_half_even. rewrite (Qfloor_comp x y E).
  by rewrite (Qcompare_comp _ _ (Qminus_comp _ _ E _ _ (reflexivity _)) _ _ (reflexivity (1 # 2))).
Qed.
#[global] Instance q_toward_zero_proper : Proper (Qeq ==> eq) q_toward_zero.
Proof.
  intros x y E. unfold q_toward_zero. rewrite (Qleb_comp 0 0 (reflexivity _) x y E).
  by rewrite (Qfloor_comp x y E), (Qfloor_comp _ _ (Qopp_comp _ _ E)).
Qed.
#[global] Instance q_at_proper f p : Proper (Qeq ==> eq) f -> Proper (Qeq ==> Qeq) (q_at f p).
Proof. intros Hf x y E. unfold q_at. by rewrite (Hf _ _ (Qmult_comp _ _ E _ _ (reflexivity _))). Qed.

Lemma q_at_nonneg f p x :
  (0 <= p)%Z -> (forall y, 0 <= y -> (0 <= f y)%Z) -> 0 <= x -> 0 <= q_at f p x.
Proof.
  intros Hp Hf Hx. pose proof (q_scale_pos p Hp) as Hs. unfold q_at, Qdiv.
  assert (0 <= x * q_scale p) as H by nra. apply Hf in H. rewrite Zle_Qle in H.
  assert (0 < / q_scale p) by (by apply Qinv_lt_0_compat). change (inject_Z 0) with 0 in H. nra.
Qed.
End rounding_lemmas.
