(* ===== verification/GoLibModel.v ===== *)
(** * A concrete instance of the library interfaces of [GoLib.v]

    Identifiers are strings, decimals are rational numbers, assertions return
    their condition and case mapping is the ASCII one.  Every law holds of it,
    so theorems stated over the law classes are not vacuous; the witnesses of
    the development evaluate the model at this instance. *)
From stdpp Require Import pretty.
From S2P Require Import GoLib.

#[export] Instance model_uuid : UUIDLib := {|
  uuid := string;
  uuid_Nil := "";
  uuid_String u := u;
  uuid_Parse s := Some s;
|}.

#[export] Instance model_uuid_laws : UUIDLaws model_uuid.
Proof. by split. Qed.

Definition q_String (q : Q) : string :=
  pretty (Qnum q) +:+ "/" +:+ pretty (Z.pos (Qden q)).

Definition q_New (n e : Z) : Q :=
  if (0 <=? e)%Z then inject_Z (n * 10 ^ e) else (inject_Z n / inject_Z (10 ^ (- e)))%Q.

(** Digits with an optional minus (45) and an optional fraction (after 46). *)
Fixpoint q_digits (point : bool) (digits exp : Z) (s : string) : option Q :=
  match s with
  | EmptyString => Some (q_New digits exp)
  | String c s' =>
      if (Ascii.nat_of_ascii c =? 46)%nat then if point then None else q_digits true digits exp s'
      else match digit_value c with
           | Some d => q_digits point (10 * digits + d)%Z (if point then exp - 1 else exp)%Z s'
           | None => None
           end
  end.
Definition q_NewFromString (s : string) : option Q :=
  match s with
  | EmptyString => None
  | String c s' =>
      if (Ascii.nat_of_ascii c =? 45)%nat then (fun q => (- q)%Q) <$> q_digits false 0 0 s'
      else q_digits false 0 0 s
  end.

Definition q_NewFromFloat (x : float64) : Q :=
  match x with
  | S754_finite s m e => let q := q_New (Z.pos m) 0 * (if (0 <=? e)%Z then inject_Z (2 ^ e) else / inject_Z (2 ^ (- e)))
                         in Qred (if s then - q else q)
  | _ => 0
  end%Q.

#[export] Instance model_decimal : DecimalLib := {|
  decimal := Q;
  dec_Rat q := q;
  dec_Zero := 0%Q;
  dec_New := q_New;
  dec_Add a b := Qred (a + b)%Q;
  dec_Sub a b := Qred (a - b)%Q;
  dec_Mul a b := Qred (a * b)%Q;
  dec_Div a b := Qred (q_at q_half_away division_precision (a / b)%Q);
  dec_Neg a := (- a)%Q;
  dec_Abs a := Qabs a;
  dec_Equal a b := Qeq_bool a b;
  dec_LessThan a b := negb (Qle_bool b a);
  dec_LessThanOrEqual a b := Qle_bool a b;
  dec_GreaterThan a b := negb (Qle_bool a b);
  dec_GreaterThanOrEqual a b := Qle_bool b a;
  dec_IsNegative a := negb (Qle_bool 0 a);
  dec_IsPositive a := negb (Qle_bool a 0);
  dec_IsZero a := Qeq_bool a 0;
  dec_Round a p := Qred (q_at q_half_away p a);
  dec_RoundBank a p := Qred (q_at q_half_even p a);
  dec_RoundFloor a p := Qred (q_at Qfloor p a);
  dec_RoundCeil a p := Qred (q_at Qceiling p a);
  dec_Truncate a p := Qred (q_at q_toward_zero p a);
  dec_String := q_String;
  dec_NewFromString := q_NewFromString;
  dec_NewFromFloat := q_NewFromFloat;
|}.

Lemma negb_Qle_bool a b : negb (Qle_bool b a) = true <-> (a < b)%Q.
Proof.
  rewrite negb_true_iff. split.
  - intros H. apply Qnot_le_lt. intros H'. apply Qle_bool_iff in H'. congruence.
  - intros H. destruct (Qle_bool b a) eqn:E; [|done]. apply Qle_bool_iff in E. lra.
Qed.

#[export] Instance model_decimal_laws : DecimalLaws model_decimal.
Proof.
  split; cbn -[Qred]; intros; try apply Qred_correct; try apply negb_Qle_bool; try done.
  - unfold q_New. by destruct (Z.leb_spec 0 e); [|lia].
  - unfold q_New. by destruct (Z.leb_spec 0 e); [lia|].
  - apply Qeq_bool_iff.
  - apply Qle_bool_iff.
  - apply Qle_bool_iff.
  - apply Qeq_bool_iff.
Qed.

#[export] Instance model_assert : AssertLib := {|
  assert_That b := b;
  assert_NotEmpty s := negb (string_empty s);
  assert_NotNil _ o := match o with Some _ => true | None => false end;
|}.

#[export] Instance model_assert_laws : AssertLaws model_assert.
Proof. by split. Qed.

#[export] Instance model_unicode : UnicodeLib := {|
  strings_ToUpper := string_map ascii_to_upper;
  strings_ToLower := string_map ascii_to_lower;
  strings_EqualFold s t :=
    bool_decide (string_map ascii_to_lower s = string_map ascii_to_lower t);
|}.

#[export] Instance model_unicode_laws : UnicodeLaws model_unicode.
Proof.
  split; cbn; intros; try done.
  - apply bool_decide_eq_true.
  - by apply bool_decide_eq_true.
  - apply bool_decide_ext. naive_solver.
  - rewrite bool_decide_eq_true in *. congruence.
Qed.
