(* ===== verification/Sha256.v ===== *)
(** * crypto/sha256 and encoding/hex

    The standard library functions behind the audit hash chain and the
    idempotency keys, as FIPS 180-4 defines them: the message is padded to
    blocks of 64 bytes and each block updates eight 32-bit words.  Words are
    [Z] kept below 2^32 by [w32]; bytes are [ascii]. *)
From S2P Require Import GoLib.

Local Open Scope Z_scope.

(** [[]byte] *)
Definition bytes : Type := list ascii.
Definition bytes_of (s : string) : bytes := String.list_ascii_of_string s.
Definition code (c : ascii) : Z := Z.of_nat (Ascii.nat_of_ascii c).
Definition byte_of (z : Z) : ascii := Ascii.ascii_of_nat (Z.to_nat (z mod 256)).

(** ** 32-bit words *)
Definition w32 (z : Z) : Z := Z.land z 0xFFFFFFFF.
Definition rotr (x n : Z) : Z := w32 (Z.lor (Z.shiftr x n) (Z.shiftl x (32 - n))).
Definition Ch (x y z : Z) : Z := Z.lxor (Z.land x y) (Z.land (Z.lxor x 0xFFFFFFFF) z).
Definition Maj (x y z : Z) : Z := Z.lxor (Z.lxor (Z.land x y) (Z.land x z)) (Z.land y z).
Definition big_sigma0 (x : Z) : Z := Z.lxor (Z.lxor (rotr x 2) (rotr x 13)) (rotr x 22).
Definition big_sigma1 (x : Z) : Z := Z.lxor (Z.lxor (rotr x 6) (rotr x 11)) (rotr x 25).
Definition sigma0 (x : Z) : Z := Z.lxor (Z.lxor (rotr x 7) (rotr x 18)) (Z.shiftr x 3).
Definition sigma1 (x : Z) : Z := Z.lxor (Z.lxor (rotr x 17) (rotr x 19)) (Z.shiftr x 10).

Definition be32 (x : Z) : bytes :=
  [byte_of (Z.shiftr x 24); byte_of (Z.shiftr x 16); byte_of (Z.shiftr x 8); byte_of x].

(** The constants are the first 32 bits of the fractional parts of the cube
    roots of the first 64 primes, and the initial state those of the square
    roots of the first eight. *)
Definition is_prime (n : nat) : bool := forallb (fun d => negb (n mod d =? 0)%nat) (seq 2 (n - 2)).
Definition first_primes (count : nat) : list Z := take count (Z.of_nat <$> base.filter is_prime (seq 2 310)).

Fixpoint root_bits (exponent : Z) (bits : nat) (n r : Z) : Z :=
  match bits with
  | O => r
  | S b =>
      let r' := r + 2 ^ Z.of_nat b in
      root_bits exponent b n (if r' ^ exponent <=? n then r' else r)
  end.
Definition root_fraction (exponent p : Z) : Z := w32 (root_bits exponent 37 (p * 2 ^ (32 * exponent)) 0).

Definition round_constants : list Z := Eval vm_compute in root_fraction 3 <$> first_primes 64.

Record sha_state : Type := mkSha {
  sha_a : Z; sha_b : Z; sha_c : Z; sha_d : Z; sha_e : Z; sha_f : Z; sha_g : Z; sha_h : Z;
}.

Definition sha_init : sha_state := Eval vm_compute in
  let h i := nth i (root_fraction 2 <$> first_primes 8) 0 in
  mkSha (h 0%nat) (h 1%nat) (h 2%nat) (h 3%nat) (h 4%nat) (h 5%nat) (h 6%nat) (h 7%nat).

(** ** One block *)

(** The message schedule, latest word first: word [t] is computed from the
    words [t-2], [t-7], [t-15] and [t-16]. *)
Fixpoint extend_schedule (n : nat) (w : list Z) : list Z :=
  match n with
  | O => w
  | S n' =>
      let word i := nth i w 0 in
      extend_schedule n' (w32 (sigma1 (word 1%nat) + word 6%nat + sigma0 (word 14%nat) + word 15%nat) :: w)
  end.

Definition sha_round (s : sha_state) (kw : Z * Z) : sha_state :=
  let t1 := sha_h s + big_sigma1 (sha_e s) + Ch (sha_e s) (sha_f s) (sha_g s) + kw.1 + kw.2 in
  let t2 := big_sigma0 (sha_a s) + Maj (sha_a s) (sha_b s) (sha_c s) in
  mkSha (w32 (t1 + t2)) (sha_a s) (sha_b s) (sha_c s) (w32 (sha_d s + t1)) (sha_e s) (sha_f s) (sha_g s).

Fixpoint words_of (l : bytes) : list Z :=
  match l with
  | a :: b :: c :: d :: l' =>
      (Z.shiftl (code a) 24 + Z.shiftl (code b) 16 + Z.shiftl (code c) 8 + code d) :: words_of l'
  | _ => []
  end.

Definition sha_block (s : sha_state) (block : bytes) : sha_state :=
  let w := rev (extend_schedule 48 (rev (words_of block))) in
  let r := foldl sha_round s (zip round_constants w) in
  mkSha (w32 (sha_a s + sha_a r)) (w32 (sha_b s + sha_b r)) (w32 (sha_c s + sha_c r)) (w32 (sha_d s + sha_d r))
    (w32 (sha_e s + sha_e r)) (w32 (sha_f s + sha_f r)) (w32 (sha_g s + sha_g r)) (w32 (sha_h s + sha_h r)).

(** ** The message *)

(** A one bit, zeros up to 8 bytes short of a block, and the length in bits. *)
Definition sha_pad (m : bytes) : bytes :=
  let n := Z.of_nat (length m) in
  m ++ byte_of 128 :: replicate (Z.to_nat ((55 - n) mod 64)) (byte_of 0)
    ++ be32 (Z.shiftr (8 * n) 32) ++ be32 (8 * n).

(** The blocks of the padded message; its length is enough fuel. *)
Fixpoint sha_blocks (fuel : nat) (s : sha_state) (m : bytes) : sha_state :=
  match fuel, m with
  | S fuel', _ :: _ => sha_blocks fuel' (sha_block s (take 64 m)) (drop 64 m)
  | _, _ => s
  end.

Definition sha256_Sum256 (m : bytes) : bytes :=
  let p := sha_pad m in
  let s := sha_blocks (length p) sha_init p in
  be32 (sha_a s) ++ be32 (sha_b s) ++ be32 (sha_c s) ++ be32 (sha_d s)
    ++ be32 (sha_e s) ++ be32 (sha_f s) ++ be32 (sha_g s) ++ be32 (sha_h s).

Lemma sha256_length m : length (sha256_Sum256 m) = 32%nat.
Proof. done. Qed.

(** The padded message is a whole number of blocks. *)
Lemma sha_pad_blocks m : (Z.of_nat (length (sha_pad m))) mod 64 = 0.
Proof.
  unfold sha_pad. rewrite !length_app; cbn [length]. rewrite !length_app, length_replicate. cbn [length].
  pose proof (Z.mod_pos_bound (55 - Z.of_nat (length m)) 64 ltac:(lia)) as Hr.
  pose proof (Z.div_mod (55 - Z.of_nat (length m)) 64 ltac:(lia)) as Hd.
  rewrite Nat2Z.inj_add, Nat2Z.inj_succ, Nat2Z.inj_add, Z2Nat.id by lia.
  match goal with |- ?x mod 64 = 0 =>
    replace x with ((1 - (55 - Z.of_nat (length m)) / 64) * 64) by (cbn; lia) end.
  apply Z_mod_mult.
Qed.

(** ** encoding/hex *)
Definition hex_digit (z : Z) : ascii := byte_of (if z <? 10 then 48 + z else 87 + z).
Definition hex_EncodeToString (l : bytes) : string :=
  String.string_of_list_ascii
    (concat ((fun c => [hex_digit (Z.shiftr (code c) 4); hex_digit (Z.land (code c) 15)]) <$> l)).

(** FIPS 180-4, appendix B.1. *)
Example sha256_abc :
  hex_EncodeToString (sha256_Sum256 (bytes_of "abc"))
  = "ba7816bf8f01cfea414140de5dae2223b00361a396177a9cb410ff61f20015ad".
Proof. by vm_compute. Qed.
