(* ===== verification/GoTime.v ===== *)
(** * Calendar dates and the RFC 3339 text of an instant

    The parts of package time the audit trail, the schedules and the parsers
    use: the proleptic Gregorian calendar in UTC, [Time.Truncate] and the
    layout RFC3339Nano. *)
From S2P Require Import GoLib Sha256.

Local Open Scope Z_scope.

(** [t.Truncate(d)] rounds down to a multiple of [d] since year 1. *)
Definition time_Truncate (t : Time) (d : Duration) : Time :=
  if d <=? 0 then t else t - (t - time_zero) mod d.

Definition nanos_per_microsecond : Z := 1000.

Lemma time_Truncate_idem t d : time_Truncate (time_Truncate t d) d = time_Truncate t d.
Proof.
  unfold time_Truncate. destruct (Z.leb_spec d 0); [done|].
  replace (t - (t - time_zero) mod d - time_zero) with ((t - time_zero) - (t - time_zero) mod d) by lia.
  rewrite <-(Z.mod_unique_pos ((t - time_zero) - (t - time_zero) mod d) d ((t - time_zero) / d) 0); [lia|lia|].
  pose proof (Z.div_mod (t - time_zero) d). lia.
Qed.

(** ** Calendar: days since 1970-01-01 and (year, month, day)

    Years are counted from March 1, so that the leap day ends a year; an era
    is 400 years. *)
Definition civil_of_days (days : Z) : Z * Z * Z :=
  let z := days + 719468 in
  let era := z / 146097 in
  let doe := z mod 146097 in
  let yoe := (doe - doe / 1460 + doe / 36524 - doe / 146096) / 365 in
  let doy := doe - (365 * yoe + yoe / 4 - yoe / 100) in
  let mp := (5 * doy + 2) / 153 in
  let d := doy - (153 * mp + 2) / 5 + 1 in
  let m := if mp <? 10 then mp + 3 else mp - 9 in
  (yoe + era * 400 + (if m <=? 2 then 1 else 0), m, d).

Definition days_of_civil (ymd : Z * Z * Z) : Z :=
  let '(y, m, d) := ymd in
  let y' := if m <=? 2 then y - 1 else y in
  let yoe := y' mod 400 in
  let doy := (153 * (if m <=? 2 then m + 9 else m - 3) + 2) / 5 + d - 1 in
  (y' / 400) * 146097 + yoe * 365 + yoe / 4 - yoe / 100 + doy - 719468.

Lemma yoe_range doe : 0 <= doe < 146097 ->
  let yoe := (doe - doe / 1460 + doe / 36524 - doe / 146096) / 365 in
  0 <= yoe < 400 /\ 0 <= doe - (365 * yoe + yoe / 4 - yoe / 100) < 366.
Proof. intros H yoe. subst yoe. Z.to_euclidean_division_equations. lia. Qed.

Lemma mp_range doy : 0 <= doy < 366 ->
  let mp := (5 * doy + 2) / 153 in
  0 <= mp < 12 /\ 1 <= doy - (153 * mp + 2) / 5 + 1 <= 31.
Proof. intros H mp. subst mp. Z.to_euclidean_division_equations. lia. Qed.

(** The calendar is a bijection onto its image: the date gives back the day. *)
Lemma days_of_civil_of_days days : days_of_civil (civil_of_days days) = days.
Proof.
  unfold civil_of_days, days_of_civil.
  pose proof (Z.mod_pos_bound (days + 719468) 146097 ltac:(lia)) as Hdoe.
  pose proof (Z.div_mod (days + 719468) 146097 ltac:(lia)) as Hera.
  revert Hdoe Hera. generalize ((days + 719468) / 146097) ((days + 719468) mod 146097).
  intros era doe Hdoe Hera. destruct (yoe_range doe Hdoe) as [Hyoe Hdoy]. revert Hyoe Hdoy.
  generalize ((doe - doe / 1460 + doe / 36524 - doe / 146096) / 365). intros yoe Hyoe Hdoy.
  destruct (mp_range _ Hdoy) as [Hmp _]. revert Hmp.
  set (doy := doe - _) in *. generalize ((5 * doy + 2) / 153). intros mp Hmp.
  destruct (Z.ltb_spec mp 10).
  - destruct (Z.leb_spec (mp + 3) 2); [lia|]. replace (mp + 3 - 3) with mp by lia.
    rewrite Z.add_0_r, Z.div_add, Z.mod_add by lia. rewrite Z.div_small, Z.mod_small by lia. subst doy. lia.
  - destruct (Z.leb_spec (mp - 9) 2); [|lia]. replace (mp - 9 + 9) with mp by lia.
    replace (yoe + era * 400 + 1 - 1) with (yoe + era * 400) by lia.
    rewrite Z.div_add, Z.mod_add by lia. rewrite Z.div_small, Z.mod_small by lia. subst doy. lia.
Qed.

Lemma civil_of_days_inj d1 d2 : civil_of_days d1 = civil_of_days d2 -> d1 = d2.
Proof. intros H. rewrite <-(days_of_civil_of_days d1), H. apply days_of_civil_of_days. Qed.

Lemma civil_of_days_range days : let '(_, m, d) := civil_of_days days in 1 <= m <= 12 /\ 1 <= d <= 31.
Proof.
  unfold civil_of_days. pose proof (Z.mod_pos_bound (days + 719468) 146097 ltac:(lia)) as Hdoe.
  destruct (yoe_range _ Hdoe) as [_ Hdoy]. destruct (mp_range _ Hdoy) as [Hmp Hd].
  cbn zeta in *. repeat case_match; lia.
Qed.

(** ** RFC 3339 *)

(** [n] in decimal, padded to [w] digits. *)
Fixpoint pad_decimal (w : nat) (n : Z) : bytes :=
  match w with
  | O => []
  | S w' => pad_decimal w' (n / 10) ++ [byte_of (48 + n mod 10)]
  end.

Fixpoint trim_zeros (l : bytes) : bytes :=
  match l with
  | [] => []
  | c :: l' => match trim_zeros l' with
               | [] => if code c =? 48 then [] else [c]
               | l'' => c :: l''
               end
  end.

(** The layout 2006-01-02T15:04:05.999999999Z of an instant in UTC. *)
Definition rfc3339nano (t : Time) : bytes :=
  let '(y, m, d) := civil_of_days (t / nanos_per_day) in
  let ns := t mod nanos_per_day in
  let s := ns / nanos_per_second in
  let frac := trim_zeros (pad_decimal 9 (ns mod nanos_per_second)) in
  pad_decimal 4 y ++ bytes_of "-" ++ pad_decimal 2 m ++ bytes_of "-" ++ pad_decimal 2 d ++ bytes_of "T"
    ++ pad_decimal 2 (s / 3600) ++ bytes_of ":" ++ pad_decimal 2 (s / 60 mod 60) ++ bytes_of ":"
    ++ pad_decimal 2 (s mod 60) ++ (match frac with [] => [] | _ => bytes_of "." ++ frac end) ++ bytes_of "Z".

Definition time_Year (t : Time) : Z := (civil_of_days (t / nanos_per_day)).1.1.

Example rfc3339nano_example :
  String.string_of_list_ascii (rfc3339nano (1768473000120000000)) = "2026-01-15T10:30:00.12Z".
Proof. by vm_compute. Qed.

(** ** The text determines the instant *)

Lemma code_byte_of z : 0 <= z < 256 -> code (byte_of z) = z.
Proof.
  intros H. unfold code, byte_of. rewrite Z.mod_small by lia.
  rewrite Ascii.nat_ascii_embedding by lia. lia.
Qed.

Lemma byte_of_code c : byte_of (code c) = c.
Proof.
  unfold byte_of, code. pose proof (Ascii.nat_ascii_bounded c).
  rewrite Z.mod_small by lia. rewrite Nat2Z.id. apply Ascii.ascii_nat_embedding.
Qed.

Lemma code_range c : 0 <= code c < 256.
Proof. unfold code. pose proof (Ascii.nat_ascii_bounded c). lia. Qed.

Lemma code_inj c d : code c = code d -> c = d.
Proof. intros H. rewrite <-(byte_of_code c), H. apply byte_of_code. Qed.

Lemma byte_of_inj a b : 0 <= a < 256 -> 0 <= b < 256 -> byte_of a = byte_of b -> a = b.
Proof. intros Ha Hb H. rewrite <-(code_byte_of a Ha), H. by apply code_byte_of. Qed.

Lemma pad_decimal_length w n : length (pad_decimal w n) = w.
Proof. revert n. induction w as [|w IH]; intros n; cbn; [done|]. rewrite length_app, IH. cbn. lia. Qed.

Lemma pad_decimal_digits w n : Forall (fun c => 48 <= code c <= 57) (pad_decimal w n).
Proof.
  revert n. induction w as [|w IH]; intros n; cbn; [constructor|].
  apply Forall_app; split; [apply IH|]. constructor; [|constructor].
  pose proof (Z.mod_pos_bound n 10 ltac:(lia)). rewrite code_byte_of; lia.
Qed.

Lemma pad_decimal_inj w n m : 0 <= n < 10 ^ Z.of_nat w -> 0 <= m < 10 ^ Z.of_nat w ->
  pad_decimal w n = pad_decimal w m -> n = m.
Proof.
  revert n m. induction w as [|w IH]; intros n m Hn Hm; [cbn in *; lia|].
  rewrite Nat2Z.inj_succ, Z.pow_succ_r in Hn, Hm by lia. cbn. intros [H1 H2]%app_inj_tail.
  apply IH in H1; [| split; [apply Z.div_pos|apply Z.div_lt_upper_bound]; lia..].
  pose proof (Z.mod_pos_bound n 10 ltac:(lia)). pose proof (Z.mod_pos_bound m 10 ltac:(lia)).
  apply byte_of_inj in H2; [|lia..].
  rewrite (Z.div_mod n 10), (Z.div_mod m 10); lia.
Qed.

Lemma trim_zeros_spec l :
  l = trim_zeros l ++ replicate (length l - length (trim_zeros l)) (byte_of 48).
Proof.
  induction l as [|c l IH]; [done|]. cbn [trim_zeros].
  destruct (trim_zeros l) as [|x r] eqn:E.
  - cbn in IH. rewrite Nat.sub_0_r in IH. destruct (Z.eqb_spec (code c) 48) as [Hc|Hc].
    + cbn [length app replicate Nat.sub]. rewrite <-Hc at 1. rewrite byte_of_code. by f_equal.
    + cbn. f_equal. by rewrite Nat.sub_0_r.
  - rewrite IH at 1. cbn. done.
Qed.

Lemma trim_zeros_inj l k : length l = length k -> trim_zeros l = trim_zeros k -> l = k.
Proof. intros Hl Ht. rewrite (trim_zeros_spec l), (trim_zeros_spec k), Hl, Ht. done. Qed.

Lemma app_inj_length {X} (l1 l2 k1 k2 : list X) :
  length l1 = length l2 -> l1 ++ k1 = l2 ++ k2 -> l1 = l2 /\ k1 = k2.
Proof. intros Hl H. by apply app_inj_1. Qed.

Lemma rfc3339nano_inj t u : 0 <= time_Year t < 10000 -> 0 <= time_Year u < 10000 ->
  rfc3339nano t = rfc3339nano u -> t = u.
Proof.
  unfold time_Year, rfc3339nano.
  pose proof (civil_of_days_range (t / nanos_per_day)) as Rt.
  pose proof (civil_of_days_range (u / nanos_per_day)) as Ru.
  destruct (civil_of_days (t / nanos_per_day)) as [[y m] d] eqn:Et.
  destruct (civil_of_days (u / nanos_per_day)) as [[y' m'] d'] eqn:Eu. cbn [fst snd].
  cbn in Rt, Ru. intros Hy Hy' H.
  pose proof (Z.mod_pos_bound t nanos_per_day ltac:(done)) as Bt.
  pose proof (Z.mod_pos_bound u nanos_per_day ltac:(done)) as Bu.
  pose proof (Z.div_mod t nanos_per_day ltac:(done)) as Dt.
  pose proof (Z.div_mod u nanos_per_day ltac:(done)) as Du.
  revert Bt Bu Dt Du H. generalize (t mod nanos_per_day) (u mod nanos_per_day). intros a b Ba Bb Dt Du H.
  unfold nanos_per_day, nanos_per_hour, nanos_per_second in *.
  repeat (apply app_inj_length in H as [? H]; [|by rewrite ?pad_decimal_length]).
  apply app_inj_tail in H as [Hf _].
  assert (Hfrac : a mod 1000000000 = b mod 1000000000).
  { apply (pad_decimal_inj 9); [apply Z.mod_pos_bound; lia..|].
    apply trim_zeros_inj; [by rewrite !pad_decimal_length|].
    destruct (trim_zeros (pad_decimal 9 (a mod _))), (trim_zeros (pad_decimal 9 (b mod _))); cbn in Hf; congruence. }
  clear Hf.
  repeat match goal with
  | E : pad_decimal ?w ?x = pad_decimal ?w ?y |- _ =>
      apply (pad_decimal_inj w) in E; [|cbn; Z.to_euclidean_division_equations; lia..]
  end.
  assert (Hd : t / (24 * (3600 * 1000000000)) = u / (24 * (3600 * 1000000000))).
  { apply civil_of_days_inj. rewrite Et, Eu. congruence. }
  rewrite Dt, Du, Hd. f_equal. clear Dt Du Hd Et Eu. Z.to_euclidean_division_equations. lia.
Qed.
