(* ===== verification/GoJson.v ===== *)
(** * encoding/json

    What the program uses of encoding/json where the bytes matter: the scanner
    behind [json.Valid], the compaction [json.Marshal] applies to a
    [json.RawMessage], and the encoding of strings, integers and instants.

    The scanner is the state machine of the standard library, with its stack
    of open objects and arrays.  Because no state that ends a value accepts a
    comma or a closing brace, an encoded value is self-delimiting
    ([json_value_delimited]): the bytes of an encoded struct determine the
    bytes of each field. *)
From stdpp Require Import pretty.
From S2P Require Import GoLib Sha256 GoTime.

Local Open Scope Z_scope.

(** ** The scanner *)
Inductive parse_state : Type := parseObjectKey | parseObjectValue | parseArrayValue.

Inductive scan_state : Type :=
| stateBeginValueOrEmpty | stateBeginValue | stateBeginStringOrEmpty | stateBeginString
| stateEndValue | stateEndTop
| stateInString | stateInStringEsc | stateInStringEscU | stateInStringEscU1 | stateInStringEscU12
| stateInStringEscU123
| stateNeg | state1 | state0 | stateDot | stateDot0 | stateE | stateESign | stateE0
| stateT | stateTr | stateTru | stateF | stateFa | stateFal | stateFals | stateN | stateNu | stateNul.

(** The step and [parseState], innermost first. *)
Definition scanner : Type := scan_state * list parse_state.

Definition json_isSpace (c : ascii) : bool :=
  (code c =? 32) || (code c =? 9) || (code c =? 10) || (code c =? 13).
Definition json_isDigit (c : ascii) : bool := (48 <=? code c) && (code c <=? 57).
Definition json_isHex (c : ascii) : bool :=
  json_isDigit c || ((97 <=? code c) && (code c <=? 102)) || ((65 <=? code c) && (code c <=? 70)).

Definition maxNestingDepth : Z := 10000.

Definition pushParseState (p : parse_state) (ps : list parse_state) (q : scan_state) : option scanner :=
  if Z.of_nat (length (p :: ps)) <=? maxNestingDepth then Some (q, p :: ps) else None.

Definition popParseState (ps : list parse_state) : scanner :=
  (match ps with [] => stateEndTop | _ => stateEndValue end, ps).

Definition step_EndTop (ps : list parse_state) (c : ascii) : option scanner :=
  if json_isSpace c then Some (stateEndTop, ps) else None.

Definition step_EndValue (ps : list parse_state) (c : ascii) : option scanner :=
  match ps with
  | [] => step_EndTop [] c
  | p :: ps' =>
      if json_isSpace c then Some (stateEndValue, ps) else
      match p with
      | parseObjectKey => if code c =? 58 then Some (stateBeginValue, parseObjectValue :: ps') else None
      | parseObjectValue =>
          if code c =? 44 then Some (stateBeginString, parseObjectKey :: ps')
          else if code c =? 125 then Some (popParseState ps') else None
      | parseArrayValue =>
          if code c =? 44 then Some (stateBeginValue, ps)
          else if code c =? 93 then Some (popParseState ps') else None
      end
  end.

Definition step_BeginValue (ps : list parse_state) (c : ascii) : option scanner :=
  if json_isSpace c then Some (stateBeginValue, ps)
  else if code c =? 123 then pushParseState parseObjectKey ps stateBeginStringOrEmpty
  else if code c =? 91 then pushParseState parseArrayValue ps stateBeginValueOrEmpty
  else if code c =? 34 then Some (stateInString, ps)
  else if code c =? 45 then Some (stateNeg, ps)
  else if code c =? 48 then Some (state0, ps)
  else if code c =? 116 then Some (stateT, ps)
  else if code c =? 102 then Some (stateF, ps)
  else if code c =? 110 then Some (stateN, ps)
  else if json_isDigit c then Some (state1, ps)
  else None.

Definition step_BeginString (ps : list parse_state) (c : ascii) : option scanner :=
  if json_isSpace c then Some (stateBeginString, ps)
  else if code c =? 34 then Some (stateInString, ps) else None.

Definition step_hex (ps : list parse_state) (c : ascii) (q : scan_state) : option scanner :=
  if json_isHex c then Some (q, ps) else None.

Definition step_char (ps : list parse_state) (c : ascii) (expected : Z) (q : scan_state) : option scanner :=
  if code c =? expected then Some (q, ps) else None.

Definition is_exp (c : ascii) : bool := (code c =? 101) || (code c =? 69).

Definition step_0 (ps : list parse_state) (c : ascii) : option scanner :=
  if code c =? 46 then Some (stateDot, ps)
  else if is_exp c then Some (stateE, ps)
  else step_EndValue ps c.

(** A character after the backslash of an escape. *)
Definition step_InStringEsc (ps : list parse_state) (c : ascii) : option scanner :=
  if existsb (Z.eqb (code c)) [98; 102; 110; 114; 116; 92; 47; 34] then Some (stateInString, ps)
  else if code c =? 117 then Some (stateInStringEscU, ps) else None.

Definition scan_step (q : scanner) (c : ascii) : option scanner :=
  let ps := q.2 in
  match q.1 with
  | stateBeginValueOrEmpty =>
      if json_isSpace c then Some q
      else if code c =? 93 then step_EndValue ps c else step_BeginValue ps c
  | stateBeginValue => step_BeginValue ps c
  | stateBeginStringOrEmpty =>
      if json_isSpace c then Some q
      else if code c =? 125 then step_EndValue (parseObjectValue :: tail ps) c else step_BeginString ps c
  | stateBeginString => step_BeginString ps c
  | stateEndValue => step_EndValue ps c
  | stateEndTop => step_EndTop ps c
  | stateInString =>
      if code c =? 34 then Some (stateEndValue, ps)
      else if code c =? 92 then Some (stateInStringEsc, ps)
      else if code c <? 32 then None else Some q
  | stateInStringEsc => step_InStringEsc ps c
  | stateInStringEscU => step_hex ps c stateInStringEscU1
  | stateInStringEscU1 => step_hex ps c stateInStringEscU12
  | stateInStringEscU12 => step_hex ps c stateInStringEscU123
  | stateInStringEscU123 => step_hex ps c stateInString
  | stateNeg =>
      if code c =? 48 then Some (state0, ps)
      else if json_isDigit c then Some (state1, ps) else None
  | state1 => if json_isDigit c then Some q else step_0 ps c
  | state0 => step_0 ps c
  | stateDot => if json_isDigit c then Some (stateDot0, ps) else None
  | stateDot0 =>
      if json_isDigit c then Some q else if is_exp c then Some (stateE, ps) else step_EndValue ps c
  | stateE =>
      if (code c =? 43) || (code c =? 45) then Some (stateESign, ps)
      else if json_isDigit c then Some (stateE0, ps) else None
  | stateESign => if json_isDigit c then Some (stateE0, ps) else None
  | stateE0 => if json_isDigit c then Some q else step_EndValue ps c
  | stateT => step_char ps c 114 stateTr
  | stateTr => step_char ps c 117 stateTru
  | stateTru => step_char ps c 101 stateEndValue
  | stateF => step_char ps c 97 stateFa
  | stateFa => step_char ps c 108 stateFal
  | stateFal => step_char ps c 115 stateFals
  | stateFals => step_char ps c 101 stateEndValue
  | stateN => step_char ps c 117 stateNu
  | stateNu => step_char ps c 108 stateNul
  | stateNul => step_char ps c 108 stateEndValue
  end.

Definition scan_init : scanner := (stateBeginValue, []).

(** [scanner.eof]: the value is complete, possibly after one more space. *)
Definition scan_eof (q : scanner) : bool :=
  match q.1 with
  | stateEndTop => true
  | _ => match scan_step q (byte_of 32) with
         | Some (stateEndTop, _) => true
         | _ => false
         end
  end.

Fixpoint scan_run (q : scanner) (s : bytes) : option scanner :=
  match s with
  | [] => Some q
  | c :: s' => q' ← scan_step q c; scan_run q' s'
  end.

Definition json_Valid (s : bytes) : bool :=
  match scan_run scan_init s with Some q => scan_eof q | None => false end.

(** ** Compaction with HTML escaping, as [Marshal] does to a RawMessage *)
Definition json_html (c : ascii) : bool := (code c =? 60) || (code c =? 62) || (code c =? 38).

Definition u00 (c : ascii) : bytes :=
  bytes_of "\u00" ++ [hex_digit (Z.shiftr (code c) 4); hex_digit (Z.land (code c) 15)].

(** U+2028 and U+2029 in UTF-8. *)
Definition is_line_sep (c c1 c2 : ascii) : bool :=
  (code c =? 226) && (code c1 =? 128) && ((code c2 =? 168) || (code c2 =? 169)).
Definition u202 (c2 : ascii) : bytes := bytes_of "\u202" ++ [hex_digit (Z.land (code c2) 15)].

Definition in_string (q : scanner) : bool :=
  match q.1 with stateInString => true | _ => false end.

(** White space the scanner skips is dropped. *)
Definition compact_byte (q : scanner) (c : ascii) : bytes :=
  if json_html c then u00 c else if json_isSpace c && negb (in_string q) then [] else [c].

Fixpoint appendCompact (q : scanner) (s : bytes) : option bytes :=
  match s with
  | [] => if scan_eof q then Some [] else None
  | c :: s1 =>
      let byte := q1 ← scan_step q c; app (compact_byte q c) <$> appendCompact q1 s1 in
      match s1 with
      | c1 :: c2 :: s3 =>
          if is_line_sep c c1 c2
          then q3 ← scan_run q [c; c1; c2]; app (u202 c2) <$> appendCompact q3 s3
          else byte
      | _ => byte
      end
  end.

(** [json.RawMessage]: nil is null, other bytes must be a JSON text. *)
Definition marshal_RawMessage (s : bytes) : option bytes :=
  match s with [] => Some (bytes_of "null") | _ => appendCompact scan_init s end.

(** ** Strings *)

(** The length of the UTF-8 encoding at the front ([utf8.DecodeRune]); [None]
    for an invalid one. *)
Definition between (a b : Z) (c : ascii) : bool := (a <=? code c) && (code c <=? b).
Definition utf8_width (s : bytes) : option nat :=
  match s with
  | [] => None
  | c :: s1 =>
      if code c <? 128 then Some 1%nat else
      match s1 with
      | c1 :: s2 =>
          if between 194 223 c && between 128 191 c1 then Some 2%nat else
          match s2 with
          | c2 :: s3 =>
              if between 128 191 c2 &&
                 (((code c =? 224) && between 160 191 c1) || (between 225 236 c && between 128 191 c1)
                  || ((code c =? 237) && between 128 159 c1) || (between 238 239 c && between 128 191 c1))
              then Some 3%nat else
              match s3 with
              | c3 :: _ =>
                  if between 128 191 c2 && between 128 191 c3 &&
                     (((code c =? 240) && between 144 191 c1) || (between 241 243 c && between 128 191 c1)
                      || ((code c =? 244) && between 128 143 c1))
                  then Some 4%nat else None
              | [] => None
              end
          | [] => None
          end
      | [] => None
      end
  end.

(** A byte below 0x80. *)
Definition quote_byte (c : ascii) : bytes :=
  let z := code c in
  if (z =? 92) || (z =? 34) then [byte_of 92; c]
  else if z =? 8 then bytes_of "\b" else if z =? 12 then bytes_of "\f"
  else if z =? 10 then bytes_of "\n" else if z =? 13 then bytes_of "\r" else if z =? 9 then bytes_of "\t"
  else if (z <? 32) || json_html c then u00 c
  else [c].

(** A rune of [w] bytes at the front. *)
Definition quote_rune (r : bytes) : bytes :=
  match r with
  | [c] => quote_byte c
  | [c; c1; c2] => if is_line_sep c c1 c2 then u202 c2 else r
  | _ => r
  end.

(** The body of an encoded string; the number of bytes is enough fuel.
    Invalid bytes become the escape of the replacement character. *)
Fixpoint quote_body (fuel : nat) (s : bytes) : bytes :=
  match fuel, s with
  | S fuel', _ :: s1 =>
      match utf8_width s with
      | Some w => quote_rune (take w s) ++ quote_body fuel' (drop w s)
      | None => bytes_of "\u" ++ bytes_of "fffd" ++ quote_body fuel' s1
      end
  | _, _ => []
  end.

Definition json_quote (s : bytes) : bytes := byte_of 34 :: quote_body (length s) s ++ [byte_of 34].

(** ** Values *)
Definition marshal_string (s : string) : bytes := json_quote (bytes_of s).
Definition marshal_string_ptr (s : option string) : bytes :=
  match s with None => bytes_of "null" | Some s => marshal_string s end.
Definition marshal_int (n : Z) : bytes := bytes_of (strconv_Itoa n).

(** [Time.MarshalJSON] of an instant in UTC: the year must have four digits. *)
Definition marshal_time (t : Time) : option bytes :=
  if (0 <=? time_Year t) && (time_Year t <=? 9999)
  then Some (byte_of 34 :: rfc3339nano t ++ [byte_of 34]) else None.

(** A struct: its fields in declaration order. *)
Definition json_field (f : string * bytes) : bytes := marshal_string f.1 ++ byte_of 58 :: f.2.
Fixpoint json_fields (fs : list (string * bytes)) : bytes :=
  match fs with
  | [] => []
  | [f] => json_field f
  | f :: fs' => json_field f ++ byte_of 44 :: json_fields fs'
  end.
Definition json_object (fs : list (string * bytes)) : bytes := byte_of 123 :: json_fields fs ++ [byte_of 125].

(** ** Facts about the scanner *)

(** Case analysis on the characters a step tests, and on the stack. *)
Ltac scan_unfold :=
  unfold scan_step, step_BeginValue, step_BeginString, step_InStringEsc, step_0, step_EndValue, step_EndTop,
    step_hex, step_char, pushParseState, popParseState, json_html, json_isSpace, json_isHex, json_isDigit, is_exp in *.
Ltac code_facts :=
  repeat match goal with
  | H : andb _ _ = true |- _ => apply andb_true_iff in H as [? ?]
  | H : orb _ _ = false |- _ => apply orb_false_iff in H as [? ?]
  | H : (_ =? _) = true |- _ => apply Z.eqb_eq in H
  | H : (_ =? _) = false |- _ => apply Z.eqb_neq in H
  | H : (_ <=? _) = true |- _ => apply Z.leb_le in H
  | H : (_ <? _) = true |- _ => apply Z.ltb_lt in H
  | H : (_ <? _) = false |- _ => apply Z.ltb_ge in H
  end.

Lemma scan_run_app q s t : scan_run q (s ++ t) = scan_run q s ≫= fun q' => scan_run q' t.
Proof. revert q. induction s as [|c s IH]; intros q; cbn; [done|]. by destruct (scan_step q c); cbn. Qed.

Definition json_value (v : bytes) : Prop := exists q, scan_run scan_init v = Some q /\ scan_eof q = true.

Lemma json_Valid_value v : json_Valid v = true <-> json_value v.
Proof. unfold json_Valid, json_value. destruct (scan_run scan_init v); naive_solver. Qed.

(** The states in which a value may end with the next character. *)
Definition ended (q : scan_state) : bool :=
  match q with stateEndValue | state0 | state1 | stateDot0 | stateE0 => true | _ => false end.

Lemma scan_eof_ended q : scan_eof q = true -> q.1 = stateEndTop \/ ended q.1 = true /\ q.2 = [].
Proof.
  destruct q as [[] ps]; cbn; try (intros; by auto); unfold step_0, step_EndValue; cbn;
    try (destruct ps; cbn; [by auto|done]); try done.
Qed.

Lemma scan_eof_stop q c : scan_eof q = true -> code c = 44 \/ code c = 125 -> scan_step q c = None.
Proof.
  intros Hq Hc. destruct q as [q ps].
  destruct (scan_eof_ended _ Hq) as [He|[He Hs]]; cbn in *; subst; [|destruct q; try done];
    scan_unfold; cbn; destruct Hc as [Hc|Hc]; by rewrite Hc.
Qed.

(** A value followed by a comma or a closing brace is read back. *)
Lemma json_value_delimited v1 v2 c1 c2 r1 r2 :
  json_value v1 -> json_value v2 ->
  (code c1 = 44 \/ code c1 = 125) -> (code c2 = 44 \/ code c2 = 125) ->
  v1 ++ c1 :: r1 = v2 ++ c2 :: r2 -> v1 = v2 /\ c1 = c2 /\ r1 = r2.
Proof.
  assert (Hno : forall v c k, json_value v -> json_value (v ++ c :: k) -> code c = 44 \/ code c = 125 -> False).
  { intros v c k (q & Hq & He) (q' & Hq' & _) Hc. rewrite scan_run_app, Hq in Hq'. cbn in Hq'.
    by rewrite (scan_eof_stop _ _ He Hc) in Hq'. }
  intros H1 H2 Hc1 Hc2 H. apply app_eq_inv in H as [([|c k] & E1 & E2)|([|c k] & E1 & E2)];
    cbn in E2; injection E2 as -> E2; subst; rewrite ?app_nil_r; try done; exfalso; eauto.
Qed.

(** ** Compaction keeps a value a value *)

Lemma scan_step_string q ps c q1 :
  scan_step (q, ps) c = Some q1 -> 128 <= code c \/ json_html c = true ->
  q = stateInString /\ q1 = (stateInString, ps).
Proof.
  intros H Hc. assert (Hz : 128 <= code c \/ code c = 60 \/ code c = 62 \/ code c = 38).
  { unfold json_html in Hc. rewrite !orb_true_iff, !Z.eqb_eq in Hc. lia. }
  clear Hc. destruct q; try (exfalso; cbn in H; scan_unfold; repeat case_match; try done; code_facts; lia).
  - cbn in H. repeat case_match; simplify_eq; try done; code_facts; lia.
  - exfalso. cbn in H. unfold step_InStringEsc in H. cbn in H. repeat case_match; try done; code_facts; [|lia].
    rewrite !orb_true_iff, !Z.eqb_eq in H0. lia.
Qed.

(** White space outside a string leaves the state, or ends a value. *)
Definition after_space (ps : list parse_state) : scanner :=
  match ps with [] => (stateEndTop, []) | _ => (stateEndValue, ps) end.

Lemma scan_step_space q ps c q1 :
  scan_step (q, ps) c = Some q1 -> json_isSpace c = true -> q <> stateInString ->
  q1 = (q, ps) \/ ended q = true /\ q1 = after_space ps.
Proof.
  intros H Hs Hi.
  assert (Hc : code c = 32 \/ code c = 9 \/ code c = 10 \/ code c = 13).
  { unfold json_isSpace in Hs. rewrite !orb_true_iff, !Z.eqb_eq in Hs. lia. }
  destruct q; try done; cbn in H; scan_unfold; cbn in H; destruct Hc as [Hc|[Hc|[Hc|Hc]]]; rewrite Hc in H; cbn in H;
    destruct ps; simplify_eq; auto.
Qed.

(** What an ended state accepts after the space, it accepts without it. *)
Lemma scan_step_ended q ps c q1 :
  ended q = true -> scan_step (after_space ps) c = Some q1 -> json_isSpace c = false ->
  scan_step (q, ps) c = Some q1.
Proof.
  intros He H Hs. destruct ps as [|p ps]; cbn in H.
  - unfold step_EndTop in H. by rewrite Hs in H.
  - rewrite Hs in H.
    assert (Hc : code c = 58 \/ code c = 44 \/ code c = 125 \/ code c = 93) by
      (destruct p; repeat case_match; try done; code_facts; lia).
    destruct q; try done; cbn; rewrite ?Hs; scan_unfold; destruct Hc as [Hc|[Hc|[Hc|Hc]]]; rewrite Hc in *; cbn in *;
      done.
Qed.

(** [after q q']: the scanner that reads the original is in [q], the one that
    reads its compaction in [q']. *)
Definition after (q q' : scanner) : Prop := q = q' \/ ended q'.1 = true /\ q = after_space q'.2.

Lemma after_eof q q' : after q q' -> scan_eof q = true -> scan_eof q' = true.
Proof.
  intros [->|[He ->]] H; [done|]. destruct q' as [q' [|p ps]]; cbn in *; [|done].
  by destruct q'.
Qed.

Lemma after_byte q q' c q1 :
  after q q' -> scan_step q c = Some q1 -> exists q1', scan_run q' (compact_byte q c) = Some q1' /\ after q1 q1'.
Proof.
  intros Ha H. unfold compact_byte. destruct q as [s ps]. destruct (json_html c) eqn:Hh.
  - destruct (scan_step_string _ _ _ _ H (or_intror Hh)) as [-> ->].
    destruct Ha as [<-|[He Hq]]; [|by destruct (q'.2)].
    exists (stateInString, ps). split; [|by left]. unfold json_html in Hh.
    rewrite !orb_true_iff, !Z.eqb_eq in Hh. unfold u00. destruct Hh as [[Hc|Hc]|Hc]; rewrite Hc; done.
  - destruct (json_isSpace c) eqn:Hs.
    + destruct (in_string (s, ps)) eqn:Hi; cbn.
      * destruct s; try done. destruct Ha as [<-|[He Hq]]; [|by destruct (q'.2)].
        exists q1. rewrite H. split; [done|by left].
      * exists q'. split; [done|]. assert (s <> stateInString) as Hn by (intros ->; done).
        destruct (scan_step_space _ _ _ _ H Hs Hn) as [->|[He ->]]; [done|]. right.
        destruct Ha as [<-|[He' Hq]]; [done|]. split; [done|]. destruct (q'.2); cbn in Hq; by simplify_eq.
    + cbn. exists q1. split; [|by left]. destruct Ha as [<-|[He Hq]]; [by rewrite H|].
      rewrite Hq in H. destruct q' as [s' ps']. cbn in He, H. by rewrite (scan_step_ended _ _ _ _ He H Hs).
Qed.

Lemma after_line_sep q q' c c1 c2 q3 :
  after q q' -> is_line_sep c c1 c2 = true -> scan_run q [c; c1; c2] = Some q3 ->
  exists q3', scan_run q' (u202 c2) = Some q3' /\ after q3 q3'.
Proof.
  intros Ha Hl H. unfold is_line_sep in Hl. rewrite !andb_true_iff, orb_true_iff, !Z.eqb_eq in Hl.
  destruct Hl as [[Hc Hc1] Hc2]. destruct q as [s ps]. cbn in H.
  destruct (scan_step (s, ps) c) as [q1|] eqn:H1; [|done]. cbn in H.
  destruct (scan_step_string _ _ _ _ H1) as [-> ->]; [lia|].
  destruct (scan_step (stateInString, ps) c1) as [q2|] eqn:H2; [|done]. cbn in H.
  destruct (scan_step_string _ _ _ _ H2) as [_ ->]; [lia|].
  destruct (scan_step (stateInString, ps) c2) as [q3'|] eqn:H3; [|done]. cbn in H. simplify_eq.
  destruct (scan_step_string _ _ _ _ H3) as [_ ->]; [lia|].
  destruct Ha as [<-|[He Hq]]; [|by destruct (q'.2)].
  exists (stateInString, ps). split; [|by left]. unfold u202. destruct Hc2 as [Hc2|Hc2]; by rewrite Hc2.
Qed.

(** Compaction succeeds exactly on JSON texts, and yields one. *)
Lemma appendCompact_value n s q q' out :
  (length s <= n)%nat -> after q q' -> appendCompact q s = Some out ->
  exists f, scan_run q' out = Some f /\ scan_eof f = true.
Proof.
  revert s q q' out. induction n as [|n IH]; intros s q q' out Hn Ha H.
  { destruct s; [|cbn in Hn; lia]. cbn in H. case_match; simplify_eq. exists q'. eauto using after_eof. }
  destruct s as [|c s]; [cbn in H; case_match; simplify_eq; exists q'; eauto using after_eof|].
  assert (Hb : (q1 ← scan_step q c; app (compact_byte q c) <$> appendCompact q1 s) = Some out ->
    exists f, scan_run q' out = Some f /\ scan_eof f = true).
  { intros Hb. apply bind_Some in Hb as (q1 & H1 & Hb). apply fmap_Some in Hb as (o & Ho & ->).
    destruct (after_byte _ _ _ _ Ha H1) as (q1' & Hr & Ha1). cbn in Hn.
    rewrite scan_run_app, Hr. cbn. apply (IH s q1 q1' o); [lia|done|done]. }
  cbn [appendCompact] in H. destruct s as [|c1 [|c2 s]]; [auto..|]. destruct (is_line_sep c c1 c2) eqn:Hl; [|auto].
  apply bind_Some in H as (q3 & H3 & H). apply fmap_Some in H as (o & Ho & ->).
  destruct (after_line_sep _ _ _ _ _ _ Ha Hl H3) as (q3' & Hr & Ha3). cbn in Hn.
  rewrite scan_run_app, Hr. cbn. apply (IH s q3 q3' o); [lia|done|done].
Qed.

Lemma appendCompact_scans n s q :
  (length s <= n)%nat ->
  is_Some (appendCompact q s) <-> match scan_run q s with Some f => scan_eof f = true | None => False end.
Proof.
  revert s q. induction n as [|n IH]; intros s q Hn.
  { destruct s; [|cbn in Hn; lia]. cbn. case_match; split; try done; by intros []. }
  destruct s as [|c s]; [cbn; case_match; split; try done; by intros []|].
  assert (Hb : is_Some (q1 ← scan_step q c; app (compact_byte q c) <$> appendCompact q1 s) <->
    match scan_run q (c :: s) with Some f => scan_eof f = true | None => False end).
  { cbn. destruct (scan_step q c) as [q1|]; cbn; [|split; [by intros []|done]].
    rewrite fmap_is_Some. apply IH. cbn in Hn. lia. }
  cbn [appendCompact]. destruct s as [|c1 [|c2 s]]; [exact Hb..|]. destruct (is_line_sep c c1 c2); [|exact Hb].
  change (c :: c1 :: c2 :: s) with ([c; c1; c2] ++ s). rewrite scan_run_app.
  destruct (scan_run q [c; c1; c2]) as [q3|]; cbn; [|split; [by intros []|done]].
  rewrite fmap_is_Some. apply IH. cbn in Hn. lia.
Qed.

Lemma json_Valid_compact s : json_Valid s = true <-> is_Some (appendCompact scan_init s).
Proof.
  rewrite (appendCompact_scans (length s) s scan_init) by done. unfold json_Valid. by destruct (scan_run scan_init s).
Qed.

Lemma marshal_RawMessage_value s v : marshal_RawMessage s = Some v -> json_value v.
Proof.
  unfold marshal_RawMessage. destruct s as [|c s]; intros H; [simplify_eq; by exists (stateEndValue, [])|].
  by eapply (appendCompact_value _ _ _ scan_init); [done|left|].
Qed.

(** ** Encoded strings are values, and determine valid UTF-8 *)

Lemma utf8_width_spec s w : utf8_width s = Some w ->
  (w = 1%nat /\ exists c s', s = c :: s' /\ code c < 128)
  \/ (2 <= w <= length s)%nat /\ Forall (fun c => 128 <= code c) (take w s).
Proof.
  unfold utf8_width, between. intros H. repeat case_match; simplify_eq; code_facts; cbn in *;
    [left; eauto|right; split; [lia|]; repeat constructor; try lia..].
  all: repeat match goal with H : orb _ _ = true |- _ => apply orb_true_iff in H as [H|H] end; code_facts; lia.
Qed.

Lemma utf8_width_take s w k : utf8_width s = Some w -> utf8_width (take w s ++ k) = Some w.
Proof.
  unfold utf8_width. intros H. destruct s as [|c s]; [done|]. destruct (code c <? 128) eqn:E1.
  { simplify_eq. cbn. by rewrite E1. }
  destruct s as [|c1 s]; [done|]. destruct (between 194 223 c && between 128 191 c1) eqn:E2.
  { simplify_eq. cbn. by rewrite E1, E2. }
  destruct s as [|c2 s]; [done|]. destruct (between 128 191 c2 && _) eqn:E3 in H.
  { simplify_eq. cbn -[andb orb]. by rewrite E1, E2, E3. }
  destruct s as [|c3 s]; [done|]. destruct (_ && _ && _) eqn:E4 in H; [|done].
  simplify_eq. cbn -[andb orb]. by rewrite E1, E2, E3, E4.
Qed.

Lemma scan_run_high ps l :
  Forall (fun c => 128 <= code c) l -> scan_run (stateInString, ps) l = Some (stateInString, ps).
Proof.
  induction 1 as [|c l Hc _ IH]; cbn; [done|]. repeat case_match; code_facts; try lia. done.
Qed.

(** The hexadecimal digits of a byte, and back. *)
Definition hex_value (c : ascii) : Z := if code c <? 58 then code c - 48 else code c - 87.

Lemma code_hex_digit z : 0 <= z < 16 -> code (hex_digit z) = if z <? 10 then 48 + z else 87 + z.
Proof. intros H. unfold hex_digit. rewrite code_byte_of; [done|]. case_match; code_facts; lia. Qed.

Lemma hex_value_digit z : 0 <= z < 16 -> hex_value (hex_digit z) = z.
Proof. intros H. unfold hex_value. rewrite code_hex_digit by lia. repeat case_match; code_facts; lia. Qed.

Lemma json_isHex_digit z : 0 <= z < 16 -> json_isHex (hex_digit z) = true.
Proof.
  intros H. unfold json_isHex, json_isDigit. rewrite code_hex_digit by lia. destruct (Z.ltb_spec z 10).
  - by rewrite (proj2 (Z.leb_le 48 _)), (proj2 (Z.leb_le _ 57)) by lia.
  - rewrite (proj2 (Z.leb_le 97 _)), (proj2 (Z.leb_le _ 102)) by lia. by destruct (_ && _).
Qed.

Lemma nibbles c : 0 <= Z.shiftr (code c) 4 < 16 /\ 0 <= Z.land (code c) 15 < 16
  /\ 16 * Z.shiftr (code c) 4 + Z.land (code c) 15 = code c.
Proof.
  pose proof (code_range c). change 15 with (Z.ones 4). rewrite Z.land_ones, Z.shiftr_div_pow2 by lia.
  change (2 ^ 4) with 16. pose proof (Z.mod_pos_bound (code c) 16). pose proof (Z.div_mod (code c) 16).
  Z.to_euclidean_division_equations. lia.
Qed.

Lemma scan_run_hex2 ps a b : json_isHex a = true -> json_isHex b = true ->
  scan_run (stateInStringEscU12, ps) [a; b] = Some (stateInString, ps).
Proof.
  intros Ha Hb. unfold scan_run, scan_step, step_hex, fst, snd. rewrite Ha. cbn [mbind option_bind].
  by rewrite Hb.
Qed.

Lemma scan_run_u00 ps c : scan_run (stateInString, ps) (u00 c) = Some (stateInString, ps).
Proof.
  destruct (nibbles c) as (H1 & H2 & _). unfold u00. rewrite scan_run_app.
  by apply scan_run_hex2; apply json_isHex_digit.
Qed.

Lemma scan_run_quote_byte ps c : scan_run (stateInString, ps) (quote_byte c) = Some (stateInString, ps).
Proof.
  unfold quote_byte. destruct ((code c =? 92) || (code c =? 34)) eqn:E.
  - apply orb_true_iff in E. rewrite !Z.eqb_eq in E.
    rewrite <-(byte_of_code c). destruct E as [E|E]; rewrite E; done.
  - apply orb_false_iff in E as [E1 E2]. repeat (case_match; [done|]).
    destruct ((code c <? 32) || json_html c) eqn:E; [apply scan_run_u00|].
    apply orb_false_iff in E as [E _]. cbn. by rewrite E1, E2, E.
Qed.

Lemma scan_run_quote_rune ps s w :
  utf8_width s = Some w -> scan_run (stateInString, ps) (quote_rune (take w s)) = Some (stateInString, ps).
Proof.
  intros H. destruct (utf8_width_spec _ _ H) as [(-> & c & s' & -> & Hc)|[Hw Hl]].
  - apply scan_run_quote_byte.
  - assert (2 <= length (take w s))%nat as Hl2 by (rewrite length_take; lia).
    destruct (take w s) as [|c [|c1 [|c2 [|c3 l]]]]; cbn in Hl2; try lia; cbn [quote_rune];
      try (by apply scan_run_high).
    destruct (is_line_sep c c1 c2) eqn:E; [|by apply scan_run_high].
    unfold is_line_sep in E. rewrite !andb_true_iff, orb_true_iff, !Z.eqb_eq in E.
    unfold u202. destruct E as [_ [E|E]]; rewrite E; done.
Qed.

Lemma scan_run_quote_body ps fuel s :
  scan_run (stateInString, ps) (quote_body fuel s) = Some (stateInString, ps).
Proof.
  revert s. induction fuel as [|fuel IH]; intros [|c s]; cbn [quote_body]; try done.
  destruct (utf8_width (c :: s)) as [w|] eqn:E.
  - rewrite scan_run_app, (scan_run_quote_rune _ _ _ E). apply IH.
  - rewrite app_assoc, scan_run_app. apply IH.
Qed.

Lemma quoted_value body :
  scan_run (stateInString, []) body = Some (stateInString, []) -> json_value (byte_of 34 :: body ++ [byte_of 34]).
Proof.
  intros H. exists (stateEndValue, []). split; [|done].
  change (byte_of 34 :: body ++ [byte_of 34]) with ([byte_of 34] ++ body ++ [byte_of 34]).
  rewrite scan_run_app. change (scan_run scan_init [byte_of 34]) with (Some (stateInString, @nil parse_state)).
  cbn [mbind option_bind]. by rewrite scan_run_app, H.
Qed.

Lemma json_quote_value s : json_value (json_quote s).
Proof. apply quoted_value, scan_run_quote_body. Qed.

(** Reading back the encoding of one rune. *)
Definition simple_escape (z : Z) : Z :=
  if z =? 98 then 8 else if z =? 102 then 12 else if z =? 110 then 10
  else if z =? 114 then 13 else if z =? 116 then 9 else z.

Definition unquote_escape (l : bytes) : option (bytes * bytes) :=
  match l with
  | [] => None
  | c :: l' =>
      if code c =? 117 then
        match l' with
        | h1 :: h2 :: h3 :: h4 :: k =>
            Some (if code h1 =? 48 then [byte_of (16 * hex_value h3 + hex_value h4)]
                  else [byte_of 226; byte_of 128; byte_of (160 + hex_value h4)], k)
        | _ => None
        end
      else Some ([byte_of (simple_escape (code c))], l')
  end.

Definition unquote_rune (l : bytes) : option (bytes * bytes) :=
  match l with
  | [] => None
  | c :: l' =>
      if code c =? 34 then None
      else if code c =? 92 then unquote_escape l'
      else w ← utf8_width l; Some (take w l, drop w l)
  end.

Lemma unquote_u00 c k : unquote_rune (u00 c ++ k) = Some ([c], k).
Proof.
  destruct (nibbles c) as (H1 & H2 & H3). unfold u00.
  change (bytes_of "\u00") with [byte_of 92; byte_of 117; byte_of 48; byte_of 48].
  unfold unquote_rune, unquote_escape. cbn [app].
  rewrite !code_byte_of by lia. cbn [Z.eqb Pos.eqb]. rewrite !hex_value_digit by done. by rewrite H3, byte_of_code.
Qed.

Lemma unquote_quote_byte c k : code c < 128 -> unquote_rune (quote_byte c ++ k) = Some ([c], k).
Proof.
  intros Hc. unfold quote_byte. destruct ((code c =? 92) || (code c =? 34)) eqn:E.
  { apply orb_true_iff in E. rewrite !Z.eqb_eq in E. rewrite <-(byte_of_code c). by destruct E as [->| ->]. }
  apply orb_false_iff in E as [E1 E2].
  repeat match goal with |- context [if code c =? ?n then _ else _] =>
    destruct (Z.eqb_spec (code c) n) as [E|_]; [rewrite <-(byte_of_code c), E; done|] end.
  destruct ((code c <? 32) || json_html c) eqn:E; [apply unquote_u00|].
  cbn [app unquote_rune]. rewrite E1, E2. unfold utf8_width.
  by rewrite (proj2 (Z.ltb_lt (code c) 128)).
Qed.

Lemma unquote_quote_rune s w k :
  utf8_width s = Some w -> unquote_rune (quote_rune (take w s) ++ k) = Some (take w s, k).
Proof.
  intros H. pose proof (utf8_width_take _ _ k H) as Ht.
  destruct (utf8_width_spec _ _ H) as [(-> & c & s' & -> & Hc)|[Hw Hl]]; [by apply unquote_quote_byte|].
  assert (length (take w s) = w) as Hlen by (rewrite length_take; lia). revert Ht Hl Hlen.
  generalize (take w s). intros r Ht Hl Hlen.
  assert (Hraw : unquote_rune (r ++ k) = Some (r, k)).
  { destruct Hl as [|c r Hc Hl]; [cbn in Hlen; lia|].
    assert (utf8_width ((c :: r) ++ k) = Some w) as Ht' by done.
    unfold unquote_rune. cbn [app]. cbn [app] in Ht'. rewrite Ht'.
    destruct (Z.eqb_spec (code c) 34), (Z.eqb_spec (code c) 92); try lia. cbn [mbind option_bind].
    change (c :: r ++ k) with ((c :: r) ++ k). by rewrite take_app_length', drop_app_length'. }
  destruct r as [|c [|c1 [|c2 [|c3 r]]]]; try (cbn in Hlen; lia); try exact Hraw. cbn [quote_rune].
  destruct (is_line_sep c c1 c2) eqn:E; [|exact Hraw].
  unfold is_line_sep in E. rewrite !andb_true_iff, orb_true_iff, !Z.eqb_eq in E. destruct E as [[E0 E1] E2].
  rewrite <-(byte_of_code c), <-(byte_of_code c1), <-(byte_of_code c2), E0, E1. by destruct E2 as [->| ->].
Qed.

(** [utf8.Valid]; the number of bytes is enough fuel. *)
Fixpoint utf8_valid_from (fuel : nat) (s : bytes) : bool :=
  match fuel, s with
  | _, [] => true
  | O, _ => false
  | S fuel', _ => match utf8_width s with Some w => utf8_valid_from fuel' (drop w s) | None => false end
  end.
Definition utf8_Valid (s : bytes) : bool := utf8_valid_from (length s) s.

Lemma quote_body_inj n m s t :
  utf8_valid_from n s = true -> utf8_valid_from m t = true ->
  quote_body n s ++ [byte_of 34] = quote_body m t ++ [byte_of 34] -> s = t.
Proof.
  revert m s t. induction n as [|n IH]; intros m s t Hs Ht H.
  - destruct s; [|done]. destruct m as [|m], t as [|c t]; try done.
    cbn [quote_body utf8_valid_from] in *. destruct (utf8_width (c :: t)) as [w|] eqn:E; [|done].
    apply (f_equal unquote_rune) in H. by rewrite <-app_assoc, unquote_quote_rune in H.
  - destruct s as [|b s]; destruct m as [|m], t as [|c t]; try done; cbn [quote_body utf8_valid_from] in *.
    + destruct (utf8_width (c :: t)) as [w|] eqn:E; [|done].
      apply (f_equal unquote_rune) in H. by rewrite <-app_assoc, unquote_quote_rune in H.
    + destruct (utf8_width (b :: s)) as [w|] eqn:E; [|done].
      apply (f_equal unquote_rune) in H. by rewrite <-app_assoc, unquote_quote_rune in H.
    + destruct (utf8_width (b :: s)) as [w|] eqn:E; [|done].
      apply (f_equal unquote_rune) in H. by rewrite <-app_assoc, unquote_quote_rune in H.
    + destruct (utf8_width (b :: s)) as [w|] eqn:E; [|done]. destruct (utf8_width (c :: t)) as [w'|] eqn:E'; [|done].
      apply (f_equal unquote_rune) in H. rewrite <-!app_assoc, !unquote_quote_rune in H by done.
      injection H as Hr Hk. rewrite <-(take_drop w (b :: s)), <-(take_drop w' (c :: t)), Hr. f_equal. eauto.
Qed.

Lemma json_quote_inj s t : utf8_Valid s = true -> utf8_Valid t = true -> json_quote s = json_quote t -> s = t.
Proof. intros Hs Ht H. injection H as H. by eapply quote_body_inj. Qed.

(** ** Integers, instants and structs *)

Lemma bytes_of_inj s t : bytes_of s = bytes_of t -> s = t.
Proof. intros H. rewrite <-(String.string_of_list_ascii_of_string s), <-(String.string_of_list_ascii_of_string t). by f_equal. Qed.

Lemma pretty_N_char_code x : (x < 10)%N -> code (pretty_N_char x) = 48 + Z.of_N x.
Proof.
  intros H. assert (x = 0 \/ x = 1 \/ x = 2 \/ x = 3 \/ x = 4 \/ x = 5 \/ x = 6 \/ x = 7 \/ x = 8 \/ x = 9)%N as Hx by lia.
  by repeat destruct Hx as [->|Hx]; [..|subst].
Qed.

Lemma scan_run_pretty (x : N) s q ps : (0 < x)%N -> q = stateBeginValue \/ q = stateNeg ->
  scan_run (q, ps) (bytes_of (pretty_N_go x s)) = scan_run (state1, ps) (bytes_of s).
Proof.
  revert s q. induction (N.lt_wf_0 x) as [x _ IH]. intros s q Hx Hq. rewrite pretty_N_go_step by done.
  pose proof (N.mod_lt x 10 ltac:(lia)) as Hm. pose proof (pretty_N_char_code _ Hm) as Hc.
  destruct (N.eq_dec (x `div` 10)%N 0%N) as [Hd|Hd].
  - rewrite Hd, pretty_N_go_0. assert (1 <= Z.of_N (x `mod` 10)%N) by (pose proof (N.div_mod x 10); lia).
    revert Hc. generalize (pretty_N_char (x `mod` 10)%N). intros c Hc. cbn [bytes_of String.list_ascii_of_string scan_run].
    assert (scan_step (q, ps) c = Some (state1, ps)) as ->; [|done].
    assert (code c ∈ [49; 50; 51; 52; 53; 54; 55; 56; 57]) as Hin.
    { rewrite !elem_of_cons. revert Hc Hm H. generalize (x `mod` 10)%N. clear. intros n. lia. }
    rewrite <-(byte_of_code c). clear - Hin Hq.
    destruct Hq as [-> | ->]; revert Hin; generalize (code c); intros z Hz;
      repeat (apply elem_of_cons in Hz as [->|Hz]; [done|]); by apply not_elem_of_nil in Hz.
  - rewrite (IH (x `div` 10)%N); [|apply N.div_lt; [done|by vm_compute]|by apply N.neq_0_lt_0|done].
    revert Hc Hm. generalize (pretty_N_char (x `mod` 10)%N). generalize (x `mod` 10)%N. intros n c Hc Hm. cbn [bytes_of String.list_ascii_of_string scan_run].
    assert (scan_step (state1, ps) c = Some (state1, ps)) as ->; [|done].
    cbn. unfold json_isDigit. by rewrite (proj2 (Z.leb_le 48 _)), (proj2 (Z.leb_le _ 57)) by lia.
Qed.

Lemma marshal_int_value n : json_value (marshal_int n).
Proof.
  unfold marshal_int, strconv_Itoa. destruct n as [|p|p].
  - by exists (state0, []).
  - exists (state1, []). split; [|done]. apply (scan_run_pretty (N.pos p) "" stateBeginValue []); [done|by left].
  - exists (state1, []). split; [|done]. apply (scan_run_pretty (N.pos p) "" stateNeg []); [done|by right].
Qed.

Lemma marshal_int_inj n m : marshal_int n = marshal_int m -> n = m.
Proof. intros H%bytes_of_inj. by apply (inj pretty). Qed.

Lemma scan_run_plain ps l :
  Forall (fun c => 35 <= code c < 92) l -> scan_run (stateInString, ps) l = Some (stateInString, ps).
Proof. induction 1 as [|c l Hc _ IH]; cbn; [done|]. repeat case_match; code_facts; try lia. done. Qed.

Lemma trim_zeros_Forall P l : Forall P l -> Forall P (trim_zeros l).
Proof.
  induction 1 as [|c l Hc _ IH]; [constructor|]. cbn. destruct (trim_zeros l); [case_match; auto|by constructor].
Qed.

Lemma rfc3339nano_plain t : Forall (fun c => 35 <= code c < 92) (rfc3339nano t).
Proof.
  assert (Hp : forall w n, Forall (fun c => 35 <= code c < 92) (pad_decimal w n)).
  { intros w n. eapply Forall_impl; [apply pad_decimal_digits|]. cbn. lia. }
  unfold rfc3339nano. destruct (civil_of_days _) as [[y m] d]. rewrite !Forall_app. split_and!; auto; try (by repeat constructor).
  destruct (trim_zeros _) eqn:E; [constructor|]. rewrite <-E. apply Forall_app. split; [by repeat constructor|].
  by apply trim_zeros_Forall.
Qed.

Lemma marshal_time_value t v : marshal_time t = Some v -> json_value v.
Proof.
  unfold marshal_time. intros H. case_match; [|done].
  assert (byte_of 34 :: rfc3339nano t ++ [byte_of 34] = v) as <- by congruence.
  apply quoted_value, scan_run_plain, rfc3339nano_plain.
Qed.

Lemma marshal_time_inj t u v : marshal_time t = Some v -> marshal_time u = Some v -> t = u.
Proof.
  unfold marshal_time. intros H1 H2. repeat case_match; try done. code_facts.
  assert (byte_of 34 :: rfc3339nano t ++ [byte_of 34] = byte_of 34 :: rfc3339nano u ++ [byte_of 34]) as E by congruence.
  apply (f_equal tail) in E. cbn [tail] in E. apply app_inj_tail in E as [E _].
  apply rfc3339nano_inj; [lia..|done].
Qed.

Lemma marshal_string_ptr_value o : json_value (marshal_string_ptr o).
Proof. destruct o; [apply json_quote_value|by exists (stateEndValue, [])]. Qed.

(** Two structs of the same type with the same encoding have the same encoded
    fields. *)
Lemma json_fields_inj fs gs c d r k :
  fs.*1 = gs.*1 -> fs <> [] -> Forall json_value fs.*2 -> Forall json_value gs.*2 ->
  (code c = 44 \/ code c = 125) -> (code d = 44 \/ code d = 125) ->
  json_fields fs ++ c :: r = json_fields gs ++ d :: k -> fs.*2 = gs.*2.
Proof.
  intros Hn Hne Hf Hg Hc Hd. revert gs Hn Hg. induction fs as [|[x v] fs IH]; intros gs Hn Hg H; [done|].
  destruct gs as [|[y u] gs]; [done|]. cbn in Hn. injection Hn as -> Hn.
  apply Forall_cons in Hf as [Hv Hf]. apply Forall_cons in Hg as [Hu Hg]. cbn in Hv, Hu.
  destruct fs as [|f fs], gs as [|g gs]; try done.
  - cbn [json_fields] in H. unfold json_field in H. cbn [fst snd] in H. rewrite <-!app_assoc in H.
    apply app_inv_head in H. injection H as H.
    by destruct (json_value_delimited v u c d r k) as [-> _].
  - change (json_fields ((y, v) :: f :: fs)) with (json_field (y, v) ++ byte_of 44 :: json_fields (f :: fs)) in H.
    change (json_fields ((y, u) :: g :: gs)) with (json_field (y, u) ++ byte_of 44 :: json_fields (g :: gs)) in H.
    unfold json_field in H. rewrite <-!app_assoc in H. apply app_inv_head in H. injection H as H.
    destruct (json_value_delimited v u (byte_of 44) (byte_of 44) (json_fields (f :: fs) ++ c :: r)
      (json_fields (g :: gs) ++ d :: k)) as (-> & _ & H'); [done|done|by left|by left| |].
    { exact H. }
    change (u :: (f :: fs).*2 = u :: (g :: gs).*2). f_equal. by apply (IH ltac:(done) Hf (g :: gs)).
Qed.

Lemma json_object_inj fs gs :
  fs.*1 = gs.*1 -> Forall json_value fs.*2 -> Forall json_value gs.*2 ->
  json_object fs = json_object gs -> fs.*2 = gs.*2.
Proof.
  intros Hn Hf Hg H. injection H as H. destruct fs as [|f fs]; [by destruct gs|].
  eapply json_fields_inj; [done|done|done|done| | |exact H]; by right.
Qed.
