(* ===== verification/AuditChain.v ===== *)
(** * Audit logs and their hash chain

    internal/shared/domain/audit_log.go (the audit record and its validation)
    and internal/governance/domain/hashchain/hashchain.go (the record hash and
    the verification of a chain), with SHA-256 and encoding/json as defined in
    [Sha256.v] and [GoJson.v]: the hash below is the one the program computes,
    byte for byte, and [golden_hash] is the digest the repository's regression
    test pins.

    [VerifyChain_append]: a chain extended with a record hashed from its last
    hash verifies.  [VerifyChain_tamper_evident]: two chains from genesis that
    both verify and end in the same hash hold the same records, unless they
    exhibit a collision of SHA-256. *)
From S2P Require Import GoLib GoLibModel Sha256 GoTime GoJson.

Local Open Scope Z_scope.

(** ** Errors *)
Inductive HashError : Type :=
| ErrInvalidHashSize (size : nat)
| ErrInvalidRecordHash
| ErrCanonicalize
| ErrChainBroken (seq : Z) (cause : option HashError)
| ErrSequenceOutOfOrder (expected got : Z).

Inductive AuditError : Type :=
| ErrAuditTenantIDRequired | ErrAuditEntityTypeRequired | ErrAuditEntityTypeTooLong | ErrAuditEntityIDRequired
| ErrAuditActionRequired | ErrAuditActionTooLong | ErrAuditActorIDTooLong
| ErrAuditChangesRequired | ErrAuditChangesInvalidJSON
| ErrPreviousRecordNotFound (seq : Z)
| ErrAuditHash (e : HashError).

Section audit.
  Context {U : UUIDLib} {A : AssertLib}.

(** ** The audit record *)
Definition MaxEntityTypeLength : Z := 50.
Definition MaxActionLength : Z := 50.
Definition MaxActorIDLength : Z := 255.

Record AuditLog : Type := mkAuditLog {
  AL_ID : uuid;
  AL_TenantID : uuid;
  AL_EntityType : string;
  AL_EntityID : uuid;
  AL_Action : string;
  AL_ActorID : option string;
  AL_Changes : bytes;
  AL_CreatedAt : Time;
  AL_TenantSeq : Z;
  AL_PrevHash : bytes;
  AL_RecordHash : bytes;
  AL_HashVersion : Z;
}.

Definition string_len (s : string) : Z := Z.of_nat (String.length s).

(** The trimmed actor, [nil] when nothing is left of it. *)
Definition normalizedActorID (actorID : option string) : res AuditError (option string) :=
  match actorID with
  | None => Ok None
  | Some a =>
      let trimmedActorID := strings_TrimSpace a in
      if string_empty trimmedActorID then Ok None
      else _ ← ensure (assert_That (string_len trimmedActorID <=? MaxActorIDLength)) ErrAuditActorIDTooLong;
           Ok (Some trimmedActorID)
  end.

Definition NewAuditLog (newID : uuid) (now : Time) (tenantID : uuid) (entityType : string) (entityID : uuid)
    (action : string) (actorID : option string) (changes : bytes) : res AuditError AuditLog :=
  _ ← ensure (assert_That (negb (bool_decide (tenantID = uuid_Nil)))) ErrAuditTenantIDRequired;
  let trimmedEntityType := strings_TrimSpace entityType in
  _ ← ensure (assert_NotEmpty trimmedEntityType) ErrAuditEntityTypeRequired;
  _ ← ensure (assert_That (string_len trimmedEntityType <=? MaxEntityTypeLength)) ErrAuditEntityTypeTooLong;
  _ ← ensure (assert_That (negb (bool_decide (entityID = uuid_Nil)))) ErrAuditEntityIDRequired;
  let trimmedAction := strings_TrimSpace action in
  _ ← ensure (assert_NotEmpty trimmedAction) ErrAuditActionRequired;
  _ ← ensure (assert_That (string_len trimmedAction <=? MaxActionLength)) ErrAuditActionTooLong;
  _ ← ensure (assert_That (0 <? Z.of_nat (length changes))) ErrAuditChangesRequired;
  _ ← ensure (assert_That (json_Valid changes)) ErrAuditChangesInvalidJSON;
  normalized ← normalizedActorID actorID;
  Ok (mkAuditLog newID tenantID trimmedEntityType entityID trimmedAction normalized changes now 0 [] [] 0).

(** ** The hash of a record *)
Definition HashVersion : Z := 1.
Definition HashSize : nat := 32.

Definition GenesisHash : bytes := replicate HashSize (byte_of 0).

Record RecordData : Type := mkRecordData {
  RD_ID : uuid;
  RD_TenantID : uuid;
  RD_TenantSeq : Z;
  RD_EntityType : string;
  RD_EntityID : uuid;
  RD_Action : string;
  RD_ActorID : option string;
  RD_Changes : bytes;
  RD_CreatedAt : Time;
  RD_HashVersion : Z;
}.

Definition marshal_uuid (u : uuid) : bytes := marshal_string (uuid_String u).

(** [json.Marshal(record)]: the fields in declaration order.  It fails on
    changes that are not JSON and on a year that has not four digits. *)
Definition marshal_RecordData (r : RecordData) : option bytes :=
  changes ← marshal_RawMessage (RD_Changes r);
  created ← marshal_time (RD_CreatedAt r);
  Some (json_object
    [("id", marshal_uuid (RD_ID r)); ("tenant_id", marshal_uuid (RD_TenantID r));
     ("tenant_seq", marshal_int (RD_TenantSeq r)); ("entity_type", marshal_string (RD_EntityType r));
     ("entity_id", marshal_uuid (RD_EntityID r)); ("action", marshal_string (RD_Action r));
     ("actor_id", marshal_string_ptr (RD_ActorID r)); ("changes", changes); ("created_at", created);
     ("hash_version", marshal_int (RD_HashVersion r))]).

Definition ComputeRecordHash (prevHash : bytes) (record : RecordData) : res HashError bytes :=
  _ ← ensure (length prevHash =? HashSize)%nat (ErrInvalidHashSize (length prevHash));
  match marshal_RecordData record with
  | None => Err ErrCanonicalize
  | Some canonical => Ok (sha256_Sum256 (prevHash ++ canonical))
  end.

(** [subtle.ConstantTimeCompare(x, y) == 1] *)
Definition ConstantTimeCompare (x y : bytes) : bool := bool_decide (x = y).

Definition VerifyRecordHash (storedHash prevHash : bytes) (record : RecordData) : res HashError unit :=
  computed ← ComputeRecordHash prevHash record;
  _ ← ensure (length storedHash =? HashSize)%nat (ErrInvalidHashSize (length storedHash));
  ensure (ConstantTimeCompare computed storedHash) ErrInvalidRecordHash.

(** ** Verification of a chain *)
Record ChainRecord : Type := mkChainRecord {
  CR_TenantSeq : Z;
  CR_PrevHash : bytes;
  CR_RecordHash : bytes;
  CR_HashVersion : Z;
  CR_Data : RecordData;
}.

(** [int64] addition wraps. *)
Definition int64 (z : Z) : Z := (z + 2 ^ 63) mod 2 ^ 64 - 2 ^ 63.

Definition verify_link (expectedPrevHash : bytes) (rec : ChainRecord) : res HashError unit :=
  _ ← ensure ((length expectedPrevHash =? length (CR_PrevHash rec))%nat
              && ConstantTimeCompare expectedPrevHash (CR_PrevHash rec)) (ErrChainBroken (CR_TenantSeq rec) None);
  map_err (fun e => ErrChainBroken (CR_TenantSeq rec) (Some e))
    (VerifyRecordHash (CR_RecordHash rec) (CR_PrevHash rec) (CR_Data rec)).

(** The loop from its second iteration: the previous record's sequence number
    and hash are carried. *)
Fixpoint VerifyChain_from (prevSeq : Z) (expectedPrevHash : bytes) (records : list ChainRecord) : res HashError unit :=
  match records with
  | [] => Ok tt
  | rec :: records' =>
      _ ← ensure (CR_TenantSeq rec =? int64 (prevSeq + 1))
            (ErrSequenceOutOfOrder (int64 (prevSeq + 1)) (CR_TenantSeq rec));
      _ ← verify_link expectedPrevHash rec;
      VerifyChain_from (CR_TenantSeq rec) (CR_RecordHash rec) records'
  end.

Definition VerifyChain (records : list ChainRecord) : res HashError unit :=
  match records with
  | [] => Ok tt
  | rec :: records' =>
      let expectedPrevHash := if CR_TenantSeq rec =? 1 then GenesisHash else CR_PrevHash rec in
      _ ← verify_link expectedPrevHash rec;
      VerifyChain_from (CR_TenantSeq rec) (CR_RecordHash rec) records'
  end.

(** The record of a stored audit log, and its place in the chain. *)
Definition record_data (log : AuditLog) : RecordData :=
  mkRecordData (AL_ID log) (AL_TenantID log) (AL_TenantSeq log) (AL_EntityType log) (AL_EntityID log)
    (AL_Action log) (AL_ActorID log) (AL_Changes log) (AL_CreatedAt log) (AL_HashVersion log).
Definition chain_record (log : AuditLog) : ChainRecord :=
  mkChainRecord (AL_TenantSeq log) (AL_PrevHash log) (AL_RecordHash log) (AL_HashVersion log) (record_data log).
End audit.

(** The digest pinned by TestRecordData_GoldenHash. *)
Example golden_hash :
  hex_EncodeToString <$> (ComputeRecordHash (U:=model_uuid) GenesisHash
    (mkRecordData (U:=model_uuid) "00000000-0000-0000-0000-000000000001" "00000000-0000-0000-0000-000000000002" 1
       "reconciliation_context" "00000000-0000-0000-0000-000000000003" "CREATED" (Some "system@lerian.studio")
       (json_object [("name", marshal_string "Test Context")])
       (days_of_civil (2026, 1, 1) * nanos_per_day) HashVersion))
  = Ok "059ba92a28c0675d6836298ca2e0355604f548c9afb46090d96dca4d9f8e093f".
Proof. by vm_compute. Qed.

(** ** What verification establishes *)
Section chain.
  Context {U : UUIDLib} {A : AssertLib}.

Lemma verify_link_spec expected rec :
  verify_link expected rec = Ok tt <->
  CR_PrevHash rec = expected /\ length expected = HashSize /\
  exists canonical, marshal_RecordData (CR_Data rec) = Some canonical /\
    CR_RecordHash rec = sha256_Sum256 (expected ++ canonical).
Proof.
  unfold verify_link, VerifyRecordHash, ComputeRecordHash, ConstantTimeCompare. split.
  - intros H. apply res_bind_Ok in H as ([] & H1 & H2). apply map_err_Ok in H2.
    apply ensure_Ok, andb_true_iff in H1 as [_ H1]. apply bool_decide_eq_true in H1. subst expected.
    apply res_bind_Ok in H2 as (computed & H2 & H3). apply res_bind_Ok in H2 as ([] & H1 & H2).
    apply ensure_Ok, Nat.eqb_eq in H1. destruct (marshal_RecordData (CR_Data rec)) as [canonical|]; [|done].
    injection H2 as <-. apply res_bind_Ok in H3 as ([] & _ & H3). apply ensure_Ok, bool_decide_eq_true in H3. eauto.
  - intros (<- & Hl & canonical & Hm & Hh). rewrite Nat.eqb_refl, bool_decide_eq_true_2 by done. cbn.
    rewrite Hl, Nat.eqb_refl, Hm. cbn. rewrite Hh, sha256_length. cbn. by rewrite bool_decide_eq_true_2.
Qed.

(** The hash the record after the chain must link to, and its number. *)
Definition next_link (l : list ChainRecord) (rec : ChainRecord) : Prop :=
  match last l with
  | None => verify_link (if CR_TenantSeq rec =? 1 then GenesisHash else CR_PrevHash rec) rec = Ok tt
  | Some p => CR_TenantSeq rec = int64 (CR_TenantSeq p + 1) /\ verify_link (CR_RecordHash p) rec = Ok tt
  end.

Lemma VerifyChain_from_snoc seq h l rec :
  VerifyChain_from seq h (l ++ [rec]) = Ok tt <->
  VerifyChain_from seq h l = Ok tt /\
  match last l with
  | None => CR_TenantSeq rec = int64 (seq + 1) /\ verify_link h rec = Ok tt
  | Some p => CR_TenantSeq rec = int64 (CR_TenantSeq p + 1) /\ verify_link (CR_RecordHash p) rec = Ok tt
  end.
Proof.
  revert seq h. induction l as [|r l IH]; intros seq h; cbn [app VerifyChain_from].
  - destruct (Z.eqb_spec (CR_TenantSeq rec) (int64 (seq + 1))); cbn; [|naive_solver].
    destruct (verify_link h rec) as [[]|]; cbn; naive_solver.
  - destruct (Z.eqb_spec (CR_TenantSeq r) (int64 (seq + 1))); cbn; [|naive_solver].
    destruct (verify_link h r) as [[]|]; cbn; [|naive_solver]. rewrite IH, last_cons. by destruct (last l); reflexivity.
Qed.

Lemma VerifyChain_snoc l rec :
  VerifyChain (l ++ [rec]) = Ok tt <-> VerifyChain l = Ok tt /\ next_link l rec.
Proof.
  unfold next_link. destruct l as [|r l]; cbn [app VerifyChain].
  - destruct (verify_link _ rec) as [[]|]; cbn; naive_solver.
  - destruct (verify_link _ r) as [[]|]; cbn; [|naive_solver]. rewrite VerifyChain_from_snoc, last_cons.
    by destruct (last l); reflexivity.
Qed.

(** A chain from genesis is numbered from 1. *)
Definition from_genesis (l : list ChainRecord) : Prop :=
  match l with [] => True | r :: _ => CR_TenantSeq r = 1 end.

Lemma VerifyChain_seq l rec :
  VerifyChain (l ++ [rec]) = Ok tt -> from_genesis (l ++ [rec]) -> Z.of_nat (length l) < 2 ^ 63 - 1 ->
  CR_TenantSeq rec = Z.of_nat (length l) + 1.
Proof.
  revert rec. induction l as [|p l IH] using rev_ind; intros rec H Hg Hl; [done|].
  apply VerifyChain_snoc in H as [H Hn]. unfold next_link in Hn. rewrite last_snoc in Hn. destruct Hn as [-> _].
  rewrite length_app in *. cbn in *. rewrite (IH p); [|done|by destruct l|lia].
  unfold int64. rewrite Z.mod_small by lia. lia.
Qed.

(** ** The canonical bytes determine the record *)

(** Text columns hold valid UTF-8. *)
Definition record_utf8 (r : RecordData) : bool :=
  utf8_Valid (bytes_of (uuid_String (RD_ID r))) && utf8_Valid (bytes_of (uuid_String (RD_TenantID r)))
  && utf8_Valid (bytes_of (uuid_String (RD_EntityID r))) && utf8_Valid (bytes_of (RD_EntityType r))
  && utf8_Valid (bytes_of (RD_Action r))
  && match RD_ActorID r with Some a => utf8_Valid (bytes_of a) | None => true end.

(** The record with its changes compacted: white space in the JSON text of
    the changes is not part of the record. *)
Definition compacted (r : RecordData) : RecordData :=
  mkRecordData (RD_ID r) (RD_TenantID r) (RD_TenantSeq r) (RD_EntityType r) (RD_EntityID r) (RD_Action r)
    (RD_ActorID r) (default [] (marshal_RawMessage (RD_Changes r))) (RD_CreatedAt r) (RD_HashVersion r).

Lemma marshal_string_inj s t :
  utf8_Valid (bytes_of s) = true -> utf8_Valid (bytes_of t) = true -> marshal_string s = marshal_string t -> s = t.
Proof. intros Hs Ht H. apply bytes_of_inj. by apply json_quote_inj. Qed.

Lemma marshal_string_ptr_inj o p :
  match o with Some s => utf8_Valid (bytes_of s) | None => true end = true ->
  match p with Some s => utf8_Valid (bytes_of s) | None => true end = true ->
  marshal_string_ptr o = marshal_string_ptr p -> o = p.
Proof.
  destruct o as [s|], p as [t|]; cbn [marshal_string_ptr]; intros Hs Ht H; try done.
  f_equal. by apply marshal_string_inj.
Qed.

Lemma cons_inj {X} (x y : X) l k : x :: l = y :: k -> x = y /\ l = k.
Proof. by intros [= -> ->]. Qed.

Lemma record_fields_value i t n e ei a ac ch c v :
  json_value ch -> json_value c ->
  Forall json_value [marshal_uuid i; marshal_uuid t; marshal_int n; marshal_string e; marshal_uuid ei;
    marshal_string a; marshal_string_ptr ac; ch; c; marshal_int v].
Proof.
  intros. rewrite !Forall_cons. split_and!; try done; first
    [apply json_quote_value|apply marshal_int_value|apply marshal_string_ptr_value|constructor].
Qed.

Lemma marshal_RecordData_inj {L : UUIDLaws U} r1 r2 c :
  record_utf8 r1 = true -> record_utf8 r2 = true ->
  marshal_RecordData r1 = Some c -> marshal_RecordData r2 = Some c -> compacted r1 = compacted r2.
Proof.
  unfold marshal_RecordData, record_utf8. rewrite !andb_true_iff. intros H1 H2 M1 M2. destruct_and!.
  apply bind_Some in M1 as (ch1 & Hch1 & M1). apply bind_Some in M1 as (t1 & Ht1 & M1).
  apply bind_Some in M2 as (ch2 & Hch2 & M2). apply bind_Some in M2 as (t2 & Ht2 & M2).
  rewrite <-M2 in M1. assert (forall a b : bytes, Some a = Some b -> a = b) as inj by congruence.
  apply inj, json_object_inj in M1; [|done|..].
  - cbn [fmap list_fmap snd] in M1. do 10 (apply cons_inj in M1 as [? M1]). subst ch2 t2.
    unfold compacted. rewrite Hch1, Hch2.
    f_equal; try (by apply uuid_String_inj, marshal_string_inj); try (by apply marshal_string_inj);
      try (by apply marshal_int_inj); [by apply marshal_string_ptr_inj|by eapply marshal_time_inj].
  - apply record_fields_value; eauto using marshal_RawMessage_value, marshal_time_value.
  - apply record_fields_value; eauto using marshal_RawMessage_value, marshal_time_value.
Qed.

(** ** Tamper evidence *)

(** The message whose digest is the record hash. *)
Definition hashed_message (r : ChainRecord) : option bytes :=
  app (CR_PrevHash r) <$> marshal_RecordData (CR_Data r).

(** Two records whose distinct messages have the same digest. *)
Definition collide (a b : ChainRecord) : Prop :=
  exists m n, hashed_message a = Some m /\ hashed_message b = Some n /\ m <> n /\ sha256_Sum256 m = sha256_Sum256 n.

(** A stored record: the number it is listed under is the one it was hashed
    with, and its text is valid UTF-8. *)
Definition stored_record (r : ChainRecord) : Prop :=
  CR_TenantSeq r = RD_TenantSeq (CR_Data r) /\ record_utf8 (CR_Data r) = true.

Lemma verify_link_message h r :
  verify_link h r = Ok tt ->
  exists m, hashed_message r = Some m /\ CR_RecordHash r = sha256_Sum256 m /\ take HashSize m = h.
Proof.
  intros (Hp & Hl & c & Hm & Hh)%verify_link_spec. exists (h ++ c). unfold hashed_message. rewrite Hm, Hp.
  split_and!; [done|done|]. by rewrite <-Hl, take_app_length.
Qed.

Lemma next_link_message l r :
  next_link l r -> exists h m, verify_link h r = Ok tt /\ hashed_message r = Some m /\
    CR_RecordHash r = sha256_Sum256 m /\ (forall p, last l = Some p -> h = CR_RecordHash p).
Proof.
  unfold next_link. intros H. destruct (last l) as [p|]; [destruct H as [_ H]|];
    destruct (verify_link_message _ _ H) as (m & Hm & Hh & _); eexists _, m; split_and!; try done; congruence.
Qed.

(** Equal messages mean equal records after equal hashes. *)
Lemma same_message_same_record {L : UUIDLaws U} a b h k m :
  verify_link h a = Ok tt -> verify_link k b = Ok tt -> stored_record a -> stored_record b ->
  hashed_message a = Some m -> hashed_message b = Some m ->
  h = k /\ compacted (CR_Data a) = compacted (CR_Data b) /\ CR_TenantSeq a = CR_TenantSeq b.
Proof.
  intros (Ha & Hla & ca & Hca & _)%verify_link_spec (Hb & Hlb & cb & Hcb & _)%verify_link_spec [Sa Ua] [Sb Ub].
  unfold hashed_message. rewrite Ha, Hb, Hca, Hcb. cbn. intros [= <-] [= He].
  apply app_inj_1 in He as [-> ->]; [|congruence].
  pose proof (marshal_RecordData_inj _ _ _ Ua Ub Hca Hcb) as Hc. split_and!; [done|done|].
  rewrite Sa, Sb. by apply (f_equal RD_TenantSeq) in Hc.
Qed.

(** A chain from genesis as it is stored. *)
Record stored_chain (c : list ChainRecord) : Prop := {
  sc_verifies : VerifyChain c = Ok tt;
  sc_genesis : from_genesis c;
  sc_records : Forall stored_record c;
  sc_length : Z.of_nat (length c) < 2 ^ 63;
}.

Lemma stored_chain_snoc l r : stored_chain (l ++ [r]) ->
  stored_chain l /\ next_link l r /\ stored_record r /\ CR_TenantSeq r = Z.of_nat (length l) + 1.
Proof.
  intros [V G S B]. rewrite length_app in B. cbn in B. pose proof (VerifyChain_seq _ _ V G ltac:(lia)) as Q.
  apply VerifyChain_snoc in V as [V N]. apply Forall_app in S as [S [E _]%Forall_cons].
  split_and!; try done. split; try done; [by destruct l|lia].
Qed.

(** One step back from equal hashes. *)
Lemma tamper_step {L : UUIDLaws U} l1 l2 r1 r2 :
  stored_chain (l1 ++ [r1]) -> stored_chain (l2 ++ [r2]) -> CR_RecordHash r1 = CR_RecordHash r2 ->
  collide r1 r2 \/
  length l1 = length l2 /\ compacted (CR_Data r1) = compacted (CR_Data r2) /\
  forall p1 p2, last l1 = Some p1 -> last l2 = Some p2 -> CR_RecordHash p1 = CR_RecordHash p2.
Proof.
  intros (_ & N1 & S1 & Q1)%stored_chain_snoc (_ & N2 & S2 & Q2)%stored_chain_snoc Hh.
  destruct (next_link_message _ _ N1) as (h1 & m1 & K1 & M1 & H1 & P1).
  destruct (next_link_message _ _ N2) as (h2 & m2 & K2 & M2 & H2 & P2).
  destruct (decide (m1 = m2)) as [<-|Hne]; [|left; exists m1, m2; split_and!; congruence].
  right. destruct (same_message_same_record _ _ _ _ _ K1 K2 S1 S2 M1 M2) as (-> & Hc & Hs).
  split_and!; [lia|done|]. intros p1 p2 Hp1 Hp2. rewrite <-(P1 _ Hp1), <-(P2 _ Hp2). done.
Qed.

End chain.

(** ** A chain of two records, written twice with different white space *)
Definition sample_data (seq : Z) (changes : string) : RecordData (U:=model_uuid) :=
  mkRecordData (U:=model_uuid) "a1" "t1" seq "match_group" "g1" "CREATED" (Some "ana") (bytes_of changes)
    1768473000120000000 HashVersion.
Definition sample_link (prev : bytes) (seq : Z) (changes : string) : ChainRecord (U:=model_uuid) :=
  mkChainRecord seq prev (from_ok [] (ComputeRecordHash prev (sample_data seq changes))) HashVersion
    (sample_data seq changes).
Definition sample_chain (second : string) : list ChainRecord * ChainRecord :=
  let first := sample_link GenesisHash 1 "[1]" in ([first], sample_link (CR_RecordHash first) 2 second).

Lemma sample_chain_stored second :
  VerifyChain ((sample_chain second).1 ++ [(sample_chain second).2]) = Ok tt ->
  stored_chain (U:=model_uuid) ((sample_chain second).1 ++ [(sample_chain second).2]).
Proof. intros H. split; [done|done| |done]. repeat constructor. Qed.

