(* ===== verification/FeeStructure.v ===== *)
(** * Money and fee structures

    Models internal/shared/domain/fee: [errors.go], [money.go] and
    [fee_structure.go].  The three implementations of the [FeeStructure]
    interface are the constructors of [FeeStructure], and its methods dispatch
    on them.  The main results are that a validated tiered fee computes the
    marginal fee of [marginal_fee], and that every validated structure charges
    between nothing and (flat fees apart) the whole amount. *)
From S2P Require Import GoLib GoLibModel.

(** ** Errors (errors.go); [ErrAssertion] is an error of the assert package
    that no sentinel wraps *)
Inductive FeeError : Type :=
| ErrNilFeeStructure | ErrInvalidCurrency | ErrCurrencyMismatch | ErrNegativeAmount
| ErrInvalidPercentageRate | ErrInvalidTieredDefinition | ErrToleranceNegative
| ErrScheduleTenantIDRequired | ErrScheduleNameRequired | ErrScheduleNameTooLong
| ErrScheduleItemsRequired | ErrDuplicateItemPriority | ErrInvalidApplicationOrder
| ErrInvalidRoundingScale | ErrInvalidRoundingMode | ErrItemNameRequired | ErrNilSchedule
| ErrGrossConvergenceFailed | ErrFeeScheduleNotFound
| ErrFeeRuleNameRequired | ErrFeeRuleNameTooLong | ErrFeeRuleScheduleIDRequired
| ErrFeeRuleContextIDRequired | ErrFeeRuleNotFound | ErrFeeRuleCountLimitExceeded
| ErrFeeRulePriorityNegative | ErrInvalidMatchingSide | ErrInvalidPredicateOperator
| ErrPredicateFieldRequired | ErrPredicateFieldTooLong | ErrPredicateValueRequired
| ErrPredicateValueForbidden | ErrPredicateValueTooLong | ErrPredicateValuesRequired
| ErrPredicateValuesForbidden | ErrPredicateValuesTooMany | ErrFeeRuleTooManyPredicates
| ErrAssertion.

#[export] Instance FeeError_eq_dec : EqDecision FeeError.
Proof. solve_decision. Defined.

(** ** Currencies (money.go) *)
Definition validCurrencies : list string :=
  ["AED"; "AFN"; "ALL"; "AMD"; "ANG"; "AOA"; "ARS"; "AUD"; "AWG"; "AZN";
   "BAM"; "BBD"; "BDT"; "BGN"; "BHD"; "BIF"; "BMD"; "BND"; "BOB"; "BRL";
   "BSD"; "BTN"; "BWP"; "BYN"; "BZD"; "CAD"; "CDF"; "CHF"; "CLP"; "CNY";
   "COP"; "CRC"; "CUP"; "CVE"; "CZK"; "DJF"; "DKK"; "DOP"; "DZD"; "EGP";
   "ERN"; "ETB"; "EUR"; "FJD"; "FKP"; "GBP"; "GEL"; "GHS"; "GIP"; "GMD";
   "GNF"; "GTQ"; "GYD"; "HKD"; "HNL"; "HTG"; "HUF"; "IDR"; "ILS";
   "INR"; "IQD"; "IRR"; "ISK"; "JMD"; "JOD"; "JPY"; "KES"; "KGS"; "KHR";
   "KMF"; "KPW"; "KRW"; "KWD"; "KYD"; "KZT"; "LAK"; "LBP"; "LKR"; "LRD";
   "LSL"; "LYD"; "MAD"; "MDL"; "MGA"; "MKD"; "MMK"; "MNT"; "MOP"; "MRU";
   "MUR"; "MVR"; "MWK"; "MXN"; "MYR"; "MZN"; "NAD"; "NGN"; "NIO"; "NOK";
   "NPR"; "NZD"; "OMR"; "PAB"; "PEN"; "PGK"; "PHP"; "PKR"; "PLN"; "PYG";
   "QAR"; "RON"; "RSD"; "RUB"; "RWF"; "SAR"; "SBD"; "SCR"; "SDG"; "SEK";
   "SGD"; "SHP"; "SLE"; "SOS"; "SRD"; "SSP"; "STN"; "SVC"; "SYP"; "SZL";
   "THB"; "TJS"; "TMT"; "TND"; "TOP"; "TRY"; "TTD"; "TWD"; "TZS"; "UAH";
   "UGX"; "USD"; "UYU"; "UZS"; "VES"; "VND"; "VUV"; "WST"; "XAF"; "XCD";
   "XOF"; "XPF"; "YER"; "ZAR"; "ZMW"; "ZWL"].

Section money.
  Context {D : DecimalLib} {N : UnicodeLib}.

Record Money : Type := mkMoney {
  Money_Amount : decimal;
  Money_Currency : string;
}.

Definition NormalizeCurrency (currency : string) : res FeeError string :=
  let normalized := strings_ToUpper (strings_TrimSpace currency) in
  if string_empty normalized then Err ErrInvalidCurrency
  else if bool_decide (normalized ∈ validCurrencies) then Ok normalized
  else Err ErrInvalidCurrency.

Definition NewMoney (amount : decimal) (currency : string) : res FeeError Money :=
  normalized ← NormalizeCurrency currency;
  Ok (mkMoney amount normalized).
End money.

(** ** Fee structures (fee_structure.go) *)
Section structures.
  Context {D : DecimalLib} {T : AssertLib}.

Record Tier : Type := mkTier {
  Tier_UpTo : option decimal;
  Tier_Rate : decimal;
}.

Inductive FeeStructure : Type :=
| FlatFee (Amount : decimal)
| PercentageFee (Rate : decimal)
| TieredFee (Tiers : list Tier).

Inductive FeeStructureType : Type :=
| FeeStructureFlat | FeeStructurePercentage | FeeStructureTiered.

Definition FeeStructure_Type (s : FeeStructure) : FeeStructureType :=
  match s with
  | FlatFee _ => FeeStructureFlat
  | PercentageFee _ => FeeStructurePercentage
  | TieredFee _ => FeeStructureTiered
  end.

Definition FlatFee_Validate (amount : decimal) : res FeeError unit :=
  ensure (assert_That (negb (dec_IsNegative amount))) ErrAssertion.

Definition FlatFee_Calculate (amount : decimal) : res FeeError decimal :=
  _ ← FlatFee_Validate amount;
  Ok amount.

Definition PercentageFee_Validate (rate : decimal) : res FeeError unit :=
  _ ← ensure (assert_That (negb (dec_IsNegative rate))) ErrInvalidPercentageRate;
  ensure (assert_That (negb (dec_GreaterThan rate (dec_NewFromInt 1)))) ErrInvalidPercentageRate.

Definition PercentageFee_Calculate (rate baseAmount : decimal) : res FeeError decimal :=
  if dec_IsNegative baseAmount then Err ErrNegativeAmount else
  _ ← PercentageFee_Validate rate;
  Ok (dec_Mul baseAmount rate).

Definition calculateTierCap (tier : Tier) (lower remaining : decimal) : decimal :=
  match Tier_UpTo tier with
  | None => remaining
  | Some upTo =>
      let maxInBracket := dec_Sub upTo lower in
      if dec_LessThanOrEqual maxInBracket dec_Zero then dec_Zero
      else if dec_GreaterThan remaining maxInBracket then maxInBracket
      else remaining
  end.

(** The loop of [TieredFee.Validate], with its two loop variables. *)
Fixpoint validateTiers (prevUpper : decimal) (seenInfinite : bool) (tiers : list Tier)
  : res FeeError unit :=
  match tiers with
  | [] => Ok tt
  | tier :: rest =>
      if seenInfinite then Err ErrInvalidTieredDefinition
      else if dec_IsNegative (Tier_Rate tier) || dec_GreaterThan (Tier_Rate tier) (dec_NewFromInt 1)
      then Err ErrInvalidTieredDefinition
      else match Tier_UpTo tier with
      | None => validateTiers prevUpper true rest
      | Some upper =>
          if dec_LessThanOrEqual upper dec_Zero then Err ErrInvalidTieredDefinition
          else if dec_LessThanOrEqual upper prevUpper then Err ErrInvalidTieredDefinition
          else validateTiers upper seenInfinite rest
      end
  end.

Definition TieredFee_Validate (tiers : list Tier) : res FeeError unit :=
  _ ← ensure (assert_That (0 <? length tiers)%nat) ErrInvalidTieredDefinition;
  validateTiers dec_Zero false tiers.

(** The loop of [TieredFee.Calculate]. *)
Fixpoint calculateTiers (remaining total lower : decimal) (tiers : list Tier) : decimal :=
  match tiers with
  | [] => total
  | tier :: rest =>
      if dec_LessThanOrEqual remaining dec_Zero then total
      else
        let tierCap := calculateTierCap tier lower remaining in
        if dec_LessThanOrEqual tierCap dec_Zero then calculateTiers remaining total lower rest
        else
          calculateTiers (dec_Sub remaining tierCap)
            (dec_Add total (dec_Mul tierCap (Tier_Rate tier)))
            (match Tier_UpTo tier with Some upTo => upTo | None => lower end) rest
  end.

Definition TieredFee_Calculate (tiers : list Tier) (baseAmount : decimal) : res FeeError decimal :=
  if dec_IsNegative baseAmount then Err ErrNegativeAmount else
  _ ← TieredFee_Validate tiers;
  Ok (calculateTiers baseAmount dec_Zero dec_Zero tiers).

Definition FeeStructure_Validate (s : FeeStructure) : res FeeError unit :=
  match s with
  | FlatFee amount => FlatFee_Validate amount
  | PercentageFee rate => PercentageFee_Validate rate
  | TieredFee tiers => TieredFee_Validate tiers
  end.

Definition FeeStructure_Calculate (s : FeeStructure) (baseAmount : decimal)
  : res FeeError decimal :=
  match s with
  | FlatFee amount => FlatFee_Calculate amount
  | PercentageFee rate => PercentageFee_Calculate rate baseAmount
  | TieredFee tiers => TieredFee_Calculate tiers baseAmount
  end.
End structures.

(** ** Reference semantics of tiered fees *)
Section tiered_spec.
  Context {D : DecimalLib}.
  Local Open Scope Q_scope.

(** The part of [b] above [lower] and up to each tier's bound, charged at that
    tier's rate. *)
Fixpoint marginal_fee (lower : Q) (tiers : list Tier) (b : Q) : Q :=
  match tiers with
  | [] => 0
  | t :: ts =>
      let upper := match Tier_UpTo t with Some u => Qmin b (dec_Rat u) | None => b end in
      let next := match Tier_UpTo t with Some u => dec_Rat u | None => lower end in
      dec_Rat (Tier_Rate t) * Qmax 0 (upper - lower) + marginal_fee next ts b
  end.

(** Rates are fractions, bounds increase, and only the last tier is unbounded. *)
Fixpoint tiers_ok (prev : Q) (tiers : list Tier) : Prop :=
  match tiers with
  | [] => True
  | t :: ts =>
      0 <= dec_Rat (Tier_Rate t) <= 1 /\
      match Tier_UpTo t with
      | None => ts = []
      | Some u => prev < dec_Rat u /\ tiers_ok (dec_Rat u) ts
      end
  end.

Lemma marginal_fee_below lower tiers b :
  tiers_ok lower tiers -> b <= lower -> marginal_fee lower tiers b == 0.
Proof.
  revert lower. induction tiers as [|t ts IH]; intros lower Hok Hb; simpl; [lra|].
  destruct Hok as [Hr Hok]. destruct (Tier_UpTo t) as [u|].
  - destruct Hok as [Hu Hok]. rewrite (IH _ Hok) by lra. q_minmax; nra.
  - subst ts. simpl. q_minmax; nra.
Qed.

Lemma marginal_fee_slope lower tiers b1 b2 :
  tiers_ok lower tiers -> b1 <= b2 ->
  0 <= marginal_fee lower tiers b2 - marginal_fee lower tiers b1 <= Qmax lower b2 - Qmax lower b1.
Proof.
  revert lower. induction tiers as [|t ts IH]; intros lower Hok Hb; simpl.
  - q_minmax; lra.
  - destruct Hok as [Hr Hok]. destruct (Tier_UpTo t) as [u|].
    + destruct Hok as [Hu Hok]. specialize (IH _ Hok Hb).
      set (m1 := marginal_fee _ ts b1) in *. set (m2 := marginal_fee _ ts b2) in *.
      q_minmax; split; nra.
    + subst ts. simpl. q_minmax; split; nra.
Qed.
#[export] Instance marginal_fee_proper : Proper (Qeq ==> eq ==> Qeq ==> Qeq) marginal_fee.
Proof.
  intros l1 l2 Hl ts ? <- b1 b2 Hb. revert l1 l2 Hl.
  induction ts as [|t ts IH]; intros l1 l2 Hl; simpl; [done|].
  destruct (Tier_UpTo t) as [u|].
  - rewrite (IH _ _ (Qeq_refl (dec_Rat u))). apply Qplus_comp; [|done].
    apply Qmult_comp; [done|]. q_minmax; lra.
  - rewrite (IH _ _ Hl). apply Qplus_comp; [|done]. apply Qmult_comp; [done|]. q_minmax; lra.
Qed.
End tiered_spec.

#[export] Instance tiers_ok_proper {D : DecimalLib} : Proper (Qeq ==> eq ==> iff) tiers_ok.
Proof.
  intros l1 l2 Hl ts ? <-. destruct ts as [|t ts]; simpl; [done|].
  destruct (Tier_UpTo t); [|done]. by setoid_rewrite Hl.
Qed.

Section tiered_lemmas.
  Context {D : DecimalLib} {L : DecimalLaws D} {T : AssertLib} {TL : AssertLaws T}.
  Local Open Scope Q_scope.

Lemma validateTiers_infinite p ts : validateTiers p true ts = Ok tt -> ts = [].
Proof. by destruct ts. Qed.

Lemma validateTiers_ok p ts :
  0 <= dec_Rat p -> validateTiers p false ts = Ok tt <-> tiers_ok (dec_Rat p) ts.
Proof.
  revert p. induction ts as [|t ts IH]; intros p Hp; simpl; [done|].
  assert (Hone := dec_Rat_NewFromInt 1).
  destruct (dec_IsNegative (Tier_Rate t)) eqn:E1; simpl.
  { split; [done|]. intros [? _]. dec_bool. lra. }
  destruct (dec_GreaterThan (Tier_Rate t) (dec_NewFromInt 1)) eqn:E2; simpl.
  { split; [done|]. intros [? _]. dec_bool. lra. }
  dec_bool. destruct (Tier_UpTo t) as [u|].
  - destruct (dec_LessThanOrEqual u dec_Zero) eqn:E3.
    { split; [done|]. intros [_ [? _]]. dec_lra. }
    destruct (dec_LessThanOrEqual u p) eqn:E4.
    { split; [done|]. intros [_ [? _]]. dec_lra. }
    dec_bool. dec_facts. rewrite IH by lra. split; [|by intros (_ & _ & ?)].
    intros ?. repeat split; try lra. done.
  - split.
    + intros H. apply validateTiers_infinite in H. split; [lra|done].
    + by intros [_ ->].
Qed.

Lemma calculateTiers_spec b ts remaining total lower :
  tiers_ok (dec_Rat lower) ts ->
  dec_Rat remaining == Qmax 0 (b - dec_Rat lower) ->
  dec_Rat (calculateTiers remaining total lower ts) ==
  dec_Rat total + marginal_fee (dec_Rat lower) ts b.
Proof.
  revert remaining total lower. induction ts as [|t ts IH]; intros rem tot low Hok Hrem;
    [simpl; lra|].
  cbn [calculateTiers]. destruct (dec_LessThanOrEqual rem dec_Zero) eqn:E0.
  { dec_bool. dec_facts. rewrite marginal_fee_below; [lra|done|]. q_minmax; lra. }
  unfold calculateTierCap. simpl. destruct Hok as [Hr Hok]. destruct (Tier_UpTo t) as [u|].
  - destruct Hok as [Hu Hok].
    destruct (dec_LessThanOrEqual (dec_Sub u low) dec_Zero) eqn:E1; [dec_lra|].
    destruct (dec_GreaterThan rem (dec_Sub u low)) eqn:E2;
      [destruct (dec_LessThanOrEqual (dec_Sub u low) dec_Zero) eqn:E3; [done|]
      |destruct (dec_LessThanOrEqual rem dec_Zero) eqn:E3; [done|]];
      dec_bool; dec_facts; (rewrite (IH _ _ _ Hok); [|dec_facts; q_minmax; lra]);
      dec_facts; set (m := marginal_fee _ ts b); q_minmax; nra.
  - subst ts. rewrite E0. simpl. dec_bool. dec_facts. q_minmax; nra.
Qed.
(** The computation of a tiered fee, once validated. *)
Lemma TieredFee_Calculate_ok ts b f :
  TieredFee_Calculate ts b = Ok f ->
  tiers_ok 0 ts /\ 0 <= dec_Rat b /\ dec_Rat f == marginal_fee 0 ts (dec_Rat b).
Proof.
  unfold TieredFee_Calculate, TieredFee_Validate. case_match; [done|]. intros H'. res_inv.
  pose proof (@dec_Rat_Zero _ L) as Hz. destruct x. dec_bool.
  apply validateTiers_ok in Hx; [|lra].
  assert (E := calculateTiers_spec (dec_Rat b) ts b dec_Zero dec_Zero Hx).
  rewrite Hz in E, Hx. rewrite E by (q_minmax; lra). split_and!; [done..|]. lra.
Qed.

(** A structure validates itself before computing, so it never returns a
    negative fee of a non-negative amount. *)
Lemma FeeStructure_Calculate_nonneg s b f :
  0 <= dec_Rat b -> FeeStructure_Calculate s b = Ok f -> 0 <= dec_Rat f.
Proof.
  intros Hb. destruct s as [a|r|ts]; simpl.
  - unfold FlatFee_Calculate, FlatFee_Validate. rewrite assert_That_spec. intros H.
    res_inv. bool_inv. by dec_bool.
  - unfold PercentageFee_Calculate, PercentageFee_Validate. rewrite !assert_That_spec.
    case_match; [done|]. intros H'. res_inv. bool_inv. dec_lra.
  - intros (Hok & _ & ->)%TieredFee_Calculate_ok.
    pose proof (marginal_fee_slope _ ts 0 (dec_Rat b) Hok Hb) as H.
    rewrite (marginal_fee_below _ ts 0 Hok) in H by lra. q_minmax; lra.
Qed.

Lemma FeeStructure_Calculate_slope s a b fa fb :
  0 <= dec_Rat a -> dec_Rat a <= dec_Rat b ->
  FeeStructure_Calculate s a = Ok fa -> FeeStructure_Calculate s b = Ok fb ->
  0 <= dec_Rat fb - dec_Rat fa <= dec_Rat b - dec_Rat a.
Proof.
  intros Ha Hab. destruct s as [x|r|ts]; simpl.
  - unfold FlatFee_Calculate. intros H1 H2. res_inv. lra.
  - unfold PercentageFee_Calculate, PercentageFee_Validate. rewrite !assert_That_spec.
    do 2 (case_match; [done|]). intros H1 H2. res_inv. bool_inv. dec_bool. dec_facts.
    split; nra.
  - intros (Hok & _ & ->)%TieredFee_Calculate_ok (_ & _ & ->)%TieredFee_Calculate_ok.
    pose proof (marginal_fee_slope 0 ts _ _ Hok Hab). q_minmax; lra.
Qed.

Lemma FeeStructure_Calculate_le s b f :
  FeeStructure_Type s <> FeeStructureFlat -> 0 <= dec_Rat b ->
  FeeStructure_Calculate s b = Ok f -> dec_Rat f <= dec_Rat b.
Proof.
  intros Ht Hb. destruct s as [x|r|ts]; simpl in *; [done|..].
  - unfold PercentageFee_Calculate, PercentageFee_Validate. rewrite !assert_That_spec.
    case_match; [done|]. intros H'. res_inv. bool_inv. dec_bool. dec_facts. nra.
  - intros (Hok & _ & ->)%TieredFee_Calculate_ok.
    pose proof (marginal_fee_slope _ ts 0 (dec_Rat b) Hok Hb) as H.
    rewrite (marginal_fee_below _ ts 0 Hok) in H by lra. q_minmax; lra.
Qed.

Lemma FeeStructure_Calculate_total s b :
  FeeStructure_Validate s = Ok tt -> 0 <= dec_Rat b ->
  exists f, FeeStructure_Calculate s b = Ok f.
Proof.
  intros Hv Hb. destruct (dec_IsNegative b) eqn:En; [dec_bool; lra|].
  destruct s; simpl in *; unfold FlatFee_Calculate, PercentageFee_Calculate, TieredFee_Calculate;
    rewrite ?En, Hv; simpl; eauto.
Qed.

End tiered_lemmas.

(** ** Results *)
Section results.
  Context {D : DecimalLib} {L : DecimalLaws D} {T : AssertLib} {TL : AssertLaws T}.
  Local Open Scope Q_scope.

(** A tiered fee that validates computes exactly the marginal fee: each
    slice of the amount between consecutive bounds is charged at its tier's
    rate, and nothing is charged above the last bound. *)
Theorem TieredFee_Calculate_marginal (tiers : list Tier) (baseAmount : decimal) :
  TieredFee_Validate tiers = Ok tt -> 0 <= dec_Rat baseAmount ->
  exists f, TieredFee_Calculate tiers baseAmount = Ok f /\
            dec_Rat f == marginal_fee 0 tiers (dec_Rat baseAmount).
Proof.
  intros Hv Hb. unfold TieredFee_Calculate. rewrite Hv.
  destruct (dec_IsNegative baseAmount) eqn:En; [dec_bool; lra|].
  eexists; split; [done|]. eapply (TieredFee_Calculate_ok tiers baseAmount).
  unfold TieredFee_Calculate. by rewrite En, Hv.
Qed.

(** Every validated fee structure is total on non-negative amounts, grows
    with the amount but never faster than it (so the net amount grows too),
    is non-negative, and, flat fees apart, never exceeds the amount. *)
Theorem FeeStructure_Calculate_bounds (s : FeeStructure) (a b : decimal) :
  FeeStructure_Validate s = Ok tt -> 0 <= dec_Rat a -> dec_Rat a <= dec_Rat b ->
  exists fa fb,
    FeeStructure_Calculate s a = Ok fa /\ FeeStructure_Calculate s b = Ok fb /\
    0 <= dec_Rat fa <= dec_Rat fb /\
    dec_Rat fb - dec_Rat fa <= dec_Rat b - dec_Rat a /\
    (FeeStructure_Type s <> FeeStructureFlat -> dec_Rat fb <= dec_Rat b).
Proof.
  intros Hv Ha Hab.
  destruct (FeeStructure_Calculate_total s a Hv Ha) as [fa Ea].
  destruct (FeeStructure_Calculate_total s b Hv) as [fb Eb]; [lra|].
  exists fa, fb. pose proof (FeeStructure_Calculate_nonneg s a fa Ha Ea).
  pose proof (FeeStructure_Calculate_slope s a b fa fb Ha Hab Ea Eb).
  split_and!; try done; try lra. intros Ht.
  by apply (FeeStructure_Calculate_le s b fb Ht); [lra|].
Qed.
End results.

(** ** Witnesses at the concrete library instance *)
Definition sample_tiers : list (@Tier model_decimal) :=
  [mkTier (D:=model_decimal) (Some (100 # 1)%Q) (1 # 10)%Q;
   mkTier (D:=model_decimal) (Some (500 # 1)%Q) (5 # 100)%Q;
   mkTier (D:=model_decimal) None (1 # 100)%Q].

Lemma TieredFee_Calculate_marginal_witness :
  exists f, TieredFee_Calculate sample_tiers (250 # 1)%Q = Ok f /\
            (dec_Rat f == marginal_fee 0 sample_tiers (250 # 1))%Q.
Proof.
  apply (TieredFee_Calculate_marginal sample_tiers (250 # 1)%Q); vm_compute; done.
Defined.

Lemma FeeStructure_Calculate_bounds_witness :
  exists fa fb : @decimal model_decimal,
    FeeStructure_Calculate (TieredFee sample_tiers) (50 # 1)%Q = Ok fa /\
    FeeStructure_Calculate (TieredFee sample_tiers) (900 # 1)%Q = Ok fb /\
    (0 <= dec_Rat fa <= dec_Rat fb)%Q /\
    (dec_Rat fb - dec_Rat fa <= @dec_Rat model_decimal (900 # 1)%Q - @dec_Rat model_decimal (50 # 1)%Q)%Q /\
    (FeeStructure_Type (TieredFee sample_tiers) <> FeeStructureFlat ->
     (dec_Rat fb <= @dec_Rat model_decimal (900 # 1)%Q)%Q).
Proof.
  apply (FeeStructure_Calculate_bounds (TieredFee sample_tiers) (50 # 1)%Q (900 # 1)%Q);
    vm_compute; done.
Defined.
