(* ===== verification/FeeSchedule.v ===== *)
(** * Fee schedules and the schedule calculator

    Models internal/shared/domain/fee: [fee_schedule.go], [normalization.go]
    and [schedule_calculator.go].  A schedule built by [NewFeeSchedule]
    satisfies [schedule_wf]; on such schedules the calculator never fails for
    a non-negative amount of the schedule's currency, a parallel breakdown
    always balances, and a cascading one balances unless the fees exceed the
    amount.  [CalculateGrossFromNet] is the bounded fixed-point iteration of
    the source: what it returns satisfies the convergence test. *)
From stdpp Require Import pretty.
From S2P Require Import GoLib GoLibModel FeeStructure.

(** ** Enumerations; Go string types, so other values are possible *)
Definition maxScheduleNameLength : nat := 100.
Definition maxRoundingScale : Z := 10.

Definition ApplicationOrder := string.
Definition ApplicationOrderParallel : ApplicationOrder := "PARALLEL".
Definition ApplicationOrderCascading : ApplicationOrder := "CASCADING".
Definition ApplicationOrder_IsValid (o : ApplicationOrder) : bool :=
  bool_decide (o = ApplicationOrderParallel) || bool_decide (o = ApplicationOrderCascading).

Definition FeeRoundingMode := string.
Definition RoundingModeHalfUp : FeeRoundingMode := "HALF_UP".
Definition RoundingModeBankers : FeeRoundingMode := "BANKERS".
Definition RoundingModeFloor : FeeRoundingMode := "FLOOR".
Definition RoundingModeCeil : FeeRoundingMode := "CEIL".
Definition RoundingModeTruncate : FeeRoundingMode := "TRUNCATE".
Definition FeeRoundingMode_IsValid (m : FeeRoundingMode) : bool :=
  bool_decide (m ∈ [RoundingModeHalfUp; RoundingModeBankers; RoundingModeFloor;
                    RoundingModeCeil; RoundingModeTruncate]).

Definition NormalizationMode := string.
Definition NormalizationModeNone : NormalizationMode := "".
Definition NormalizationModeNet : NormalizationMode := "NET".
Definition NormalizationModeGross : NormalizationMode := "GROSS".
Definition NormalizationMode_IsValid (m : NormalizationMode) : bool :=
  bool_decide (m ∈ [NormalizationModeNone; NormalizationModeNet; NormalizationModeGross]).

Section schedule.
  Context {U : UUIDLib} {D : DecimalLib} {T : AssertLib} {N : UnicodeLib}.

(** ** Data *)
Record FeeScheduleItem : Type := mkFeeScheduleItem {
  Item_ID : uuid;
  Item_Name : string;
  Item_Priority : Z;
  Item_Structure : option FeeStructure;
  Item_CreatedAt : Time;
  Item_UpdatedAt : Time;
}.

Record FeeSchedule : Type := mkFeeSchedule {
  Schedule_ID : uuid;
  Schedule_TenantID : uuid;
  Schedule_Name : string;
  Schedule_Currency : string;
  Schedule_ApplicationOrder : ApplicationOrder;
  Schedule_RoundingScale : Z;
  Schedule_RoundingMode : FeeRoundingMode;
  Schedule_Items : list FeeScheduleItem;
  Schedule_CreatedAt : Time;
  Schedule_UpdatedAt : Time;
}.

Record FeeScheduleItemInput : Type := mkFeeScheduleItemInput {
  ItemInput_Name : string;
  ItemInput_Priority : Z;
  ItemInput_Structure : option FeeStructure;
}.

Record NewFeeScheduleInput : Type := mkNewFeeScheduleInput {
  In_TenantID : uuid;
  In_Name : string;
  In_Currency : string;
  In_ApplicationOrder : ApplicationOrder;
  In_RoundingScale : Z;
  In_RoundingMode : FeeRoundingMode;
  In_Items : list FeeScheduleItemInput;
}.

Record ItemFee : Type := mkItemFee {
  ItemFee_ItemID : uuid;
  ItemFee_ItemName : string;
  ItemFee_Fee : Money;
  ItemFee_BaseUsed : Money;
}.

Record FeeBreakdown : Type := mkFeeBreakdown {
  TotalFee : Money;
  NetAmount : Money;
  ItemFees : list ItemFee;
}.

(** ** Construction (fee_schedule.go)

    [now] is the loop's [time.Now()] and [newID i] the identifier drawn for
    the [i]-th item. *)
Fixpoint buildScheduleItems (now : Time) (newID : nat -> uuid) (i : nat)
  (seenPriorities : gset Z) (inputs : list FeeScheduleItemInput)
  : res FeeError (list FeeScheduleItem) :=
  match inputs with
  | [] => Ok []
  | itemInput :: rest =>
      _ ← ensure (assert_NotEmpty (ItemInput_Name itemInput)) ErrItemNameRequired;
      _ ← ensure (assert_NotNil (ItemInput_Structure itemInput)) ErrNilFeeStructure;
      _ ← match ItemInput_Structure itemInput with
          | Some s => FeeStructure_Validate s
          | None => Err ErrNilFeeStructure
          end;
      if bool_decide (ItemInput_Priority itemInput ∈ seenPriorities)
      then Err ErrDuplicateItemPriority
      else
        items ← buildScheduleItems now newID (S i)
                  ({[ItemInput_Priority itemInput]} ∪ seenPriorities) rest;
        Ok (mkFeeScheduleItem (newID i) (ItemInput_Name itemInput)
              (ItemInput_Priority itemInput) (ItemInput_Structure itemInput) now now :: items)
  end.

Definition NewFeeSchedule (input : NewFeeScheduleInput) (itemsNow now : Time)
  (newID : nat -> uuid) : res FeeError FeeSchedule :=
  let trimmedName := strings_TrimSpace (In_Name input) in
  _ ← ensure (assert_That (negb (bool_decide (In_TenantID input = uuid_Nil)))) ErrScheduleTenantIDRequired;
  _ ← ensure (assert_NotEmpty trimmedName) ErrScheduleNameRequired;
  _ ← ensure (assert_That (String.length trimmedName <=? maxScheduleNameLength)%nat) ErrScheduleNameTooLong;
  currency ← NormalizeCurrency (In_Currency input);
  _ ← ensure (assert_That (ApplicationOrder_IsValid (In_ApplicationOrder input))) ErrInvalidApplicationOrder;
  _ ← ensure (assert_That ((0 <=? In_RoundingScale input)%Z &&
                           (In_RoundingScale input <=? maxRoundingScale)%Z)) ErrInvalidRoundingScale;
  _ ← ensure (assert_That (FeeRoundingMode_IsValid (In_RoundingMode input))) ErrInvalidRoundingMode;
  _ ← ensure (assert_That (0 <? length (In_Items input))%nat) ErrScheduleItemsRequired;
  items ← buildScheduleItems itemsNow newID 0 ∅ (In_Items input);
  Ok (mkFeeSchedule (newID (length (In_Items input))) (In_TenantID input) trimmedName currency
        (In_ApplicationOrder input) (In_RoundingScale input) (In_RoundingMode input) items now now).

(** ** The calculator (schedule_calculator.go) *)
Definition convergencePrecision : Z := 10.
Definition maxIterations : nat := 100.

Definition fee_roundAmount (amount : decimal) (scale : Z) (mode : FeeRoundingMode) : decimal :=
  let scale := if (scale <? 0)%Z then 0%Z else scale in
  let scale := if (maxRoundingScale <? scale)%Z then maxRoundingScale else scale in
  if bool_decide (mode = RoundingModeHalfUp) then dec_Round amount scale
  else if bool_decide (mode = RoundingModeBankers) then dec_RoundBank amount scale
  else if bool_decide (mode = RoundingModeFloor) then dec_RoundFloor amount scale
  else if bool_decide (mode = RoundingModeCeil) then dec_RoundCeil amount scale
  else if bool_decide (mode = RoundingModeTruncate) then dec_Truncate amount scale
  else dec_Round amount scale.

(** [sort.Slice] is not stable; its result is determined when priorities are
    distinct, which [NewFeeSchedule] enforces. *)
Definition sortItemsByPriority (items : list FeeScheduleItem) : list FeeScheduleItem :=
  stable_sort (fun a b => (Item_Priority a <? Item_Priority b)%Z) items.

Fixpoint calculateParallel_loop (gross : Money) (scale : Z) (mode : FeeRoundingMode)
  (currency : string) (totalFee : decimal) (items : list FeeScheduleItem)
  : res FeeError (decimal * list ItemFee) :=
  match items with
  | [] => Ok (totalFee, [])
  | item :: rest =>
      match Item_Structure item with
      | None => Err ErrNilFeeStructure
      | Some structure =>
          itemFee ← FeeStructure_Calculate structure (Money_Amount gross);
          let roundedFee := fee_roundAmount itemFee scale mode in
          '(total, fees) ← calculateParallel_loop gross scale mode currency
                             (dec_Add totalFee roundedFee) rest;
          Ok (total, mkItemFee (Item_ID item) (Item_Name item) (mkMoney roundedFee currency)
                       (mkMoney (Money_Amount gross) currency) :: fees)
      end
  end.

Definition calculateParallel (gross : Money) (items : list FeeScheduleItem) (scale : Z)
  (mode : FeeRoundingMode) (currency : string) : res FeeError FeeBreakdown :=
  '(totalFee, itemFees) ← calculateParallel_loop gross scale mode currency dec_Zero items;
  Ok (mkFeeBreakdown (mkMoney totalFee currency)
        (mkMoney (dec_Sub (Money_Amount gross) totalFee) currency) itemFees).

Fixpoint calculateCascading_loop (scale : Z) (mode : FeeRoundingMode) (currency : string)
  (currentBase totalFee : decimal) (items : list FeeScheduleItem)
  : res FeeError (decimal * decimal * list ItemFee) :=
  match items with
  | [] => Ok (currentBase, totalFee, [])
  | item :: rest =>
      match Item_Structure item with
      | None => Err ErrNilFeeStructure
      | Some structure =>
          fee ← FeeStructure_Calculate structure currentBase;
          let roundedFee := fee_roundAmount fee scale mode in
          let nextBase := dec_Sub currentBase roundedFee in
          let nextBase := if dec_IsNegative nextBase then dec_Zero else nextBase in
          '(base, total, fees) ← calculateCascading_loop scale mode currency nextBase
                                   (dec_Add totalFee roundedFee) rest;
          Ok (base, total, mkItemFee (Item_ID item) (Item_Name item) (mkMoney roundedFee currency)
                             (mkMoney currentBase currency) :: fees)
      end
  end.

Definition calculateCascading (gross : Money) (items : list FeeScheduleItem) (scale : Z)
  (mode : FeeRoundingMode) (currency : string) : res FeeError FeeBreakdown :=
  '(currentBase, totalFee, itemFees) ←
    calculateCascading_loop scale mode currency (Money_Amount gross) dec_Zero items;
  Ok (mkFeeBreakdown (mkMoney totalFee currency) (mkMoney currentBase currency) itemFees).

Definition CalculateSchedule (gross : Money) (schedule : option FeeSchedule)
  : res FeeError FeeBreakdown :=
  match schedule with
  | None => Err ErrNilSchedule
  | Some schedule =>
      grossCurrency ← NormalizeCurrency (Money_Currency gross);
      scheduleCurrency ← NormalizeCurrency (Schedule_Currency schedule);
      if negb (bool_decide (grossCurrency = scheduleCurrency)) then Err ErrCurrencyMismatch
      else
        let sorted := sortItemsByPriority (Schedule_Items schedule) in
        let scale := Schedule_RoundingScale schedule in
        let mode := Schedule_RoundingMode schedule in
        if bool_decide (Schedule_ApplicationOrder schedule = ApplicationOrderParallel)
        then calculateParallel gross sorted scale mode grossCurrency
        else if bool_decide (Schedule_ApplicationOrder schedule = ApplicationOrderCascading)
        then calculateCascading gross sorted scale mode grossCurrency
        else Err ErrInvalidApplicationOrder
  end.

(** The [for i := range maxIterations] loop; [fuel] is the iterations left. *)
Fixpoint grossFromNet_loop (fuel : nat) (net : Money) (schedule : FeeSchedule)
  (epsilon grossEstimate : decimal) : res FeeError (Money * FeeBreakdown) :=
  match fuel with
  | O => Err ErrGrossConvergenceFailed
  | S fuel' =>
      grossMoney ← NewMoney grossEstimate (Money_Currency net);
      breakdown ← CalculateSchedule grossMoney (Some schedule);
      let fee := Money_Amount (TotalFee breakdown) in
      let impliedNet := dec_Sub grossEstimate fee in
      let diff := dec_Abs (dec_Sub impliedNet (Money_Amount net)) in
      if dec_LessThanOrEqual diff epsilon then Ok (grossMoney, breakdown)
      else grossFromNet_loop fuel' net schedule epsilon (dec_Add (Money_Amount net) fee)
  end.

Definition CalculateGrossFromNet (net : Money) (schedule : option FeeSchedule)
  : res FeeError (Money * FeeBreakdown) :=
  match schedule with
  | None => Err ErrNilSchedule
  | Some schedule =>
      normNet ← NormalizeCurrency (Money_Currency net);
      normSched ← NormalizeCurrency (Schedule_Currency schedule);
      if negb (bool_decide (normNet = normSched)) then Err ErrCurrencyMismatch
      else
        let epsilon := dec_New 1 (- convergencePrecision) in
        grossFromNet_loop maxIterations net schedule epsilon (Money_Amount net)
  end.
End schedule.

(** ** Well-formed schedules and the sums a breakdown must satisfy *)
Section specs.
  Context {U : UUIDLib} {D : DecimalLib} {T : AssertLib} {N : UnicodeLib}.

Record schedule_wf (s : FeeSchedule) : Prop := {
  wf_name : 0 < String.length (Schedule_Name s) <= maxScheduleNameLength;
  wf_currency : NormalizeCurrency (Schedule_Currency s) = Ok (Schedule_Currency s);
  wf_order : ApplicationOrder_IsValid (Schedule_ApplicationOrder s) = true;
  wf_scale : (0 <= Schedule_RoundingScale s <= maxRoundingScale)%Z;
  wf_mode : FeeRoundingMode_IsValid (Schedule_RoundingMode s) = true;
  wf_items : Schedule_Items s <> [];
  wf_priorities : NoDup (Item_Priority <$> Schedule_Items s);
  wf_structures : Forall (fun i => exists st, Item_Structure i = Some st /\
                    FeeStructure_Validate st = Ok tt) (Schedule_Items s);
}.

Definition fees_sum (l : list ItemFee) : Q :=
  foldr (fun f acc => (dec_Rat (Money_Amount (ItemFee_Fee f)) + acc)%Q) 0%Q l.

Definition net_of (b : FeeBreakdown) : Q := dec_Rat (Money_Amount (NetAmount b)).
Definition total_of (b : FeeBreakdown) : Q := dec_Rat (Money_Amount (TotalFee b)).
End specs.

(** ** Currencies are normalised once and for all *)
Definition canonical_currency (c : string) : bool :=
  bool_decide (strings_TrimSpace c = c) && string_is_ascii c &&
  bool_decide (string_map ascii_to_upper c = c) && negb (string_empty c).

Lemma validCurrencies_check : forallb canonical_currency validCurrencies = true.
Proof. vm_compute. reflexivity. Qed.

Lemma validCurrencies_canonical :
  Forall (fun c => strings_TrimSpace c = c /\ string_is_ascii c = true /\
                   string_map ascii_to_upper c = c /\ c <> "") validCurrencies.
Proof.
  apply Forall_forall. intros c Hc. pose proof validCurrencies_check as H.
  rewrite forallb_forall in H. apply list_elem_of_In, H in Hc.
  unfold canonical_currency, string_empty in Hc. bool_inv. done.
Qed.

Section currency_lemmas.
  Context {N : UnicodeLib} {NL : UnicodeLaws N}.

Lemma NormalizeCurrency_valid c c' : NormalizeCurrency c = Ok c' -> c' ∈ validCurrencies.
Proof. unfold NormalizeCurrency. repeat case_match; try done. intros [= <-]. by bool_inv. Qed.

Lemma NormalizeCurrency_idem c c' : NormalizeCurrency c = Ok c' -> NormalizeCurrency c' = Ok c'.
Proof.
  intros H%NormalizeCurrency_valid. pose proof validCurrencies_canonical as Hc.
  rewrite Forall_forall in Hc. destruct (Hc _ H) as (H1 & H2 & H3 & H4).
  unfold NormalizeCurrency. rewrite H1, ToUpper_ascii, H3 by done.
  unfold string_empty. by rewrite bool_decide_false, bool_decide_true.
Qed.
End currency_lemmas.

(** ** The calculator on validated structures *)
Section calculator_lemmas.
  Context {U : UUIDLib} {D : DecimalLib} {L : DecimalLaws D} {T : AssertLib} {TL : AssertLaws T}.
  Context {N : UnicodeLib} {NL : UnicodeLaws N}.
  Local Open Scope Q_scope.

Definition clamped_scale (scale : Z) : Z := Z.min maxRoundingScale (Z.max 0 scale).

Lemma fee_roundAmount_cases a scale mode :
  exists f, (f = q_half_away \/ f = q_half_even \/ f = Qfloor \/ f = Qceiling \/ f = q_toward_zero) /\
    dec_Rat (fee_roundAmount a scale mode) == q_at f (clamped_scale scale) (dec_Rat a).
Proof.
  unfold fee_roundAmount, clamped_scale, maxRoundingScale.
  set (p := (if (10 <? if (scale <? 0)%Z then 0 else scale)%Z then 10
             else if (scale <? 0)%Z then 0 else scale)%Z).
  assert (Z.min 10 (Z.max 0 scale) = p) as -> by (subst p; repeat case_match; lia).
  assert (0 <= p)%Z as Hp by (subst p; repeat case_match; lia).
  repeat case_bool_decide;
    eexists; (split; [|first [by apply dec_Rat_Round | by apply dec_Rat_RoundBank
      | by apply dec_Rat_RoundFloor | by apply dec_Rat_RoundCeil | by apply dec_Rat_Truncate]]);
    naive_solver.
Qed.

Lemma clamped_scale_nonneg scale : (0 <= clamped_scale scale)%Z.
Proof. unfold clamped_scale, maxRoundingScale. lia. Qed.

Lemma fee_roundAmount_near a scale mode :
  Qabs (dec_Rat (fee_roundAmount a scale mode) - dec_Rat a) <= / q_scale (clamped_scale scale).
Proof.
  destruct (fee_roundAmount_cases a scale mode) as (f & Hf & ->).
  apply q_at_near; [apply clamped_scale_nonneg|]. intros y.
  destruct Hf as [->|[->|[->|[->| ->]]]]; auto using q_half_away_near, q_half_even_near,
    Qfloor_near, Qceiling_near, q_toward_zero_near.
Qed.

Lemma fee_roundAmount_nonneg a scale mode :
  0 <= dec_Rat a -> 0 <= dec_Rat (fee_roundAmount a scale mode).
Proof.
  intros Ha. destruct (fee_roundAmount_cases a scale mode) as (f & Hf & ->).
  apply q_at_nonneg; [apply clamped_scale_nonneg| |done]. intros y.
  destruct Hf as [->|[->|[->|[->| ->]]]]; auto using q_half_away_nonneg, q_half_even_nonneg,
    Qfloor_nonneg, Qceiling_nonneg, q_toward_zero_nonneg.
Qed.

Lemma calculateParallel_loop_total gross scale mode cur total items total' fees :
  calculateParallel_loop gross scale mode cur total items = Ok (total', fees) ->
  dec_Rat total' == dec_Rat total + fees_sum fees /\
  Forall (fun f => ItemFee_BaseUsed f = mkMoney (Money_Amount gross) cur) fees /\
  ItemFee_ItemID <$> fees = Item_ID <$> items.
Proof.
  revert total total' fees. induction items as [|i items IH]; intros total total' fees; simpl.
  - intros [= <- <-]. simpl. split_and!; [lra|constructor|done].
  - destruct (Item_Structure i) as [s|]; [|done]. intros H. res_inv.
    destruct x0 as [t f]. res_inv. apply IH in Hx0 as (H1 & H2 & H3). simpl.
    split_and!; [|by constructor|by f_equal]. dec_facts. lra.
Qed.

Lemma calculateCascading_loop_total scale mode cur base total items base' total' fees :
  0 <= dec_Rat base ->
  calculateCascading_loop scale mode cur base total items = Ok (base', total', fees) ->
  dec_Rat total' == dec_Rat total + fees_sum fees /\
  dec_Rat total <= dec_Rat total' /\
  dec_Rat base' == Qmax 0 (dec_Rat base + dec_Rat total - dec_Rat total') /\
  ItemFee_ItemID <$> fees = Item_ID <$> items.
Proof.
  revert base total base' total' fees.
  induction items as [|i items IH]; intros base total base' total' fees Hb; simpl.
  - intros [= <- <- <-]. simpl. split_and!; try lra; [|done]. q_minmax; lra.
  - destruct (Item_Structure i) as [s|]; [|done]. intros H. res_inv.
    destruct x0 as [[b t] f]. res_inv.
    assert (0 <= dec_Rat (fee_roundAmount x scale mode)) as Hr
      by (by eapply fee_roundAmount_nonneg, FeeStructure_Calculate_nonneg).
    set (rounded := fee_roundAmount x scale mode) in *.
    assert (0 <= dec_Rat (if dec_IsNegative (dec_Sub base rounded) then dec_Zero
                          else dec_Sub base rounded)) as Hn by (case_match; dec_lra).
    apply IH in Hx0 as (H1 & H2 & H3 & H5); [|done]. simpl.
    split_and!; [dec_facts; lra|dec_facts; lra| |by f_equal].
    destruct (dec_IsNegative (dec_Sub base rounded)) eqn:E; dec_bool; dec_facts; q_minmax; lra.
Qed.

Lemma calculateParallel_loop_ok gross scale mode cur total items :
  0 <= dec_Rat (Money_Amount gross) ->
  Forall (fun i => exists st, Item_Structure i = Some st /\ FeeStructure_Validate st = Ok tt) items ->
  exists r, calculateParallel_loop gross scale mode cur total items = Ok r.
Proof.
  intros Hg H. revert total. induction H as [|i items (st & Hst & Hv) _ IH]; intros total; simpl;
    [eauto|].
  rewrite Hst. destruct (FeeStructure_Calculate_total st _ Hv Hg) as [f ->]. simpl.
  destruct (IH (dec_Add total (fee_roundAmount f scale mode))) as [[t fs] ->]. simpl. eauto.
Qed.

Lemma calculateCascading_loop_ok scale mode cur base total items :
  0 <= dec_Rat base ->
  Forall (fun i => exists st, Item_Structure i = Some st /\ FeeStructure_Validate st = Ok tt) items ->
  exists r, calculateCascading_loop scale mode cur base total items = Ok r.
Proof.
  intros Hg H. revert base total Hg.
  induction H as [|i items (st & Hst & Hv) _ IH]; intros base total Hg; simpl; [eauto|].
  rewrite Hst. destruct (FeeStructure_Calculate_total st _ Hv Hg) as [f ->]. simpl.
  edestruct IH as [[[b t] fs] ->]; [|simpl; eauto]. case_match; dec_lra.
Qed.

Lemma calculateParallel_loop_sign gross scale mode cur total items total' fees :
  0 <= dec_Rat (Money_Amount gross) ->
  calculateParallel_loop gross scale mode cur total items = Ok (total', fees) ->
  dec_Rat total <= dec_Rat total'.
Proof.
  intros Hg. revert total total' fees.
  induction items as [|i items IH]; intros total total' fees; simpl.
  - intros [= <- _]. lra.
  - destruct (Item_Structure i) as [s|]; [|done]. intros H. res_inv. destruct x0. res_inv.
    apply IH in Hx0. dec_facts.
    assert (0 <= dec_Rat (fee_roundAmount x scale mode))
      by (by eapply fee_roundAmount_nonneg, FeeStructure_Calculate_nonneg).
    lra.
Qed.

Lemma sortItemsByPriority_cmp (items : list FeeScheduleItem) :
  sortItemsByPriority items = stable_sort (cmp_lt (cmp_on Item_Priority Z.compare)) items.
Proof.
  unfold sortItemsByPriority. induction items as [|x l IH]; simpl; [done|]. rewrite IH.
  generalize (stable_sort (cmp_lt (cmp_on Item_Priority Z.compare)) l). clear IH.
  induction l0 as [|y l0 IH]; simpl; [done|]. rewrite IH.
  by unfold cmp_lt, cmp_on, Z.ltb.
Qed.

Lemma buildScheduleItems_ok now newID i seen inputs items :
  buildScheduleItems now newID i seen inputs = Ok items ->
  Item_Priority <$> items = ItemInput_Priority <$> inputs /\
  NoDup (Item_Priority <$> items) /\
  Forall (fun it => Item_Priority it ∉ seen) items /\
  Forall (fun it => exists st, Item_Structure it = Some st /\ FeeStructure_Validate st = Ok tt) items.
Proof.
  revert i seen items. induction inputs as [|inp inputs IH]; intros i seen items; simpl.
  - intros [= <-]. repeat constructor.
  - intros H. res_inv. case_bool_decide as Hseen; [done|]. res_inv.
    apply IH in Hx2 as (H1 & H2 & H3 & H4). simpl. split_and!.
    + by f_equal.
    + constructor; [|done]. intros (j & Hj & Hin)%list_elem_of_fmap.
      rewrite Forall_forall in H3. specialize (H3 j Hin). rewrite <- Hj in H3. set_solver.
    + constructor; [done|]. eapply Forall_impl; [exact H3|]. set_solver.
    + constructor; [|done]. simpl. destruct (ItemInput_Structure inp) as [st|]; [|done].
      destruct x1. eauto.
Qed.
Lemma CalculateSchedule_ok (gross : Money) (s : FeeSchedule) :
  schedule_wf s -> 0 <= dec_Rat (Money_Amount gross) ->
  NormalizeCurrency (Money_Currency gross) = Ok (Schedule_Currency s) ->
  exists b, CalculateSchedule gross (Some s) = Ok b /\ 0 <= total_of b.
Proof.
  intros Hwf Hg Hc. unfold CalculateSchedule. rewrite Hc, (wf_currency _ Hwf). simpl.
  rewrite bool_decide_true by done. simpl.
  assert (Hitems : Forall (fun i => exists st, Item_Structure i = Some st /\
      FeeStructure_Validate st = Ok tt) (sortItemsByPriority (Schedule_Items s))).
  { unfold sortItemsByPriority. rewrite stable_sort_perm. apply Hwf. }
  pose proof (wf_order _ Hwf) as Ho. unfold ApplicationOrder_IsValid in Ho.
  pose proof (@dec_Rat_Zero _ L) as Hz. unfold calculateParallel, calculateCascading, total_of.
  case_bool_decide; [|case_bool_decide; [|done]].
  - edestruct calculateParallel_loop_ok as [[t fs] E]; [exact Hg|exact Hitems|].
    rewrite E. eexists; split; [done|]. simpl.
    apply calculateParallel_loop_sign in E; [lra|done].
  - edestruct calculateCascading_loop_ok as [[[b t] fs] E]; [exact Hg|exact Hitems|].
    rewrite E. eexists; split; [done|]. simpl.
    apply calculateCascading_loop_total in E as (_ & H2 & _); [lra|done].
Qed.

(** A schedule of flat fees charges the same total whatever the amount. *)
Definition flat_items (items : list FeeScheduleItem) : Prop :=
  Forall (fun i => exists a, Item_Structure i = Some (FlatFee a)) items.

Lemma flat_items_check (items : list FeeScheduleItem) :
  forallb (fun i => match Item_Structure i with Some (FlatFee _) => true | _ => false end) items
    = true -> flat_items items.
Proof.
  intros H. apply Forall_forall. intros i Hi. rewrite forallb_forall in H.
  apply list_elem_of_In, H in Hi. destruct (Item_Structure i) as [[]|]; naive_solver.
Qed.

Lemma calculateParallel_loop_flat g1 g2 scale mode cur total items t1 t2 f1 f2 :
  flat_items items ->
  calculateParallel_loop g1 scale mode cur total items = Ok (t1, f1) ->
  calculateParallel_loop g2 scale mode cur total items = Ok (t2, f2) -> t1 = t2.
Proof.
  intros H. revert total t1 t2 f1 f2.
  induction H as [|i items [a Ha] _ IH]; intros total t1 t2 f1 f2; simpl; [congruence|].
  rewrite Ha. simpl. intros H1 H2. res_inv. destruct x0, x2. res_inv.
  rewrite Hx in Hx1. res_inv. by eapply IH.
Qed.

Lemma calculateCascading_loop_flat b1 b2 scale mode cur total items c1 c2 t1 t2 f1 f2 :
  flat_items items ->
  calculateCascading_loop scale mode cur b1 total items = Ok (c1, t1, f1) ->
  calculateCascading_loop scale mode cur b2 total items = Ok (c2, t2, f2) -> t1 = t2.
Proof.
  intros H. revert b1 b2 total c1 c2 t1 t2 f1 f2.
  induction H as [|i items [a Ha] _ IH]; intros b1 b2 total c1 c2 t1 t2 f1 f2; simpl; [congruence|].
  rewrite Ha. simpl. intros H1 H2. res_inv. destruct x0 as [[??]?], x2 as [[??]?]. res_inv.
  rewrite Hx in Hx1. res_inv. by eapply IH.
Qed.

Lemma CalculateSchedule_flat g1 g2 s b1 b2 :
  flat_items (Schedule_Items s) -> Money_Currency g1 = Money_Currency g2 ->
  CalculateSchedule g1 (Some s) = Ok b1 -> CalculateSchedule g2 (Some s) = Ok b2 ->
  Money_Amount (TotalFee b1) = Money_Amount (TotalFee b2).
Proof.
  intros Hf Hcur H1 H2. unfold CalculateSchedule in *. rewrite Hcur in H1. res_inv.
  assert (flat_items (sortItemsByPriority (Schedule_Items s))) as Hs.
  { unfold flat_items, sortItemsByPriority. by rewrite stable_sort_perm. }
  rewrite Hx in Hx1. rewrite Hx0 in Hx2. res_inv. case_bool_decide; [cbn [negb] in *|done].
  unfold calculateParallel, calculateCascading in *.
  case_bool_decide; [|case_bool_decide; [|done]]; res_inv.
  - destruct x, x0. res_inv. simpl. by eapply calculateParallel_loop_flat.
  - destruct x as [[??]?], x0 as [[??]?]. res_inv. simpl. by eapply calculateCascading_loop_flat.
Qed.

End calculator_lemmas.

(** ** Results *)
Section results.
  Context {U : UUIDLib} {D : DecimalLib} {L : DecimalLaws D} {T : AssertLib} {TL : AssertLaws T}.
  Context {N : UnicodeLib} {NL : UnicodeLaws N}.
  Local Open Scope Q_scope.

Lemma NewFeeSchedule_ok (input : NewFeeScheduleInput) (itemsNow now : Time)
  (newID : nat -> uuid) (s : FeeSchedule) :
  NewFeeSchedule input itemsNow now newID = Ok s -> schedule_wf s.
Proof.
  unfold NewFeeSchedule. intros H. res_inv.
  rewrite ?assert_That_spec, ?assert_NotEmpty_spec in *. bool_inv.
  apply buildScheduleItems_ok in Hx7 as (H1 & H2 & _ & H4). split; simpl; try done.
  - destruct (strings_TrimSpace (In_Name input)) eqn:E; [done|].
    apply Nat.leb_le in Hx1. simpl in *. lia.
  - by eapply NormalizeCurrency_idem.
  - lia.
  - intros ->. simpl in H1. destruct (In_Items input); done.
Qed.

(** A schedule accepted by [NewFeeSchedule] is well formed: its name and
    currency are normalised, its rounding scale is in range, its order and
    mode are known, its items are non-empty with distinct priorities, and
    every item carries a validated structure. *)
Theorem NewFeeSchedule_wf (input : NewFeeScheduleInput) (itemsNow now : Time)
  (newID : nat -> uuid) (s : FeeSchedule) :
  NewFeeSchedule input itemsNow now newID = Ok s -> schedule_wf s.
Proof. apply NewFeeSchedule_ok. Qed.

(** On a well-formed schedule the calculator is total: it returns a
    breakdown for every non-negative amount whose currency normalises to the
    schedule's. *)
Theorem CalculateSchedule_total (gross : Money) (s : FeeSchedule) :
  schedule_wf s -> 0 <= dec_Rat (Money_Amount gross) ->
  NormalizeCurrency (Money_Currency gross) = Ok (Schedule_Currency s) ->
  exists b, CalculateSchedule gross (Some s) = Ok b /\ 0 <= total_of b.
Proof. apply CalculateSchedule_ok. Qed.

(** A breakdown lists the fee of every item and its total is their sum; in
    a parallel schedule total and net always add up to the amount, in a
    cascading one the net is what is left of the amount after the total, and
    zero when the fees exceed it. *)
Theorem CalculateSchedule_balance (gross : Money) (s : FeeSchedule) (b : FeeBreakdown) :
  0 <= dec_Rat (Money_Amount gross) ->
  CalculateSchedule gross (Some s) = Ok b ->
  total_of b == fees_sum (ItemFees b) /\
  ItemFee_ItemID <$> ItemFees b = Item_ID <$> sortItemsByPriority (Schedule_Items s) /\
  (Schedule_ApplicationOrder s = ApplicationOrderParallel ->
   net_of b + total_of b == dec_Rat (Money_Amount gross)) /\
  (Schedule_ApplicationOrder s = ApplicationOrderCascading ->
   net_of b == Qmax 0 (dec_Rat (Money_Amount gross) - total_of b)).
Proof.
  intros Hg H. unfold CalculateSchedule in H. res_inv.
  case_bool_decide; [simpl in H|done]. pose proof (@dec_Rat_Zero _ L) as Hz.
  case_bool_decide as Ho; [|case_bool_decide as Ho'; [|done]].
  - unfold calculateParallel in H. res_inv. destruct x1 as [t fs]. res_inv.
    apply calculateParallel_loop_total in Hx1 as (H1 & _ & H2).
    unfold total_of, net_of. simpl. dec_facts.
    split_and!; [lra|done|intros _; lra|]. rewrite Ho. done.
  - unfold calculateCascading in H. res_inv. destruct x1 as [[b' t] fs]. res_inv.
    apply calculateCascading_loop_total in Hx1 as (H1 & _ & H2 & H3); [|done].
    unfold total_of, net_of. simpl.
    split_and!; [lra|done|by intros ?|intros _]. rewrite H2. q_minmax; lra.
Qed.

(** The order in which the items of a schedule are stored does not matter:
    with distinct priorities any permutation of them gives the same breakdown. *)
Theorem CalculateSchedule_item_order (gross : Money) (s : FeeSchedule) (items : list FeeScheduleItem) :
  NoDup (Item_Priority <$> Schedule_Items s) -> Schedule_Items s ≡ₚ items ->
  CalculateSchedule gross (Some s) =
  CalculateSchedule gross (Some (mkFeeSchedule (Schedule_ID s) (Schedule_TenantID s)
    (Schedule_Name s) (Schedule_Currency s) (Schedule_ApplicationOrder s)
    (Schedule_RoundingScale s) (Schedule_RoundingMode s) items
    (Schedule_CreatedAt s) (Schedule_UpdatedAt s))).
Proof.
  intros Hnd Hp. unfold CalculateSchedule. simpl. rewrite !sortItemsByPriority_cmp.
  rewrite (stable_sort_canonical _ (Schedule_Items s) items); [done| |done].
  intros a b Ha Hb E. apply Z.compare_eq_iff in E.
  by eapply NoDup_fmap_key.
Qed.

Lemma grossFromNet_loop_sound fuel net s eps est g b :
  grossFromNet_loop fuel net s eps est = Ok (g, b) ->
  CalculateSchedule g (Some s) = Ok b /\
  Qabs (dec_Rat (Money_Amount g) - total_of b - dec_Rat (Money_Amount net)) <= dec_Rat eps.
Proof.
  revert est. induction fuel as [|fuel IH]; intros est; [done|].
  cbn [grossFromNet_loop]. intros H. res_inv.
  destruct (dec_LessThanOrEqual _ eps) eqn:E; [|by apply IH in H]. res_inv.
  split; [done|]. unfold NewMoney in Hx. res_inv. simpl. dec_bool.
  rewrite dec_Rat_Abs in E. unfold total_of.
  rewrite !dec_Rat_Sub in E. done.
Qed.

(** Whatever [CalculateGrossFromNet] returns passes the convergence test:
    the breakdown is the schedule applied to the returned gross, and gross
    minus fees is within 10^-10 of the requested net. *)
Theorem CalculateGrossFromNet_sound (net g : Money) (s : FeeSchedule) (b : FeeBreakdown) :
  CalculateGrossFromNet net (Some s) = Ok (g, b) ->
  CalculateSchedule g (Some s) = Ok b /\
  Qabs (dec_Rat (Money_Amount g) - total_of b - dec_Rat (Money_Amount net)) <= 1 # 10000000000.
Proof.
  unfold CalculateGrossFromNet. intros H. res_inv. case_bool_decide; [cbn [negb] in H|done].
  apply grossFromNet_loop_sound in H as [H1 H2]. split; [done|].
  by rewrite dec_Rat_New_neg in H2.
Qed.
(** For a well-formed schedule of flat fees the iteration always
    converges, for every non-negative net amount of the schedule's currency. *)
Theorem CalculateGrossFromNet_flat_converges (net : Money) (s : FeeSchedule) :
  schedule_wf s -> flat_items (Schedule_Items s) -> 0 <= dec_Rat (Money_Amount net) ->
  NormalizeCurrency (Money_Currency net) = Ok (Schedule_Currency s) ->
  exists g b, CalculateGrossFromNet net (Some s) = Ok (g, b).
Proof.
  intros Hwf Hflat Hnet Hcur. unfold CalculateGrossFromNet. rewrite Hcur, (wf_currency _ Hwf).
  cbn [mbind res_bind]. rewrite bool_decide_true by done. cbn [negb].
  assert (Hm : forall a, NewMoney a (Money_Currency net) = Ok (mkMoney a (Schedule_Currency s)))
    by (intros a; unfold NewMoney; by rewrite Hcur).
  assert (Hcalc : forall a, 0 <= dec_Rat a -> exists b,
      CalculateSchedule (mkMoney a (Schedule_Currency s)) (Some s) = Ok b /\ 0 <= total_of b)
    by (intros a Ha; apply CalculateSchedule_ok; [done..|apply Hwf]).
  unfold maxIterations. cbn [grossFromNet_loop]. rewrite !Hm. cbn [mbind res_bind].
  destruct (Hcalc (Money_Amount net) Hnet) as (b1 & E1 & Hb1). rewrite E1. cbn [mbind res_bind].
  destruct (dec_LessThanOrEqual _ _); [eauto|]. rewrite !Hm. cbn [mbind res_bind].
  unfold total_of in Hb1.
  destruct (Hcalc (dec_Add (Money_Amount net) (Money_Amount (TotalFee b1)))) as (b2 & E2 & Hb2);
    [dec_facts; lra|].
  rewrite E2. cbn [mbind res_bind].
  rewrite (fun H => CalculateSchedule_flat _ _ s b2 b1 Hflat H E2 E1) by done.
  assert (dec_LessThanOrEqual (dec_Abs (dec_Sub (dec_Sub (dec_Add (Money_Amount net)
    (Money_Amount (TotalFee b1))) (Money_Amount (TotalFee b1))) (Money_Amount net)))
    (dec_New 1 (- convergencePrecision)) = true) as ->; [|eauto].
  assert (inject_Z 1 / inject_Z (10 ^ (- - convergencePrecision)) == 1 # 10000000000) as Heps by done.
  apply dec_LessThanOrEqual_spec. rewrite dec_Rat_New_neg, Heps by done.
  dec_facts. dec_abs; dec_facts; lra.
Qed.
End results.

(** ** Witnesses at the concrete library instance *)
Definition sample_item (name : string) (prio : Z) (s : @FeeStructure model_decimal)
  : FeeScheduleItemInput := mkFeeScheduleItemInput name prio (Some s).

Definition sample_input (order : ApplicationOrder) (items : list FeeScheduleItemInput)
  : NewFeeScheduleInput :=
  mkNewFeeScheduleInput (U:=model_uuid) "tenant" " card fees " "usd" order 2 RoundingModeHalfUp items.

Definition sample_items : list FeeScheduleItemInput :=
  [sample_item "rate" 2 (PercentageFee (15 # 1000)%Q);
   sample_item "flat" 1 (FlatFee (25 # 100)%Q)].

Definition empty_schedule : FeeSchedule :=
  mkFeeSchedule (U:=model_uuid) (D:=model_decimal) "" "" "" "" "" 0 "" [] 0 0.

Definition sample_new (order : ApplicationOrder) (items : list FeeScheduleItemInput)
  : res FeeError FeeSchedule :=
  NewFeeSchedule (sample_input order items) 0 0 (fun n => pretty.pretty n).

Definition sample_schedule (order : ApplicationOrder) (items : list FeeScheduleItemInput)
  : FeeSchedule := from_ok empty_schedule (sample_new order items).

Definition sample_money (q : Q) : @Money model_decimal := mkMoney (D:=model_decimal) q "USD".

Lemma sample_schedule_wf order items :
  is_Ok (sample_new order items) = true -> schedule_wf (sample_schedule order items).
Proof.
  intros H. apply (NewFeeSchedule_ok (sample_input order items) 0 0 (fun n => pretty.pretty n)).
  exact (from_ok_spec empty_schedule (sample_new order items) H).
Qed.

Lemma NewFeeSchedule_wf_witness :
  schedule_wf (sample_schedule ApplicationOrderCascading sample_items).
Proof.
  apply (NewFeeSchedule_wf (sample_input ApplicationOrderCascading sample_items) 0 0
            (fun n => pretty.pretty n)).
  apply (from_ok_spec empty_schedule (sample_new ApplicationOrderCascading sample_items)).
  vm_compute. reflexivity.
Defined.

Lemma CalculateSchedule_total_witness :
  exists b, CalculateSchedule (sample_money (100 # 1))
              (Some (sample_schedule ApplicationOrderCascading sample_items)) = Ok b /\
            (0 <= total_of b)%Q.
Proof.
  apply (CalculateSchedule_total (sample_money (100 # 1))
           (sample_schedule ApplicationOrderCascading sample_items)).
  - apply sample_schedule_wf. vm_compute. reflexivity.
  - vm_compute. done.
  - vm_compute. reflexivity.
Defined.

Definition sample_breakdown : FeeBreakdown :=
  from_ok (mkFeeBreakdown (U:=model_uuid) (sample_money 0) (sample_money 0) [])
    (CalculateSchedule (sample_money (100 # 1))
          (Some (sample_schedule ApplicationOrderCascading sample_items))).

Lemma CalculateSchedule_balance_witness :
  (net_of sample_breakdown == Qmax 0 (100 - total_of sample_breakdown))%Q /\
  (total_of sample_breakdown == 175 # 100)%Q.
Proof.
  split; [|vm_compute; reflexivity].
  apply (CalculateSchedule_balance (sample_money (100 # 1))
           (sample_schedule ApplicationOrderCascading sample_items) sample_breakdown).
  - vm_compute. done.
  - apply from_ok_spec. vm_compute. reflexivity.
  - vm_compute. reflexivity.
Defined.

Lemma CalculateSchedule_item_order_witness :
  CalculateSchedule (sample_money (100 # 1))
    (Some (sample_schedule ApplicationOrderParallel sample_items)) =
  CalculateSchedule (sample_money (100 # 1))
    (Some (let s := sample_schedule ApplicationOrderParallel sample_items in
           mkFeeSchedule (Schedule_ID s) (Schedule_TenantID s)
    (Schedule_Name s) (Schedule_Currency s) (Schedule_ApplicationOrder s)
    (Schedule_RoundingScale s) (Schedule_RoundingMode s) (rev (Schedule_Items s))
    (Schedule_CreatedAt s) (Schedule_UpdatedAt s))).
Proof.
  apply (CalculateSchedule_item_order (sample_money (100 # 1))
           (sample_schedule ApplicationOrderParallel sample_items)).
  - vm_compute. repeat constructor; set_solver.
  - apply Permutation_rev.
Defined.

Definition sample_gross : Money * FeeBreakdown :=
  from_ok (sample_money 0, sample_breakdown)
    (CalculateGrossFromNet (sample_money (98 # 1))
       (Some (sample_schedule ApplicationOrderParallel sample_items))).

Lemma CalculateGrossFromNet_sound_witness :
  CalculateSchedule sample_gross.1
    (Some (sample_schedule ApplicationOrderParallel sample_items)) = Ok sample_gross.2 /\
  (Qabs (dec_Rat (Money_Amount sample_gross.1) - total_of sample_gross.2 -
         dec_Rat (Money_Amount (sample_money (98 # 1)))) <= 1 # 10000000000)%Q.
Proof.
  apply (CalculateGrossFromNet_sound (sample_money (98 # 1)) sample_gross.1
    (sample_schedule ApplicationOrderParallel sample_items) sample_gross.2).
  rewrite <- surjective_pairing. apply from_ok_spec. vm_compute. reflexivity.
Defined.

Lemma CalculateGrossFromNet_flat_converges_witness :
  exists g b, CalculateGrossFromNet (sample_money (98 # 1))
    (Some (sample_schedule ApplicationOrderParallel
             [sample_item "flat" 1 (FlatFee (25 # 100)%Q)])) = Ok (g, b).
Proof.
  apply (CalculateGrossFromNet_flat_converges (sample_money (98 # 1))).
  - apply sample_schedule_wf. vm_compute. reflexivity.
  - apply flat_items_check. vm_compute. reflexivity.
  - vm_compute. done.
  - vm_compute. reflexivity.
Defined.
