(* ===== verification/FeeRules.v ===== *)
(** * Fee rules, their resolution, and fee verification

    Models internal/shared/domain/fee: [matching_side.go], [field_predicate.go],
    [fee_rule.go], [fee_rule_resolver.go] and [verifier.go].  Metadata values
    are Go [any] values; [fmt.Sprintf] and [strconv.FormatFloat] are operations
    of the class [FmtLib]. *)
From stdpp Require Import pretty.
From S2P Require Import GoLib GoLibModel FeeStructure FeeSchedule.

(** ** Go values of type [any]

    [AnyInt] is an [int], [int32] or [int64], [AnySmallInt] a signed integer of
    another type without a [String] method, [AnyJSONNumber] a [json.Number].
    [AnyStringer] is any other value with a [String] method: whether it is a
    nil pointer, its value if it is of a signed integer kind, and its text.
    [AnyList] and [AnyMap] are what JSON arrays and objects decode to. *)
Inductive any : Type :=
| AnyNil
| AnyString (s : string)
| AnyBytes (s : string)
| AnyBool (b : bool)
| AnyJSONNumber (s : string)
| AnyStringer (nilValue : bool) (intKind : option Z) (str : string)
| AnyInt (z : Z)
| AnySmallInt (z : Z)
| AnyUint (z : Z)
| AnyFloat (bitSize : Z) (f : float64)
| AnyList (l : list any)
| AnyMap (m : list (string * any))
| AnyOther (tag : nat).

Class FmtLib := {
  fmt_Sprint_v : any -> string;
  strconv_FormatFloat_f : float64 -> Z -> string;
}.

#[export] Instance model_fmt : FmtLib := {|
  fmt_Sprint_v _ := "<nil>";
  strconv_FormatFloat_f f _ := pretty (int_of_math_Round f);
|}.

(** ** Sides (matching_side.go) *)
Definition MatchingSide := string.
Definition MatchingSideLeft : MatchingSide := "LEFT".
Definition MatchingSideRight : MatchingSide := "RIGHT".
Definition MatchingSideAny : MatchingSide := "ANY".
Definition MatchingSide_IsValid (s : MatchingSide) : bool :=
  bool_decide (s ∈ [MatchingSideLeft; MatchingSideRight; MatchingSideAny]).
Definition AppliesToLeft (s : MatchingSide) : bool :=
  bool_decide (s = MatchingSideLeft) || bool_decide (s = MatchingSideAny).
Definition AppliesToRight (s : MatchingSide) : bool :=
  bool_decide (s = MatchingSideRight) || bool_decide (s = MatchingSideAny).
Definition IsExclusive (s : MatchingSide) : bool :=
  bool_decide (s = MatchingSideLeft) || bool_decide (s = MatchingSideRight).

(** ** Predicates (field_predicate.go) *)
Definition PredicateOperator := string.
Definition PredicateOperatorEquals : PredicateOperator := "EQUALS".
Definition PredicateOperatorIn : PredicateOperator := "IN".
Definition PredicateOperatorExists : PredicateOperator := "EXISTS".
Definition PredicateOperator_IsValid (o : PredicateOperator) : bool :=
  bool_decide (o ∈ [PredicateOperatorEquals; PredicateOperatorIn; PredicateOperatorExists]).

Definition maxPredicateFieldLength : nat := 255.
Definition maxPredicateValueLength : nat := 1024.
Definition maxPredicateValuesCount : nat := 100.

Record FieldPredicate : Type := mkFieldPredicate {
  Field : string;
  Operator : PredicateOperator;
  Value : string;
  Values : list string;
}.

Definition validateField (pred : FieldPredicate) : res FeeError unit :=
  if string_empty (strings_TrimSpace (Field pred)) then Err ErrPredicateFieldRequired
  else if (maxPredicateFieldLength <? String.length (Field pred))%nat
  then Err ErrPredicateFieldTooLong
  else Ok tt.

Definition validateOperator (pred : FieldPredicate) : res FeeError unit :=
  ensure (PredicateOperator_IsValid (Operator pred)) ErrInvalidPredicateOperator.

Definition validateEquals (pred : FieldPredicate) : res FeeError unit :=
  if string_empty (Value pred) then Err ErrPredicateValueRequired
  else if (0 <? length (Values pred))%nat then Err ErrPredicateValuesForbidden
  else if (maxPredicateValueLength <? String.length (Value pred))%nat
  then Err ErrPredicateValueTooLong
  else Ok tt.

Definition validateIn (pred : FieldPredicate) : res FeeError unit :=
  if negb (string_empty (Value pred)) then Err ErrPredicateValueForbidden
  else if (length (Values pred) =? 0)%nat then Err ErrPredicateValuesRequired
  else if (maxPredicateValuesCount <? length (Values pred))%nat then Err ErrPredicateValuesTooMany
  else if existsb (fun v => maxPredicateValueLength <? String.length v)%nat (Values pred)
  then Err ErrPredicateValueTooLong
  else Ok tt.

Definition validateExists (pred : FieldPredicate) : res FeeError unit :=
  if negb (string_empty (Value pred)) then Err ErrPredicateValueForbidden
  else if (0 <? length (Values pred))%nat then Err ErrPredicateValuesForbidden
  else Ok tt.

Definition validateOperatorRequirements (pred : FieldPredicate) : res FeeError unit :=
  if bool_decide (Operator pred = PredicateOperatorEquals) then validateEquals pred
  else if bool_decide (Operator pred = PredicateOperatorIn) then validateIn pred
  else if bool_decide (Operator pred = PredicateOperatorExists) then validateExists pred
  else Ok tt.

Definition FieldPredicate_Validate (pred : FieldPredicate) : res FeeError unit :=
  _ ← validateField pred;
  _ ← validateOperator pred;
  validateOperatorRequirements pred.

Section evaluation.
  Context {N : UnicodeLib} {F : FmtLib}.

Definition stringifyPredicateScalar (raw : any) : string :=
  match raw with
  | AnyInt z => pretty z
  | AnySmallInt z => pretty z
  | AnyUint z => pretty z
  | AnyFloat bits f => strconv_FormatFloat_f f bits
  | _ => fmt_Sprint_v raw
  end.

Definition stringifyPredicateValue (raw : any) : string :=
  match raw with
  | AnyString value => value
  | AnyBytes value => value
  | AnyBool value => if value then "true" else "false"
  | AnyJSONNumber str => str
  | AnyStringer nilValue _ str => if nilValue then "" else str
  | _ => stringifyPredicateScalar raw
  end.

(** Metadata may be the nil map. *)
Definition FieldPredicate_Evaluate (pred : FieldPredicate) (metadata : option (gmap string any))
  : bool :=
  match metadata with
  | None => false
  | Some m =>
      let rawVal := m !! Field pred in
      if bool_decide (Operator pred = PredicateOperatorEquals) then
        match rawVal with
        | None => false
        | Some v => strings_EqualFold (stringifyPredicateValue v) (Value pred)
        end
      else if bool_decide (Operator pred = PredicateOperatorIn) then
        match rawVal with
        | None => false
        | Some v => existsb (strings_EqualFold (stringifyPredicateValue v)) (Values pred)
        end
      else if bool_decide (Operator pred = PredicateOperatorExists) then
        match rawVal with None => false | Some _ => true end
      else false
  end.

(** ** Resolution (fee_rule_resolver.go) *)
Definition allPredicatesMatch (metadata : option (gmap string any)) (predicates : list FieldPredicate)
  : bool := forallb (fun pred => FieldPredicate_Evaluate pred metadata) predicates.
End evaluation.

(** ** Rules (fee_rule.go) *)
Definition maxFeeRuleNameLength : nat := 100.
Definition maxFeeRulePredicates : nat := 50.

Section rules.
  Context {U : UUIDLib} {D : DecimalLib} {T : AssertLib} {N : UnicodeLib} {F : FmtLib}.

Record FeeRule : Type := mkFeeRule {
  Rule_ID : uuid;
  Rule_ContextID : uuid;
  Rule_Side : MatchingSide;
  Rule_FeeScheduleID : uuid;
  Rule_Name : string;
  Rule_Priority : Z;
  Rule_Predicates : list FieldPredicate;
  Rule_CreatedAt : Time;
  Rule_UpdatedAt : Time;
}.

Definition trimField (pred : FieldPredicate) : FieldPredicate :=
  mkFieldPredicate (strings_TrimSpace (Field pred)) (Operator pred) (Value pred) (Values pred).

(** The loop shared by [NewFeeRule] and [validatePredicates]: each predicate's
    field is trimmed in place, then validated. *)
Definition trimAndValidate (preds : list FieldPredicate) : res FeeError (list FieldPredicate) :=
  res_mapM (fun pred => let pred := trimField pred in
                        _ ← FieldPredicate_Validate pred; Ok pred) preds.

Definition NewFeeRule (contextID feeScheduleID : uuid) (side : MatchingSide) (name : string)
  (priority : Z) (predicates : list FieldPredicate) (newID : uuid) (now : Time)
  : res FeeError FeeRule :=
  let trimmedName := strings_TrimSpace name in
  _ ← ensure (assert_That (negb (bool_decide (contextID = uuid_Nil)))) ErrFeeRuleContextIDRequired;
  _ ← ensure (assert_That (negb (bool_decide (feeScheduleID = uuid_Nil)))) ErrFeeRuleScheduleIDRequired;
  _ ← ensure (assert_That (MatchingSide_IsValid side)) ErrInvalidMatchingSide;
  _ ← ensure (assert_NotEmpty trimmedName) ErrFeeRuleNameRequired;
  _ ← ensure (assert_That (String.length trimmedName <=? maxFeeRuleNameLength)%nat) ErrFeeRuleNameTooLong;
  _ ← ensure (assert_That (0 <=? priority)%Z) ErrFeeRulePriorityNegative;
  _ ← ensure (assert_That (length predicates <=? maxFeeRulePredicates)%nat) ErrFeeRuleTooManyPredicates;
  normalizedPredicates ← trimAndValidate predicates;
  Ok (mkFeeRule newID contextID side feeScheduleID trimmedName priority normalizedPredicates now now).

Record UpdateFeeRuleInput : Type := mkUpdateFeeRuleInput {
  Upd_Side : option string;
  Upd_FeeScheduleID : option string;
  Upd_Name : option string;
  Upd_Priority : option Z;
  Upd_Predicates : option (list FieldPredicate);
}.

Definition parseFeeScheduleID (raw : string) : res FeeError uuid :=
  match uuid_Parse raw with
  | None => Err ErrFeeRuleScheduleIDRequired
  | Some parsed =>
      _ ← ensure (assert_That (negb (bool_decide (parsed = uuid_Nil)))) ErrFeeRuleScheduleIDRequired;
      Ok parsed
  end.

Definition validatePredicates (preds : list FieldPredicate) : res FeeError (list FieldPredicate) :=
  _ ← ensure (assert_That (length preds <=? maxFeeRulePredicates)%nat) ErrFeeRuleTooManyPredicates;
  trimAndValidate preds.

Definition set_Side (r : FeeRule) (s : MatchingSide) : FeeRule :=
  mkFeeRule (Rule_ID r) (Rule_ContextID r) s (Rule_FeeScheduleID r) (Rule_Name r)
    (Rule_Priority r) (Rule_Predicates r) (Rule_CreatedAt r) (Rule_UpdatedAt r).
Definition set_Name (r : FeeRule) (n : string) : FeeRule :=
  mkFeeRule (Rule_ID r) (Rule_ContextID r) (Rule_Side r) (Rule_FeeScheduleID r) n
    (Rule_Priority r) (Rule_Predicates r) (Rule_CreatedAt r) (Rule_UpdatedAt r).
Definition set_Priority (r : FeeRule) (p : Z) : FeeRule :=
  mkFeeRule (Rule_ID r) (Rule_ContextID r) (Rule_Side r) (Rule_FeeScheduleID r) (Rule_Name r)
    p (Rule_Predicates r) (Rule_CreatedAt r) (Rule_UpdatedAt r).
Definition set_FeeScheduleID (r : FeeRule) (i : uuid) : FeeRule :=
  mkFeeRule (Rule_ID r) (Rule_ContextID r) (Rule_Side r) i (Rule_Name r)
    (Rule_Priority r) (Rule_Predicates r) (Rule_CreatedAt r) (Rule_UpdatedAt r).
Definition set_Predicates (r : FeeRule) (ps : list FieldPredicate) : FeeRule :=
  mkFeeRule (Rule_ID r) (Rule_ContextID r) (Rule_Side r) (Rule_FeeScheduleID r) (Rule_Name r)
    (Rule_Priority r) ps (Rule_CreatedAt r) (Rule_UpdatedAt r).
Definition set_UpdatedAt (r : FeeRule) (t : Time) : FeeRule :=
  mkFeeRule (Rule_ID r) (Rule_ContextID r) (Rule_Side r) (Rule_FeeScheduleID r) (Rule_Name r)
    (Rule_Priority r) (Rule_Predicates r) (Rule_CreatedAt r) t.

(** Fields are assigned as soon as they are validated, so an error in a later
    field leaves the earlier ones changed. *)
Definition FeeRule_Update (input : UpdateFeeRuleInput) (now : Time) : st FeeRule FeeError unit :=
  fr ← st_get;
  _ ← st_ensure (assert_NotNil (Some fr)) ErrFeeRuleNotFound;
  _ ← st_when (Upd_Side input) (fun side =>
        _ ← st_ensure (assert_That (MatchingSide_IsValid side)) ErrInvalidMatchingSide;
        st_modify (fun fr => set_Side fr side));
  _ ← st_when (Upd_Name input) (fun name =>
        let trimmedName := strings_TrimSpace name in
        _ ← st_ensure (assert_NotEmpty trimmedName) ErrFeeRuleNameRequired;
        _ ← st_ensure (assert_That (String.length trimmedName <=? maxFeeRuleNameLength)%nat)
              ErrFeeRuleNameTooLong;
        st_modify (fun fr => set_Name fr trimmedName));
  _ ← st_when (Upd_Priority input) (fun priority =>
        _ ← st_ensure (assert_That (0 <=? priority)%Z) ErrFeeRulePriorityNegative;
        st_modify (fun fr => set_Priority fr priority));
  _ ← st_when (Upd_FeeScheduleID input) (fun raw =>
        parsed ← st_lift (parseFeeScheduleID raw);
        st_modify (fun fr => set_FeeScheduleID fr parsed));
  _ ← st_when (Upd_Predicates input) (fun predicates =>
        preds ← st_lift (validatePredicates predicates);
        st_modify (fun fr => set_Predicates fr preds));
  st_modify (fun fr => set_UpdatedAt fr now).

(** ** Resolution and splitting (fee_rule_resolver.go)

    Slices of pointers may hold nil, and so may the schedule map. *)
Fixpoint ResolveFeeSchedule (metadata : option (gmap string any)) (rules : list (option FeeRule))
  (schedules : gmap uuid (option FeeSchedule)) : option FeeSchedule :=
  match rules with
  | [] => None
  | None :: rest => ResolveFeeSchedule metadata rest schedules
  | Some rule :: rest =>
      if negb (allPredicatesMatch metadata (Rule_Predicates rule))
      then ResolveFeeSchedule metadata rest schedules
      else match schedules !! Rule_FeeScheduleID rule with
      | Some (Some schedule) => Some schedule
      | _ => ResolveFeeSchedule metadata rest schedules
      end
  end.

Fixpoint SplitRulesBySide (rules : list (option FeeRule))
  : list (option FeeRule) * list (option FeeRule) :=
  match rules with
  | [] => ([], [])
  | None :: rest => SplitRulesBySide rest
  | Some rule :: rest =>
      let '(leftRules, rightRules) := SplitRulesBySide rest in
      (if AppliesToLeft (Rule_Side rule) then Some rule :: leftRules else leftRules,
       if AppliesToRight (Rule_Side rule) then Some rule :: rightRules else rightRules)
  end.
End rules.

(** ** Verification (verifier.go) *)
Inductive VarianceType : Type := VarianceMatch | VarianceUndercharge | VarianceOvercharge.
#[export] Instance VarianceType_eq_dec : EqDecision VarianceType.
Proof. solve_decision. Defined.

Section verifier.
  Context {D : DecimalLib}.

Record Tolerance : Type := mkTolerance {
  Tolerance_Abs : decimal;
  Tolerance_Percent : decimal;
}.

Record VarianceResult : Type := mkVarianceResult {
  VR_Type : VarianceType;
  VR_Expected : Money;
  VR_Actual : Money;
  VR_Delta : decimal;
  VR_Threshold : decimal;
}.

Definition VerifyFee (actual expected : Money) (tolerance : Tolerance)
  : res FeeError VarianceResult :=
  if negb (bool_decide (Money_Currency actual = Money_Currency expected))
  then Err ErrCurrencyMismatch
  else if dec_IsNegative (Tolerance_Abs tolerance) || dec_IsNegative (Tolerance_Percent tolerance)
  then Err ErrToleranceNegative
  else
    let maxAbs := dec_Abs (Money_Amount expected) in
    let maxAbs := if dec_GreaterThan (dec_Abs (Money_Amount actual)) maxAbs
                  then dec_Abs (Money_Amount actual) else maxAbs in
    let percentThreshold := dec_Mul (Tolerance_Percent tolerance) maxAbs in
    let threshold := Tolerance_Abs tolerance in
    let threshold := if dec_GreaterThan percentThreshold threshold
                     then percentThreshold else threshold in
    let delta := dec_Sub (Money_Amount actual) (Money_Amount expected) in
    if dec_LessThanOrEqual (dec_Abs delta) threshold
    then Ok (mkVarianceResult VarianceMatch expected actual delta threshold)
    else if dec_LessThan (Money_Amount actual) (Money_Amount expected)
    then Ok (mkVarianceResult VarianceUndercharge expected actual delta threshold)
    else Ok (mkVarianceResult VarianceOvercharge expected actual delta threshold).
End verifier.

(** ** Specifications *)
Section specs.
  Context {U : UUIDLib} {D : DecimalLib} {T : AssertLib} {N : UnicodeLib} {F : FmtLib}.
  Local Open Scope Q_scope.

Record fee_rule_wf (r : FeeRule) : Prop := {
  rule_context : Rule_ContextID r <> uuid_Nil;
  rule_schedule : Rule_FeeScheduleID r <> uuid_Nil;
  rule_side : MatchingSide_IsValid (Rule_Side r) = true;
  rule_name : (0 < String.length (Rule_Name r) <= maxFeeRuleNameLength)%nat;
  rule_priority : (0 <= Rule_Priority r)%Z;
  rule_npreds : (length (Rule_Predicates r) <= maxFeeRulePredicates)%nat;
  rule_preds : Forall (fun p => FieldPredicate_Validate p = Ok tt) (Rule_Predicates r);
}.

(** A rule selects a schedule when its predicates hold and its schedule is there. *)
Definition selects (metadata : option (gmap string any)) (schedules : gmap uuid (option FeeSchedule))
  (r : option FeeRule) (s : FeeSchedule) : Prop :=
  exists rule, r = Some rule /\ allPredicatesMatch metadata (Rule_Predicates rule) = true /\
    schedules !! Rule_FeeScheduleID rule = Some (Some s).

(** The larger of the absolute tolerance and the percentage of the larger amount. *)
Definition fee_threshold (a e abs pct : Q) : Q := Qmax abs (pct * Qmax (Qabs e) (Qabs a)).
End specs.

Section rule_lemmas.
  Context {U : UUIDLib} {D : DecimalLib} {T : AssertLib} {TL : AssertLaws T}.
  Context {N : UnicodeLib} {F : FmtLib}.

Lemma trimAndValidate_ok preds preds' :
  trimAndValidate preds = Ok preds' ->
  length preds' = length preds /\ Forall (fun p => FieldPredicate_Validate p = Ok tt) preds'.
Proof.
  unfold trimAndValidate. intros H%res_mapM_Ok. split; [by apply Forall2_length in H|].
  induction H as [|p q ps qs Hp _ IH]; constructor; [|done].
  res_inv. by destruct x.
Qed.

Lemma trimmed_name_length name :
  assert_NotEmpty (strings_TrimSpace name) = true ->
  assert_That (String.length (strings_TrimSpace name) <=? maxFeeRuleNameLength)%nat = true ->
  (0 < String.length (strings_TrimSpace name) <= maxFeeRuleNameLength)%nat.
Proof.
  rewrite assert_NotEmpty_spec, assert_That_spec, Nat.leb_le. intros H1 H2. split; [|done].
  destruct (strings_TrimSpace name); [done|]. simpl. lia.
Qed.

Lemma ResolveFeeSchedule_skip metadata schedules pre rules :
  Forall (fun r => forall s, ~ selects metadata schedules r s) pre ->
  ResolveFeeSchedule metadata (pre ++ rules) schedules = ResolveFeeSchedule metadata rules schedules.
Proof.
  induction 1 as [|[r|] pre Hr _ IH]; simpl; [done| |done].
  destruct (allPredicatesMatch metadata (Rule_Predicates r)) eqn:E; simpl; [|done].
  destruct (schedules !! Rule_FeeScheduleID r) as [[s|]|] eqn:Es; try done.
  destruct (Hr s). by exists r.
Qed.
End rule_lemmas.

(** ** Results *)
Section results.
  Context {U : UUIDLib} {UL : UUIDLaws U} {D : DecimalLib} {L : DecimalLaws D}.
  Context {T : AssertLib} {TL : AssertLaws T} {N : UnicodeLib} {F : FmtLib}.
  Local Open Scope Q_scope.

(** Every rule [NewFeeRule] accepts is well formed, and [Update] keeps a
    rule well formed whatever it is given, even when it fails half-way and
    leaves some fields changed. *)
Theorem FeeRule_wf_invariant (contextID feeScheduleID newID : uuid) (side : MatchingSide)
  (name : string) (priority : Z) (predicates : list FieldPredicate) (now : Time) :
  (forall r, NewFeeRule contextID feeScheduleID side name priority predicates newID now = Ok r ->
             fee_rule_wf r) /\
  (forall r input later, fee_rule_wf r -> fee_rule_wf (FeeRule_Update input later r).1).
Proof.
  split.
  - unfold NewFeeRule. intros r H. res_inv.
    pose proof (trimmed_name_length _ Hx2 Hx3) as Hname.
    rewrite ?assert_That_spec in *. bool_inv.
    apply trimAndValidate_ok in Hx6 as [Hlen Hval].
    apply Nat.leb_le in Hx5. apply Z.leb_le in Hx4. split; simpl; try done. lia.
  - intros r input later. revert r. change (st_preserves fee_rule_wf (FeeRule_Update input later)).
    unfold FeeRule_Update. apply st_preserves_seq; [by intros s Hs|intros fr].
    apply st_preserves_ensure; intros _.
    repeat (apply st_preserves_seq; [apply st_preserves_when; intros a _|intros _]);
      [| | | | |st_step; intros r [??????]; by split].
    + do 2 st_step. intros r [??????]. rewrite assert_That_spec in *. by split.
    + apply st_preserves_ensure; intros H1. apply st_preserves_ensure; intros H2.
      apply st_preserves_modify. intros r [??????]. split; try done. by apply trimmed_name_length.
    + apply st_preserves_ensure; intros Ha. rewrite assert_That_spec in Ha.
      apply st_preserves_modify. intros r [??????]. split; try done. by apply Z.leb_le.
    + apply st_preserves_lift_bind. intros u Hu. unfold parseFeeScheduleID in Hu.
      destruct (uuid_Parse a); [|done]. res_inv. rewrite assert_That_spec in Hx. bool_inv.
      apply st_preserves_modify. intros r [??????]. by split.
    + apply st_preserves_lift_bind. intros ps Hps. unfold validatePredicates in Hps.
      res_inv. rewrite assert_That_spec in Hx. apply Nat.leb_le in Hx.
      apply trimAndValidate_ok in Hps as [Hlen Hval].
      apply st_preserves_modify. intros r [??????]. split; try done. simpl. lia.
Qed.

(** Resolution is first match wins: a schedule is returned exactly when
    some rule selects it and no earlier rule selects any schedule; nil rules
    and rules whose schedule is missing are passed over. *)
Theorem ResolveFeeSchedule_first (metadata : option (gmap string any))
  (rules : list (option FeeRule)) (schedules : gmap uuid (option FeeSchedule)) (s : FeeSchedule) :
  ResolveFeeSchedule metadata rules schedules = Some s <->
  exists pre r post, rules = pre ++ r :: post /\ selects metadata schedules r s /\
    Forall (fun r' => forall s', ~ selects metadata schedules r' s') pre.
Proof.
  split.
  - induction rules as [|[r|] rules IH]; simpl; [done| |].
    + intros H. destruct (allPredicatesMatch metadata (Rule_Predicates r)) eqn:E; simpl in H;
        [destruct (schedules !! Rule_FeeScheduleID r) as [[s'|]|] eqn:Es|];
        [injection H as ->; exists [], (Some r), rules; split_and!; [done|by exists r|constructor]|..];
        destruct (IH H) as (pre & r' & post & -> & Hsel & Hpre);
        exists (Some r :: pre), r', post; (split_and!; [done..|]); constructor; try done;
        intros s'' (r'' & [= <-] & Hm & Hl); congruence.
    + intros H. destruct (IH H) as (pre & r' & post & -> & Hsel & Hpre).
      exists (None :: pre), r', post. split_and!; [done..|]. constructor; [|done].
      by intros s' (r'' & ? & _).
  - intros (pre & r & post & -> & (rule & -> & Hm & Hl) & Hpre).
    rewrite ResolveFeeSchedule_skip by done. simpl. by rewrite Hm, Hl.
Qed.

Lemma VerifyFee_spec (actual expected : Money) (tolerance : Tolerance) :
  Money_Currency actual = Money_Currency expected ->
  0 <= dec_Rat (Tolerance_Abs tolerance) -> 0 <= dec_Rat (Tolerance_Percent tolerance) ->
  let a := dec_Rat (Money_Amount actual) in
  let e := dec_Rat (Money_Amount expected) in
  let t := fee_threshold a e (dec_Rat (Tolerance_Abs tolerance)) (dec_Rat (Tolerance_Percent tolerance)) in
  exists r, VerifyFee actual expected tolerance = Ok r /\
    dec_Rat (VR_Delta r) == a - e /\ dec_Rat (VR_Threshold r) == t /\
    match VR_Type r with
    | VarianceMatch => Qabs (a - e) <= t
    | VarianceUndercharge => t < e - a
    | VarianceOvercharge => t < a - e
    end.
Proof.
  intros Hc Ha Hp a e t. unfold VerifyFee. rewrite bool_decide_true by done. simpl.
  destruct (dec_IsNegative (Tolerance_Abs tolerance)) eqn:E1; [dec_bool; lra|].
  destruct (dec_IsNegative (Tolerance_Percent tolerance)) eqn:E2; [dec_bool; lra|]. simpl.
  set (maxAbs := if dec_GreaterThan (dec_Abs _) _ then _ else _).
  assert (Hmax : dec_Rat maxAbs == Qmax (Qabs e) (Qabs a)).
  { pose proof (dec_Rat_Abs (Money_Amount actual)). pose proof (dec_Rat_Abs (Money_Amount expected)).
    subst maxAbs a e. destruct (dec_GreaterThan _ _) eqn:E; dec_bool; q_minmax; lra. }
  clearbody maxAbs.
  set (thr := if dec_GreaterThan (dec_Mul _ _) _ then _ else _).
  assert (Hthr : dec_Rat thr == t).
  { subst thr t. unfold fee_threshold.
    pose proof (dec_Rat_Mul (Tolerance_Percent tolerance) maxAbs) as Hm. rewrite Hmax in Hm.
    set (pm := _ * Qmax _ _) in *. clearbody pm.
    destruct (dec_GreaterThan _ _) eqn:E; dec_bool; q_minmax; lra. }
  clearbody thr. subst a e. set (d := dec_Sub _ _).
  assert (Hd : dec_Rat d == dec_Rat (Money_Amount actual) - dec_Rat (Money_Amount expected))
    by apply dec_Rat_Sub.
  destruct (dec_LessThanOrEqual (dec_Abs d) thr) eqn:E3;
    [|destruct (dec_LessThan (Money_Amount actual) (Money_Amount expected)) eqn:E4];
    eexists; (split; [reflexivity|]); simpl; (split; [done|]); (split; [done|]).
  - dec_bool. rewrite dec_Rat_Abs, Hd, Hthr in E3. done.
  - dec_bool. dec_abs; lra.
  - dec_bool. dec_abs; lra.
Qed.

(** Fee verification classifies every pair of fees of one currency:
    [MATCH] within the larger of the absolute and the percentage tolerance,
    otherwise [UNDERCHARGE] or [OVERCHARGE] by the sign of the difference,
    which is reported with the threshold used. *)
Theorem VerifyFee_classifies (actual expected : Money) (tolerance : Tolerance) :
  Money_Currency actual = Money_Currency expected ->
  0 <= dec_Rat (Tolerance_Abs tolerance) -> 0 <= dec_Rat (Tolerance_Percent tolerance) ->
  let a := dec_Rat (Money_Amount actual) in
  let e := dec_Rat (Money_Amount expected) in
  let t := fee_threshold a e (dec_Rat (Tolerance_Abs tolerance)) (dec_Rat (Tolerance_Percent tolerance)) in
  exists r, VerifyFee actual expected tolerance = Ok r /\
    dec_Rat (VR_Delta r) == a - e /\ dec_Rat (VR_Threshold r) == t /\
    match VR_Type r with
    | VarianceMatch => Qabs (a - e) <= t
    | VarianceUndercharge => t < e - a
    | VarianceOvercharge => t < a - e
    end.
Proof. apply VerifyFee_spec. Qed.
End results.

(** ** Witnesses at the concrete library instance *)
Definition sample_pred (field value : string) : FieldPredicate :=
  mkFieldPredicate field PredicateOperatorEquals value [].

Definition sample_rule (prio : Z) (schedule : string) (preds : list FieldPredicate)
  : @FeeRule model_uuid :=
  mkFeeRule (U:=model_uuid) "rule" "context" MatchingSideAny schedule "Card" prio preds 0 0.

Lemma FeeRule_wf_invariant_witness :
  fee_rule_wf (FeeRule_Update
    (mkUpdateFeeRuleInput (Some "LEFT") None (Some "   ") (Some 7%Z) None) 5
    (sample_rule 1 "s1" [sample_pred "brand" "visa"])).1.
Proof.
  apply (FeeRule_wf_invariant (U:=model_uuid) "context" "s1" "rule" MatchingSideAny "Card" 1
           [sample_pred " brand " "visa"] 0).
  apply (FeeRule_wf_invariant (U:=model_uuid) "context" "s1" "rule" MatchingSideAny "Card" 1
           [sample_pred " brand " "visa"] 0).
  vm_compute. reflexivity.
Defined.

Lemma VerifyFee_classifies_witness :
  exists r, VerifyFee (sample_money (12 # 1)) (sample_money (10 # 1))
              (mkTolerance (D:=model_decimal) (1 # 1)%Q (5 # 100)%Q) = Ok r /\
    (dec_Rat (VR_Delta r) == 12 - 10)%Q /\
    (dec_Rat (VR_Threshold r) == fee_threshold 12 10 1 (5 # 100))%Q /\
    match VR_Type r with
    | VarianceMatch => (Qabs (12 - 10) <= fee_threshold 12 10 1 (5 # 100))%Q
    | VarianceUndercharge => (fee_threshold 12 10 1 (5 # 100) < 10 - 12)%Q
    | VarianceOvercharge => (fee_threshold 12 10 1 (5 # 100) < 12 - 10)%Q
    end.
Proof.
  apply (VerifyFee_classifies (sample_money (12 # 1)) (sample_money (10 # 1))
           (mkTolerance (D:=model_decimal) (1 # 1)%Q (5 # 100)%Q)); vm_compute; done.
Defined.
