(* ===== verification/MatchTypes.v ===== *)
(** * Data of the matching engine, day arithmetic and deterministic ordering

    Models internal/matching/domain/services: [types.go], the configuration
    types of [rule_definition.go], [date_math.go] and [deterministic_sort.go].
    The two comparison functions are total preorders, so the in-place sorts
    depend only on the set of elements once identifiers are distinct. *)
From S2P Require Import GoLib GoLibModel FeeStructure FeeSchedule FeeRules.

(** ** Enumerations (Go string types) *)
Definition DatePrecision := string.
Definition DatePrecisionDay : DatePrecision := "DAY".
Definition DatePrecisionTimestamp : DatePrecision := "TIMESTAMP".

Definition RoundingMode := string.
Definition RoundingHalfUp : RoundingMode := "HALF_UP".
Definition RoundingBankers : RoundingMode := "BANKERS".
Definition RoundingFloor : RoundingMode := "FLOOR".
Definition RoundingCeil : RoundingMode := "CEIL".
Definition RoundingTruncate : RoundingMode := "TRUNCATE".

Definition DateLagDirection := string.
Definition DateLagDirectionAbs : DateLagDirection := "ABS".
Definition DateLagDirectionLeftBeforeRight : DateLagDirection := "LEFT_BEFORE_RIGHT".
Definition DateLagDirectionRightBeforeLeft : DateLagDirection := "RIGHT_BEFORE_LEFT".

Definition AllocationDirection := string.
Definition AllocationDirectionLeftToRight : AllocationDirection := "LEFT_TO_RIGHT".
Definition AllocationDirectionRightToLeft : AllocationDirection := "RIGHT_TO_LEFT".

Definition AllocationToleranceMode := string.
Definition AllocationToleranceAbsolute : AllocationToleranceMode := "ABS".
Definition AllocationTolerancePercent : AllocationToleranceMode := "PERCENT".

Definition TolerancePercentageBase := string.
Definition TolerancePercentageBaseMax : TolerancePercentageBase := "MAX".
Definition TolerancePercentageBaseMin : TolerancePercentageBase := "MIN".
Definition TolerancePercentageBaseAvg : TolerancePercentageBase := "AVERAGE".
Definition TolerancePercentageBaseLeft : TolerancePercentageBase := "LEFT".
Definition TolerancePercentageBaseRight : TolerancePercentageBase := "RIGHT".

(** [shared.RuleType] *)
Definition RuleType := string.

Record ExactConfig : Type := mkExactConfig {
  EC_MatchAmount : bool;
  EC_MatchCurrency : bool;
  EC_MatchDate : bool;
  EC_DatePrecision : DatePrecision;
  EC_MatchReference : bool;
  EC_CaseInsensitive : bool;
  EC_ReferenceMustSet : bool;
  EC_MatchBaseAmount : bool;
  EC_MatchBaseCurrency : bool;
  EC_MatchScore : Z;
  EC_MatchBaseScore : Z;
}.

Section types.
  Context {U : UUIDLib} {D : DecimalLib}.

Record ToleranceConfig : Type := mkToleranceConfig {
  TC_MatchCurrency : bool;
  TC_DateWindowDays : Z;
  TC_AbsAmountTolerance : decimal;
  TC_PercentTolerance : decimal;
  TC_RoundingScale : Z;
  TC_RoundingMode : RoundingMode;
  TC_MatchBaseAmount : bool;
  TC_MatchBaseCurrency : bool;
  TC_MatchScore : Z;
  TC_MatchBaseScore : Z;
  TC_PercentageBase : TolerancePercentageBase;
  TC_MatchReference : bool;
  TC_CaseInsensitive : bool;
  TC_ReferenceMustSet : bool;
}.

Record DateLagConfig : Type := mkDateLagConfig {
  DC_MinDays : Z;
  DC_MaxDays : Z;
  DC_Inclusive : bool;
  DC_Direction : DateLagDirection;
  DC_FeeTolerance : decimal;
  DC_MatchScore : Z;
  DC_MatchCurrency : bool;
}.

Record AllocationConfig : Type := mkAllocationConfig {
  AC_AllowPartial : bool;
  AC_Direction : AllocationDirection;
  AC_ToleranceMode : AllocationToleranceMode;
  AC_ToleranceValue : decimal;
  AC_UseBaseAmount : bool;
}.

Record RuleDefinition : Type := mkRuleDefinition {
  RD_ID : uuid;
  RD_Priority : Z;
  RD_Type : RuleType;
  RD_Exact : option ExactConfig;
  RD_Tolerance : option ToleranceConfig;
  RD_DateLag : option DateLagConfig;
  RD_Allocation : option AllocationConfig;
}.

Record CandidateTransaction : Type := mkCandidateTransaction {
  CT_ID : uuid;
  CT_SourceID : uuid;
  CT_Amount : decimal;
  CT_OriginalAmount : decimal;
  CT_AmountBase : option decimal;
  CT_FeeBreakdown : option FeeBreakdown;
  CT_Currency : string;
  CT_CurrencyBase : string;
  CT_Reference : string;
  CT_Date : Time;
}.

Record Allocation : Type := mkAllocation {
  AL_TransactionID : uuid;
  AL_AllocatedAmount : decimal;
  AL_Currency : string;
  AL_UseBaseAmount : bool;
}.

Record MatchProposal : Type := mkMatchProposal {
  MP_RuleID : uuid;
  MP_LeftIDs : list uuid;
  MP_RightIDs : list uuid;
  MP_LeftAllocations : list Allocation;
  MP_RightAllocations : list Allocation;
  MP_Score : Z;
  MP_Mode : string;
}.
End types.

(** ** Days (date_math.go) *)
Definition DayUTC (t : Time) : Time := utc_midnight t.

(** [int(r.Sub(l) / (24*time.Hour))]: the difference saturates at the range of
    [time.Duration], and Go's division truncates. *)
Definition SignedDayDiff (left right : Time) : Z :=
  Z.quot (time_Sub (DayUTC right) (DayUTC left)) nanos_per_day.

Definition AbsDayDiff (left right : Time) : Z :=
  let d := SignedDayDiff left right in
  if (d <? 0)%Z then (- d)%Z else d.

(** ** Ordering (deterministic_sort.go) *)
Section ordering.
  Context {U : UUIDLib} {D : DecimalLib}.

Definition rule_less (a b : RuleDefinition) : bool :=
  if negb (RD_Priority a =? RD_Priority b)%Z then (RD_Priority a <? RD_Priority b)%Z
  else if negb (bool_decide (RD_Type a = RD_Type b)) then string_lt (RD_Type a) (RD_Type b)
  else string_lt (uuid_String (RD_ID a)) (uuid_String (RD_ID b)).

Definition SortRules (rules : list RuleDefinition) : list RuleDefinition :=
  stable_sort rule_less rules.

Definition tx_less (a b : CandidateTransaction) : bool :=
  let di := DayUTC (CT_Date a) in
  let dj := DayUTC (CT_Date b) in
  let after_base :=
    if negb (bool_decide (CT_CurrencyBase a = CT_CurrencyBase b))
    then string_lt (CT_CurrencyBase a) (CT_CurrencyBase b)
    else if negb (bool_decide (CT_Reference a = CT_Reference b))
    then string_lt (CT_Reference a) (CT_Reference b)
    else string_lt (uuid_String (CT_ID a)) (uuid_String (CT_ID b)) in
  if negb (time_Equal di dj) then time_Before di dj
  else if negb (dec_Equal (CT_Amount a) (CT_Amount b))
  then dec_LessThan (CT_Amount a) (CT_Amount b)
  else if negb (bool_decide (CT_Currency a = CT_Currency b))
  then string_lt (CT_Currency a) (CT_Currency b)
  else match CT_AmountBase a, CT_AmountBase b with
  | Some x, Some y => if negb (dec_Equal x y) then dec_LessThan x y else after_base
  | None, Some _ => true
  | Some _, None => false
  | None, None => after_base
  end.

Definition SortTransactions (txs : list CandidateTransaction) : list CandidateTransaction :=
  stable_sort tx_less txs.
End ordering.

(** ** The comparisons behind the two [less] functions *)
Section comparisons.
  Context {U : UUIDLib} {D : DecimalLib}.

Definition dec_cmp (a b : decimal) : comparison := Qcompare (dec_Rat a) (dec_Rat b).

Definition rule_cmp : RuleDefinition -> RuleDefinition -> comparison :=
  cmp_then (cmp_on RD_Priority Z.compare)
    (cmp_then (cmp_on RD_Type String.compare) (cmp_on (fun r => uuid_String (RD_ID r)) String.compare)).

Definition tx_cmp : CandidateTransaction -> CandidateTransaction -> comparison :=
  cmp_then (cmp_on (fun t => DayUTC (CT_Date t)) Z.compare)
    (cmp_then (cmp_on CT_Amount dec_cmp)
      (cmp_then (cmp_on CT_Currency String.compare)
        (cmp_then (cmp_on CT_AmountBase (cmp_option dec_cmp))
          (cmp_then (cmp_on CT_CurrencyBase String.compare)
            (cmp_then (cmp_on CT_Reference String.compare)
              (cmp_on (fun t => uuid_String (CT_ID t)) String.compare)))))).

#[export] Instance dec_cmp_order : CmpOrder dec_cmp.
Proof.
  split; unfold dec_cmp; intros.
  - symmetry. apply Qcompare_antisym.
  - rewrite <- Qlt_alt in *. lra.
  - rewrite <- Qeq_alt in H. by rewrite H.
Qed.

#[export] Instance rule_cmp_order : CmpOrder rule_cmp.
Proof. apply _. Qed.
#[export] Instance tx_cmp_order : CmpOrder tx_cmp.
Proof. apply _. Qed.
End comparisons.

Lemma stable_sort_ext {A} (f g : A -> A -> bool) l :
  (forall a b, f a b = g a b) -> stable_sort f l = stable_sort g l.
Proof.
  intros H. induction l as [|x l IH]; simpl; [done|]. rewrite IH.
  generalize (stable_sort g l) as s. clear l IH.
  induction s as [|y s IH]; simpl; [done|]. by rewrite H, IH.
Qed.

Lemma string_step (a b : string) (k : bool) (c : comparison) :
  k = match c with Lt => true | _ => false end ->
  (if negb (bool_decide (a = b)) then string_lt a b else k) =
  match (match String.compare a b with Eq => c | r => r end) with Lt => true | _ => false end.
Proof.
  intros ->. case_bool_decide as E; simpl.
  - subst. by rewrite (cmp_refl String.compare b).
  - unfold string_lt, cmp_lt. destruct (String.compare a b) eqn:Ec; [|done..].
    by apply String.compare_eq_iff in Ec.
Qed.

Section comparison_lemmas.
  Context {U : UUIDLib} {D : DecimalLib} {L : DecimalLaws D}.

Lemma dec_step (a b : decimal) (k : bool) (c : comparison) :
  k = match c with Lt => true | _ => false end ->
  (if negb (dec_Equal a b) then dec_LessThan a b else k) =
  match (match dec_cmp a b with Eq => c | r => r end) with Lt => true | _ => false end.
Proof.
  intros ->. unfold dec_cmp. destruct (Qcompare_spec (dec_Rat a) (dec_Rat b)) as [E|E|E].
  - destruct (dec_Equal a b) eqn:Eq; [done|]. dec_bool. done.
  - destruct (dec_Equal a b) eqn:Eq; dec_bool; [lra|]. simpl. by dec_goal.
  - destruct (dec_Equal a b) eqn:Eq; dec_bool; [lra|]. simpl. dec_goal. lra.
Qed.

Lemma rule_less_cmp a b : rule_less a b = cmp_lt rule_cmp a b.
Proof.
  unfold rule_less, cmp_lt, rule_cmp, cmp_then, cmp_on.
  destruct (Z.compare_spec (RD_Priority a) (RD_Priority b)) as [E|E|E].
  - rewrite E, Z.eqb_refl. simpl. by rewrite (string_step _ _ _ (String.compare
      (uuid_String (RD_ID a)) (uuid_String (RD_ID b)))).
  - destruct (Z.eqb_spec (RD_Priority a) (RD_Priority b)); [lia|]. simpl. by apply Z.ltb_lt.
  - destruct (Z.eqb_spec (RD_Priority a) (RD_Priority b)); [lia|]. simpl. apply Z.ltb_ge. lia.
Qed.

Lemma tx_less_cmp a b : tx_less a b = cmp_lt tx_cmp a b.
Proof.
  unfold tx_less, cmp_lt, tx_cmp, cmp_then, cmp_on, cmp_option, time_Equal, time_Before.
  set (c7 := String.compare (uuid_String (CT_ID a)) (uuid_String (CT_ID b))).
  set (c5 := match String.compare (CT_CurrencyBase a) (CT_CurrencyBase b) with
             | Eq => match String.compare (CT_Reference a) (CT_Reference b) with
                     | Eq => c7 | r => r end
             | r => r end).
  assert (Hk : (if negb (bool_decide (CT_CurrencyBase a = CT_CurrencyBase b))
    then string_lt (CT_CurrencyBase a) (CT_CurrencyBase b)
    else if negb (bool_decide (CT_Reference a = CT_Reference b))
    then string_lt (CT_Reference a) (CT_Reference b)
    else string_lt (uuid_String (CT_ID a)) (uuid_String (CT_ID b))) =
    match c5 with Lt => true | _ => false end).
  { apply string_step. by apply string_step. }
  destruct (Z.compare_spec (DayUTC (CT_Date a)) (DayUTC (CT_Date b))) as [E|E|E].
  - rewrite E, Z.eqb_refl. simpl. apply dec_step. apply string_step.
    destruct (CT_AmountBase a), (CT_AmountBase b); try done. by apply dec_step.
  - destruct (Z.eqb_spec (DayUTC (CT_Date a)) (DayUTC (CT_Date b))); [lia|]. simpl. by apply Z.ltb_lt.
  - destruct (Z.eqb_spec (DayUTC (CT_Date a)) (DayUTC (CT_Date b))); [lia|]. simpl. apply Z.ltb_ge. lia.
Qed.

Lemma SortRules_cmp rules : SortRules rules = stable_sort (cmp_lt rule_cmp) rules.
Proof. apply stable_sort_ext, rule_less_cmp. Qed.
Lemma SortTransactions_cmp txs : SortTransactions txs = stable_sort (cmp_lt tx_cmp) txs.
Proof. apply stable_sort_ext, tx_less_cmp. Qed.
End comparison_lemmas.

(** ** Results *)
Section results.
  Context {U : UUIDLib} {UL : UUIDLaws U} {D : DecimalLib} {L : DecimalLaws D}.

Lemma tx_cmp_Eq_id a b : tx_cmp a b = Eq -> CT_ID a = CT_ID b.
Proof.
  unfold tx_cmp, cmp_then, cmp_on. repeat case_match; try done. intros E.
  by apply uuid_String_inj, String.compare_eq_iff.
Qed.

Lemma rule_cmp_Eq_id a b : rule_cmp a b = Eq -> RD_ID a = RD_ID b.
Proof.
  unfold rule_cmp, cmp_then, cmp_on. repeat case_match; try done. intros E.
  by apply uuid_String_inj, String.compare_eq_iff.
Qed.

Lemma SortTransactions_perm_eq txs txs' :
  NoDup (CT_ID <$> txs) -> txs ≡ₚ txs' -> SortTransactions txs = SortTransactions txs'.
Proof.
  intros Hnd Hp. rewrite !SortTransactions_cmp. apply stable_sort_canonical; [apply _| |done].
  intros a b Ha Hb E. by eapply NoDup_fmap_key, tx_cmp_Eq_id.
Qed.

Lemma SortRules_perm_eq rules rules' :
  NoDup (RD_ID <$> rules) -> rules ≡ₚ rules' -> SortRules rules = SortRules rules'.
Proof.
  intros Hnd Hp. rewrite !SortRules_cmp. apply stable_sort_canonical; [apply _| |done].
  intros a b Ha Hb E. by eapply NoDup_fmap_key, rule_cmp_Eq_id.
Qed.

(** Sorting is deterministic: transactions with distinct identifiers come
    out in one order, sorted and with nothing added or lost, however the
    input was ordered; and the same for rules. *)
Theorem Sort_deterministic (txs txs' : list CandidateTransaction) (rules rules' : list RuleDefinition) :
  NoDup (CT_ID <$> txs) -> txs ≡ₚ txs' -> NoDup (RD_ID <$> rules) -> rules ≡ₚ rules' ->
  SortTransactions txs = SortTransactions txs' /\ SortTransactions txs ≡ₚ txs /\
  StronglySorted (fun a b => tx_less b a = false) (SortTransactions txs) /\
  SortRules rules = SortRules rules' /\ SortRules rules ≡ₚ rules /\
  StronglySorted (fun a b => rule_less b a = false) (SortRules rules).
Proof.
  intros H1 H2 H3 H4. split_and!.
  - by apply SortTransactions_perm_eq.
  - apply stable_sort_perm.
  - rewrite SortTransactions_cmp. eapply StronglySorted_weaken; [|apply (stable_sort_sorted tx_cmp)].
    intros a b H. rewrite tx_less_cmp. by apply cmp_le_not_lt.
  - by apply SortRules_perm_eq.
  - apply stable_sort_perm.
  - rewrite SortRules_cmp. eapply StronglySorted_weaken; [|apply (stable_sort_sorted rule_cmp)].
    intros a b H. rewrite rule_less_cmp. by apply cmp_le_not_lt.
Qed.
End results.

Definition max_duration_days : Z := 106751.

Lemma SignedDayDiff_eq left right :
  SignedDayDiff left right =
    Z.max (- max_duration_days)
      (Z.min max_duration_days (right / nanos_per_day - left / nanos_per_day)).
Proof.
  unfold SignedDayDiff, time_Sub, DayUTC, utc_midnight, saturate_int64.
  rewrite <- Z.mul_sub_distr_r. set (d := (_ - _)%Z). clearbody d.
  unfold max_duration_days, min_int64, max_int64. change nanos_per_day with 86400000000000%Z.
  destruct (Z_lt_le_dec d (-106751)) as [H1|H1].
  { rewrite Z.max_l by lia. rewrite Z.max_l by lia. reflexivity. }
  destruct (Z_lt_le_dec 106751 d) as [H2|H2].
  { rewrite (Z.min_l 9223372036854775807) by lia. rewrite !Z.max_r by lia.
    rewrite Z.min_l by lia. reflexivity. }
  rewrite (Z.min_r 9223372036854775807), (Z.max_r (-9223372036854775808)) by lia.
  rewrite Z.quot_mul by lia. lia.
Qed.

Lemma SignedDayDiff_opp l r : SignedDayDiff r l = (- SignedDayDiff l r)%Z.
Proof. rewrite !SignedDayDiff_eq. unfold max_duration_days. lia. Qed.

Lemma AbsDayDiff_abs l r : AbsDayDiff l r = Z.abs (SignedDayDiff l r).
Proof. unfold AbsDayDiff. destruct (Z.ltb_spec (SignedDayDiff l r) 0); lia. Qed.

Lemma AbsDayDiff_sym l r : AbsDayDiff l r = AbsDayDiff r l.
Proof. by rewrite !AbsDayDiff_abs, (SignedDayDiff_opp l r), Z.abs_opp. Qed.

(** [SignedDayDiff] is the difference of UTC calendar days, clamped to the
    106751 days a [time.Duration] can hold; swapping the arguments negates
    it, so [AbsDayDiff] is symmetric. *)
Theorem SignedDayDiff_clamped (left right : Time) :
  SignedDayDiff left right =
    Z.max (- max_duration_days)
      (Z.min max_duration_days (right / nanos_per_day - left / nanos_per_day)) /\
  SignedDayDiff right left = (- SignedDayDiff left right)%Z /\
  AbsDayDiff left right = AbsDayDiff right left /\
  (0 <= AbsDayDiff left right <= max_duration_days)%Z.
Proof.
  split_and!; [apply SignedDayDiff_eq|apply SignedDayDiff_opp|apply AbsDayDiff_sym|..];
    rewrite AbsDayDiff_abs, ?SignedDayDiff_eq; unfold max_duration_days; lia.
Qed.

Definition sample_tx (id : string) (amount : Q) (day : Z) : @CandidateTransaction model_uuid model_decimal :=
  mkCandidateTransaction (U:=model_uuid) (D:=model_decimal) id "source" amount amount None None
    "USD" "" "ref" (day * nanos_per_day)%Z.
Definition sample_rule_def (id : string) (priority : Z) : @RuleDefinition model_uuid model_decimal :=
  mkRuleDefinition (U:=model_uuid) (D:=model_decimal) id priority "EXACT" None None None None.

Lemma Sort_deterministic_witness :
  SortTransactions [sample_tx "b" 5 3; sample_tx "a" 5 3; sample_tx "c" 1 2] =
  SortTransactions [sample_tx "c" 1 2; sample_tx "a" 5 3; sample_tx "b" 5 3].
Proof.
  apply (Sort_deterministic (UL:=model_uuid_laws) (L:=model_decimal_laws) _ _
           [sample_rule_def "x" 2; sample_rule_def "y" 1] [sample_rule_def "y" 1; sample_rule_def "x" 2]).
  - apply (bool_decide_unpack _). vm_compute. exact I.
  - apply (Permutation_rev [sample_tx "b" 5 3; sample_tx "a" 5 3; sample_tx "c" 1 2]).
  - apply (bool_decide_unpack _). vm_compute. exact I.
  - apply (Permutation_rev [sample_rule_def "x" 2; sample_rule_def "y" 1]).
Defined.
