(* ===== verification/Evaluators.v ===== *)
(** * Rule evaluators: exact, tolerance and date-lag matching

    Models internal/matching/domain/services: [exact_evaluator.go],
    [tolerance_evaluator.go], [date_lag_evaluator.go], the ASCII [equalFold]
    of [confidence_scorer.go], [currency_conversion.go], and the FX rate of
    domain/value_objects/[fx_rate.go].  Amounts are compared as the rational
    numbers they stand for. *)
From S2P Require Import GoLib GoLibModel FeeStructure FeeSchedule FeeRules MatchTypes.
From Stdlib Require Import QArith Qabs Qminmax Lqa.

(** ** Sentinel errors of the matching services *)
Inductive EngineError : Type :=
| ErrExactConfigRequired
| ErrInvalidDatePrecision
| ErrToleranceConfigRequired
| ErrInvalidRoundingMode
| ErrInvalidRoundingScale
| ErrInvalidDateWindowDays
| ErrInvalidTolerance
| ErrDateLagConfigRequired
| ErrDateLagDaysMustBeNonNeg
| ErrDateLagMaxMustBeGTEMin
| ErrDateLagFeeToleranceNegative
| ErrDateLagInvalidDirection
| ErrAllocationConfigRequired
| ErrBaseAmountRequired
| ErrBaseCurrencyRequired
| ErrNegativeAllocationAmount
| ErrNegativeAllocationTarget
| ErrNegativeAllocationCandidate
| ErrInvalidAllocationToleranceMode
| ErrInvalidAllocationDirection
| ErrNegativeAllocationTolerance
| ErrNilRuleConfig
| ErrCandidateSetTooLarge
| ErrEngineIsNil.

#[global] Instance EngineError_eq_dec : EqDecision EngineError.
Proof. solve_decision. Defined.

(** ** [equalFold]: bytewise comparison up to ASCII case *)
Fixpoint equalFold_bytes (left right : string) : bool :=
  match left, right with
  | String leftChar left', String rightChar right' =>
      if bool_decide (leftChar = rightChar) then equalFold_bytes left' right'
      else if bool_decide (ascii_to_lower leftChar = ascii_to_lower rightChar)
      then equalFold_bytes left' right'
      else false
  | EmptyString, EmptyString => true
  | _, _ => false
  end.

Definition equalFold (left right : string) : bool :=
  if negb (String.length left =? String.length right)%nat then false
  else equalFold_bytes left right.

Section evaluators.
  Context {U : UUIDLib} {D : DecimalLib} {N : UnicodeLib}.

(** ** [exact_evaluator.go] *)
Definition matchAmountAndCurrency (left right : CandidateTransaction) (cfg : ExactConfig) : bool :=
  if EC_MatchAmount cfg && negb (dec_Equal (CT_Amount left) (CT_Amount right)) then false
  else if EC_MatchCurrency cfg && negb (bool_decide (CT_Currency left = CT_Currency right)) then false
  else true.

(** The test both evaluators make on base currencies. *)
Definition baseCurrencyMatch (left right : CandidateTransaction) : bool :=
  if string_empty (CT_CurrencyBase left) || string_empty (CT_CurrencyBase right) then false
  else bool_decide (CT_CurrencyBase left = CT_CurrencyBase right).

Definition matchBaseAmountAndCurrency (left right : CandidateTransaction) (cfg : ExactConfig) : bool :=
  if EC_MatchBaseAmount cfg &&
     negb (match CT_AmountBase left, CT_AmountBase right with
           | Some l, Some r => dec_Equal l r
           | _, _ => false
           end) then false
  else if EC_MatchBaseCurrency cfg && negb (baseCurrencyMatch left right) then false
  else true.

Definition matchDate (left right : CandidateTransaction) (cfg : ExactConfig) : res EngineError bool :=
  if negb (EC_MatchDate cfg) then Ok true
  else if bool_decide (EC_DatePrecision cfg = DatePrecisionDay)
  then Ok (time_Equal (DayUTC (CT_Date left)) (DayUTC (CT_Date right)))
  else if bool_decide (EC_DatePrecision cfg = DatePrecisionTimestamp)
  then Ok (time_Equal (CT_Date left) (CT_Date right))
  else Err ErrInvalidDatePrecision.

Definition matchReference (left right : CandidateTransaction) (cfg : ExactConfig) : bool :=
  if negb (EC_MatchReference cfg) then true
  else
    let leftRef := strings_TrimSpace (CT_Reference left) in
    let rightRef := strings_TrimSpace (CT_Reference right) in
    if EC_ReferenceMustSet cfg && (string_empty leftRef || string_empty rightRef) then false
    else if EC_CaseInsensitive cfg then strings_EqualFold leftRef rightRef
    else bool_decide (leftRef = rightRef).

Definition ExactMatch (left right : CandidateTransaction) (cfg : option ExactConfig)
    : res EngineError bool :=
  match cfg with
  | None => Err ErrExactConfigRequired
  | Some cfg =>
      if negb (matchAmountAndCurrency left right cfg) then Ok false
      else if negb (matchBaseAmountAndCurrency left right cfg) then Ok false
      else
        matched ← matchDate left right cfg;
        if negb matched then Ok false
        else if negb (matchReference left right cfg) then Ok false
        else Ok true
  end.

(** ** [tolerance_evaluator.go] *)
Definition averageDivisor : Z := 2.

Definition roundAmount (amount : decimal) (scale : Z) (mode : RoundingMode) : res EngineError decimal :=
  if (scale <? 0)%Z then Err ErrInvalidRoundingScale
  else if (max_int32 <? scale)%Z then Err ErrInvalidRoundingScale
  else if bool_decide (mode = RoundingHalfUp) then Ok (dec_Round amount scale)
  else if bool_decide (mode = RoundingBankers) then Ok (dec_RoundBank amount scale)
  else if bool_decide (mode = RoundingFloor) then Ok (dec_RoundFloor amount scale)
  else if bool_decide (mode = RoundingCeil) then Ok (dec_RoundCeil amount scale)
  else if bool_decide (mode = RoundingTruncate) then Ok (dec_Truncate amount scale)
  else Err ErrInvalidRoundingMode.

Definition toleranceThreshold (absTol pctTol left right : decimal) (base : TolerancePercentageBase)
    : decimal :=
  let leftAbs := dec_Abs left in
  let rightAbs := dec_Abs right in
  let baseAmount :=
    if bool_decide (base = TolerancePercentageBaseMin) then
      if dec_LessThan rightAbs leftAbs then rightAbs else leftAbs
    else if bool_decide (base = TolerancePercentageBaseAvg) then
      dec_Div (dec_Add leftAbs rightAbs) (dec_NewFromInt averageDivisor)
    else if bool_decide (base = TolerancePercentageBaseLeft) then leftAbs
    else if bool_decide (base = TolerancePercentageBaseRight) then rightAbs
    else if dec_GreaterThan rightAbs leftAbs then rightAbs else leftAbs in
  let percentThreshold := dec_Mul pctTol baseAmount in
  if dec_GreaterThan percentThreshold absTol then percentThreshold else absTol.

(** The nil check of [validateToleranceConfig] is the match on the option in
    [ToleranceMatch]. *)
Definition validateToleranceConfig (cfg : ToleranceConfig) : res EngineError unit :=
  _ ← ensure (negb (TC_DateWindowDays cfg <? 0)%Z) ErrInvalidDateWindowDays;
  _ ← ensure (negb (dec_IsNegative (TC_AbsAmountTolerance cfg) ||
                    dec_IsNegative (TC_PercentTolerance cfg))) ErrInvalidTolerance;
  _ ← roundAmount dec_Zero (TC_RoundingScale cfg) (TC_RoundingMode cfg);
  Ok tt.

Definition toleranceCurrencyMatch (left right : CandidateTransaction) (cfg : ToleranceConfig) : bool :=
  if TC_MatchCurrency cfg && negb (bool_decide (CT_Currency left = CT_Currency right)) then false
  else if TC_MatchBaseCurrency cfg && negb (baseCurrencyMatch left right) then false
  else true.

Definition toleranceDateMatch (left right : CandidateTransaction) (cfg : ToleranceConfig) : bool :=
  (AbsDayDiff (CT_Date left) (CT_Date right) <=? TC_DateWindowDays cfg)%Z.

Definition toleranceBaseAmountMatch (left right : CandidateTransaction) (cfg : ToleranceConfig) : bool :=
  if TC_MatchBaseAmount cfg &&
     negb (bool_decide (is_Some (CT_AmountBase left)) && bool_decide (is_Some (CT_AmountBase right)))
  then false else true.

Definition toleranceReferenceMatch (left right : CandidateTransaction) (cfg : ToleranceConfig) : bool :=
  if negb (TC_MatchReference cfg) then true
  else
    let leftRef := strings_TrimSpace (CT_Reference left) in
    let rightRef := strings_TrimSpace (CT_Reference right) in
    if TC_ReferenceMustSet cfg && (string_empty leftRef || string_empty rightRef) then false
    else if string_empty leftRef && string_empty rightRef then true
    else if TC_CaseInsensitive cfg then equalFold leftRef rightRef
    else bool_decide (leftRef = rightRef).

Definition validateToleranceMatchInputs (left right : CandidateTransaction)
    (cfg : ToleranceConfig) : res EngineError bool :=
  _ ← validateToleranceConfig cfg;
  if negb (toleranceCurrencyMatch left right cfg) then Ok false
  else if negb (toleranceDateMatch left right cfg) then Ok false
  else if negb (toleranceBaseAmountMatch left right cfg) then Ok false
  else if negb (toleranceReferenceMatch left right cfg) then Ok false
  else Ok true.

(** [*tx.AmountBase]: the preflight has checked that it is set. *)
Definition tolerance_amount (tx : CandidateTransaction) (cfg : ToleranceConfig) : decimal :=
  if TC_MatchBaseAmount cfg then default (CT_Amount tx) (CT_AmountBase tx) else CT_Amount tx.

Definition ToleranceMatch (left right : CandidateTransaction) (cfg : option ToleranceConfig)
    : res EngineError bool :=
  match cfg with
  | None => Err ErrToleranceConfigRequired
  | Some cfg =>
      preflightOk ← validateToleranceMatchInputs left right cfg;
      if negb preflightOk then Ok false
      else
        leftRounded ← roundAmount (tolerance_amount left cfg) (TC_RoundingScale cfg) (TC_RoundingMode cfg);
        rightRounded ← roundAmount (tolerance_amount right cfg) (TC_RoundingScale cfg) (TC_RoundingMode cfg);
        let diff := dec_Abs (dec_Sub leftRounded rightRounded) in
        let threshold := toleranceThreshold (TC_AbsAmountTolerance cfg) (TC_PercentTolerance cfg)
                           leftRounded rightRounded (TC_PercentageBase cfg) in
        if dec_GreaterThan diff threshold then Ok false else Ok true
  end.

(** ** [date_lag_evaluator.go] *)
Definition validateDateLagConfig (cfg : option DateLagConfig) : res EngineError DateLagConfig :=
  match cfg with
  | None => Err ErrDateLagConfigRequired
  | Some cfg =>
      _ ← ensure (negb ((DC_MinDays cfg <? 0)%Z || (DC_MaxDays cfg <? 0)%Z)) ErrDateLagDaysMustBeNonNeg;
      _ ← ensure (negb (DC_MaxDays cfg <? DC_MinDays cfg)%Z) ErrDateLagMaxMustBeGTEMin;
      Ok cfg
  end.

Definition dateLagCurrencyMatch (left right : CandidateTransaction) (cfg : DateLagConfig) : bool :=
  if DC_MatchCurrency cfg && negb (bool_decide (CT_Currency left = CT_Currency right)) then false
  else if negb (DC_MatchCurrency cfg) &&
          (string_empty (CT_Currency left) || string_empty (CT_Currency right)) then false
  else true.

Definition validateFeeTolerance (feeTolerance : decimal) : res EngineError unit :=
  ensure (negb (dec_IsNegative feeTolerance)) ErrDateLagFeeToleranceNegative.

Definition amountWithinFeeTolerance (left right : CandidateTransaction) (feeTolerance : decimal) : bool :=
  negb (dec_GreaterThan (dec_Abs (dec_Sub (CT_Amount left) (CT_Amount right))) feeTolerance).

Definition computeLeftBeforeRightDiff (signed minDays : Z) : Z :=
  if (signed <? 0)%Z || ((signed =? 0)%Z && (0 <? minDays)%Z) then (-1)%Z else signed.

Definition computeRightBeforeLeftDiff (signed minDays : Z) : Z :=
  if (0 <? signed)%Z || ((signed =? 0)%Z && (0 <? minDays)%Z) then (-1)%Z else (- signed)%Z.

Definition computeDateLagDiff (left right : CandidateTransaction) (cfg : DateLagConfig)
    : res EngineError Z :=
  let signed := SignedDayDiff (CT_Date left) (CT_Date right) in
  let abs := if (signed <? 0)%Z then (- signed)%Z else signed in
  if bool_decide (DC_Direction cfg = DateLagDirectionAbs) then Ok abs
  else if bool_decide (DC_Direction cfg = DateLagDirectionLeftBeforeRight)
  then Ok (computeLeftBeforeRightDiff signed (DC_MinDays cfg))
  else if bool_decide (DC_Direction cfg = DateLagDirectionRightBeforeLeft)
  then Ok (computeRightBeforeLeftDiff signed (DC_MinDays cfg))
  else Err ErrDateLagInvalidDirection.

Definition isWithinDateLagBounds (diff : Z) (cfg : DateLagConfig) : bool :=
  if DC_Inclusive cfg then (DC_MinDays cfg <=? diff)%Z && (diff <=? DC_MaxDays cfg)%Z
  else (DC_MinDays cfg <? diff)%Z && (diff <? DC_MaxDays cfg)%Z.

Definition DateLagMatch (left right : CandidateTransaction) (cfg : option DateLagConfig)
    : res EngineError bool :=
  cfg ← validateDateLagConfig cfg;
  if negb (dateLagCurrencyMatch left right cfg) then Ok false
  else
    _ ← validateFeeTolerance (DC_FeeTolerance cfg);
    if negb (amountWithinFeeTolerance left right (DC_FeeTolerance cfg)) then Ok false
    else
      diff ← computeDateLagDiff left right cfg;
      if (diff <? 0)%Z then Ok false else Ok (isWithinDateLagBounds diff cfg).

(** ** [fx_rate.go] and [currency_conversion.go] *)
Inductive FXRateError : Type :=
| ErrFXRateNotPositive | ErrFXRateSourceRequired | ErrFXRateEffectiveDateRequired.

Record FXRate : Type := mkFXRate {
  FX_rate : decimal;
  FX_source : string;
  FX_effectiveAt : Time;
}.

Definition validateFXRateFields (rate : decimal) (source : string) (effectiveAt : Time)
    : res FXRateError unit :=
  _ ← ensure (negb (dec_LessThanOrEqual rate dec_Zero)) ErrFXRateNotPositive;
  _ ← ensure (negb (string_empty (strings_TrimSpace source))) ErrFXRateSourceRequired;
  ensure (negb (time_IsZero effectiveAt)) ErrFXRateEffectiveDateRequired.

Definition NewFXRate (rate : decimal) (source : string) (effectiveAt : Time) : res FXRateError FXRate :=
  _ ← validateFXRateFields rate source effectiveAt;
  Ok (mkFXRate rate (strings_TrimSpace source) effectiveAt).

Definition FXRate_IsValid (r : FXRate) : bool :=
  is_Ok (validateFXRateFields (FX_rate r) (FX_source r) (FX_effectiveAt r)).

(** [baseAmount = amount * fxRate], rounded as the tolerance evaluator does. *)
Definition ConvertToBaseAmount (amount : decimal) (fxRate : FXRate) (roundingScale : Z)
    (roundingMode : RoundingMode) : res EngineError decimal :=
  roundAmount (dec_Mul amount (FX_rate fxRate)) roundingScale roundingMode.
End evaluators.

(** ** Specifications over the rationals *)
Definition rounding_fn (mode : RoundingMode) : Q -> Z :=
  if bool_decide (mode = RoundingHalfUp) then q_half_away
  else if bool_decide (mode = RoundingBankers) then q_half_even
  else if bool_decide (mode = RoundingFloor) then Qfloor
  else if bool_decide (mode = RoundingCeil) then Qceiling
  else q_toward_zero.

Definition rounded (scale : Z) (mode : RoundingMode) (x : Q) : Q := q_at (rounding_fn mode) scale x.

#[global] Instance rounding_fn_proper mode : Proper (Qeq ==> eq) (rounding_fn mode).
Proof. unfold rounding_fn. repeat case_bool_decide; apply _. Qed.
#[global] Instance rounded_proper scale mode : Proper (Qeq ==> Qeq) (rounded scale mode).
Proof. unfold rounded. apply _. Qed.

Definition tolerance_base (base : TolerancePercentageBase) (l r : Q) : Q :=
  if bool_decide (base = TolerancePercentageBaseMin) then Qmin (Qabs l) (Qabs r)
  else if bool_decide (base = TolerancePercentageBaseAvg)
  then q_at q_half_away division_precision ((Qabs l + Qabs r) / 2)
  else if bool_decide (base = TolerancePercentageBaseLeft) then Qabs l
  else if bool_decide (base = TolerancePercentageBaseRight) then Qabs r
  else Qmax (Qabs l) (Qabs r).

(** The configuration seen from the other side. *)
Definition mirror_base (base : TolerancePercentageBase) : TolerancePercentageBase :=
  if bool_decide (base = TolerancePercentageBaseLeft) then TolerancePercentageBaseRight
  else if bool_decide (base = TolerancePercentageBaseRight) then TolerancePercentageBaseLeft
  else base.

Definition mirror_direction (d : DateLagDirection) : DateLagDirection :=
  if bool_decide (d = DateLagDirectionLeftBeforeRight) then DateLagDirectionRightBeforeLeft
  else if bool_decide (d = DateLagDirectionRightBeforeLeft) then DateLagDirectionLeftBeforeRight
  else d.

Lemma tolerance_base_mirror base l r : tolerance_base (mirror_base base) r l == tolerance_base base l r.
Proof.
  unfold tolerance_base, mirror_base.
  repeat (case_bool_decide; subst; try done); try apply Q.min_comm; try apply Q.max_comm.
  apply q_at_proper; [apply _|]. by rewrite Qplus_comm.
Qed.

Lemma tolerance_base_nonneg base l r : (0 <= tolerance_base base l r)%Q.
Proof.
  pose proof (Qabs_nonneg l). pose proof (Qabs_nonneg r). unfold tolerance_base.
  repeat case_bool_decide; q_minmax; try lra.
  apply q_at_nonneg; [done|apply q_half_away_nonneg|].
  unfold Qdiv. change (/ 2) with (1 # 2). lra.
Qed.

#[global] Instance tolerance_base_proper base : Proper (Qeq ==> Qeq ==> Qeq) (tolerance_base base).
Proof.
  intros a b E c d F. unfold tolerance_base. repeat case_bool_decide; by rewrite ?E, ?F.
Qed.

(** A signed lag, counted in the configured direction. *)
Definition directed_lag (direction : DateLagDirection) (l r : Time) : Z :=
  if bool_decide (direction = DateLagDirectionAbs) then AbsDayDiff l r
  else if bool_decide (direction = DateLagDirectionLeftBeforeRight) then SignedDayDiff l r
  else SignedDayDiff r l.

Definition valid_direction (direction : DateLagDirection) : Prop :=
  direction = DateLagDirectionAbs \/ direction = DateLagDirectionLeftBeforeRight \/
  direction = DateLagDirectionRightBeforeLeft.

#[global] Instance valid_direction_dec direction : Decision (valid_direction direction).
Proof. unfold valid_direction. apply _. Defined.

Definition lag_in_bounds (cfg_min cfg_max : Z) (inclusive : bool) (lag : Z) : Prop :=
  if inclusive then (cfg_min <= lag <= cfg_max)%Z else (cfg_min < lag < cfg_max)%Z.

(** ** Results *)
Section results.
  Context {U : UUIDLib} {D : DecimalLib} {L : DecimalLaws D} {N : UnicodeLib} {NL : UnicodeLaws N}.

Lemma roundAmount_cases amount scale mode :
  match roundAmount dec_Zero scale mode with
  | Ok _ => (0 <= scale)%Z /\ exists d, roundAmount amount scale mode = Ok d /\
              dec_Rat d == rounded scale mode (dec_Rat amount)
  | Err e => roundAmount amount scale mode = Err e
  end.
Proof.
  unfold roundAmount, rounded, rounding_fn.
  destruct (Z.ltb_spec scale 0); [done|]. destruct (Z.ltb_spec max_int32 scale); [done|].
  repeat (case_bool_decide; [split; [done|]; eexists; split; [done|]|]); try done.
  - by apply dec_Rat_Round.
  - by apply dec_Rat_RoundBank.
  - by apply dec_Rat_RoundFloor.
  - by apply dec_Rat_RoundCeil.
  - by apply dec_Rat_Truncate.
Qed.

Lemma toleranceThreshold_spec absTol pctTol left right base :
  dec_Rat (toleranceThreshold absTol pctTol left right base) ==
  Qmax (dec_Rat absTol) (dec_Rat pctTol * tolerance_base base (dec_Rat left) (dec_Rat right)).
Proof.
  unfold toleranceThreshold. set (b := if bool_decide _ then _ else _).
  assert (Hb : dec_Rat b == tolerance_base base (dec_Rat left) (dec_Rat right)).
  { unfold b, tolerance_base. repeat case_bool_decide; try apply dec_Rat_Abs.
    - destruct (dec_LessThan _ _) eqn:E; dec_bool; rewrite !dec_Rat_Abs in *; q_minmax; lra.
    - assert (E2 : dec_Rat (dec_NewFromInt averageDivisor) == 2) by apply dec_Rat_NewFromInt.
      rewrite dec_Rat_Div by (rewrite E2; done).
      apply q_at_proper; [apply _|]. rewrite dec_Rat_Add, !dec_Rat_Abs. by rewrite E2.
    - destruct (dec_GreaterThan _ _) eqn:E; dec_bool; rewrite !dec_Rat_Abs in *; q_minmax; lra. }
  clearbody b. destruct (dec_GreaterThan _ _) eqn:E; dec_bool; rewrite dec_Rat_Mul, Hb in *;
    q_minmax; lra.
Qed.
(** The amounts of two transactions are within the configured tolerance. *)
Definition amounts_within (cfg : ToleranceConfig) (left right : CandidateTransaction) : Prop :=
  let l := rounded (TC_RoundingScale cfg) (TC_RoundingMode cfg) (dec_Rat (tolerance_amount left cfg)) in
  let r := rounded (TC_RoundingScale cfg) (TC_RoundingMode cfg) (dec_Rat (tolerance_amount right cfg)) in
  Qabs (l - r) <= Qmax (dec_Rat (TC_AbsAmountTolerance cfg))
                       (dec_Rat (TC_PercentTolerance cfg) * tolerance_base (TC_PercentageBase cfg) l r).

Lemma validateToleranceConfig_round cfg u :
  validateToleranceConfig cfg = Ok u ->
  exists z, roundAmount dec_Zero (TC_RoundingScale cfg) (TC_RoundingMode cfg) = Ok z.
Proof. unfold validateToleranceConfig. intros H. res_inv. eauto. Qed.

Lemma ToleranceMatch_Ok left right cfg :
  validateToleranceConfig cfg = Ok tt ->
  exists b, ToleranceMatch left right (Some cfg) = Ok b /\
    (b = true <-> toleranceCurrencyMatch left right cfg = true /\
      toleranceDateMatch left right cfg = true /\ toleranceBaseAmountMatch left right cfg = true /\
      toleranceReferenceMatch left right cfg = true /\ amounts_within cfg left right).
Proof.
  intros Hv. destruct (validateToleranceConfig_round _ _ Hv) as [z Hz].
  unfold ToleranceMatch, validateToleranceMatchInputs. rewrite Hv. cbn [mbind res_bind].
  destruct (toleranceCurrencyMatch _ _ _) eqn:E1; cbn [negb mbind res_bind]; [|naive_solver].
  destruct (toleranceDateMatch _ _ _) eqn:E2; cbn [negb mbind res_bind]; [|naive_solver].
  destruct (toleranceBaseAmountMatch _ _ _) eqn:E3; cbn [negb mbind res_bind]; [|naive_solver].
  destruct (toleranceReferenceMatch _ _ _) eqn:E4; cbn [negb mbind res_bind]; [|naive_solver].
  pose proof (roundAmount_cases (tolerance_amount left cfg) (TC_RoundingScale cfg) (TC_RoundingMode cfg)) as Hl.
  pose proof (roundAmount_cases (tolerance_amount right cfg) (TC_RoundingScale cfg) (TC_RoundingMode cfg)) as Hr.
  rewrite Hz in Hl, Hr. destruct Hl as (_ & l & -> & Hl), Hr as (_ & r & -> & Hr).
  cbn [mbind res_bind].
  pose proof (toleranceThreshold_spec (TC_AbsAmountTolerance cfg) (TC_PercentTolerance cfg) l r
    (TC_PercentageBase cfg)) as Ht.
  assert (Hw : amounts_within cfg left right <->
    dec_Rat (dec_Abs (dec_Sub l r)) <= dec_Rat (toleranceThreshold (TC_AbsAmountTolerance cfg)
      (TC_PercentTolerance cfg) l r (TC_PercentageBase cfg))).
  { rewrite Ht, dec_Rat_Abs, dec_Rat_Sub, Hl, Hr. done. }
  destruct (dec_GreaterThan _ _) eqn:E; dec_bool; eexists; (split; [done|]); rewrite Hw;
    split; try done; intros (_ & _ & _ & _ & H). lra.
Qed.

(** Widening a tolerance never loses a match: with a larger absolute
    tolerance, a larger percentage or a wider date window, and everything
    else equal, every pair that matched still matches. *)
Theorem ToleranceMatch_monotone left right cfg absTol pctTol window :
  (dec_Rat (TC_AbsAmountTolerance cfg) <= dec_Rat absTol)%Q ->
  (dec_Rat (TC_PercentTolerance cfg) <= dec_Rat pctTol)%Q ->
  (TC_DateWindowDays cfg <= window)%Z ->
  ToleranceMatch left right (Some cfg) = Ok true ->
  ToleranceMatch left right (Some (mkToleranceConfig (TC_MatchCurrency cfg) window absTol pctTol
    (TC_RoundingScale cfg) (TC_RoundingMode cfg) (TC_MatchBaseAmount cfg) (TC_MatchBaseCurrency cfg)
    (TC_MatchScore cfg) (TC_MatchBaseScore cfg) (TC_PercentageBase cfg) (TC_MatchReference cfg)
    (TC_CaseInsensitive cfg) (TC_ReferenceMustSet cfg))) = Ok true.
Proof.
  intros Ha Hp Hw Hm. set (cfg' := mkToleranceConfig _ _ _ _ _ _ _ _ _ _ _ _ _ _).
  assert (exists u, validateToleranceConfig cfg = Ok u) as [[] Hv].
  { unfold ToleranceMatch, validateToleranceMatchInputs in Hm. res_inv. eauto. }
  assert (Hv' : validateToleranceConfig cfg' = Ok tt).
  { unfold validateToleranceConfig in *. res_inv. bool_inv.
    rewrite Z.ltb_ge in *. unfold cfg'. simpl.
    assert ((window <? 0)%Z = false) as -> by lia. simpl.
    assert (dec_IsNegative absTol = false) as -> by dec_lra.
    assert (dec_IsNegative pctTol = false) as -> by dec_lra. simpl.
    match goal with H : roundAmount _ _ _ = Ok _ |- _ => by rewrite H end. }
  destruct (ToleranceMatch_Ok left right cfg Hv) as (b & Hb & Hiff).
  destruct (ToleranceMatch_Ok left right cfg' Hv') as (b' & -> & Hiff'). f_equal.
  rewrite Hm in Hb. injection Hb as <-. apply Hiff'.
  destruct (proj1 Hiff eq_refl) as (H1 & H2 & H3 & H4 & H5). split_and!; try done.
  - unfold toleranceDateMatch in *. apply Z.leb_le in H2. apply Z.leb_le. simpl. lia.
  - revert H5. unfold amounts_within, tolerance_amount. simpl.
    set (l := rounded _ _ _). set (r := rounded _ _ _). intros H5.
    pose proof (tolerance_base_nonneg (TC_PercentageBase cfg) l r).
    set (t := tolerance_base _ _ _) in *. clearbody t. q_minmax; nra.
Qed.
(** *** Date lag *)
Lemma computeDateLagDiff_valid left right cfg :
  valid_direction (DC_Direction cfg) ->
  exists diff, computeDateLagDiff left right cfg = Ok diff /\
    ((0 <= DC_MinDays cfg)%Z ->
     (if (diff <? 0)%Z then false else isWithinDateLagBounds diff cfg) = true <->
     lag_in_bounds (DC_MinDays cfg) (DC_MaxDays cfg) (DC_Inclusive cfg)
       (directed_lag (DC_Direction cfg) (CT_Date left) (CT_Date right))).
Proof.
  intros Hd. unfold computeDateLagDiff, directed_lag, valid_direction in *.
  rewrite AbsDayDiff_abs, (SignedDayDiff_opp (CT_Date left)).
  set (d := SignedDayDiff _ _). clearbody d.
  unfold computeLeftBeforeRightDiff, computeRightBeforeLeftDiff, isWithinDateLagBounds, lag_in_bounds.
  repeat case_bool_decide; [..|exfalso; naive_solver];
    (eexists; split; [done|]); intros Hmin;
    destruct (Z.ltb_spec d 0), (Z.ltb_spec 0 d), (Z.eqb_spec d 0),
      (Z.ltb_spec 0 (DC_MinDays cfg)); try lia; simpl; destruct (DC_Inclusive cfg);
    repeat match goal with
    | |- context [(?a <? ?b)%Z] => destruct (Z.ltb_spec a b)
    | |- context [(?a =? ?b)%Z] => destruct (Z.eqb_spec a b)
    | |- context [(?a <=? ?b)%Z] => destruct (Z.leb_spec a b)
    end; simpl; split; intros; try done; lia.
Qed.

Lemma DateLagMatch_iff left right cfg :
  DateLagMatch left right (Some cfg) = Ok true <->
    (0 <= DC_MinDays cfg <= DC_MaxDays cfg)%Z /\ 0 <= dec_Rat (DC_FeeTolerance cfg) /\
    valid_direction (DC_Direction cfg) /\ dateLagCurrencyMatch left right cfg = true /\
    Qabs (dec_Rat (CT_Amount left) - dec_Rat (CT_Amount right)) <= dec_Rat (DC_FeeTolerance cfg) /\
    lag_in_bounds (DC_MinDays cfg) (DC_MaxDays cfg) (DC_Inclusive cfg)
      (directed_lag (DC_Direction cfg) (CT_Date left) (CT_Date right)).
Proof.
  assert (Hamt : amountWithinFeeTolerance left right (DC_FeeTolerance cfg) = true <->
    Qabs (dec_Rat (CT_Amount left) - dec_Rat (CT_Amount right)) <= dec_Rat (DC_FeeTolerance cfg)).
  { unfold amountWithinFeeTolerance. rewrite negb_true_iff, dec_GreaterThan_false.
    by rewrite dec_Rat_Abs, dec_Rat_Sub. }
  unfold DateLagMatch, validateDateLagConfig, validateFeeTolerance.
  destruct (Z.ltb_spec (DC_MinDays cfg) 0); simpl; [split; [done|lia]|].
  destruct (Z.ltb_spec (DC_MaxDays cfg) 0); simpl; [split; [done|lia]|].
  destruct (Z.ltb_spec (DC_MaxDays cfg) (DC_MinDays cfg)); simpl; [split; [done|lia]|].
  destruct (dateLagCurrencyMatch _ _ _); simpl; [|naive_solver].
  destruct (dec_IsNegative _) eqn:En; simpl; dec_bool.
  { split; [done|]. intros (_ & ? & _). lra. }
  destruct (amountWithinFeeTolerance _ _ _); simpl; [|naive_solver].
  destruct (decide (valid_direction (DC_Direction cfg))) as [Hd|Hd].
  - destruct (computeDateLagDiff_valid left right cfg Hd) as (diff & -> & Hiff). simpl.
    rewrite <- Hiff by done. clear Hiff. destruct (diff <? 0)%Z.
    + split; [done|]. by intros (_ & _ & _ & _ & _ & ?).
    + split; [intros [= ->]|intros (_ & _ & _ & _ & _ & ->)]; [|done].
      split_and!; try done; try lia; tauto.
  - assert (computeDateLagDiff left right cfg = Err ErrDateLagInvalidDirection) as ->.
    { unfold computeDateLagDiff. repeat case_bool_decide; try done; exfalso; apply Hd; unfold valid_direction; auto. }
    simpl. naive_solver.
Qed.

(** The date-lag evaluator matches two transactions if and only if its
    configuration is valid, currencies agree, the amounts differ by at most
    the fee tolerance and the number of days, counted in the configured
    direction, lies in the (inclusive or exclusive) range; in particular an
    exclusive range with no day strictly inside never matches. *)
Theorem DateLagMatch_spec left right cfg :
  (DateLagMatch left right (Some cfg) = Ok true <->
    (0 <= DC_MinDays cfg <= DC_MaxDays cfg)%Z /\ 0 <= dec_Rat (DC_FeeTolerance cfg) /\
    valid_direction (DC_Direction cfg) /\ dateLagCurrencyMatch left right cfg = true /\
    Qabs (dec_Rat (CT_Amount left) - dec_Rat (CT_Amount right)) <= dec_Rat (DC_FeeTolerance cfg) /\
    lag_in_bounds (DC_MinDays cfg) (DC_MaxDays cfg) (DC_Inclusive cfg)
      (directed_lag (DC_Direction cfg) (CT_Date left) (CT_Date right))) /\
  (DC_Inclusive cfg = false -> (DC_MaxDays cfg <= DC_MinDays cfg + 1)%Z ->
   DateLagMatch left right (Some cfg) <> Ok true).
Proof.
  split; [apply DateLagMatch_iff|].
  intros Hi Hm (_ & _ & _ & _ & _ & H)%DateLagMatch_iff. unfold lag_in_bounds in H.
  rewrite Hi in H. lia.
Qed.
(** *** References *)
Lemma equalFold_bytes_spec l r :
  equalFold_bytes l r = true <-> string_map ascii_to_lower l = string_map ascii_to_lower r.
Proof.
  unfold string_map. revert r; induction l as [|a l IH]; intros [|b r]; simpl; try done.
  case_bool_decide; [|case_bool_decide as E; [|by split; [|intros [= ? _]]]];
    subst; rewrite IH, ?E; (split; intros Heq; [f_equal; exact Heq|by injection Heq]).
Qed.

Lemma string_map_length f s : String.length (string_map f s) = String.length s.
Proof. unfold string_map. induction s as [|a s IH]; [done|]. simpl. f_equal. exact IH. Qed.

Lemma equalFold_spec l r :
  equalFold l r = true <-> string_map ascii_to_lower l = string_map ascii_to_lower r.
Proof.
  unfold equalFold. rewrite <- equalFold_bytes_spec.
  destruct (Nat.eqb_spec (String.length l) (String.length r)) as [E|E]; simpl; [done|].
  split; [done|]. rewrite equalFold_bytes_spec. intros H%(f_equal String.length).
  by rewrite !string_map_length in H.
Qed.

Lemma equalFold_refl s : equalFold s s = true.
Proof. by apply equalFold_spec. Qed.

Lemma bool_iff_eq (a b : bool) : (a = true <-> b = true) -> a = b.
Proof. destruct a, b; naive_solver. Qed.

Lemma equalFold_sym l r : equalFold l r = equalFold r l.
Proof. apply bool_iff_eq. rewrite !equalFold_spec. naive_solver. Qed.

Lemma bool_decide_eq_sym {A} `{EqDecision A} (a b : A) : bool_decide (a = b) = bool_decide (b = a).
Proof. apply bool_decide_ext. naive_solver. Qed.

Lemma dec_Equal_sym a b : dec_Equal a b = dec_Equal b a.
Proof. apply bool_iff_eq. rewrite !dec_Equal_spec. split; by intros ->. Qed.

(** *** The tolerance evaluator, declaratively *)

(** What is wrong with a configuration; an earlier check hides a later one. *)
Inductive tolerance_config_error (cfg : ToleranceConfig) : EngineError -> Prop :=
| window_negative : (TC_DateWindowDays cfg < 0)%Z -> tolerance_config_error cfg ErrInvalidDateWindowDays
| tolerance_negative :
    (0 <= TC_DateWindowDays cfg)%Z ->
    dec_Rat (TC_AbsAmountTolerance cfg) < 0 \/ dec_Rat (TC_PercentTolerance cfg) < 0 ->
    tolerance_config_error cfg ErrInvalidTolerance
| scale_out_of_range :
    (0 <= TC_DateWindowDays cfg)%Z ->
    0 <= dec_Rat (TC_AbsAmountTolerance cfg) -> 0 <= dec_Rat (TC_PercentTolerance cfg) ->
    (TC_RoundingScale cfg < 0 \/ max_int32 < TC_RoundingScale cfg)%Z ->
    tolerance_config_error cfg ErrInvalidRoundingScale
| mode_unknown :
    (0 <= TC_DateWindowDays cfg)%Z ->
    0 <= dec_Rat (TC_AbsAmountTolerance cfg) -> 0 <= dec_Rat (TC_PercentTolerance cfg) ->
    (0 <= TC_RoundingScale cfg <= max_int32)%Z ->
    TC_RoundingMode cfg ∉ [RoundingHalfUp; RoundingBankers; RoundingFloor; RoundingCeil; RoundingTruncate] ->
    tolerance_config_error cfg ErrInvalidRoundingMode.

Record tolerance_config_ok (cfg : ToleranceConfig) : Prop := {
  tok_window : (0 <= TC_DateWindowDays cfg)%Z;
  tok_abs : 0 <= dec_Rat (TC_AbsAmountTolerance cfg);
  tok_percent : 0 <= dec_Rat (TC_PercentTolerance cfg);
  tok_scale : (0 <= TC_RoundingScale cfg <= max_int32)%Z;
  tok_mode : TC_RoundingMode cfg ∈ [RoundingHalfUp; RoundingBankers; RoundingFloor; RoundingCeil; RoundingTruncate];
}.

(** The amount of a transaction that is compared. *)
Definition compared (cfg : ToleranceConfig) (tx : CandidateTransaction) (amount : decimal) : Prop :=
  if TC_MatchBaseAmount cfg then CT_AmountBase tx = Some amount else amount = CT_Amount tx.

Record tolerated (cfg : ToleranceConfig) (left right : CandidateTransaction) : Prop := {
  to_currency : TC_MatchCurrency cfg = true -> CT_Currency left = CT_Currency right;
  to_base_currency : TC_MatchBaseCurrency cfg = true ->
    CT_CurrencyBase left <> "" /\ CT_CurrencyBase left = CT_CurrencyBase right;
  to_days : (Z.min max_duration_days (Z.abs (CT_Date right / nanos_per_day - CT_Date left / nanos_per_day))
               <= TC_DateWindowDays cfg)%Z;
  to_reference : TC_MatchReference cfg = true ->
    let l := strings_TrimSpace (CT_Reference left) in
    let r := strings_TrimSpace (CT_Reference right) in
    (TC_ReferenceMustSet cfg = true -> l <> "" /\ r <> "") /\
    if TC_CaseInsensitive cfg then string_map ascii_to_lower l = string_map ascii_to_lower r else l = r;
  to_amounts : exists al ar, compared cfg left al /\ compared cfg right ar /\
    let l := rounded (TC_RoundingScale cfg) (TC_RoundingMode cfg) (dec_Rat al) in
    let r := rounded (TC_RoundingScale cfg) (TC_RoundingMode cfg) (dec_Rat ar) in
    Qabs (l - r) <= Qmax (dec_Rat (TC_AbsAmountTolerance cfg))
                         (dec_Rat (TC_PercentTolerance cfg) * tolerance_base (TC_PercentageBase cfg) l r);
}.

Lemma roundAmount_error amount scale mode e :
  roundAmount amount scale mode = Err e <->
  (e = ErrInvalidRoundingScale /\ (scale < 0 \/ max_int32 < scale)%Z) \/
  (e = ErrInvalidRoundingMode /\ (0 <= scale <= max_int32)%Z /\
   mode ∉ [RoundingHalfUp; RoundingBankers; RoundingFloor; RoundingCeil; RoundingTruncate]).
Proof.
  unfold roundAmount. rewrite !not_elem_of_cons.
  destruct (Z.ltb_spec scale 0); [split; [intros [= <-]; left; auto|naive_solver lia]|].
  destruct (Z.ltb_spec max_int32 scale); [split; [intros [= <-]; left; auto|naive_solver lia]|].
  repeat case_bool_decide; (split; [intros [= <-]|naive_solver lia]). right. split_and!; try done. apply not_elem_of_nil.
Qed.

Lemma validateToleranceConfig_error cfg e : validateToleranceConfig cfg = Err e <-> tolerance_config_error cfg e.
Proof.
  unfold validateToleranceConfig. destruct (Z.ltb_spec (TC_DateWindowDays cfg) 0) as [Hw|Hw]; cbn [negb ensure mbind res_bind].
  { split; [intros [= <-]; by constructor|]. inversion 1; done || lia. }
  destruct (dec_IsNegative (TC_AbsAmountTolerance cfg)) eqn:Ea, (dec_IsNegative (TC_PercentTolerance cfg)) eqn:Ep;
    cbn [orb negb ensure mbind res_bind]; dec_bool.
  1-3: split; [intros [= <-]; apply tolerance_negative; auto|inversion 1; subst; try done; lia || lra].
  rewrite res_bind_Err, roundAmount_error. split.
  - intros [[[-> H]|(-> & H1 & H2)]|(? & _ & ?)]; [by apply scale_out_of_range|by apply mode_unknown|done].
  - inversion 1 as [H1|H1 [H2|H2]|H1 H2 H3 H4|H1 H2 H3 H4 H5]; subst; [lia|lra|lra|auto|auto].
Qed.

Lemma tolerance_config_valid cfg : tolerance_config_ok cfg <-> validateToleranceConfig cfg = Ok tt.
Proof.
  destruct (validateToleranceConfig cfg) as [[]|e] eqn:E.
  - split; [done|]. intros _. unfold validateToleranceConfig in E. res_inv. bool_inv.
    assert (forall e', roundAmount dec_Zero (TC_RoundingScale cfg) (TC_RoundingMode cfg) <> Err e') as Hn by congruence.
    pose proof (Hn ErrInvalidRoundingScale) as H1. pose proof (Hn ErrInvalidRoundingMode) as H2.
    rewrite roundAmount_error in H1, H2. dec_bool.
    assert (~ (TC_RoundingScale cfg < 0 \/ max_int32 < TC_RoundingScale cfg))%Z as Hs by (intros Hs; apply H1; auto).
    assert (0 <= TC_RoundingScale cfg <= max_int32)%Z by lia. split; try done; try lia.
    destruct (decide (TC_RoundingMode cfg ∈ [RoundingHalfUp; RoundingBankers; RoundingFloor; RoundingCeil; RoundingTruncate]));
      [done|destruct H2; auto].
  - split; [|done]. intros [H1 H2 H3 H4 H5]. apply validateToleranceConfig_error in E.
    inversion E as [|? []| |]; subst; first [lia|lra|done].
Qed.

Lemma toleranceReferenceMatch_iff left right cfg :
  toleranceReferenceMatch left right cfg = true <->
  (TC_MatchReference cfg = true ->
    let l := strings_TrimSpace (CT_Reference left) in
    let r := strings_TrimSpace (CT_Reference right) in
    (TC_ReferenceMustSet cfg = true -> l <> "" /\ r <> "") /\
    if TC_CaseInsensitive cfg then string_map ascii_to_lower l = string_map ascii_to_lower r else l = r).
Proof.
  unfold toleranceReferenceMatch, string_empty. destruct (TC_MatchReference cfg); cbn [negb]; [|by split].
  set (l := strings_TrimSpace _). set (r := strings_TrimSpace _). clearbody l r. cbn zeta.
  destruct (TC_ReferenceMustSet cfg), (TC_CaseInsensitive cfg); cbn [andb]; repeat case_bool_decide; cbn [andb orb];
    rewrite ?equalFold_spec, ?bool_decide_eq_true; subst; naive_solver.
Qed.

Lemma amounts_within_iff cfg left right :
  toleranceBaseAmountMatch left right cfg = true /\ amounts_within cfg left right <->
  exists al ar, compared cfg left al /\ compared cfg right ar /\
    let l := rounded (TC_RoundingScale cfg) (TC_RoundingMode cfg) (dec_Rat al) in
    let r := rounded (TC_RoundingScale cfg) (TC_RoundingMode cfg) (dec_Rat ar) in
    Qabs (l - r) <= Qmax (dec_Rat (TC_AbsAmountTolerance cfg))
                         (dec_Rat (TC_PercentTolerance cfg) * tolerance_base (TC_PercentageBase cfg) l r).
Proof.
  unfold toleranceBaseAmountMatch, amounts_within, tolerance_amount, compared. destruct (TC_MatchBaseAmount cfg); cbn [andb].
  - destruct (CT_AmountBase left) as [al|]; [|naive_solver]. destruct (CT_AmountBase right) as [ar|]; [|naive_solver].
    cbn. split; [intros [_ H]; eauto|]. by intros (? & ? & [= <-] & [= <-] & H).
  - split; [intros [_ H]; eauto|]. by intros (? & ? & -> & -> & H).
Qed.

Lemma tolerated_iff left right cfg :
  tolerated cfg left right <-> toleranceCurrencyMatch left right cfg = true /\ toleranceDateMatch left right cfg = true /\
    toleranceBaseAmountMatch left right cfg = true /\ toleranceReferenceMatch left right cfg = true /\
    amounts_within cfg left right.
Proof.
  assert (Hd : toleranceDateMatch left right cfg = true <->
    (Z.min max_duration_days (Z.abs (CT_Date right / nanos_per_day - CT_Date left / nanos_per_day))
       <= TC_DateWindowDays cfg)%Z).
  { unfold toleranceDateMatch. rewrite Z.leb_le, AbsDayDiff_abs, SignedDayDiff_eq. unfold max_duration_days. lia. }
  assert (Hc : toleranceCurrencyMatch left right cfg = true <->
    (TC_MatchCurrency cfg = true -> CT_Currency left = CT_Currency right) /\
    (TC_MatchBaseCurrency cfg = true -> CT_CurrencyBase left <> "" /\ CT_CurrencyBase left = CT_CurrencyBase right)).
  { clear Hd. unfold toleranceCurrencyMatch, baseCurrencyMatch, string_empty.
    destruct (TC_MatchCurrency cfg), (TC_MatchBaseCurrency cfg); cbn [andb]; repeat case_bool_decide; cbn;
      intuition congruence. }
  rewrite Hc, Hd, toleranceReferenceMatch_iff. split.
  - intros [H1 H2 H3 H4 H5]. apply amounts_within_iff in H5 as [H5 H6]. auto 10.
  - intros ((H1 & H2) & H3 & H5 & H4 & H6). split; auto. by apply amounts_within_iff.
Qed.

(** C25: without a configuration the tolerance evaluator fails; with one it
    reports the first of its faults: a negative date window, a negative
    tolerance, a rounding scale out of range, an unknown rounding mode.  With a
    valid configuration it matches two transactions if and only if the
    currencies and base currencies that are compared agree (the base ones must
    be set), the days are at most the window apart, the trimmed references agree
    where they are compared, up to case if so configured, and the compared
    amounts are set and, rounded, differ by no more than the larger of the
    absolute tolerance and the percentage of the configured base amount. *)
Theorem ToleranceMatch_spec left right cfg :
  ToleranceMatch left right None = Err ErrToleranceConfigRequired /\
  (forall e, ToleranceMatch left right (Some cfg) = Err e <-> tolerance_config_error cfg e) /\
  (ToleranceMatch left right (Some cfg) = Ok true <-> tolerance_config_ok cfg /\ tolerated cfg left right).
Proof.
  split; [done|]. setoid_rewrite <-validateToleranceConfig_error. rewrite tolerance_config_valid, tolerated_iff.
  destruct (validateToleranceConfig cfg) as [[]|e0] eqn:Hv.
  - destruct (ToleranceMatch_Ok left right cfg Hv) as (b & -> & Hiff). split; [naive_solver|].
    rewrite <-Hiff. split; [by intros [= ->]|by intros [_ ->]].
  - unfold ToleranceMatch, validateToleranceMatchInputs. rewrite Hv. cbn. naive_solver.
Qed.

(** *** Swapping the two transactions *)
Lemma baseCurrencyMatch_sym l r : baseCurrencyMatch l r = baseCurrencyMatch r l.
Proof. unfold baseCurrencyMatch. by rewrite orb_comm, bool_decide_eq_sym. Qed.

Lemma ExactMatch_sym left right cfg : ExactMatch left right cfg = ExactMatch right left cfg.
Proof.
  destruct cfg as [cfg|]; [|done].
  unfold ExactMatch, matchAmountAndCurrency, matchBaseAmountAndCurrency, matchDate, matchReference.
  rewrite (dec_Equal_sym (CT_Amount left)), (bool_decide_eq_sym (CT_Currency left)),
    (baseCurrencyMatch_sym left), (EqualFold_sym (strings_TrimSpace (CT_Reference left))),
    (bool_decide_eq_sym (strings_TrimSpace (CT_Reference left))),
    (orb_comm (string_empty (strings_TrimSpace (CT_Reference left)))).
  unfold time_Equal. rewrite (Z.eqb_sym (DayUTC (CT_Date left))), (Z.eqb_sym (CT_Date left)).
  destruct (CT_AmountBase left) as [a|], (CT_AmountBase right) as [b|]; try done.
  by rewrite (dec_Equal_sym a b).
Qed.

Definition mirror_tolerance (cfg : ToleranceConfig) : ToleranceConfig :=
  mkToleranceConfig (TC_MatchCurrency cfg) (TC_DateWindowDays cfg) (TC_AbsAmountTolerance cfg)
    (TC_PercentTolerance cfg) (TC_RoundingScale cfg) (TC_RoundingMode cfg) (TC_MatchBaseAmount cfg)
    (TC_MatchBaseCurrency cfg) (TC_MatchScore cfg) (TC_MatchBaseScore cfg)
    (mirror_base (TC_PercentageBase cfg)) (TC_MatchReference cfg) (TC_CaseInsensitive cfg)
    (TC_ReferenceMustSet cfg).

Definition mirror_date_lag (cfg : DateLagConfig) : DateLagConfig :=
  mkDateLagConfig (DC_MinDays cfg) (DC_MaxDays cfg) (DC_Inclusive cfg)
    (mirror_direction (DC_Direction cfg)) (DC_FeeTolerance cfg) (DC_MatchScore cfg) (DC_MatchCurrency cfg).

Lemma amounts_within_mirror cfg left right :
  amounts_within (mirror_tolerance cfg) right left <-> amounts_within cfg left right.
Proof.
  unfold amounts_within, tolerance_amount, mirror_tolerance.
  cbn [TC_RoundingScale TC_RoundingMode TC_MatchBaseAmount TC_AbsAmountTolerance
       TC_PercentTolerance TC_PercentageBase].
  by rewrite tolerance_base_mirror, Qabs_Qminus.
Qed.

Lemma toleranceReferenceMatch_sym left right cfg :
  toleranceReferenceMatch left right cfg = toleranceReferenceMatch right left cfg.
Proof.
  unfold toleranceReferenceMatch.
  by rewrite (orb_comm (string_empty _)), (andb_comm (string_empty _)), equalFold_sym, bool_decide_eq_sym.
Qed.

Lemma toleranceCurrencyMatch_sym left right cfg :
  toleranceCurrencyMatch left right cfg = toleranceCurrencyMatch right left cfg.
Proof. unfold toleranceCurrencyMatch. by rewrite bool_decide_eq_sym, baseCurrencyMatch_sym. Qed.

Lemma ToleranceMatch_mirror left right cfg :
  ToleranceMatch right left (mirror_tolerance <$> cfg) = ToleranceMatch left right cfg.
Proof.
  destruct cfg as [cfg|]; [|done]. cbn [fmap option_fmap option_map].
  assert (Hm : validateToleranceConfig (mirror_tolerance cfg) = validateToleranceConfig cfg) by done.
  destruct (validateToleranceConfig cfg) as [[]|e] eqn:Hv.
  - destruct (ToleranceMatch_Ok left right cfg Hv) as (b & -> & Hb).
    destruct (ToleranceMatch_Ok right left _ Hm) as (b' & -> & Hb'). f_equal.
    apply bool_iff_eq. rewrite Hb, Hb', amounts_within_mirror, (toleranceReferenceMatch_sym right left),
      (toleranceCurrencyMatch_sym right left).
    unfold toleranceDateMatch, toleranceBaseAmountMatch. simpl.
    by rewrite (AbsDayDiff_sym (CT_Date right)), (andb_comm (bool_decide (is_Some (CT_AmountBase right)))).
  - unfold ToleranceMatch, validateToleranceMatchInputs. by rewrite Hv, Hm.
Qed.

Lemma amountWithinFeeTolerance_sym left right t :
  amountWithinFeeTolerance left right t = amountWithinFeeTolerance right left t.
Proof.
  unfold amountWithinFeeTolerance. f_equal. apply bool_iff_eq.
  by rewrite !dec_GreaterThan_spec, !dec_Rat_Abs, !dec_Rat_Sub, Qabs_Qminus.
Qed.

Lemma computeDateLagDiff_mirror left right cfg :
  computeDateLagDiff right left (mirror_date_lag cfg) = computeDateLagDiff left right cfg.
Proof.
  unfold computeDateLagDiff, mirror_direction. simpl.
  rewrite (SignedDayDiff_opp (CT_Date left) (CT_Date right)). set (d := SignedDayDiff _ _). clearbody d.
  unfold mirror_direction, computeLeftBeforeRightDiff, computeRightBeforeLeftDiff.
  destruct (decide (DC_Direction cfg = DateLagDirectionAbs)) as [->|H1].
  { simpl. f_equal. destruct (Z.ltb_spec (- d) 0), (Z.ltb_spec d 0); lia. }
  destruct (decide (DC_Direction cfg = DateLagDirectionLeftBeforeRight)) as [->|H2]; [simpl|
    destruct (decide (DC_Direction cfg = DateLagDirectionRightBeforeLeft)) as [->|H3]; [simpl|]].
  3: by rewrite !(bool_decide_eq_false_2 (DC_Direction cfg = _)) by done.
  all: f_equal; destruct (Z.ltb_spec (- d) 0), (Z.ltb_spec d 0), (Z.ltb_spec 0 (- d)), (Z.ltb_spec 0 d),
    (Z.eqb_spec (- d) 0), (Z.eqb_spec d 0), (Z.ltb_spec 0 (DC_MinDays cfg)); simpl; lia.
Qed.

Lemma DateLagMatch_mirror left right cfg :
  DateLagMatch right left (mirror_date_lag <$> cfg) = DateLagMatch left right cfg.
Proof.
  destruct cfg as [cfg|]; [|done]. unfold DateLagMatch. simpl.
  destruct (_ || _); simpl; [done|]. destruct (DC_MaxDays cfg <? DC_MinDays cfg)%Z; simpl; [done|].
  rewrite computeDateLagDiff_mirror, amountWithinFeeTolerance_sym. unfold dateLagCurrencyMatch. simpl.
  by rewrite (bool_decide_eq_sym (CT_Currency right)), (orb_comm (string_empty (CT_Currency right))).
Qed.
(** *** Exact matches are tolerance matches *)
Lemma ExactMatch_iff left right cfg :
  ExactMatch left right (Some cfg) = Ok true <->
  matchAmountAndCurrency left right cfg = true /\ matchBaseAmountAndCurrency left right cfg = true /\
  matchDate left right cfg = Ok true /\ matchReference left right cfg = true.
Proof.
  unfold ExactMatch. destruct (matchAmountAndCurrency _ _ _), (matchBaseAmountAndCurrency _ _ _),
    (matchDate _ _ _) as [[]|], (matchReference _ _ _); simpl; naive_solver.
Qed.

(** [tc] asks for no field that [ec] does not compare; when [ec] folds case,
    the references have to be ASCII, since the tolerance evaluator folds only
    ASCII letters. *)
Record exact_covers (ec : ExactConfig) (tc : ToleranceConfig) (left right : CandidateTransaction) : Prop := {
  ev_amount : EC_MatchAmount ec = true;
  ev_currency : EC_MatchCurrency ec = true;
  ev_date : EC_MatchDate ec = true;
  ev_base_amount : TC_MatchBaseAmount tc = true -> EC_MatchBaseAmount ec = true;
  ev_base_currency : TC_MatchBaseCurrency tc = true -> EC_MatchBaseCurrency ec = true;
  ev_reference : TC_MatchReference tc = true -> EC_MatchReference ec = true;
  ev_must_set : TC_ReferenceMustSet tc = true -> EC_ReferenceMustSet ec = true;
  ev_case : EC_CaseInsensitive ec = true -> TC_CaseInsensitive tc = true /\
    string_is_ascii (strings_TrimSpace (CT_Reference left)) = true /\
    string_is_ascii (strings_TrimSpace (CT_Reference right)) = true;
}.

Lemma exact_covers_reference ec tc left right :
  exact_covers ec tc left right -> matchReference left right ec = true ->
  toleranceReferenceMatch left right tc = true.
Proof.
  intros [_ _ _ _ _ Hr Hms Hci]. unfold matchReference, toleranceReferenceMatch.
  destruct (TC_MatchReference tc); [|done]. rewrite Hr by done. simpl.
  set (lref := strings_TrimSpace (CT_Reference left)) in *.
  set (rref := strings_TrimSpace (CT_Reference right)) in *.
  assert (Hfold : (if EC_CaseInsensitive ec then strings_EqualFold lref rref
                   else bool_decide (lref = rref)) = true ->
    (if TC_CaseInsensitive tc then equalFold lref rref else bool_decide (lref = rref)) = true).
  { destruct (EC_CaseInsensitive ec); intros H.
    - destruct Hci as (-> & H1 & H2); [done|]. apply equalFold_spec. by apply EqualFold_ascii.
    - apply bool_decide_eq_true in H as ->. destruct (TC_CaseInsensitive tc);
        [apply equalFold_refl|by apply bool_decide_eq_true]. }
  destruct (string_empty lref || string_empty rref); rewrite ?andb_true_r, ?andb_false_r;
    [destruct (EC_ReferenceMustSet ec); [done|]; destruct (TC_ReferenceMustSet tc); [naive_solver|]|];
    intros H; destruct (_ && _); auto.
Qed.

Lemma matchDate_same_day left right ec :
  EC_MatchDate ec = true -> matchDate left right ec = Ok true ->
  AbsDayDiff (CT_Date left) (CT_Date right) = 0%Z.
Proof.
  unfold matchDate. intros ->. simpl. intros H. rewrite AbsDayDiff_abs, SignedDayDiff_eq.
  assert ((CT_Date left / nanos_per_day)%Z = (CT_Date right / nanos_per_day)%Z) as E.
  { repeat case_bool_decide; simplify_eq; unfold time_Equal in H;
      apply Z.eqb_eq in H; [|by rewrite H].
    unfold DayUTC, utc_midnight in H. change nanos_per_day with 86400000000000%Z in *. lia. }
  rewrite E. unfold max_duration_days. lia.
Qed.

Lemma amounts_within_equal cfg left right :
  0 <= dec_Rat (TC_AbsAmountTolerance cfg) ->
  dec_Rat (tolerance_amount left cfg) == dec_Rat (tolerance_amount right cfg) ->
  amounts_within cfg left right.
Proof.
  intros Ha E. unfold amounts_within. rewrite E. set (r := rounded _ _ _).
  assert (r - r == 0) as -> by lra. rewrite Qabs_pos by lra. q_minmax; lra.
Qed.

(** An exact match on amount, currency and date is a match for every
    valid tolerance configuration over the same fields, whatever its
    tolerances, rounding and percentage base. *)
Theorem ExactMatch_implies_ToleranceMatch left right ec tc :
  exact_covers ec tc left right -> validateToleranceConfig tc = Ok tt ->
  ExactMatch left right (Some ec) = Ok true -> ToleranceMatch left right (Some tc) = Ok true.
Proof.
  intros Hc Hv (E1 & E2 & E3 & E4)%ExactMatch_iff. pose proof Hc as [Ha Hcur Hd Hba Hbc _ _ _].
  destruct (ToleranceMatch_Ok left right tc Hv) as (b & -> & Hb). f_equal. apply Hb.
  unfold matchAmountAndCurrency in E1. rewrite Ha, Hcur in E1. simpl in E1.
  destruct (dec_Equal (CT_Amount left) (CT_Amount right)) eqn:Eamt; [|done]. simpl in E1.
  case_bool_decide as Ecur; [|done].
  unfold matchBaseAmountAndCurrency in E2. unfold validateToleranceConfig in Hv. res_inv. bool_inv.
  split_and!.
  - unfold toleranceCurrencyMatch. rewrite bool_decide_eq_true_2 by done. rewrite andb_false_r.
    destruct (TC_MatchBaseCurrency tc); [|done]. rewrite Hbc in E2 by done.
    destruct (baseCurrencyMatch left right); [done|]. simpl in E2. by destruct (_ && _).
  - unfold toleranceDateMatch. erewrite matchDate_same_day by done. apply Z.leb_le. lia.
  - unfold toleranceBaseAmountMatch. destruct (TC_MatchBaseAmount tc); [|done].
    rewrite Hba in E2 by done. by destruct (CT_AmountBase left), (CT_AmountBase right).
  - by eapply exact_covers_reference.
  - apply amounts_within_equal; [by dec_bool|]. unfold tolerance_amount. dec_bool.
    destruct (TC_MatchBaseAmount tc); [|done]. rewrite Hba in E2 by done.
    destruct (CT_AmountBase left) as [x|], (CT_AmountBase right) as [y|]; try done. simpl in *.
    destruct (dec_Equal x y) eqn:E; [by dec_bool|done].
Qed.

(** *** FX conversion *)
Lemma rounding_fn_near mode x : Qabs (inject_Z (rounding_fn mode x) - x) <= 1.
Proof.
  unfold rounding_fn. repeat case_bool_decide;
    auto using q_half_away_near, q_half_even_near, Qfloor_near, Qceiling_near, q_toward_zero_near.
Qed.

Lemma rounding_fn_nonneg mode x : 0 <= x -> (0 <= rounding_fn mode x)%Z.
Proof.
  unfold rounding_fn. repeat case_bool_decide;
    auto using q_half_away_nonneg, q_half_even_nonneg, Qfloor_nonneg, Qceiling_nonneg, q_toward_zero_nonneg.
Qed.

(** A constructed FX rate is positive, carries a source and a date and
    stays valid; converting with it gives [amount * rate] up to one unit of
    the last digit kept, and a non-negative amount stays non-negative. *)
Theorem NewFXRate_convert rate source effectiveAt r amount scale mode base :
  NewFXRate rate source effectiveAt = Ok r ->
  ConvertToBaseAmount amount r scale mode = Ok base ->
  FXRate_IsValid r = true /\ 0 < dec_Rat (FX_rate r) /\ (0 <= scale <= max_int32)%Z /\
  Qabs (dec_Rat base - dec_Rat amount * dec_Rat rate) <= / q_scale scale /\
  (0 <= dec_Rat amount -> 0 <= dec_Rat base).
Proof.
  intros Hn Hc. unfold NewFXRate, validateFXRateFields in Hn. res_inv. bool_inv. simplify_eq.
  unfold ConvertToBaseAmount in Hc. simpl in Hc.
  assert (Hs : (0 <= scale <= max_int32)%Z).
  { unfold roundAmount in Hc. destruct (Z.ltb_spec scale 0), (Z.ltb_spec max_int32 scale); naive_solver. }
  assert (Hpos : 0 < dec_Rat rate) by dec_lra.
  pose proof (roundAmount_cases (dec_Mul amount rate) scale mode) as Hr.
  destruct (roundAmount dec_Zero scale mode) eqn:Ez; [|congruence].
  destruct Hr as (_ & d & Hd & Hr). assert (d = base) as -> by congruence.
  rewrite dec_Rat_Mul in Hr. split_and!; try done; try lia.
  - unfold FXRate_IsValid, validateFXRateFields. simpl. rewrite strings_TrimSpace_idem.
    repeat match goal with H : _ = false |- _ => rewrite H; clear H end. done.
  - rewrite Hr. apply q_at_near; [lia|]. apply rounding_fn_near.
  - intros Ha. rewrite Hr. apply q_at_nonneg; [lia|apply rounding_fn_nonneg|nra].
Qed.
End results.

(** ** Concrete instances *)
Definition sample_tolerance (abs : Q) (window : Z) : @ToleranceConfig model_decimal :=
  mkToleranceConfig (D:=model_decimal) true window abs (1 # 100) 2 RoundingHalfUp false false 90 0
    TolerancePercentageBaseMax true true true.
Definition sample_exact : ExactConfig :=
  mkExactConfig true true true DatePrecisionDay true true true false false 100 0.
Definition sample_date_lag : @DateLagConfig model_decimal :=
  mkDateLagConfig (D:=model_decimal) 1 3 true DateLagDirectionLeftBeforeRight 2 90 true.

Lemma ToleranceMatch_spec_witness :
  tolerated (sample_tolerance 1 2) (sample_tx "a" 100 7) (sample_tx "b" (1007 # 10) 9) /\
  tolerance_config_error (sample_tolerance (-1) 2) ErrInvalidTolerance.
Proof.
  split.
  - apply (ToleranceMatch_spec (L:=model_decimal_laws) (sample_tx "a" 100 7)
      (sample_tx "b" (1007 # 10) 9) (sample_tolerance 1 2)). vm_compute. reflexivity.
  - apply (ToleranceMatch_spec (L:=model_decimal_laws) (sample_tx "a" 100 7)
      (sample_tx "b" 100 7) (sample_tolerance (-1) 2)). vm_compute. reflexivity.
Defined.

Lemma ToleranceMatch_monotone_witness :
  ToleranceMatch (sample_tx "a" 100 7) (sample_tx "b" (1007 # 10) 9) (Some (sample_tolerance 2 5)) = Ok true.
Proof.
  apply (ToleranceMatch_monotone (L:=model_decimal_laws) _ _ (sample_tolerance 1 2) 2 (1 # 100) 5).
  - by vm_compute.
  - by vm_compute.
  - by vm_compute.
  - vm_compute. reflexivity.
Defined.

Lemma DateLagMatch_spec_witness :
  lag_in_bounds 1 3 true
    (directed_lag DateLagDirectionLeftBeforeRight (7 * nanos_per_day) (9 * nanos_per_day)).
Proof.
  refine (proj2 (proj2 (proj2 (proj2 (proj2 (proj1 (proj1
    (DateLagMatch_spec (L:=model_decimal_laws) (sample_tx "a" 100 7)
       (sample_tx "b" 101 9) sample_date_lag)) _)))))).
  vm_compute. reflexivity.
Defined.

Lemma ExactMatch_implies_ToleranceMatch_witness :
  ToleranceMatch (sample_tx "a" 100 7) (sample_tx "b" 100 7) (Some (sample_tolerance 0 0)) = Ok true.
Proof.
  apply (ExactMatch_implies_ToleranceMatch (L:=model_decimal_laws) (N:=model_unicode)
           (NL:=model_unicode_laws) _ _ sample_exact).
  - by split; vm_compute.
  - vm_compute. reflexivity.
  - vm_compute. reflexivity.
Defined.

Definition sample_rate : FXRate := mkFXRate (D:=model_decimal) (11 # 10) "ECB" 1%Z.

Lemma NewFXRate_convert_witness :
  FXRate_IsValid sample_rate = true /\ Qabs ((1101 # 100) - (1001 # 100) * (11 # 10)) <= / q_scale 2.
Proof.
  destruct (NewFXRate_convert (L:=model_decimal_laws) (11 # 10) " ECB " 1%Z sample_rate (1001 # 100)
    2 RoundingBankers (1101 # 100)) as (H1 & _ & _ & H2 & _).
  - vm_compute. reflexivity.
  - vm_compute. reflexivity.
  - split; [exact H1|exact H2].
Defined.
