(* ===== verification/Confidence.v ===== *)
(** * Confidence scores

    Models internal/matching/domain/services/[confidence_scorer.go] and
    domain/value_objects/[confidence_score.go].  The weighted sum is computed
    in IEEE 754 binary64 as the source does; the results show that for the
    default weights the rounding errors never reach the integer score, and
    how the score of a pair relates to the evaluator that matched it. *)
From S2P Require Import GoLib GoLibModel FeeStructure FeeSchedule FeeRules MatchTypes Evaluators.
From Stdlib Require Import QArith Qabs Qminmax Lqa.

Definition weightAmount : float64 := f64_const 40 100.
Definition weightCurrency : float64 := f64_const 30 100.
Definition weightDate : float64 := f64_const 20 100.
Definition weightReference : float64 := f64_const 10 100.
Definition scoreMaxValue : float64 := f64_of_Z 100.

Record ConfidenceWeights : Type := mkConfidenceWeights {
  CW_Amount : float64;
  CW_Currency : float64;
  CW_Date : float64;
  CW_Reference : float64;
}.

Definition DefaultConfidenceWeights : ConfidenceWeights :=
  mkConfidenceWeights weightAmount weightCurrency weightDate weightReference.

Record ConfidenceComponents : Type := mkConfidenceComponents {
  CC_AmountMatch : bool;
  CC_CurrencyMatch : bool;
  CC_DateMatch : bool;
  CC_ReferenceScore : float64;
}.

Definition CalculateConfidenceScore (components : ConfidenceComponents) (weights : ConfidenceWeights) : Z :=
  let score := f64_of_Z 0 in
  let score := if CC_AmountMatch components then f64_add score (CW_Amount weights) else score in
  let score := if CC_CurrencyMatch components then f64_add score (CW_Currency weights) else score in
  let score := if CC_DateMatch components then f64_add score (CW_Date weights) else score in
  let score := f64_add score (f64_mul (CC_ReferenceScore components) (CW_Reference weights)) in
  int_of_math_Round (f64_mul score scoreMaxValue).

Record ReferenceMatchOptions : Type := mkReferenceMatchOptions {
  RO_CaseInsensitive : bool;
  RO_ReferenceMustSet : bool;
}.

Section scorer.
  Context {U : UUIDLib} {D : DecimalLib}.

Definition isWithinTolerance (left right absTolerance percentTolerance : decimal)
    (base : TolerancePercentageBase) : bool :=
  let diff := dec_Abs (dec_Sub left right) in
  let threshold := toleranceThreshold absTolerance percentTolerance left right base in
  negb (dec_GreaterThan diff threshold).

Definition isWithinFeeTolerance (left right feeTolerance : decimal) : bool :=
  let diff := dec_Abs (dec_Sub (dec_Abs left) (dec_Abs right)) in
  negb (dec_GreaterThan diff feeTolerance).

Definition calculateReferenceScoreWithOptions (opts : ReferenceMatchOptions)
    (left right : CandidateTransaction) : float64 :=
  let leftRef := CT_Reference left in
  let rightRef := CT_Reference right in
  if RO_ReferenceMustSet opts && (string_empty leftRef || string_empty rightRef) then f64_of_Z 0
  else if string_empty leftRef && string_empty rightRef then f64_of_Z 1
  else if RO_CaseInsensitive opts then
    if equalFold leftRef rightRef then f64_of_Z 1 else f64_of_Z 0
  else if bool_decide (leftRef = rightRef) then f64_of_Z 1 else f64_of_Z 0.

(** *** Exact rules *)
Definition evaluateExactAmountMatch (cfg : ExactConfig) (left right : CandidateTransaction) : bool :=
  if EC_MatchBaseAmount cfg then
    match CT_AmountBase left, CT_AmountBase right with
    | Some l, Some r => dec_Equal l r
    | _, _ => false
    end
  else if EC_MatchAmount cfg then dec_Equal (CT_Amount left) (CT_Amount right)
  else true.

Definition evaluateExactCurrencyMatch (cfg : ExactConfig) (left right : CandidateTransaction) : bool :=
  if EC_MatchBaseCurrency cfg then
    negb (string_empty (CT_CurrencyBase left)) && bool_decide (CT_CurrencyBase left = CT_CurrencyBase right)
  else if EC_MatchCurrency cfg then
    negb (string_empty (CT_Currency left)) && bool_decide (CT_Currency left = CT_Currency right)
  else if string_empty (CT_Currency left) || string_empty (CT_Currency right) then false
  else bool_decide (CT_Currency left = CT_Currency right).

Definition evaluateExactDateMatch (cfg : ExactConfig) (left right : CandidateTransaction) : bool :=
  if negb (EC_MatchDate cfg) then true
  else if bool_decide (EC_DatePrecision cfg = DatePrecisionDay)
  then time_Equal (DayUTC (CT_Date left)) (DayUTC (CT_Date right))
  else if bool_decide (EC_DatePrecision cfg = DatePrecisionTimestamp)
  then time_Equal (CT_Date left) (CT_Date right)
  else true.

Definition evaluateExactReferenceScore (cfg : ExactConfig) (left right : CandidateTransaction) : float64 :=
  if negb (EC_MatchReference cfg) then f64_of_Z 1
  else calculateReferenceScoreWithOptions
         (mkReferenceMatchOptions (EC_CaseInsensitive cfg) (EC_ReferenceMustSet cfg)) left right.

Definition extractExactComponents (cfg : ExactConfig) (left right : CandidateTransaction)
    : ConfidenceComponents :=
  mkConfidenceComponents (evaluateExactAmountMatch cfg left right)
    (evaluateExactCurrencyMatch cfg left right) (evaluateExactDateMatch cfg left right)
    (evaluateExactReferenceScore cfg left right).

Definition ScoreExactConfidence (cfg : option ExactConfig) (left right : CandidateTransaction) : Z :=
  match cfg with
  | None => 0%Z
  | Some cfg => CalculateConfidenceScore (extractExactComponents cfg left right) DefaultConfidenceWeights
  end.

(** *** Tolerance rules *)
Definition evaluateToleranceReferenceScore (cfg : ToleranceConfig) (left right : CandidateTransaction)
    : float64 :=
  if negb (TC_MatchReference cfg) then f64_of_Z 0
  else calculateReferenceScoreWithOptions
         (mkReferenceMatchOptions (TC_CaseInsensitive cfg) (TC_ReferenceMustSet cfg)) left right.

Definition extractToleranceComponents (cfg : ToleranceConfig) (left right : CandidateTransaction)
    : ConfidenceComponents :=
  mkConfidenceComponents
    (if TC_MatchBaseAmount cfg then
       match CT_AmountBase left, CT_AmountBase right with
       | Some l, Some r => isWithinTolerance l r (TC_AbsAmountTolerance cfg) (TC_PercentTolerance cfg)
                             (TC_PercentageBase cfg)
       | _, _ => false
       end
     else isWithinTolerance (CT_Amount left) (CT_Amount right) (TC_AbsAmountTolerance cfg)
            (TC_PercentTolerance cfg) (TC_PercentageBase cfg))
    (if TC_MatchBaseCurrency cfg then
       negb (string_empty (CT_CurrencyBase left)) && bool_decide (CT_CurrencyBase left = CT_CurrencyBase right)
     else if TC_MatchCurrency cfg then
       negb (string_empty (CT_Currency left)) && bool_decide (CT_Currency left = CT_Currency right)
     else negb (string_empty (CT_Currency left)) && negb (string_empty (CT_Currency right)) &&
          bool_decide (CT_Currency left = CT_Currency right))
    (if (0 <=? TC_DateWindowDays cfg)%Z
     then (AbsDayDiff (CT_Date left) (CT_Date right) <=? TC_DateWindowDays cfg)%Z
     else true)
    (evaluateToleranceReferenceScore cfg left right).

Definition ScoreToleranceConfidence (cfg : option ToleranceConfig) (left right : CandidateTransaction) : Z :=
  match cfg with
  | None => 0%Z
  | Some cfg => CalculateConfidenceScore (extractToleranceComponents cfg left right) DefaultConfidenceWeights
  end.

(** *** Date-lag rules *)
Definition extractDateLagComponents (cfg : DateLagConfig) (left right : CandidateTransaction)
    : ConfidenceComponents :=
  let dayDiff := AbsDayDiff (CT_Date left) (CT_Date right) in
  mkConfidenceComponents
    (isWithinFeeTolerance (CT_Amount left) (CT_Amount right) (DC_FeeTolerance cfg))
    (if DC_MatchCurrency cfg then
       negb (string_empty (CT_Currency left)) && bool_decide (CT_Currency left = CT_Currency right)
     else negb (string_empty (CT_Currency left)) && negb (string_empty (CT_Currency right)) &&
          bool_decide (CT_Currency left = CT_Currency right))
    ((DC_MinDays cfg <=? dayDiff)%Z &&
     ((DC_Inclusive cfg && (dayDiff <=? DC_MaxDays cfg)%Z) ||
      (negb (DC_Inclusive cfg) && (dayDiff <? DC_MaxDays cfg)%Z)))
    (f64_of_Z 0).

Definition ScoreDateLagConfidence (cfg : option DateLagConfig) (left right : CandidateTransaction) : Z :=
  match cfg with
  | None => 0%Z
  | Some cfg => CalculateConfidenceScore (extractDateLagComponents cfg left right) DefaultConfidenceWeights
  end.
End scorer.

(** ** [confidence_score.go] *)
Record ConfidenceScore : Type := mkConfidenceScore { CS_value : Z }.

Inductive ConfidenceScoreError : Type :=
| ErrConfidenceScoreOutOfRange
| ErrConfidenceScoreSyntax.

Definition ParseConfidenceScore (value : Z) : res ConfidenceScoreError ConfidenceScore :=
  if (value <? 0)%Z || (100 <? value)%Z then Err ErrConfidenceScoreOutOfRange
  else Ok (mkConfidenceScore value).

Definition ConfidenceScore_IsValid (c : ConfidenceScore) : bool :=
  (0 <=? CS_value c)%Z && (CS_value c <=? 100)%Z.

Definition ConfidenceScore_MarshalJSON (c : ConfidenceScore) : string := strconv_Itoa (CS_value c).

(** The receiver's new value; on an error it is left unchanged. *)
Definition ConfidenceScore_UnmarshalJSON (data : string) : res ConfidenceScoreError ConfidenceScore :=
  match strconv_Atoi data with
  | None => Err ErrConfidenceScoreSyntax
  | Some value =>
      if (value <? 0)%Z || (100 <? value)%Z then Err ErrConfidenceScoreOutOfRange
      else Ok (mkConfidenceScore value)
  end.

(** ** Results *)

(** The integer score a set of satisfied components stands for. *)
Definition score_of (amount currency date reference : bool) : Z :=
  (40 * Z.b2z amount + 30 * Z.b2z currency + 20 * Z.b2z date + 10 * Z.b2z reference)%Z.

Lemma score_table a c d r :
  CalculateConfidenceScore (mkConfidenceComponents a c d (f64_of_Z (Z.b2z r))) DefaultConfidenceWeights =
  score_of a c d r.
Proof. destruct a, c, d, r; vm_compute; reflexivity. Qed.

Section results.
  Context {U : UUIDLib} {D : DecimalLib} {L : DecimalLaws D} {N : UnicodeLib}.

Lemma reference_score_bit opts left right :
  exists r : bool, calculateReferenceScoreWithOptions opts left right = f64_of_Z (Z.b2z r).
Proof.
  unfold calculateReferenceScoreWithOptions.
  destruct (_ && _); [by exists false|]. destruct (_ && _); [by exists true|].
  destruct (RO_CaseInsensitive opts); [destruct (equalFold _ _)|case_bool_decide];
    by (exists true + exists false).
Qed.

Lemma ScoreExactConfidence_eq cfg left right :
  exists r, ScoreExactConfidence (Some cfg) left right =
    score_of (evaluateExactAmountMatch cfg left right) (evaluateExactCurrencyMatch cfg left right)
      (evaluateExactDateMatch cfg left right) r /\
    (EC_MatchReference cfg = false -> r = true).
Proof.
  unfold ScoreExactConfidence, extractExactComponents, evaluateExactReferenceScore.
  destruct (EC_MatchReference cfg); cbn [negb].
  - destruct (reference_score_bit (mkReferenceMatchOptions (EC_CaseInsensitive cfg)
      (EC_ReferenceMustSet cfg)) left right) as [r ->]. exists r. split; [apply score_table|done].
  - exists true. split; [|done]. apply (score_table _ _ _ true).
Qed.

Lemma ScoreToleranceConfidence_eq cfg left right :
  exists r, ScoreToleranceConfidence (Some cfg) left right =
    score_of (CC_AmountMatch (extractToleranceComponents cfg left right))
      (CC_CurrencyMatch (extractToleranceComponents cfg left right))
      (CC_DateMatch (extractToleranceComponents cfg left right)) r /\
    (TC_MatchReference cfg = false -> r = false).
Proof.
  unfold ScoreToleranceConfidence, extractToleranceComponents, evaluateToleranceReferenceScore.
  destruct (TC_MatchReference cfg); cbn [negb CC_AmountMatch CC_CurrencyMatch CC_DateMatch].
  - destruct (reference_score_bit (mkReferenceMatchOptions (TC_CaseInsensitive cfg)
      (TC_ReferenceMustSet cfg)) left right) as [r ->]. exists r. split; [apply score_table|done].
  - exists false. split; [|done]. apply (score_table _ _ _ false).
Qed.

Lemma ScoreDateLagConfidence_eq cfg left right :
  ScoreDateLagConfidence (Some cfg) left right =
    score_of (CC_AmountMatch (extractDateLagComponents cfg left right))
      (CC_CurrencyMatch (extractDateLagComponents cfg left right))
      (CC_DateMatch (extractDateLagComponents cfg left right)) false.
Proof. apply (score_table _ _ _ false). Qed.

Lemma ParseConfidenceScore_range n : (0 <= n <= 100)%Z -> ParseConfidenceScore n = Ok (mkConfidenceScore n).
Proof.
  intros H. unfold ParseConfidenceScore.
  destruct (Z.ltb_spec n 0), (Z.ltb_spec 100 n); simpl; try done; lia.
Qed.

(** The floating-point scorer is exact.  Each score is the sum of 40, 30,
    20 and 10 for the satisfied components, without rounding error, so it is
    always accepted by [ParseConfidenceScore]; a date-lag score never exceeds
    90. *)
Theorem Score_weights exact tolerance lag left right :
  (forall a c d r, CalculateConfidenceScore (mkConfidenceComponents a c d (f64_of_Z (Z.b2z r)))
     DefaultConfidenceWeights = score_of a c d r) /\
  (exists r, ScoreExactConfidence (Some exact) left right =
    score_of (evaluateExactAmountMatch exact left right) (evaluateExactCurrencyMatch exact left right)
      (evaluateExactDateMatch exact left right) r) /\
  is_Ok (ParseConfidenceScore (ScoreExactConfidence (Some exact) left right)) = true /\
  is_Ok (ParseConfidenceScore (ScoreToleranceConfidence (Some tolerance) left right)) = true /\
  is_Ok (ParseConfidenceScore (ScoreDateLagConfidence (Some lag) left right)) = true /\
  (ScoreDateLagConfidence (Some lag) left right <= 90)%Z.
Proof.
  assert (Hb : forall a c d r, is_Ok (ParseConfidenceScore (score_of a c d r)) = true)
    by (by intros [] [] [] []).
  assert (Hd : forall a c d, (score_of a c d false <= 90)%Z) by (by intros [] [] []).
  destruct (ScoreExactConfidence_eq exact left right) as (r & Hr & _).
  destruct (ScoreToleranceConfidence_eq tolerance left right) as (r' & Hr' & _).
  rewrite Hr, Hr', ScoreDateLagConfidence_eq. split_and!; eauto using score_table.
Qed.

Lemma ExactMatch_components cfg left right :
  ExactMatch left right (Some cfg) = Ok true ->
  evaluateExactAmountMatch cfg left right = true /\ evaluateExactDateMatch cfg left right = true.
Proof.
  intros (Ha & Hb & Hd & _)%ExactMatch_iff. split.
  - unfold matchAmountAndCurrency, matchBaseAmountAndCurrency, evaluateExactAmountMatch in *.
    destruct (EC_MatchBaseAmount cfg).
    + destruct (CT_AmountBase left) as [x|], (CT_AmountBase right) as [y|]; try done.
      by destruct (dec_Equal x y).
    + destruct (EC_MatchAmount cfg); [|done]. by destruct (dec_Equal _ _).
  - unfold matchDate, evaluateExactDateMatch in *. destruct (EC_MatchDate cfg); [|done]. simpl in *.
    repeat case_bool_decide; naive_solver.
Qed.

Lemma ExactMatch_currency cfg left right :
  ExactMatch left right (Some cfg) = Ok true ->
  EC_MatchCurrency cfg = true -> EC_MatchBaseCurrency cfg = false -> CT_Currency left <> "" ->
  evaluateExactCurrencyMatch cfg left right = true.
Proof.
  intros (Ha & _)%ExactMatch_iff Hc Hb Hne.
  unfold matchAmountAndCurrency, evaluateExactCurrencyMatch, string_empty in *. rewrite Hc, Hb in *.
  rewrite (bool_decide_eq_false_2 (CT_Currency left = "")) by done.
  case_bool_decide; [done|]. by destruct (_ && _).
Qed.

Lemma DateLagMatch_components cfg left right :
  DateLagMatch left right (Some cfg) = Ok true ->
  CC_AmountMatch (extractDateLagComponents cfg left right) = true /\
  CC_CurrencyMatch (extractDateLagComponents cfg left right) =
    bool_decide (CT_Currency left = CT_Currency right /\ CT_Currency left <> "") /\
  CC_DateMatch (extractDateLagComponents cfg left right) = true.
Proof.
  intros (Hmm & Ht & Hd & Hc & Ha & Hl)%DateLagMatch_iff. simpl. split_and!.
  - unfold isWithinFeeTolerance. apply negb_true_iff. dec_goal.
    rewrite dec_Rat_Abs, dec_Rat_Sub, !dec_Rat_Abs. eapply Qle_trans; [|exact Ha].
    apply Qabs_Qle_condition. pose proof (Qabs_triangle_reverse (dec_Rat (CT_Amount left)) (dec_Rat (CT_Amount right))).
    pose proof (Qabs_triangle_reverse (dec_Rat (CT_Amount right)) (dec_Rat (CT_Amount left))) as H'.
    rewrite (Qabs_Qminus (dec_Rat (CT_Amount right))) in H'. lra.
  - unfold string_empty. destruct (DC_MatchCurrency cfg); repeat case_bool_decide; simpl;
      first [done|exfalso; intuition congruence].
  - unfold directed_lag, lag_in_bounds in Hl. rewrite (SignedDayDiff_opp (CT_Date left)), AbsDayDiff_abs in *.
    set (d := SignedDayDiff _ _) in *. clearbody d.
    repeat case_bool_decide; destruct (DC_Inclusive cfg); simpl; rewrite ?orb_false_r, andb_true_iff,
      ?Z.leb_le, ?Z.ltb_lt; lia.
Qed.

(** A pair the exact evaluator matches always scores at least 60 (amount
    and date hold), and at least 90 when the compared currencies are set; a
    pair the date-lag evaluator matches scores 90 when both carry the same
    currency and 60 otherwise. *)
Theorem Matched_score exact lag left right :
  (ExactMatch left right (Some exact) = Ok true ->
   (60 <= ScoreExactConfidence (Some exact) left right)%Z /\
   (EC_MatchCurrency exact = true -> EC_MatchBaseCurrency exact = false -> CT_Currency left <> "" ->
    (90 <= ScoreExactConfidence (Some exact) left right)%Z)) /\
  (DateLagMatch left right (Some lag) = Ok true ->
   ScoreDateLagConfidence (Some lag) left right =
     if bool_decide (CT_Currency left = CT_Currency right /\ CT_Currency left <> "") then 90%Z else 60%Z).
Proof.
  split.
  - intros Hm. destruct (ExactMatch_components _ _ _ Hm) as [Ha Hd].
    destruct (ScoreExactConfidence_eq exact left right) as (r & -> & _). rewrite Ha, Hd. split.
    + destruct (evaluateExactCurrencyMatch _ _ _), r; done.
    + intros H1 H2 H3. rewrite (ExactMatch_currency _ _ _ Hm) by done. by destruct r.
  - intros Hm. rewrite ScoreDateLagConfidence_eq.
    destruct (DateLagMatch_components _ _ _ Hm) as (-> & -> & ->). by case_bool_decide.
Qed.
Lemma isWithinTolerance_iff l r abs pct base :
  isWithinTolerance l r abs pct base = true <->
  Qabs (dec_Rat l - dec_Rat r) <= Qmax (dec_Rat abs) (dec_Rat pct * tolerance_base base (dec_Rat l) (dec_Rat r)).
Proof.
  unfold isWithinTolerance. rewrite negb_true_iff, dec_GreaterThan_false, toleranceThreshold_spec.
  by rewrite dec_Rat_Abs, dec_Rat_Sub.
Qed.

Lemma tolerance_amount_component cfg left right :
  toleranceBaseAmountMatch left right cfg = true ->
  CC_AmountMatch (extractToleranceComponents cfg left right) =
  isWithinTolerance (tolerance_amount left cfg) (tolerance_amount right cfg)
    (TC_AbsAmountTolerance cfg) (TC_PercentTolerance cfg) (TC_PercentageBase cfg).
Proof.
  unfold toleranceBaseAmountMatch, extractToleranceComponents, tolerance_amount. cbn [CC_AmountMatch].
  destruct (TC_MatchBaseAmount cfg); [|done].
  by destruct (CT_AmountBase left), (CT_AmountBase right).
Qed.

(** C38: the score of a tolerance match compares unrounded amounts while the
    match compares rounded ones.  When rounding leaves both amounts alone the
    score is at least 60; when the unrounded amounts are outside the tolerance
    it is at most 60.  A configuration that does not compare references gets no
    points for them: the score is at most 90, and at most 50 when the unrounded
    amounts are outside the tolerance. *)
Theorem ToleranceMatch_score cfg left right :
  ToleranceMatch left right (Some cfg) = Ok true ->
  let amount tx := dec_Rat (tolerance_amount tx cfg) in
  let same tx := rounded (TC_RoundingScale cfg) (TC_RoundingMode cfg) (amount tx) == amount tx in
  let within := isWithinTolerance (tolerance_amount left cfg) (tolerance_amount right cfg)
    (TC_AbsAmountTolerance cfg) (TC_PercentTolerance cfg) (TC_PercentageBase cfg) in
  let score := ScoreToleranceConfidence (Some cfg) left right in
  (same left -> same right -> within = true) /\
  (within = true -> (60 <= score)%Z) /\
  (within = false -> (score <= 60)%Z) /\
  (TC_MatchReference cfg = false -> (score <= 90)%Z /\ (within = false -> (score <= 50)%Z)).
Proof.
  intros Hm amount same within score.
  assert (exists u, validateToleranceConfig cfg = Ok u) as [[] Hv].
  { unfold ToleranceMatch, validateToleranceMatchInputs in Hm. res_inv. eauto. }
  destruct (ToleranceMatch_Ok left right cfg Hv) as (b & Hb & Hiff). rewrite Hm in Hb.
  injection Hb as <-. destruct (proj1 Hiff eq_refl) as (_ & Hd & Hba & _ & Hw).
  destruct (ScoreToleranceConfidence_eq cfg left right) as (r & Hs & Hr).
  unfold score. rewrite Hs, (tolerance_amount_component _ _ _ Hba). fold within.
  assert (CC_DateMatch (extractToleranceComponents cfg left right) = true) as ->.
  { simpl. unfold toleranceDateMatch in Hd. rewrite Hd. by destruct (0 <=? _)%Z. }
  generalize (CC_CurrencyMatch (extractToleranceComponents cfg left right)) as c. intros c.
  unfold score_of. split_and!.
  - intros Hl Hr'. apply isWithinTolerance_iff. unfold amounts_within in Hw. unfold same, amount in *.
    by rewrite Hl, Hr' in Hw.
  - intros ->. destruct c, r; simpl; lia.
  - intros ->. destruct c, r; simpl; lia.
  - intros H. rewrite Hr by done. split; [destruct within, c; simpl; lia|]. intros ->. destruct c; simpl; lia.
Qed.
(** *** Swapping the two transactions *)
Lemma nonempty_eq_sym a b :
  negb (string_empty a) && bool_decide (a = b) = negb (string_empty b) && bool_decide (b = a).
Proof. destruct (decide (a = b)) as [->|H]; [done|]. rewrite !bool_decide_eq_false_2 by done. by rewrite !andb_false_r. Qed.

Lemma reference_score_sym opts left right :
  calculateReferenceScoreWithOptions opts right left = calculateReferenceScoreWithOptions opts left right.
Proof.
  unfold calculateReferenceScoreWithOptions.
  by rewrite (orb_comm (string_empty (CT_Reference right))), (andb_comm (string_empty (CT_Reference right))),
    (equalFold_sym (CT_Reference right)), (bool_decide_eq_sym (CT_Reference right)).
Qed.

Lemma ScoreExactConfidence_sym cfg left right :
  ScoreExactConfidence cfg right left = ScoreExactConfidence cfg left right.
Proof.
  destruct cfg as [cfg|]; [|done]. unfold ScoreExactConfidence, extractExactComponents. f_equal.
  unfold evaluateExactAmountMatch, evaluateExactCurrencyMatch, evaluateExactDateMatch,
    evaluateExactReferenceScore, time_Equal. f_equal.
  - destruct (CT_AmountBase left) as [a|], (CT_AmountBase right) as [b|];
      by rewrite ?(dec_Equal_sym b a), (dec_Equal_sym (CT_Amount right)).
  - by rewrite (nonempty_eq_sym (CT_CurrencyBase right)), (nonempty_eq_sym (CT_Currency right)),
      (orb_comm (string_empty (CT_Currency right))), (bool_decide_eq_sym (CT_Currency right)).
  - by rewrite (Z.eqb_sym (DayUTC (CT_Date right))), (Z.eqb_sym (CT_Date right)).
  - by rewrite reference_score_sym.
Qed.

Lemma isWithinTolerance_mirror l r abs pct base :
  isWithinTolerance r l abs pct (mirror_base base) = isWithinTolerance l r abs pct base.
Proof.
  apply bool_iff_eq. by rewrite !isWithinTolerance_iff, tolerance_base_mirror, Qabs_Qminus.
Qed.

Lemma ScoreToleranceConfidence_mirror cfg left right :
  ScoreToleranceConfidence (mirror_tolerance <$> cfg) right left = ScoreToleranceConfidence cfg left right.
Proof.
  destruct cfg as [cfg|]; [|done]. unfold ScoreToleranceConfidence.
  cbn [fmap option_fmap option_map]. f_equal. unfold extractToleranceComponents,
    evaluateToleranceReferenceScore, mirror_tolerance.
  cbn [TC_MatchCurrency TC_DateWindowDays TC_AbsAmountTolerance TC_PercentTolerance TC_MatchBaseAmount
       TC_MatchBaseCurrency TC_PercentageBase TC_MatchReference TC_CaseInsensitive TC_ReferenceMustSet].
  rewrite (reference_score_sym _ left right), (AbsDayDiff_sym (CT_Date right)). f_equal.
  - destruct (CT_AmountBase left), (CT_AmountBase right); by rewrite ?isWithinTolerance_mirror.
  - by rewrite (nonempty_eq_sym (CT_CurrencyBase right)), (nonempty_eq_sym (CT_Currency right)),
      (andb_comm (negb (string_empty (CT_Currency right)))), (bool_decide_eq_sym (CT_Currency right)).
Qed.

Lemma ScoreDateLagConfidence_mirror cfg left right :
  ScoreDateLagConfidence (mirror_date_lag <$> cfg) right left = ScoreDateLagConfidence cfg left right.
Proof.
  destruct cfg as [cfg|]; [|done]. unfold ScoreDateLagConfidence.
  cbn [fmap option_fmap option_map]. f_equal. unfold extractDateLagComponents, mirror_date_lag.
  cbn [DC_MinDays DC_MaxDays DC_Inclusive DC_FeeTolerance DC_MatchCurrency].
  rewrite (AbsDayDiff_sym (CT_Date right)). f_equal.
  - unfold isWithinFeeTolerance. f_equal. apply bool_iff_eq. rewrite !dec_GreaterThan_spec, !dec_Rat_Abs.
    by rewrite !dec_Rat_Sub, !dec_Rat_Abs, Qabs_Qminus.
  - by rewrite (nonempty_eq_sym (CT_Currency right)),
      (andb_comm (negb (string_empty (CT_Currency right)))), (bool_decide_eq_sym (CT_Currency right)).
Qed.
End results.

(** A confidence score survives JSON: what [MarshalJSON] writes for a score
    in range, [UnmarshalJSON] reads back, and [UnmarshalJSON] accepts no value
    outside 0-100. *)
Theorem ConfidenceScore_roundtrip (c : ConfidenceScore) (data : string) :
  ConfidenceScore_IsValid c = true ->
  ConfidenceScore_UnmarshalJSON (ConfidenceScore_MarshalJSON c) = Ok c /\
  ParseConfidenceScore (CS_value c) = Ok c /\
  (forall c', ConfidenceScore_UnmarshalJSON data = Ok c' -> ConfidenceScore_IsValid c' = true).
Proof.
  destruct c as [n]. unfold ConfidenceScore_IsValid. simpl. rewrite andb_true_iff, !Z.leb_le. intros Hn.
  split_and!; [|by apply ParseConfidenceScore_range|].
  - assert (H : forallb (fun k => bool_decide (strconv_Atoi (strconv_Itoa (Z.of_nat k)) = Some (Z.of_nat k)))
      (seq 0 101) = true) by (vm_compute; reflexivity).
    rewrite forallb_forall in H. specialize (H (Z.to_nat n)).
    rewrite bool_decide_eq_true, Z2Nat.id in H by lia.
    unfold ConfidenceScore_UnmarshalJSON, ConfidenceScore_MarshalJSON. simpl.
    rewrite H by (apply in_seq; lia). by apply ParseConfidenceScore_range.
  - intros c'. unfold ConfidenceScore_UnmarshalJSON. destruct (strconv_Atoi data) as [v|]; [|done].
    destruct (Z.ltb_spec v 0), (Z.ltb_spec 100 v); simpl; try done. intros [= <-]. simpl.
    rewrite andb_true_iff, !Z.leb_le. lia.
Qed.

(** ** Concrete instances *)
Lemma ConfidenceScore_roundtrip_witness :
  ConfidenceScore_UnmarshalJSON (ConfidenceScore_MarshalJSON (mkConfidenceScore 87)) = Ok (mkConfidenceScore 87).
Proof. apply (ConfidenceScore_roundtrip (mkConfidenceScore 87) "101"). vm_compute. reflexivity. Defined.

Definition sample_rounding : @ToleranceConfig model_decimal :=
  mkToleranceConfig (D:=model_decimal) true 0 0 0 1 RoundingHalfUp false false 90 0
    TolerancePercentageBaseMax false false false.

(** Two amounts, 1.004 and 1.006, that agree only after rounding to one digit:
    matched, yet scored 50. *)
Lemma ToleranceMatch_score_witness :
  (ScoreToleranceConfidence (Some sample_rounding) (sample_tx "a" (1004 # 1000) 1)
     (sample_tx "b" (1006 # 1000) 1) <= 50)%Z.
Proof.
  refine (proj2 (proj2 (proj2 (proj2 (ToleranceMatch_score (L:=model_decimal_laws) sample_rounding
    (sample_tx "a" (1004 # 1000) 1) (sample_tx "b" (1006 # 1000) 1) _))) _) _);
    vm_compute; reflexivity.
Defined.

Lemma Matched_score_witness :
  ScoreDateLagConfidence (Some sample_date_lag) (sample_tx "a" 100 7) (sample_tx "b" 101 9) = 90%Z /\
  (60 <= ScoreExactConfidence (Some sample_exact) (sample_tx "a" 100 7) (sample_tx "b" 100 7))%Z.
Proof.
  split.
  - refine (eq_trans (proj2 (Matched_score (L:=model_decimal_laws) (N:=model_unicode) sample_exact
      sample_date_lag (sample_tx "a" 100 7) (sample_tx "b" 101 9)) _) _); vm_compute; reflexivity.
  - refine (proj1 (proj1 (Matched_score (L:=model_decimal_laws) (N:=model_unicode) sample_exact
      sample_date_lag (sample_tx "a" 100 7) (sample_tx "b" 100 7)) _)); vm_compute; reflexivity.
Defined.
