(* ===== verification/Allocate.v ===== *)
(** * Allocation of one transaction across many

    Models internal/matching/domain/services: [allocation.go],
    [allocation_failure.go] and [allocation_helpers.go].  A target amount is
    covered greedily by sorted candidates; the results bound every
    allocation, account for the total, and say when the target is covered. *)
From S2P Require Import GoLib GoLibModel FeeStructure FeeSchedule FeeRules MatchTypes Evaluators.
From Stdlib Require Import QArith Qabs Qminmax Lqa.

(** ** [allocation_failure.go] *)
Definition AllocationFailureCode := string.
Definition AllocationFailureFXRateUnavailable : AllocationFailureCode := "FX_RATE_UNAVAILABLE".
Definition AllocationFailureSplitIncomplete : AllocationFailureCode := "SPLIT_INCOMPLETE".
Definition AllocationFailureMetaMissingKey : string := "missing".
Definition AllocationFailureMissingAmountBase : string := "amount_base".
Definition AllocationFailureMissingCurrencyBase : string := "currency_base".

Definition boolToString (b : bool) : string := if b then "true" else "false".

Definition maxAllocationCandidates : nat := 100 * 1000.

Section allocation.
  Context {U : UUIDLib} {D : DecimalLib}.

Record AllocationFailure : Type := mkAllocationFailure {
  AF_Code : AllocationFailureCode;
  AF_TargetID : uuid;
  AF_Meta : gmap string string;
}.

Definition NewFXRateUnavailableFailure (targetID : uuid) (missing : string) : AllocationFailure :=
  mkAllocationFailure AllocationFailureFXRateUnavailable targetID
    {[AllocationFailureMetaMissingKey := missing]}.

Definition NewSplitIncompleteFailure (targetID : uuid)
    (expectedTotal allocatedTotal gap currency : string) (useBaseAmount allowPartial : bool)
    : AllocationFailure :=
  mkAllocationFailure AllocationFailureSplitIncomplete targetID
    (list_to_map [("expected_total", expectedTotal); ("allocated_total", allocatedTotal);
                  ("gap", gap); ("currency", currency);
                  ("use_base_amount", boolToString useBaseAmount);
                  ("allow_partial", boolToString allowPartial)]).

(** ** [allocation.go] *)
Record AllocationResult : Type := mkAllocationResult {
  AR_Allocations : list Allocation;
  AR_Total : decimal;
  AR_Complete : bool;
  AR_Failure : option AllocationFailure;
}.

Definition empty_AllocationResult : AllocationResult := mkAllocationResult [] dec_Zero false None.

(** A pair of results: an amount, or the failure that explains its absence. *)
Definition allocationAmountDetailed (tx : CandidateTransaction) (cfg : AllocationConfig)
    : decimal * option AllocationFailure :=
  if AC_UseBaseAmount cfg then
    match CT_AmountBase tx with
    | None => (dec_Zero, Some (NewFXRateUnavailableFailure (CT_ID tx) AllocationFailureMissingAmountBase))
    | Some base =>
        if string_empty (CT_CurrencyBase tx)
        then (dec_Zero, Some (NewFXRateUnavailableFailure (CT_ID tx) AllocationFailureMissingCurrencyBase))
        else (base, None)
    end
  else (CT_Amount tx, None).

Definition allocationAmount (tx : CandidateTransaction) (cfg : AllocationConfig) : res EngineError decimal :=
  match allocationAmountDetailed tx cfg with
  | (amount, None) => Ok amount
  | (_, Some failure) =>
      if bool_decide (AF_Code failure = AllocationFailureFXRateUnavailable) &&
         bool_decide (default "" (AF_Meta failure !! AllocationFailureMetaMissingKey) =
                      AllocationFailureMissingAmountBase)
      then Err ErrBaseAmountRequired else Err ErrBaseCurrencyRequired
  end.

Definition withinAllocationTolerance (remaining target : decimal) (cfg : AllocationConfig) : bool :=
  let absRemaining := dec_Abs remaining in
  if bool_decide (AC_ToleranceMode cfg = AllocationTolerancePercent) then
    let threshold := dec_Mul (dec_Abs target) (AC_ToleranceValue cfg) in
    if dec_IsNegative threshold then false else dec_LessThanOrEqual absRemaining threshold
  else if bool_decide (AC_ToleranceMode cfg = AllocationToleranceAbsolute) then
    if dec_IsNegative (AC_ToleranceValue cfg) then false
    else dec_LessThanOrEqual absRemaining (AC_ToleranceValue cfg)
  else false.

(** [None]: the candidate is skipped. *)
Definition tryAllocateCandidate (candidate : CandidateTransaction) (remaining : decimal)
    (cfg : AllocationConfig) (allocationCurrency : string)
    : res EngineError (option (Allocation * decimal)) :=
  match allocationAmount candidate cfg with
  | Err err =>
      if bool_decide (err = ErrBaseAmountRequired) || bool_decide (err = ErrBaseCurrencyRequired)
      then Ok None else Err err
  | Ok amount =>
      if dec_IsNegative amount then Err ErrNegativeAllocationCandidate
      else if (if AC_UseBaseAmount cfg
               then string_empty (CT_CurrencyBase candidate) ||
                    negb (bool_decide (CT_CurrencyBase candidate = allocationCurrency))
               else negb (bool_decide (CT_Currency candidate = allocationCurrency))) then Ok None
      else if dec_IsZero amount then Ok None
      else if dec_GreaterThan amount remaining && negb (AC_AllowPartial cfg) then Ok None
      else
        let amount := if dec_GreaterThan amount remaining then remaining else amount in
        let newRemaining := dec_Sub remaining amount in
        if dec_IsNegative newRemaining then Err ErrNegativeAllocationAmount
        else Ok (Some (mkAllocation (CT_ID candidate) amount allocationCurrency (AC_UseBaseAmount cfg),
                       newRemaining))
  end.

Fixpoint allocateCandidates_loop (cfg : AllocationConfig) (allocationCurrency : string)
    (sourceAmount : decimal) (allocations : list Allocation) (remaining sum : decimal)
    (candidates : list CandidateTransaction) : res EngineError (list Allocation * decimal * bool) :=
  match candidates with
  | [] => Ok (allocations, sum,
              withinAllocationTolerance remaining sourceAmount cfg && negb (bool_decide (allocations = [])))
  | candidate :: candidates' =>
      r ← tryAllocateCandidate candidate remaining cfg allocationCurrency;
      match r with
      | None => allocateCandidates_loop cfg allocationCurrency sourceAmount allocations remaining sum candidates'
      | Some (allocation, newRemaining) =>
          let allocations := allocations ++ [allocation] in
          let sum := dec_Add sum (AL_AllocatedAmount allocation) in
          if withinAllocationTolerance newRemaining sourceAmount cfg then Ok (allocations, sum, true)
          else allocateCandidates_loop cfg allocationCurrency sourceAmount allocations newRemaining sum candidates'
      end
  end.

Definition allocateCandidates (candidates : list CandidateTransaction) (sourceAmount : decimal)
    (cfg : AllocationConfig) (allocationCurrency : string)
    : res EngineError (list Allocation * decimal * bool) :=
  allocateCandidates_loop cfg allocationCurrency sourceAmount [] sourceAmount dec_Zero candidates.

Definition resolveAllocationCurrency (target : CandidateTransaction) (cfg : AllocationConfig)
    : string * option AllocationFailure :=
  if negb (AC_UseBaseAmount cfg) then (CT_Currency target, None)
  else if string_empty (CT_CurrencyBase target)
  then ("", Some (NewFXRateUnavailableFailure (CT_ID target) AllocationFailureMissingCurrencyBase))
  else (CT_CurrencyBase target, None).

Definition buildAllocationResult (targetID : uuid) (sourceAmount : decimal)
    (allocations : list Allocation) (total : decimal) (complete : bool) (currency : string)
    (cfg : AllocationConfig) : AllocationResult :=
  mkAllocationResult allocations total complete
    (if negb complete && negb (AC_AllowPartial cfg) && negb (bool_decide (allocations = [])) then
       let gap := dec_Sub sourceAmount total in
       Some (NewSplitIncompleteFailure targetID (dec_String sourceAmount) (dec_String total)
               (dec_String gap) currency (AC_UseBaseAmount cfg) (AC_AllowPartial cfg))
     else None).

(** ** [allocation_helpers.go]: configuration *)
Definition validateAllocationConfig (cfg : option AllocationConfig) : res EngineError AllocationConfig :=
  match cfg with
  | None => Err ErrAllocationConfigRequired
  | Some cfg =>
      if negb (bool_decide (AC_ToleranceMode cfg = AllocationToleranceAbsolute)) &&
         negb (bool_decide (AC_ToleranceMode cfg = AllocationTolerancePercent))
      then Err ErrInvalidAllocationToleranceMode
      else if negb (bool_decide (AC_Direction cfg = AllocationDirectionLeftToRight)) &&
              negb (bool_decide (AC_Direction cfg = AllocationDirectionRightToLeft))
      then Err ErrInvalidAllocationDirection
      else if dec_IsNegative (AC_ToleranceValue cfg) then Err ErrNegativeAllocationTolerance
      else Ok cfg
  end.

Definition AllocateOneToManyDetailed (target : CandidateTransaction)
    (candidates : list CandidateTransaction) (cfg : option AllocationConfig)
    : res EngineError AllocationResult :=
  cfg ← validateAllocationConfig cfg;
  if bool_decide (candidates = []) then Ok empty_AllocationResult
  else if (maxAllocationCandidates <? length candidates)%nat then Err ErrCandidateSetTooLarge
  else
    let '(sourceAmount, failure) := allocationAmountDetailed target cfg in
    match failure with
    | Some failure => Ok (mkAllocationResult [] dec_Zero false (Some failure))
    | None =>
        if dec_IsNegative sourceAmount then Err ErrNegativeAllocationTarget
        else if dec_IsZero sourceAmount then Ok empty_AllocationResult
        else
          let '(allocationCurrency, currencyFailure) := resolveAllocationCurrency target cfg in
          match currencyFailure with
          | Some failure => Ok (mkAllocationResult [] dec_Zero false (Some failure))
          | None =>
              r ← allocateCandidates (SortTransactions candidates) sourceAmount cfg allocationCurrency;
              let '(allocations, total, complete) := r in
              Ok (buildAllocationResult (CT_ID target) sourceAmount allocations total complete
                    allocationCurrency cfg)
          end
    end.

Definition AllocateOneToMany (target : CandidateTransaction) (candidates : list CandidateTransaction)
    (cfg : option AllocationConfig) : res EngineError (list Allocation * decimal * bool) :=
  result ← AllocateOneToManyDetailed target candidates cfg;
  Ok (AR_Allocations result, AR_Total result, AR_Complete result).

(** ** [allocation_helpers.go]: proposals *)
Record AllocationProposalResult : Type := mkAllocationProposalResult {
  APR_Proposal : option MatchProposal;
  APR_Failure : option AllocationFailure;
}.

Definition allocateByRuleDetailed (cfg : AllocationConfig) (target : CandidateTransaction)
    (candidates : list CandidateTransaction) : res EngineError AllocationResult :=
  if bool_decide (AC_Direction cfg = AllocationDirectionLeftToRight) ||
     bool_decide (AC_Direction cfg = AllocationDirectionRightToLeft)
  then AllocateOneToManyDetailed target candidates (Some cfg)
  else Err ErrInvalidAllocationDirection.

Definition buildAllocationMatchProposal (cfg : AllocationConfig) (rule : RuleDefinition)
    (target : CandidateTransaction) (allocations : list Allocation) (allocatedTotal : decimal)
    (score : Z) : MatchProposal :=
  let targetCurrency := if AC_UseBaseAmount cfg then CT_CurrencyBase target else CT_Currency target in
  let targetAllocations :=
    [mkAllocation (CT_ID target) allocatedTotal targetCurrency (AC_UseBaseAmount cfg)] in
  if bool_decide (AC_Direction cfg = AllocationDirectionRightToLeft)
  then mkMatchProposal (RD_ID rule) (AL_TransactionID <$> allocations) [CT_ID target]
         allocations targetAllocations score "N:1"
  else mkMatchProposal (RD_ID rule) [CT_ID target] (AL_TransactionID <$> allocations)
         targetAllocations allocations score "1:N".

Definition buildAllocationProposalDetailed (rule : RuleDefinition) (target : CandidateTransaction)
    (candidates : list CandidateTransaction) (score : Z) : res EngineError AllocationProposalResult :=
  match RD_Allocation rule with
  | None => Ok (mkAllocationProposalResult None None)
  | Some alloc =>
      if bool_decide (candidates = []) then Ok (mkAllocationProposalResult None None)
      else
        _ ← validateAllocationConfig (Some alloc);
        allocResult ← allocateByRuleDetailed alloc target candidates;
        match AR_Failure allocResult with
        | Some failure => Ok (mkAllocationProposalResult None (Some failure))
        | None =>
            if negb (AR_Complete allocResult) then Ok (mkAllocationProposalResult None None)
            else Ok (mkAllocationProposalResult
                       (Some (buildAllocationMatchProposal alloc rule target (AR_Allocations allocResult)
                                (AR_Total allocResult) score)) None)
        end
  end.

Definition BuildAllocationProposal (rule : RuleDefinition) (target : CandidateTransaction)
    (candidates : list CandidateTransaction) (score : Z) : res EngineError (option MatchProposal) :=
  result ← buildAllocationProposalDetailed rule target candidates score;
  Ok (APR_Proposal result).
End allocation.

(** ** Specification *)
Definition q_sum (l : list Q) : Q := foldr Qplus 0 l.

Section spec.
  Context {U : UUIDLib} {D : DecimalLib}.

(** The amount a transaction takes part with, if it has one. *)
Definition alloc_amount (cfg : AllocationConfig) (tx : CandidateTransaction) : option decimal :=
  if AC_UseBaseAmount cfg
  then if string_empty (CT_CurrencyBase tx) then None else CT_AmountBase tx
  else Some (CT_Amount tx).

Definition alloc_currency (cfg : AllocationConfig) (tx : CandidateTransaction) : string :=
  if AC_UseBaseAmount cfg then CT_CurrencyBase tx else CT_Currency tx.

(** What a candidate can contribute to a target in the given currency. *)
Definition contribution (cfg : AllocationConfig) (currency : string) (tx : CandidateTransaction) : Q :=
  match alloc_amount cfg tx with
  | Some amount => if bool_decide (alloc_currency cfg tx = currency) then dec_Rat amount else 0
  | None => 0
  end.

Definition alloc_threshold (cfg : AllocationConfig) (source : Q) : Q :=
  if bool_decide (AC_ToleranceMode cfg = AllocationTolerancePercent)
  then Qabs source * dec_Rat (AC_ToleranceValue cfg)
  else dec_Rat (AC_ToleranceValue cfg).

Definition alloc_sum (l : list Allocation) : Q := q_sum ((fun a => dec_Rat (AL_AllocatedAmount a)) <$> l).

(** An allocation draws a positive part of one candidate in the allocation
    currency, the whole of it unless partial allocation is allowed. *)
Definition allocation_ok (cfg : AllocationConfig) (currency : string)
    (candidates : list CandidateTransaction) (a : Allocation) : Prop :=
  exists tx amount, tx ∈ candidates /\ AL_TransactionID a = CT_ID tx /\
    alloc_amount cfg tx = Some amount /\ alloc_currency cfg tx = currency /\
    AL_Currency a = currency /\ AL_UseBaseAmount a = AC_UseBaseAmount cfg /\
    0 < dec_Rat (AL_AllocatedAmount a) <= dec_Rat amount /\
    (AC_AllowPartial cfg = false -> dec_Rat (AL_AllocatedAmount a) == dec_Rat amount).
End spec.

(** ** Results *)
Section results.
  Context {U : UUIDLib} {UL : UUIDLaws U} {D : DecimalLib} {L : DecimalLaws D}.

Lemma q_sum_cons x l : q_sum (x :: l) = x + q_sum l.
Proof. done. Qed.

Lemma alloc_sum_cons a l : alloc_sum (a :: l) = dec_Rat (AL_AllocatedAmount a) + alloc_sum l.
Proof. done. Qed.

Lemma q_sum_app l k : q_sum (l ++ k) == q_sum l + q_sum k.
Proof. unfold q_sum. induction l as [|x l IH]; simpl; [lra|]. rewrite IH. lra. Qed.

Lemma validateAllocationConfig_Ok cfg cfg' :
  validateAllocationConfig (Some cfg) = Ok cfg' ->
  cfg' = cfg /\ 0 <= dec_Rat (AC_ToleranceValue cfg) /\
  (AC_ToleranceMode cfg = AllocationToleranceAbsolute \/ AC_ToleranceMode cfg = AllocationTolerancePercent) /\
  (AC_Direction cfg = AllocationDirectionLeftToRight \/ AC_Direction cfg = AllocationDirectionRightToLeft).
Proof.
  unfold validateAllocationConfig. intros H.
  repeat case_bool_decide; simpl in H; try done;
    destruct (dec_IsNegative _) eqn:E; simplify_eq; dec_bool; tauto.
Qed.

Lemma alloc_threshold_nonneg cfg source :
  0 <= dec_Rat (AC_ToleranceValue cfg) -> 0 <= alloc_threshold cfg source.
Proof.
  intros H. unfold alloc_threshold. case_bool_decide; [|done].
  pose proof (Qabs_nonneg source). nra.
Qed.

Lemma withinAllocationTolerance_iff remaining target cfg cfg' :
  validateAllocationConfig (Some cfg) = Ok cfg' ->
  withinAllocationTolerance remaining target cfg = true <->
  Qabs (dec_Rat remaining) <= alloc_threshold cfg (dec_Rat target).
Proof.
  intros (-> & Ht & Hm & _)%validateAllocationConfig_Ok.
  pose proof (alloc_threshold_nonneg cfg (dec_Rat target) Ht) as Hn.
  unfold withinAllocationTolerance, alloc_threshold in *. case_bool_decide.
  - destruct (dec_IsNegative _) eqn:E; dec_bool.
    + rewrite dec_Rat_Mul, dec_Rat_Abs in E. lra.
    + by rewrite dec_LessThanOrEqual_spec, dec_Rat_Mul, !dec_Rat_Abs.
  - rewrite bool_decide_eq_true_2 by tauto. destruct (dec_IsNegative _) eqn:E; dec_bool; [lra|].
    by rewrite dec_LessThanOrEqual_spec, dec_Rat_Abs.
Qed.

Lemma allocationAmount_eq tx cfg :
  allocationAmount tx cfg =
  match alloc_amount cfg tx with
  | Some amount => Ok amount
  | None => Err (if bool_decide (CT_AmountBase tx = None) then ErrBaseAmountRequired else ErrBaseCurrencyRequired)
  end.
Proof.
  unfold allocationAmount, allocationAmountDetailed, alloc_amount.
  destruct (AC_UseBaseAmount cfg); [|done].
  destruct (CT_AmountBase tx); destruct (string_empty _); try done; simpl;
    by rewrite lookup_singleton_eq.
Qed.

(** The four ways a candidate is treated. *)
Lemma tryAllocateCandidate_cases candidate remaining cfg currency :
  0 < dec_Rat remaining ->
  match tryAllocateCandidate candidate remaining cfg currency with
  | Err e => e = ErrNegativeAllocationCandidate /\
             exists amount, alloc_amount cfg candidate = Some amount /\ dec_Rat amount < 0
  | Ok None => contribution cfg currency candidate == 0 \/
               (AC_AllowPartial cfg = false /\ dec_Rat remaining < contribution cfg currency candidate)
  | Ok (Some (a, remaining')) =>
      allocation_ok cfg currency [candidate] a /\
      dec_Rat remaining' == dec_Rat remaining - dec_Rat (AL_AllocatedAmount a) /\
      dec_Rat (AL_AllocatedAmount a) == Qmin (contribution cfg currency candidate) (dec_Rat remaining)
  end.
Proof.
  intros Hrem. unfold tryAllocateCandidate, contribution. rewrite allocationAmount_eq.
  destruct (alloc_amount cfg candidate) as [amount|] eqn:Ea.
  2: { by destruct (bool_decide (CT_AmountBase candidate = None)); simpl; left. }
  destruct (dec_IsNegative amount) eqn:En; dec_bool; [eauto|].
  assert (Hcur : (if AC_UseBaseAmount cfg
      then string_empty (CT_CurrencyBase candidate) || negb (bool_decide (CT_CurrencyBase candidate = currency))
      else negb (bool_decide (CT_Currency candidate = currency))) =
      negb (bool_decide (alloc_currency cfg candidate = currency))).
  { unfold alloc_currency, alloc_amount in *. destruct (AC_UseBaseAmount cfg); [|done].
    by destruct (string_empty _). }
  rewrite Hcur. clear Hcur. destruct (decide (alloc_currency cfg candidate = currency)) as [Hc|Hc];
    [rewrite !(bool_decide_eq_true_2 _ Hc)|rewrite !(bool_decide_eq_false_2 _ Hc)]; simpl; [|by left].
  destruct (dec_IsZero amount) eqn:Ez; dec_bool; [by left|].
  assert (Hok : forall x, 0 < dec_Rat x <= dec_Rat amount ->
    (AC_AllowPartial cfg = false -> dec_Rat x == dec_Rat amount) ->
    allocation_ok cfg currency [candidate]
      (mkAllocation (CT_ID candidate) x currency (AC_UseBaseAmount cfg))).
  { intros x Hx Hp. exists candidate, amount. simpl. split_and!; try done; [set_solver|apply Hx..]. }
  destruct (dec_GreaterThan amount remaining) eqn:Eg; dec_bool; simpl.
  - destruct (AC_AllowPartial cfg) eqn:Ep; simpl; [|by right].
    destruct (dec_IsNegative _) eqn:En'; dec_bool; dec_facts; [lra|]. simpl.
    split_and!; [|done|q_minmax; lra]. apply Hok; [lra|done].
  - destruct (dec_IsNegative _) eqn:En'; dec_bool; dec_facts; [lra|]. simpl.
    split_and!; [|done|q_minmax; lra]. apply Hok; [lra|done].
Qed.
Lemma allocation_ok_mono cfg currency c1 c2 a :
  c1 ⊆ c2 -> allocation_ok cfg currency c1 a -> allocation_ok cfg currency c2 a.
Proof. intros Hs (tx & amount & ? & ?). exists tx, amount. set_solver. Qed.

(** What the loop returns from a state in which [sum] has been allocated and
    [remaining] is left. *)
Record loop_spec (cfg : AllocationConfig) (currency : string) (source sum : Q)
    (candidates : list CandidateTransaction) (allocs new : list Allocation) (sum' : Q) (complete : bool)
    : Prop := {
  ls_ok : Forall (allocation_ok cfg currency candidates) new;
  ls_ids : (AL_TransactionID <$> new) `sublist_of` (CT_ID <$> candidates);
  ls_sum : sum' == sum + alloc_sum new;
  ls_bound : sum' <= source;
  ls_complete : complete = true -> allocs ++ new <> [] /\ source - sum' <= alloc_threshold cfg source;
  ls_incomplete : complete = false -> allocs ++ new <> [] -> alloc_threshold cfg source < source - sum';
  ls_exhausted : complete = false -> AC_AllowPartial cfg = true ->
    sum' == sum + q_sum (contribution cfg currency <$> candidates) /\ sum' < source;
}.

Lemma loop_spec_skip cfg currency source sum c candidates allocs new sum' complete :
  (contribution cfg currency c == 0 \/ AC_AllowPartial cfg = false) ->
  loop_spec cfg currency source sum candidates allocs new sum' complete ->
  loop_spec cfg currency source sum (c :: candidates) allocs new sum' complete.
Proof.
  intros Hc [H1 H2 H3 H4 H5 H6 H7]. split; try done.
  - eapply Forall_impl; [exact H1|]. intros a. apply allocation_ok_mono. set_solver.
  - by apply sublist_cons.
  - intros Hf Hp. destruct Hc as [Hc|Hc]; [|congruence]. destruct (H7 Hf Hp) as [H8 H9].
    split; [|done]. rewrite fmap_cons, q_sum_cons. lra.
Qed.

Lemma loop_spec_take cfg currency source sum sum1 c a candidates allocs new sum' complete :
  allocation_ok cfg currency [c] a -> AL_TransactionID a = CT_ID c ->
  sum1 == sum + dec_Rat (AL_AllocatedAmount a) ->
  (complete = false -> AC_AllowPartial cfg = true ->
     dec_Rat (AL_AllocatedAmount a) == contribution cfg currency c) ->
  loop_spec cfg currency source sum1 candidates (allocs ++ [a]) new sum' complete ->
  loop_spec cfg currency source sum (c :: candidates) allocs (a :: new) sum' complete.
Proof.
  intros Ha Hid Hs Hc [H1 H2 H3 H4 H5 H6 H7]. rewrite <- app_assoc in H5, H6. split; try done.
  - constructor; [eapply allocation_ok_mono, Ha; set_solver|].
    eapply Forall_impl; [exact H1|]. intros b. apply allocation_ok_mono. set_solver.
  - simpl. rewrite Hid. by apply sublist_skip.
  - rewrite H3, Hs, alloc_sum_cons. lra.
  - intros Hf Hp. destruct (H7 Hf Hp) as [H8 H9]. specialize (Hc Hf Hp). split; [|done].
    rewrite fmap_cons, q_sum_cons. lra.
Qed.

Lemma allocateCandidates_loop_spec cfg cfg' currency source candidates allocs remaining sum :
  validateAllocationConfig (Some cfg) = Ok cfg' ->
  0 < dec_Rat remaining -> dec_Rat remaining == dec_Rat source - dec_Rat sum ->
  (allocs <> [] -> withinAllocationTolerance remaining source cfg = false) ->
  match allocateCandidates_loop cfg currency source allocs remaining sum candidates with
  | Err e => e = ErrNegativeAllocationCandidate /\
      exists tx amount, tx ∈ candidates /\ alloc_amount cfg tx = Some amount /\ dec_Rat amount < 0
  | Ok (allocs', sum', complete) => exists new, allocs' = allocs ++ new /\
      loop_spec cfg currency (dec_Rat source) (dec_Rat sum) candidates allocs new (dec_Rat sum') complete
  end.
Proof.
  intros Hv. pose proof (validateAllocationConfig_Ok _ _ Hv) as (_ & Ht & _).
  pose proof (alloc_threshold_nonneg cfg (dec_Rat source) Ht) as Hn.
  revert allocs remaining sum. induction candidates as [|c candidates IH];
    intros allocs remaining sum Hrem Hinv Hw; cbn [allocateCandidates_loop].
  - exists []. rewrite app_nil_r. split; [done|].
    pose proof (withinAllocationTolerance_iff remaining source cfg cfg' Hv) as Hiff.
    rewrite (Qabs_pos (dec_Rat remaining)) in Hiff by lra.
    destruct (withinAllocationTolerance remaining source cfg) eqn:E;
      case_bool_decide as Hnil; simpl; split; try done; unfold alloc_sum; simpl;
      rewrite ?app_nil_r; try lra; try naive_solver.
    all: try (intros _ ?; split; lra).
  - pose proof (tryAllocateCandidate_cases c remaining cfg currency Hrem) as Htry.
    destruct (tryAllocateCandidate c remaining cfg currency) as [[[a remaining']|]|e]; cbn [mbind res_bind].
    + destruct Htry as (Hok & Hrem' & Hmin). pose proof Hok as (tx & amount & Htx & Hid & _ & _ & _ & _ & Hpos & _).
      apply list_elem_of_singleton in Htx as ->.
      assert (Hsum : dec_Rat (dec_Add sum (AL_AllocatedAmount a)) == dec_Rat sum + dec_Rat (AL_AllocatedAmount a))
        by apply dec_Rat_Add.
      pose proof (withinAllocationTolerance_iff remaining' source cfg cfg' Hv) as Hiff.
      rewrite (Qabs_pos (dec_Rat remaining')) in Hiff by (q_minmax; lra).
      destruct (withinAllocationTolerance remaining' source cfg) eqn:E.
      * exists [a]. split; [done|]. apply (loop_spec_take _ _ _ _ (dec_Rat (dec_Add sum (AL_AllocatedAmount a))));
          try done. split; try done; unfold alloc_sum; simpl; try lra.
        -- apply sublist_nil_l.
        -- q_minmax; lra.
        -- intros _. split; [by destruct allocs|]. apply proj1 in Hiff. specialize (Hiff eq_refl). lra.
      * assert (Hpos' : 0 < dec_Rat remaining').
        { apply Qnot_le_lt. intros Hle. assert (false = true); [|done]. apply Hiff. lra. }
        specialize (IH (allocs ++ [a]) remaining' (dec_Add sum (AL_AllocatedAmount a)) Hpos'
          ltac:(lra) ltac:(done)).
        destruct (allocateCandidates_loop _ _ _ _ _ _ _) as [[[allocs' sum'] complete]|e].
        -- destruct IH as (new & -> & Hspec). exists (a :: new). split; [by rewrite <- app_assoc|].
           eapply loop_spec_take; try done. intros _ _. q_minmax; lra.
        -- destruct IH as (? & tx & am & ? & ?). split; [done|]. exists tx, am. set_solver.
    + specialize (IH allocs remaining sum Hrem Hinv Hw).
      destruct (allocateCandidates_loop _ _ _ _ _ _ _) as [[[allocs' sum'] complete]|e].
      * destruct IH as (new & -> & Hspec). exists new. split; [done|].
        apply loop_spec_skip; [naive_solver|done].
      * destruct IH as (? & tx & am & ? & ?). split; [done|]. exists tx, am. set_solver.
    + destruct Htry as (-> & am & ? & ?). split; [done|]. exists c, am. set_solver.
Qed.
Lemma allocationAmountDetailed_eq tx cfg :
  match alloc_amount cfg tx with
  | Some amount => allocationAmountDetailed tx cfg = (amount, None) /\
                   resolveAllocationCurrency tx cfg = (alloc_currency cfg tx, None)
  | None => AC_UseBaseAmount cfg = true /\
            exists missing, allocationAmountDetailed tx cfg =
              (dec_Zero, Some (NewFXRateUnavailableFailure (CT_ID tx) missing))
  end.
Proof.
  unfold alloc_amount, allocationAmountDetailed, resolveAllocationCurrency, alloc_currency.
  destruct (AC_UseBaseAmount cfg); simpl; [|done].
  destruct (string_empty _) eqn:E, (CT_AmountBase tx); simpl; eauto.
Qed.

(** The ways an allocation ends, read off its inputs. *)
Inductive allocation_outcome (target : CandidateTransaction) (candidates : list CandidateTransaction)
    (cfg : AllocationConfig) : res EngineError AllocationResult -> Prop :=
| outcome_empty :
    (candidates = [] \/ exists amount, alloc_amount cfg target = Some amount /\ dec_Rat amount == 0) ->
    allocation_outcome target candidates cfg (Ok empty_AllocationResult)
| outcome_no_base missing :
    alloc_amount cfg target = None ->
    allocation_outcome target candidates cfg
      (Ok (mkAllocationResult [] dec_Zero false (Some (NewFXRateUnavailableFailure (CT_ID target) missing))))
| outcome_run amount allocs total complete :
    alloc_amount cfg target = Some amount -> 0 < dec_Rat amount ->
    loop_spec cfg (alloc_currency cfg target) (dec_Rat amount) 0 (SortTransactions candidates) []
      allocs (dec_Rat total) complete ->
    allocation_outcome target candidates cfg
      (Ok (buildAllocationResult (CT_ID target) amount allocs total complete (alloc_currency cfg target) cfg))
| outcome_too_many :
    (maxAllocationCandidates < length candidates)%nat ->
    allocation_outcome target candidates cfg (Err ErrCandidateSetTooLarge)
| outcome_negative_target amount :
    alloc_amount cfg target = Some amount -> dec_Rat amount < 0 ->
    allocation_outcome target candidates cfg (Err ErrNegativeAllocationTarget)
| outcome_negative_candidate tx amount :
    tx ∈ candidates -> alloc_amount cfg tx = Some amount -> dec_Rat amount < 0 ->
    allocation_outcome target candidates cfg (Err ErrNegativeAllocationCandidate).

Lemma loop_spec_zero cfg currency source z candidates allocs new total complete :
  z == 0 -> loop_spec cfg currency source z candidates allocs new total complete ->
  loop_spec cfg currency source 0 candidates allocs new total complete.
Proof.
  intros Hz [H1 H2 H3 H4 H5 H6 H7]. split; try done; [lra|].
  intros Hf Hp. destruct (H7 Hf Hp). split; lra.
Qed.

Lemma AllocateOneToManyDetailed_outcome target candidates cfg cfg' :
  validateAllocationConfig (Some cfg) = Ok cfg' ->
  allocation_outcome target candidates cfg (AllocateOneToManyDetailed target candidates (Some cfg)).
Proof.
  intros Hv. pose proof (validateAllocationConfig_Ok _ _ Hv) as (-> & _).
  unfold AllocateOneToManyDetailed. rewrite Hv. cbn [mbind res_bind].
  case_bool_decide as Hnil; [by apply outcome_empty; left|].
  destruct (Nat.ltb_spec maxAllocationCandidates (length candidates)); [by apply outcome_too_many|].
  pose proof (allocationAmountDetailed_eq target cfg) as Ha.
  destruct (alloc_amount cfg target) as [amount|] eqn:Ea.
  2: { destruct Ha as (_ & missing & ->). by apply outcome_no_base. }
  destruct Ha as [-> ->].
  destruct (dec_IsNegative amount) eqn:En; dec_bool; [by eapply outcome_negative_target|].
  destruct (dec_IsZero amount) eqn:Ez; dec_bool; [apply outcome_empty; right; eauto|].
  pose proof (allocateCandidates_loop_spec cfg cfg (alloc_currency cfg target) amount
    (SortTransactions candidates) [] amount dec_Zero Hv) as Hl.
  specialize (Hl ltac:(lra) ltac:(dec_lra) ltac:(done)). unfold allocateCandidates.
  destruct (allocateCandidates_loop _ _ _ _ _ _ _) as [[[allocs total] complete]|e]; cbn [mbind res_bind].
  - destruct Hl as (new & -> & Hspec). eapply outcome_run; [done|lra|].
    eapply loop_spec_zero, Hspec. apply dec_Rat_Zero.
  - destruct Hl as (-> & tx & am & Htx & ? & ?). eapply outcome_negative_candidate; [|done..].
    by apply stable_sort_elem_of in Htx.
Qed.

(** C20: an allocation accounts for the target: each allocation draws a
    positive amount, no more than the candidate has, in the target's currency
    and from a different candidate; the total is their sum and never exceeds
    the target amount, and a complete allocation leaves at most the tolerance. *)
Theorem AllocateOneToMany_sound target candidates cfg result :
  NoDup (CT_ID <$> candidates) ->
  AllocateOneToManyDetailed target candidates (Some cfg) = Ok result ->
  Forall (allocation_ok cfg (alloc_currency cfg target) candidates) (AR_Allocations result) /\
  NoDup (AL_TransactionID <$> AR_Allocations result) /\
  dec_Rat (AR_Total result) == alloc_sum (AR_Allocations result) /\
  (forall amount, alloc_amount cfg target = Some amount -> 0 <= dec_Rat amount ->
     dec_Rat (AR_Total result) <= dec_Rat amount) /\
  (AR_Complete result = true -> exists amount, alloc_amount cfg target = Some amount /\
     AR_Allocations result <> [] /\
     dec_Rat amount - dec_Rat (AR_Total result) <= alloc_threshold cfg (dec_Rat amount)).
Proof.
  intros Hnd Hr. assert (exists cfg', validateAllocationConfig (Some cfg) = Ok cfg') as [cfg' Hv].
  { unfold AllocateOneToManyDetailed in Hr. res_inv. eauto. }
  pose proof (AllocateOneToManyDetailed_outcome target candidates cfg cfg' Hv) as Ho.
  rewrite Hr in Ho. pose proof (@dec_Rat_Zero _ _) as Hz. inversion Ho; subst; simpl.
  1,2: split_and!; try done; [apply NoDup_nil_2|intros; lra].
  match goal with H : loop_spec _ _ _ _ _ _ _ _ _ |- _ => destruct H as [H1' H2 H3 H4 H5 H6 H7] end.
  split_and!.
  - eapply Forall_impl; [exact H1'|]. intros a. apply allocation_ok_mono.
    intros tx Htx. by apply stable_sort_elem_of in Htx.
  - eapply sublist_NoDup; [|exact H2]. unfold SortTransactions. by rewrite stable_sort_perm.
  - lra.
  - intros amount' ? _. by simplify_eq.
  - intros Hc. exists amount. destruct (H5 Hc). done.
Qed.

Lemma q_sum_perm l k : l ≡ₚ k -> q_sum l == q_sum k.
Proof. unfold q_sum. induction 1; simpl in *; lra. Qed.

(** With a valid configuration, at most 100000 candidates and no negative
    amount, allocation always returns a result; and when partial allocation
    is allowed and the candidates in the target's currency add up to the
    target, it is complete. *)
Theorem AllocateOneToMany_total target candidates cfg cfg' :
  validateAllocationConfig (Some cfg) = Ok cfg' ->
  (length candidates <= maxAllocationCandidates)%nat ->
  (forall tx amount, tx ∈ target :: candidates -> alloc_amount cfg tx = Some amount -> 0 <= dec_Rat amount) ->
  exists result, AllocateOneToManyDetailed target candidates (Some cfg) = Ok result /\
    (AC_AllowPartial cfg = true -> forall amount, alloc_amount cfg target = Some amount ->
     0 < dec_Rat amount -> dec_Rat amount <= q_sum (contribution cfg (alloc_currency cfg target) <$> candidates) ->
     AR_Complete result = true).
Proof.
  intros Hv Hlen Hpos. pose proof (AllocateOneToManyDetailed_outcome target candidates cfg cfg' Hv) as Ho.
  destruct Ho as [Hc|missing Ha|amount allocs total complete Ha Hp Hs| |amount Ha Hp|tx amount Hin Ha Hp];
    [eexists; split; [done|]..|lia| |].
  - intros _ amount Ha Hp. destruct Hc as [->|(? & ? & ?)]; [|simplify_eq; lra].
    unfold q_sum. simpl. intros. lra.
  - intros. congruence.
  - intros Hpart amount' ? _ Hsum. simplify_eq. destruct complete; [done|].
    destruct (ls_exhausted _ _ _ _ _ _ _ _ _ Hs eq_refl Hpart) as [H1 H2].
    assert (q_sum (contribution cfg (alloc_currency cfg target) <$> SortTransactions candidates) ==
            q_sum (contribution cfg (alloc_currency cfg target) <$> candidates)) as Hq.
    { apply q_sum_perm. unfold SortTransactions. by rewrite stable_sort_perm. }
    lra.
  - specialize (Hpos target amount ltac:(set_solver) Ha). lra.
  - specialize (Hpos tx amount ltac:(set_solver) Ha). lra.
Qed.

(** A reported failure explains the missing result: either the target has
    no base amount or base currency, or partial allocation is not allowed and
    the allocations made leave a gap above the tolerance; a complete
    allocation never carries a failure. *)
Theorem AllocateOneToMany_failure target candidates cfg result failure :
  AllocateOneToManyDetailed target candidates (Some cfg) = Ok result ->
  AR_Failure result = Some failure ->
  AR_Complete result = false /\ AF_TargetID failure = CT_ID target /\
  ((AF_Code failure = AllocationFailureFXRateUnavailable /\ alloc_amount cfg target = None /\
    AR_Allocations result = []) \/
   (AF_Code failure = AllocationFailureSplitIncomplete /\ AC_AllowPartial cfg = false /\
    AR_Allocations result <> [] /\
    exists amount, alloc_amount cfg target = Some amount /\
      AF_Meta failure !! "gap" = Some (dec_String (dec_Sub amount (AR_Total result))) /\
      alloc_threshold cfg (dec_Rat amount) < dec_Rat amount - dec_Rat (AR_Total result))).
Proof.
  intros Hr. assert (exists cfg', validateAllocationConfig (Some cfg) = Ok cfg') as [cfg' Hv].
  { unfold AllocateOneToManyDetailed in Hr. res_inv. eauto. }
  pose proof (AllocateOneToManyDetailed_outcome target candidates cfg cfg' Hv) as Ho.
  rewrite Hr in Ho. inversion Ho; subst; simpl; [done| |].
  - intros [= <-]. split_and!; try done. by left.
  - destruct complete; simpl; [done|]. destruct (AC_AllowPartial cfg); simpl; [done|].
    case_bool_decide as Hn; simpl; [done|]. intros [= <-]. split_and!; try done. right.
    split_and!; try done. exists amount. split_and!; try done. by eapply ls_incomplete.
Qed.

Lemma AllocateOneToManyDetailed_perm target candidates candidates' cfg :
  NoDup (CT_ID <$> candidates) -> candidates ≡ₚ candidates' ->
  AllocateOneToManyDetailed target candidates cfg = AllocateOneToManyDetailed target candidates' cfg.
Proof.
  intros Hnd Hp. unfold AllocateOneToManyDetailed.
  rewrite (SortTransactions_perm_eq _ _ Hnd Hp), (Permutation_length Hp).
  assert (bool_decide (candidates = []) = bool_decide (candidates' = [])) as ->; [|done].
  apply bool_decide_ext. split; intros ->.
  - by apply Permutation_nil_l in Hp.
  - by apply Permutation_nil_r in Hp.
Qed.
(** The identifiers of an allocation, for the engine. *)
Lemma AllocateOneToManyDetailed_ids target candidates cfg result :
  AllocateOneToManyDetailed target candidates (Some cfg) = Ok result ->
  (NoDup (CT_ID <$> candidates) -> NoDup (AL_TransactionID <$> AR_Allocations result)) /\
  (forall id, id ∈ AL_TransactionID <$> AR_Allocations result -> exists tx, tx ∈ candidates /\ CT_ID tx = id) /\
  (AR_Complete result = true -> AR_Allocations result <> []).
Proof.
  intros Hr. assert (exists cfg', validateAllocationConfig (Some cfg) = Ok cfg') as [cfg' Hv].
  { unfold AllocateOneToManyDetailed in Hr. res_inv. eauto. }
  pose proof (AllocateOneToManyDetailed_outcome target candidates cfg cfg' Hv) as Ho.
  rewrite Hr in Ho. inversion Ho; subst; simpl.
  1,2: split_and!; [intros; apply NoDup_nil_2|set_solver|done].
  match goal with H : loop_spec _ _ _ _ _ _ _ _ _ |- _ => destruct H as [_ H2 _ _ H5 _ _] end.
  split_and!.
  - intros Hnd. eapply sublist_NoDup; [|exact H2]. unfold SortTransactions. by rewrite stable_sort_perm.
  - intros id Hid. eapply elem_of_sublist in Hid; [|exact H2].
    apply list_elem_of_fmap in Hid as (tx & -> & Htx). apply stable_sort_elem_of in Htx. eauto.
  - intros Hc. by destruct (H5 Hc).
Qed.

Lemma buildAllocationProposalDetailed_Some rule target candidates score r p cfg :
  RD_Allocation rule = Some cfg ->
  buildAllocationProposalDetailed rule target candidates score = Ok r -> APR_Proposal r = Some p ->
  exists result, AllocateOneToManyDetailed target candidates (Some cfg) = Ok result /\
    AR_Complete result = true /\
    p = buildAllocationMatchProposal cfg rule target (AR_Allocations result) (AR_Total result) score.
Proof.
  unfold buildAllocationProposalDetailed. intros ->. case_bool_decide; [by intros [= <-]|].
  intros Hb Hp. res_inv. unfold allocateByRuleDetailed in *.
  destruct (_ || _); [|done]. exists x0. split; [done|].
  destruct (AR_Failure x0); [|destruct (AR_Complete x0)]; injection Hb as <-; simpl in Hp; by simplify_eq.
Qed.
End results.

(** ** Concrete instances *)
Definition sample_allocation (partial : bool) : @AllocationConfig model_decimal :=
  mkAllocationConfig (D:=model_decimal) partial AllocationDirectionLeftToRight
    AllocationToleranceAbsolute (1 # 100) false.
Definition sample_target : @CandidateTransaction model_uuid model_decimal := sample_tx "t" 100 1.
Definition sample_candidates : list (@CandidateTransaction model_uuid model_decimal) :=
  [sample_tx "b" 70 2; sample_tx "a" 60 1].
Definition sample_run (partial : bool) : AllocationResult :=
  from_ok empty_AllocationResult
    (AllocateOneToManyDetailed sample_target sample_candidates (Some (sample_allocation partial))).

Lemma AllocateOneToMany_sound_witness :
  NoDup (AL_TransactionID <$> AR_Allocations (sample_run true)) /\
  (dec_Rat (AR_Total (sample_run true)) <= 100)%Q.
Proof.
  destruct (AllocateOneToMany_sound (UL:=model_uuid_laws) (L:=model_decimal_laws) sample_target
    sample_candidates (sample_allocation true) (sample_run true)) as (_ & H1 & _ & H2 & _).
  - apply (bool_decide_unpack _). vm_compute. exact I.
  - apply from_ok_spec. vm_compute. reflexivity.
  - split; [exact H1|]. apply (H2 100); [reflexivity|by vm_compute].
Defined.

Lemma AllocateOneToMany_total_witness :
  exists result, AllocateOneToManyDetailed sample_target sample_candidates
    (Some (sample_allocation true)) = Ok result /\ AR_Complete result = true.
Proof.
  destruct (AllocateOneToMany_total (L:=model_decimal_laws) sample_target sample_candidates
    (sample_allocation true) (sample_allocation true)) as (r & Hr & Hc).
  - vm_compute. reflexivity.
  - apply Nat.leb_le. vm_compute. reflexivity.
  - intros tx amount Hin [= <-]. unfold sample_candidates in Hin. set_unfold.
    destruct Hin as [->|[->|[->|[]]]]; by vm_compute.
  - exists r. split; [exact Hr|]. apply (Hc eq_refl 100 eq_refl); by vm_compute.
Defined.

Lemma AllocateOneToMany_failure_witness :
  exists failure, AR_Failure (sample_run false) = Some failure /\
  AR_Complete (sample_run false) = false /\ AF_TargetID failure = "t".
Proof.
  destruct (AR_Failure (sample_run false)) as [failure|] eqn:E.
  2: { vm_compute in E. discriminate E. }
  exists failure. split; [reflexivity|].
  destruct (AllocateOneToMany_failure (L:=model_decimal_laws) sample_target sample_candidates
    (sample_allocation false) (sample_run false) failure) as (H1 & H2 & _).
  - apply from_ok_spec. vm_compute. reflexivity.
  - exact E.
  - split; [exact H1|exact H2].
Defined.
