(* ===== verification/Engine.v ===== *)
(** * The matching engine

    Models internal/matching/domain/services/[engine.go]: rule evaluation,
    greedy 1:1 pairing, and the 1:N and N:1 passes over a [matchContext].
    The source sorts its argument slices in place; callers do not read them
    afterwards, so sorting is modelled on the values.  A nil engine is [None]. *)
From S2P Require Import GoLib GoLibModel FeeStructure FeeSchedule FeeRules MatchTypes Evaluators.
From S2P Require Import Confidence Allocate.
From Stdlib Require Import QArith Qabs Qminmax Lqa.

Definition DefaultMaxCandidates : Z := 5000.
Definition minMatchScore : Z := 60.

Record Engine : Type := mkEngine { maxCandidates : Z }.
Definition NewEngine : Engine := mkEngine DefaultMaxCandidates.
Definition NewEngineWithLimit (limit : Z) : Engine := mkEngine limit.

Definition maxAllowed (engine : Engine) : Z :=
  if (maxCandidates engine <=? 0)%Z then DefaultMaxCandidates else maxCandidates engine.

Definition slice_len {A} (l : list A) : Z := Z.of_nat (length l).

Section engine.
  Context {U : UUIDLib} {D : DecimalLib} {N : UnicodeLib}.

Definition evalByType (rule : RuleDefinition) (left right : CandidateTransaction)
    : res EngineError (bool * Z) :=
  match RD_Exact rule, RD_Tolerance rule, RD_DateLag rule with
  | Some cfg, _, _ =>
      matched ← ExactMatch left right (Some cfg);
      Ok (matched, if matched : bool then ScoreExactConfidence (Some cfg) left right else 0%Z)
  | None, Some cfg, _ =>
      matched ← ToleranceMatch left right (Some cfg);
      Ok (matched, if matched : bool then ScoreToleranceConfidence (Some cfg) left right else 0%Z)
  | None, None, Some cfg =>
      matched ← DateLagMatch left right (Some cfg);
      Ok (matched, if matched : bool then ScoreDateLagConfidence (Some cfg) left right else 0%Z)
  | None, None, None => Err ErrNilRuleConfig
  end.

(** ** 1:1 *)

(** The inner loop: the first unused right transaction the rule accepts. *)
Fixpoint findRight (rule : RuleDefinition) (leftTxn : CandidateTransaction)
    (usedRight localUsedRight : gset uuid) (right : list CandidateTransaction)
    : res EngineError (option (CandidateTransaction * Z)) :=
  match right with
  | [] => Ok None
  | rightTxn :: right' =>
      if bool_decide (CT_ID rightTxn ∈ usedRight) then findRight rule leftTxn usedRight localUsedRight right'
      else if bool_decide (CT_ID rightTxn ∈ localUsedRight)
      then findRight rule leftTxn usedRight localUsedRight right'
      else
        r ← evalByType rule leftTxn rightTxn;
        let '(matched, score) := r : bool * Z in
        if negb matched || (score <? minMatchScore)%Z
        then findRight rule leftTxn usedRight localUsedRight right'
        else Ok (Some (rightTxn, score))
  end.

Definition proposal1v1 (rule : RuleDefinition) (leftTxn rightTxn : CandidateTransaction) (score : Z)
    : MatchProposal :=
  mkMatchProposal (RD_ID rule) [CT_ID leftTxn] [CT_ID rightTxn] [] [] score "1:1".

Fixpoint findAll1v1Matches_loop (rule : RuleDefinition) (right : list CandidateTransaction)
    (usedLeft usedRight localUsedLeft localUsedRight : gset uuid) (proposals : list MatchProposal)
    (left : list CandidateTransaction) : res EngineError (list MatchProposal) :=
  match left with
  | [] => Ok proposals
  | leftTxn :: left' =>
      if bool_decide (CT_ID leftTxn ∈ usedLeft)
      then findAll1v1Matches_loop rule right usedLeft usedRight localUsedLeft localUsedRight proposals left'
      else if bool_decide (CT_ID leftTxn ∈ localUsedLeft)
      then findAll1v1Matches_loop rule right usedLeft usedRight localUsedLeft localUsedRight proposals left'
      else
        r ← findRight rule leftTxn usedRight localUsedRight right;
        match r with
        | None => findAll1v1Matches_loop rule right usedLeft usedRight localUsedLeft localUsedRight proposals left'
        | Some (rightTxn, score) =>
            findAll1v1Matches_loop rule right usedLeft usedRight
              ({[CT_ID leftTxn]} ∪ localUsedLeft) ({[CT_ID rightTxn]} ∪ localUsedRight)
              (proposals ++ [proposal1v1 rule leftTxn rightTxn score]) left'
        end
  end.

Definition findAll1v1Matches (rule : RuleDefinition) (left right : list CandidateTransaction)
    (usedLeft usedRight : gset uuid) : res EngineError (list MatchProposal) :=
  findAll1v1Matches_loop rule right usedLeft usedRight ∅ ∅ [] left.

Definition markUsed (ids : list uuid) (used : gset uuid) : gset uuid :=
  foldl (fun used id => {[id]} ∪ used) used ids.

Fixpoint Execute1v1_loop (left right : list CandidateTransaction) (usedLeft usedRight : gset uuid)
    (out : list MatchProposal) (rules : list RuleDefinition) : res EngineError (list MatchProposal) :=
  match rules with
  | [] => Ok out
  | rule :: rules' =>
      proposals ← findAll1v1Matches rule left right usedLeft usedRight;
      Execute1v1_loop left right
        (foldl (fun used p => markUsed (MP_LeftIDs p) used) usedLeft proposals)
        (foldl (fun used p => markUsed (MP_RightIDs p) used) usedRight proposals)
        (out ++ proposals) rules'
  end.

Definition candidateSetTooLarge (engine : Engine) (rules : list RuleDefinition)
    (left right : list CandidateTransaction) : bool :=
  (maxAllowed engine <? slice_len rules)%Z || (maxAllowed engine <? slice_len left)%Z ||
  (maxAllowed engine <? slice_len right)%Z.

Definition Execute1v1 (engine : option Engine) (rules : list RuleDefinition)
    (left right : list CandidateTransaction) : res EngineError (list MatchProposal) :=
  match engine with
  | None => Err ErrEngineIsNil
  | Some engine =>
      if candidateSetTooLarge engine rules left right then Err ErrCandidateSetTooLarge
      else Execute1v1_loop (SortTransactions left) (SortTransactions right) ∅ ∅ [] (SortRules rules)
  end.

(** ** 1:N and N:1 *)
Record matchContext : Type := mkMatchContext {
  MC_usedPrimary : gset uuid;
  MC_usedSecondary : gset uuid;
  MC_proposals : list MatchProposal;
  MC_allocFailures : gmap uuid AllocationFailure;
  MC_mode : string;
  MC_primaryIsLeft : bool;
}.

Record EngineResult : Type := mkEngineResult {
  ER_Proposals : list MatchProposal;
  ER_AllocFailures : gmap uuid AllocationFailure;
}.

Fixpoint collectMatches_loop (rule : RuleDefinition) (primary : CandidateTransaction)
    (used : gset uuid) (evalPrimaryFirst : bool) (matchedCandidates : list CandidateTransaction)
    (matchedIDs : list uuid) (maxScore : Z) (candidates : list CandidateTransaction)
    : res EngineError (list CandidateTransaction * list uuid * Z) :=
  match candidates with
  | [] => Ok (matchedCandidates, matchedIDs, maxScore)
  | candidate :: candidates' =>
      if bool_decide (CT_ID candidate ∈ used)
      then collectMatches_loop rule primary used evalPrimaryFirst matchedCandidates matchedIDs maxScore candidates'
      else
        r ← (if evalPrimaryFirst then evalByType rule primary candidate
             else evalByType rule candidate primary);
        let '(matched, score) := r : bool * Z in
        if negb matched || (score <? minMatchScore)%Z
        then collectMatches_loop rule primary used evalPrimaryFirst matchedCandidates matchedIDs maxScore candidates'
        else collectMatches_loop rule primary used evalPrimaryFirst
               (matchedCandidates ++ [candidate]) (matchedIDs ++ [CT_ID candidate])
               (if (maxScore <? score)%Z then score else maxScore) candidates'
  end.

Definition collectMatches (rule : RuleDefinition) (primary : CandidateTransaction)
    (candidates : list CandidateTransaction) (used : gset uuid) (evalPrimaryFirst : bool)
    : res EngineError (list CandidateTransaction * list uuid * Z) :=
  collectMatches_loop rule primary used evalPrimaryFirst [] [] 0%Z candidates.

Definition findMatchesForLeft (rule : RuleDefinition) (left : CandidateTransaction)
    (right : list CandidateTransaction) (usedRight : gset uuid) :=
  collectMatches rule left right usedRight true.

Definition findMatchesForRight (rule : RuleDefinition) (right : CandidateTransaction)
    (left : list CandidateTransaction) (usedLeft : gset uuid) :=
  collectMatches rule right left usedLeft false.

Definition findMatches (rule : RuleDefinition) (primaryCandidate : CandidateTransaction)
    (secondary : list CandidateTransaction) (mctx : matchContext)
    : res EngineError (list CandidateTransaction * list uuid * Z) :=
  if MC_primaryIsLeft mctx
  then findMatchesForLeft rule primaryCandidate secondary (MC_usedSecondary mctx)
  else findMatchesForRight rule primaryCandidate secondary (MC_usedSecondary mctx).

(** The two used sets, as (left, right). *)
Definition resolveUsedMaps (mctx : matchContext) : gset uuid * gset uuid :=
  if MC_primaryIsLeft mctx then (MC_usedPrimary mctx, MC_usedSecondary mctx)
  else (MC_usedSecondary mctx, MC_usedPrimary mctx).

(** The maps are shared with the context: writes to them land there. *)
Definition storeUsedMaps (mctx : matchContext) (proposals : list MatchProposal)
    (usedLeft usedRight : gset uuid) : matchContext :=
  if MC_primaryIsLeft mctx
  then mkMatchContext usedLeft usedRight proposals (MC_allocFailures mctx) (MC_mode mctx) true
  else mkMatchContext usedRight usedLeft proposals (MC_allocFailures mctx) (MC_mode mctx) false.

Definition resolveProposalIDs (primaryID : uuid) (matchedIDs : list uuid) (primaryIsLeft : bool)
    : list uuid * list uuid :=
  if primaryIsLeft then ([primaryID], matchedIDs) else (matchedIDs, [primaryID]).

Definition addDirectProposal (rule : RuleDefinition) (primaryID : uuid) (matchedIDs : list uuid)
    (maxScore : Z) (mctx : matchContext) : matchContext :=
  let '(leftIDs, rightIDs) := resolveProposalIDs primaryID matchedIDs (MC_primaryIsLeft mctx) in
  mkMatchContext ({[primaryID]} ∪ MC_usedPrimary mctx) (markUsed matchedIDs (MC_usedSecondary mctx))
    (MC_proposals mctx ++
       [mkMatchProposal (RD_ID rule) leftIDs rightIDs [] [] maxScore (MC_mode mctx)])
    (MC_allocFailures mctx) (MC_mode mctx) (MC_primaryIsLeft mctx).

(** Whether a proposal was applied, a failure, and the three values written
    through pointers: the proposals and the two used sets. *)
Definition applyAllocationProposalDetailed (rule : RuleDefinition) (base : CandidateTransaction)
    (matchedCandidates : list CandidateTransaction) (maxScore : Z) (out : list MatchProposal)
    (usedLeft usedRight : gset uuid)
    : res EngineError (bool * option AllocationFailure * (list MatchProposal * gset uuid * gset uuid)) :=
  match RD_Allocation rule with
  | None => Ok (false, None, (out, usedLeft, usedRight))
  | Some _ =>
      result ← buildAllocationProposalDetailed rule base matchedCandidates maxScore;
      match APR_Failure result, APR_Proposal result with
      | Some failure, _ => Ok (false, Some failure, (out, usedLeft, usedRight))
      | None, None => Ok (false, None, (out, usedLeft, usedRight))
      | None, Some proposal =>
          Ok (true, None, (out ++ [proposal], markUsed (MP_LeftIDs proposal) usedLeft,
                           markUsed (MP_RightIDs proposal) usedRight))
      end
  end.

Definition recordFailure (failure : option AllocationFailure) (mctx : matchContext) : matchContext :=
  match failure with
  | None => mctx
  | Some f => mkMatchContext (MC_usedPrimary mctx) (MC_usedSecondary mctx) (MC_proposals mctx)
                (<[AF_TargetID f := f]> (MC_allocFailures mctx)) (MC_mode mctx) (MC_primaryIsLeft mctx)
  end.

Definition tryMatchCandidate (rule : RuleDefinition) (primaryCandidate : CandidateTransaction)
    (secondary : list CandidateTransaction) (mctx : matchContext) : res EngineError matchContext :=
  r ← findMatches rule primaryCandidate secondary mctx;
  let '(matchedCandidates, matchedIDs, maxScore) := r in
  if bool_decide (matchedIDs = []) then Ok mctx
  else
    let '(usedLeft, usedRight) := resolveUsedMaps mctx in
    r ← applyAllocationProposalDetailed rule primaryCandidate matchedCandidates maxScore
          (MC_proposals mctx) usedLeft usedRight;
    let '(applied, failure, (proposals, usedLeft, usedRight)) := r in
    let mctx := recordFailure failure (storeUsedMaps mctx proposals usedLeft usedRight) in
    if applied : bool then Ok mctx
    else match RD_Allocation rule with
         | None => Ok (addDirectProposal rule (CT_ID primaryCandidate) matchedIDs maxScore mctx)
         | Some _ => Ok mctx
         end.

Fixpoint processRuleMatches (rule : RuleDefinition) (secondary : list CandidateTransaction)
    (mctx : matchContext) (primary : list CandidateTransaction) : res EngineError matchContext :=
  match primary with
  | [] => Ok mctx
  | primaryCandidate :: primary' =>
      if bool_decide (CT_ID primaryCandidate ∈ MC_usedPrimary mctx)
      then processRuleMatches rule secondary mctx primary'
      else
        mctx ← tryMatchCandidate rule primaryCandidate secondary mctx;
        processRuleMatches rule secondary mctx primary'
  end.

Definition matchWithDirectionDetailed (rules : list RuleDefinition)
    (primary secondary : list CandidateTransaction) (mode : string) (primaryIsLeft : bool)
    : res EngineError EngineResult :=
  mctx ← res_foldl (fun mctx rule => processRuleMatches rule secondary mctx primary)
           (mkMatchContext ∅ ∅ [] ∅ mode primaryIsLeft) rules;
  Ok (mkEngineResult (MC_proposals mctx) (MC_allocFailures mctx)).

Definition Execute1vNDetailed (engine : option Engine) (rules : list RuleDefinition)
    (left right : list CandidateTransaction) : res EngineError EngineResult :=
  match engine with
  | None => Err ErrEngineIsNil
  | Some engine =>
      if candidateSetTooLarge engine rules left right then Err ErrCandidateSetTooLarge
      else matchWithDirectionDetailed (SortRules rules) (SortTransactions left) (SortTransactions right)
             "1:N" true
  end.

Definition Execute1vN (engine : option Engine) (rules : list RuleDefinition)
    (left right : list CandidateTransaction) : res EngineError (list MatchProposal) :=
  result ← Execute1vNDetailed engine rules left right; Ok (ER_Proposals result).

Definition ExecuteNv1Detailed (engine : option Engine) (rules : list RuleDefinition)
    (left right : list CandidateTransaction) : res EngineError EngineResult :=
  match engine with
  | None => Err ErrEngineIsNil
  | Some engine =>
      if candidateSetTooLarge engine rules left right then Err ErrCandidateSetTooLarge
      else matchWithDirectionDetailed (SortRules rules) (SortTransactions right) (SortTransactions left)
             "N:1" false
  end.

Definition ExecuteNv1 (engine : option Engine) (rules : list RuleDefinition)
    (left right : list CandidateTransaction) : res EngineError (list MatchProposal) :=
  result ← ExecuteNv1Detailed engine rules left right; Ok (ER_Proposals result).
End engine.

(** ** 1:1 results *)
Section results1v1.
  Context {U : UUIDLib} {UL : UUIDLaws U} {D : DecimalLib} {L : DecimalLaws D} {N : UnicodeLib}.

(** The rule matches the pair with an admissible score. *)
Definition accepts (rule : RuleDefinition) (left right : CandidateTransaction) (score : Z) : Prop :=
  evalByType rule left right = Ok (true, score) /\ (minMatchScore <= score)%Z.

Definition left_ids (ps : list MatchProposal) : list uuid := concat (MP_LeftIDs <$> ps).
Definition right_ids (ps : list MatchProposal) : list uuid := concat (MP_RightIDs <$> ps).

Lemma markUsed_elem ids used id : id ∈ markUsed ids used <-> id ∈ ids \/ id ∈ used.
Proof.
  unfold markUsed. revert used; induction ids as [|i ids IH]; intros used; simpl; [set_solver|].
  rewrite IH. set_solver.
Qed.

Lemma foldl_markUsed_elem f (ps : list MatchProposal) used id :
  id ∈ foldl (fun used p => markUsed (f p) used) used ps <-> id ∈ concat (f <$> ps) \/ id ∈ used.
Proof.
  revert used; induction ps as [|p ps IH]; intros used; simpl; [set_solver|].
  rewrite IH, markUsed_elem, elem_of_app. tauto.
Qed.

Lemma findRight_spec rule l usedRight localRight right r :
  findRight rule l usedRight localRight right = Ok r ->
  match r with
  | Some (rt, score) => rt ∈ right /\ accepts rule l rt score /\
                        (CT_ID rt ∉ usedRight) /\ (CT_ID rt ∉ localRight)
  | None => forall rt score, rt ∈ right -> CT_ID rt ∉ usedRight -> CT_ID rt ∉ localRight ->
              ~ accepts rule l rt score
  end.
Proof.
  induction right as [|rt right IH]; simpl.
  - intros [= <-]. set_solver.
  - case_bool_decide as H1; [|case_bool_decide as H2].
    1,2: intros H; specialize (IH H); destruct r as [[rt' score]|]; [set_solver|];
      intros rt' score [->|?]%elem_of_cons; [done|by apply IH].
    rewrite res_bind_Ok. intros ([matched score] & He & H).
    destruct matched; simpl in H; [destruct (Z.ltb_spec score minMatchScore)|].
    2: { injection H as <-. split_and!; [set_solver|by split|done..]. }
    all: specialize (IH H); destruct r as [[rt' score']|]; [set_solver|];
      intros rt' score' [->|?]%elem_of_cons; [|by apply IH]; intros _ _ [Ha Hs];
      rewrite He in Ha; injection Ha; intros; subst; solve [done|lia].
Qed.

(** What one rule adds to the proposals, given the identifiers already used. *)
Record pass_spec (rule : RuleDefinition) (left right : list CandidateTransaction)
    (usedLeft usedRight : gset uuid) (new : list MatchProposal) : Prop := {
  ps_pairs : Forall (fun p => exists l r score, l ∈ left /\ r ∈ right /\ accepts rule l r score /\
                       p = proposal1v1 rule l r score) new;
  ps_left : NoDup (left_ids new) /\ forall id, id ∈ left_ids new -> id ∉ usedLeft;
  ps_right : NoDup (right_ids new) /\ forall id, id ∈ right_ids new -> id ∉ usedRight;
  ps_maximal : forall l r score, l ∈ left -> r ∈ right -> accepts rule l r score ->
    CT_ID l ∈ usedLeft \/ CT_ID l ∈ left_ids new \/ CT_ID r ∈ usedRight \/ CT_ID r ∈ right_ids new;
}.

Lemma findAll1v1Matches_loop_spec rule right usedLeft usedRight localLeft localRight acc left ps :
  findAll1v1Matches_loop rule right usedLeft usedRight localLeft localRight acc left = Ok ps ->
  exists new, ps = acc ++ new /\
    pass_spec rule left right (usedLeft ∪ localLeft) (usedRight ∪ localRight) new.
Proof.
  revert localLeft localRight acc. induction left as [|l left IH]; intros localLeft localRight acc; simpl.
  - intros [= <-]. exists []. rewrite app_nil_r. split; [done|].
    split; [constructor| | |]; unfold left_ids, right_ids; simpl; [split; [constructor|set_solver]..|set_solver].
  - assert (Hskip : forall new, CT_ID l ∈ usedLeft ∪ localLeft \/
        (forall r score, r ∈ right -> CT_ID r ∉ usedRight -> CT_ID r ∉ localRight -> ~ accepts rule l r score) ->
      pass_spec rule left right (usedLeft ∪ localLeft) (usedRight ∪ localRight) new ->
      pass_spec rule (l :: left) right (usedLeft ∪ localLeft) (usedRight ∪ localRight) new).
    { intros new Hl [Hp Hle Hri Hm]. split; try done.
      - eapply Forall_impl; [exact Hp|]. intros p (l' & r & s & ? & ?). exists l', r, s. set_solver.
      - intros l' r s [->|Hin]%elem_of_cons Hr Ha; [|by eapply Hm].
        destruct Hl as [?|Hl]; [by left|]. right; right; left.
        destruct (decide (CT_ID r ∈ usedRight ∪ localRight)); [done|].
        exfalso. eapply (Hl r s); set_solver. }
    case_bool_decide as H1; [|case_bool_decide as H2].
    1,2: intros H; destruct (IH _ _ _ H) as (new & -> & Hn); exists new; split; [done|];
      apply Hskip; [left; set_solver|done].
    rewrite res_bind_Ok. intros (r & Hr & H). apply findRight_spec in Hr.
    destruct r as [[rt score]|].
    + destruct Hr as (Hin & Ha & Hu1 & Hu2). destruct (IH _ _ _ H) as (new & -> & Hn).
      exists (proposal1v1 rule l rt score :: new). split; [by rewrite <- app_assoc|].
      destruct Hn as [Hp [Hl1 Hl2] [Hr1 Hr2] Hm]. split.
      * constructor; [exists l, rt, score; set_solver|].
        eapply Forall_impl; [exact Hp|]. intros p (l' & r & s & ? & ?). exists l', r, s. set_solver.
      * unfold left_ids in *. simpl. split; [constructor; [|done]; intros Hc%Hl2; set_solver|].
        intros id [->|Hc%Hl2]%elem_of_cons; set_solver.
      * unfold right_ids in *. simpl. split; [constructor; [|done]; intros Hc%Hr2; set_solver|].
        intros id [->|Hc%Hr2]%elem_of_cons; set_solver.
      * intros l' r' s [->|Hl']%elem_of_cons Hr' Ha'.
        -- right. left. unfold left_ids. simpl. set_solver.
        -- unfold left_ids, right_ids in *. simpl. specialize (Hm l' r' s Hl' Hr' Ha').
           rewrite !elem_of_union, !elem_of_singleton in Hm. rewrite !elem_of_union, !elem_of_cons. tauto.
    + destruct (IH _ _ _ H) as (new & -> & Hn). exists new. split; [done|]. apply Hskip; [by right|done].
Qed.

Lemma findAll1v1Matches_spec rule left right usedLeft usedRight ps :
  findAll1v1Matches rule left right usedLeft usedRight = Ok ps ->
  pass_spec rule left right usedLeft usedRight ps.
Proof.
  intros (new & -> & H)%findAll1v1Matches_loop_spec. simpl.
  by rewrite !(right_id_L ∅ (∪)) in H.
Qed.

Lemma left_ids_app p q : left_ids (p ++ q) = left_ids p ++ left_ids q.
Proof. unfold left_ids. by rewrite fmap_app, concat_app. Qed.
Lemma right_ids_app p q : right_ids (p ++ q) = right_ids p ++ right_ids q.
Proof. unfold right_ids. by rewrite fmap_app, concat_app. Qed.

(** The state of the rule loop: the used sets are the identifiers of the
    proposals, and for every rule done so far each acceptable pair is blocked
    by a proposal of a rule that does not come after it. *)
Record run_inv (left right : list CandidateTransaction) (done_rules : list RuleDefinition)
    (usedLeft usedRight : gset uuid) (out : list MatchProposal) : Prop := {
  ri_used_left : forall id, id ∈ usedLeft <-> id ∈ left_ids out;
  ri_used_right : forall id, id ∈ usedRight <-> id ∈ right_ids out;
  ri_pairs : Forall (fun p => exists rule l r score, rule ∈ done_rules /\ l ∈ left /\ r ∈ right /\
                       accepts rule l r score /\ p = proposal1v1 rule l r score) out;
  ri_left : NoDup (left_ids out);
  ri_right : NoDup (right_ids out);
  ri_stable : forall rule l r score, rule ∈ done_rules -> l ∈ left -> r ∈ right -> accepts rule l r score ->
    exists p rule', p ∈ out /\ MP_RuleID p = RD_ID rule' /\ rule' ∈ done_rules /\
      rule_less rule rule' = false /\ (CT_ID l ∈ MP_LeftIDs p \/ CT_ID r ∈ MP_RightIDs p);
}.

Lemma rule_less_irrefl r : rule_less r r = false.
Proof. rewrite rule_less_cmp. unfold cmp_lt. by rewrite (cmp_refl rule_cmp). Qed.

Lemma Execute1v1_loop_inv left right rules done_rules usedLeft usedRight out ps :
  StronglySorted (fun a b => rule_less b a = false) (done_rules ++ rules) ->
  run_inv left right done_rules usedLeft usedRight out ->
  Execute1v1_loop left right usedLeft usedRight out rules = Ok ps ->
  exists ul ur, run_inv left right (done_rules ++ rules) ul ur ps.
Proof.
  revert done_rules usedLeft usedRight out.
  induction rules as [|rule rules IH]; intros dr ul ur out Hs Hi; simpl.
  - intros [= <-]. rewrite app_nil_r. eauto.
  - rewrite res_bind_Ok. intros (new & Hn & H). apply findAll1v1Matches_spec in Hn.
    assert (Hdr : Forall (fun a => rule_less rule a = false) dr).
    { apply Forall_forall. intros a Ha. apply StronglySorted_app in Hs as (Hs & _ & _).
      eapply Hs; [exact Ha|]. by left. }
    replace (dr ++ rule :: rules) with ((dr ++ [rule]) ++ rules) in * by (by rewrite <- app_assoc).
    eapply IH; [exact Hs| |exact H]. destruct Hi as [I1 I2 I3 I4 I5 I6], Hn as [P1 [P2 P3] [P4 P5] P6].
    split.
    + intros id. rewrite foldl_markUsed_elem, left_ids_app, elem_of_app, <- I1. unfold left_ids. tauto.
    + intros id. rewrite foldl_markUsed_elem, right_ids_app, elem_of_app, <- I2. unfold right_ids. tauto.
    + apply Forall_app. split; (eapply Forall_impl; [eassumption|]).
      * intros p (rl & l & r & s & ? & ?). exists rl, l, r, s. set_solver.
      * intros p (l & r & s & ? & ?). exists rule, l, r, s. set_solver.
    + rewrite left_ids_app. apply NoDup_app. split_and!; [done| |done].
      intros id Hid Hc. by apply (P3 id Hc), I1.
    + rewrite right_ids_app. apply NoDup_app. split_and!; [done| |done].
      intros id Hid Hc. by apply (P5 id Hc), I2.
    + intros rl l r s [Hrl|Hrl%list_elem_of_singleton]%elem_of_app Hl Hr Ha.
      * destruct (I6 rl l r s Hrl Hl Hr Ha) as (p & rl' & ? & ? & ? & ? & ?).
        exists p, rl'. set_solver.
      * subst rl. specialize (P6 l r s Hl Hr Ha). rewrite I1, I2 in P6.
        assert (Hold : forall p, p ∈ out -> exists rl', MP_RuleID p = RD_ID rl' /\ rl' ∈ dr ++ [rule] /\
          rule_less rule rl' = false).
        { intros p Hp. rewrite Forall_forall in I3. destruct (I3 p Hp) as (rl' & ? & ? & ? & ? & ? & ? & ? & ->).
          exists rl'. rewrite Forall_forall in Hdr. split_and!; [done|set_solver|by apply Hdr]. }
        assert (Hnew : forall p, p ∈ new -> exists rl', MP_RuleID p = RD_ID rl' /\ rl' ∈ dr ++ [rule] /\
          rule_less rule rl' = false).
        { intros p Hp. rewrite Forall_forall in P1. destruct (P1 p Hp) as (? & ? & ? & ? & ? & ? & ->).
          exists rule. split_and!; [done|set_solver|apply rule_less_irrefl]. }
        unfold left_ids, right_ids in P6. rewrite !elem_of_concat_fmap in P6.
        destruct P6 as [(p & Hp & Hid)|[(p & Hp & Hid)|[(p & Hp & Hid)|(p & Hp & Hid)]]];
          [destruct (Hold p Hp) as (rl' & ? & ? & ?)|destruct (Hnew p Hp) as (rl' & ? & ? & ?)|
           destruct (Hold p Hp) as (rl' & ? & ? & ?)|destruct (Hnew p Hp) as (rl' & ? & ? & ?)];
          exists p, rl'; set_solver.
Qed.
Lemma Execute1v1_run engine rules left right ps :
  Execute1v1 engine rules left right = Ok ps ->
  exists ul ur, run_inv (SortTransactions left) (SortTransactions right) (SortRules rules) ul ur ps.
Proof.
  unfold Execute1v1. destruct engine as [e|]; [|done]. destruct (candidateSetTooLarge _ _ _ _); [done|].
  intros H. apply (Execute1v1_loop_inv _ _ _ []) in H; [done| |].
  - rewrite SortRules_cmp. eapply StronglySorted_weaken; [|apply (stable_sort_sorted rule_cmp)].
    intros a b Hab. rewrite rule_less_cmp. by apply cmp_le_not_lt.
  - split; unfold left_ids, right_ids; simpl; [set_solver..|constructor|constructor|constructor|set_solver].
Qed.

(** C10: every 1:1 proposal pairs one left with one right transaction that a
    given rule matches with a score of at least 60, and no transaction takes
    part in two proposals, across all rules. *)
Theorem Execute1v1_sound engine rules left right ps :
  Execute1v1 engine rules left right = Ok ps ->
  Forall (fun p => exists rule l r score, rule ∈ rules /\ l ∈ left /\ r ∈ right /\
            accepts rule l r score /\ p = proposal1v1 rule l r score) ps /\
  NoDup (left_ids ps) /\ NoDup (right_ids ps).
Proof.
  intros (ul & ur & [_ _ Hp Hl Hr _])%Execute1v1_run. split_and!; try done.
  eapply Forall_impl; [exact Hp|]. intros p (rule & l & r & s & H1 & H2 & H3 & ?).
  apply stable_sort_elem_of in H1, H2, H3. exists rule, l, r, s. done.
Qed.

(** C22: the 1:1 pairing leaves no blocking pair: whenever a rule accepts a left
    and a right transaction, one of them is used by a proposal of a rule that
    does not come later in the rule order. *)
Theorem Execute1v1_stable engine rules left right ps rule l r score :
  Execute1v1 engine rules left right = Ok ps ->
  rule ∈ rules -> l ∈ left -> r ∈ right -> accepts rule l r score ->
  exists p rule', p ∈ ps /\ rule' ∈ rules /\ MP_RuleID p = RD_ID rule' /\
    rule_less rule rule' = false /\ (CT_ID l ∈ MP_LeftIDs p \/ CT_ID r ∈ MP_RightIDs p).
Proof.
  intros (ul & ur & Hi)%Execute1v1_run Hrl Hl Hr Ha.
  destruct (ri_stable _ _ _ _ _ _ Hi rule l r score) as (p & rule' & ? & ? & Hin & ? & ?);
    [by apply stable_sort_elem_of..|done|].
  apply stable_sort_elem_of in Hin. eauto 10.
Qed.

Lemma candidateSetTooLarge_perm engine rules rules' left left' right right' :
  rules ≡ₚ rules' -> left ≡ₚ left' -> right ≡ₚ right' ->
  candidateSetTooLarge engine rules left right = candidateSetTooLarge engine rules' left' right'.
Proof.
  intros H1 H2 H3. unfold candidateSetTooLarge, slice_len.
  by rewrite (Permutation_length H1), (Permutation_length H2), (Permutation_length H3).
Qed.

(** The engine is deterministic: with distinct identifiers, the proposals
    (and, for 1:N and N:1, the allocation failures) do not depend on the order
    in which rules and transactions are supplied. *)
Theorem Execute_order_independent engine rules rules' left left' right right' :
  NoDup (RD_ID <$> rules) -> NoDup (CT_ID <$> left) -> NoDup (CT_ID <$> right) ->
  rules ≡ₚ rules' -> left ≡ₚ left' -> right ≡ₚ right' ->
  Execute1v1 engine rules left right = Execute1v1 engine rules' left' right' /\
  Execute1vNDetailed engine rules left right = Execute1vNDetailed engine rules' left' right' /\
  ExecuteNv1Detailed engine rules left right = ExecuteNv1Detailed engine rules' left' right'.
Proof.
  intros N1 N2 N3 H1 H2 H3. unfold Execute1v1, Execute1vNDetailed, ExecuteNv1Detailed.
  destruct engine as [e|]; [|done].
  by rewrite (candidateSetTooLarge_perm e _ _ _ _ _ _ H1 H2 H3), (SortRules_perm_eq _ _ N1 H1),
    (SortTransactions_perm_eq _ _ N2 H2), (SortTransactions_perm_eq _ _ N3 H3).
Qed.
End results1v1.

(** ** 1:N and N:1 results *)
Section resultsMany.
  Context {U : UUIDLib} {UL : UUIDLaws U} {D : DecimalLib} {L : DecimalLaws D} {N : UnicodeLib}.

(** The pair of a primary and a secondary transaction, in evaluation order. *)
Definition accepts_from (primaryIsLeft : bool) (rule : RuleDefinition)
    (primary secondary : CandidateTransaction) (score : Z) : Prop :=
  if primaryIsLeft then accepts rule primary secondary score else accepts rule secondary primary score.

(** The side of a proposal on which a rule puts the primary transaction:
    without allocation the side of the pass, otherwise the configured
    direction decides. *)
Definition primary_on_left (primaryIsLeft : bool) (rule : RuleDefinition) : bool :=
  match RD_Allocation rule with
  | None => primaryIsLeft
  | Some cfg => negb (bool_decide (AC_Direction cfg = AllocationDirectionRightToLeft))
  end.

Definition ids_on (onLeft : bool) (p : MatchProposal) : list uuid :=
  if onLeft then MP_LeftIDs p else MP_RightIDs p.

(** A proposal joins one primary transaction with secondary transactions the
    rule accepts; its score is the best of theirs. *)
Definition group_ok (primaryIsLeft : bool) (rules : list RuleDefinition)
    (primary secondary : list CandidateTransaction) (p : MatchProposal) : Prop :=
  exists rule pc, rule ∈ rules /\ pc ∈ primary /\ MP_RuleID p = RD_ID rule /\
    ids_on (primary_on_left primaryIsLeft rule) p = [CT_ID pc] /\
    ids_on (negb (primary_on_left primaryIsLeft rule)) p <> [] /\
    (minMatchScore <= MP_Score p)%Z /\
    forall id, id ∈ ids_on (negb (primary_on_left primaryIsLeft rule)) p ->
      exists sc score, sc ∈ secondary /\ CT_ID sc = id /\ (score <= MP_Score p)%Z /\
        accepts_from primaryIsLeft rule pc sc score.

Lemma collectMatches_loop_spec rule primary used b accC accI accS candidates cs ids maxScore :
  collectMatches_loop rule primary used b accC accI accS candidates = Ok (cs, ids, maxScore) ->
  accI = CT_ID <$> accC ->
  ids = CT_ID <$> cs /\ (accS <= maxScore)%Z /\
  exists new, cs = accC ++ new /\ new `sublist_of` candidates /\
    (new <> [] -> (minMatchScore <= maxScore)%Z) /\
    forall c, c ∈ new -> (CT_ID c ∉ used) /\
      exists score, (score <= maxScore)%Z /\ accepts_from b rule primary c score.
Proof.
  revert accC accI accS. induction candidates as [|c candidates IH]; intros accC accI accS; simpl.
  - intros [= <- <- <-] ->. split_and!; [done|done|]. exists []. rewrite app_nil_r. set_solver.
  - assert (Hskip : collectMatches_loop rule primary used b accC accI accS candidates = Ok (cs, ids, maxScore) ->
      accI = CT_ID <$> accC -> ids = CT_ID <$> cs /\ (accS <= maxScore)%Z /\
      exists new, cs = accC ++ new /\ new `sublist_of` c :: candidates /\
        (new <> [] -> (minMatchScore <= maxScore)%Z) /\
        forall c, c ∈ new -> (CT_ID c ∉ used) /\
          exists score, (score <= maxScore)%Z /\ accepts_from b rule primary c score).
    { intros H He. destruct (IH _ _ _ H He) as (? & ? & new & ? & ? & ?). split_and!; [done..|].
      exists new. split_and!; try done; [by apply sublist_cons|naive_solver..]. }
    case_bool_decide as Hu; [exact Hskip|]. rewrite res_bind_Ok. intros ([matched score] & He & H) HI.
    destruct matched; simpl in H; [|by apply Hskip].
    destruct (Z.ltb_spec score minMatchScore); simpl in H; [by apply Hskip|].
    destruct (IH _ _ _ H) as (Hids & Hs & new & -> & Hsub & Hmin & Hnew).
    { by rewrite fmap_app, HI. }
    assert ((accS <= maxScore)%Z /\ (score <= maxScore)%Z) as [? ?].
    { destruct (Z.ltb_spec accS score); lia. }
    split_and!; [done..|]. exists (c :: new). rewrite <- app_assoc. split_and!; [done|by apply sublist_skip|lia|].
    intros c' [->|Hc]%elem_of_cons; [|by apply Hnew]. split; [done|]. exists score. split; [done|].
    unfold accepts_from, accepts. by destruct b.
Qed.

Lemma findMatches_spec rule pc secondary mctx cs ids maxScore :
  findMatches rule pc secondary mctx = Ok (cs, ids, maxScore) ->
  ids = CT_ID <$> cs /\ cs `sublist_of` secondary /\
  (cs <> [] -> (minMatchScore <= maxScore)%Z) /\
  forall c, c ∈ cs -> (CT_ID c ∉ MC_usedSecondary mctx) /\
    exists score, (score <= maxScore)%Z /\ accepts_from (MC_primaryIsLeft mctx) rule pc c score.
Proof.
  unfold findMatches, findMatchesForLeft, findMatchesForRight, collectMatches.
  destruct (MC_primaryIsLeft mctx); intros H;
    apply collectMatches_loop_spec in H as (? & _ & new & -> & ?); try done; by rewrite app_nil_l in *.
Qed.

(** What one candidate adds to the context. *)
Inductive step_outcome (rule : RuleDefinition) (pc : CandidateTransaction)
    (secondary : list CandidateTransaction) (mctx : matchContext) : matchContext -> Prop :=
| step_same mctx' :
    MC_usedPrimary mctx' = MC_usedPrimary mctx -> MC_usedSecondary mctx' = MC_usedSecondary mctx ->
    MC_proposals mctx' = MC_proposals mctx -> MC_primaryIsLeft mctx' = MC_primaryIsLeft mctx ->
    step_outcome rule pc secondary mctx mctx'
| step_add mctx' p :
    MC_proposals mctx' = MC_proposals mctx ++ [p] -> MC_primaryIsLeft mctx' = MC_primaryIsLeft mctx ->
    (forall id, id ∈ MC_usedPrimary mctx' <-> id ∈ ids_on (MC_primaryIsLeft mctx) p \/ id ∈ MC_usedPrimary mctx) ->
    (forall id, id ∈ MC_usedSecondary mctx' <->
       id ∈ ids_on (negb (MC_primaryIsLeft mctx)) p \/ id ∈ MC_usedSecondary mctx) ->
    (forall rules primary, rule ∈ rules -> pc ∈ primary ->
       group_ok (MC_primaryIsLeft mctx) rules primary secondary p) ->
    ids_on (primary_on_left (MC_primaryIsLeft mctx) rule) p = [CT_ID pc] ->
    (NoDup (CT_ID <$> secondary) ->
       NoDup (ids_on (negb (primary_on_left (MC_primaryIsLeft mctx) rule)) p)) ->
    (forall id, id ∈ ids_on (negb (primary_on_left (MC_primaryIsLeft mctx) rule)) p ->
       id ∉ MC_usedSecondary mctx) ->
    step_outcome rule pc secondary mctx mctx'.

Lemma sublist_ids_NoDup (cs secondary : list CandidateTransaction) :
  cs `sublist_of` secondary -> NoDup (CT_ID <$> secondary) -> NoDup (CT_ID <$> cs).
Proof. intros Hs Hnd. eapply sublist_NoDup; [exact Hnd|]. by apply fmap_sublist. Qed.
Lemma allocation_proposal_ids cfg rule target allocations total score b :
  let p := buildAllocationMatchProposal cfg rule target allocations total score in
  RD_Allocation rule = Some cfg ->
  ids_on (primary_on_left b rule) p = [CT_ID target] /\
  ids_on (negb (primary_on_left b rule)) p = AL_TransactionID <$> allocations /\
  MP_RuleID p = RD_ID rule /\ MP_Score p = score.
Proof.
  intros p Ha. unfold primary_on_left, p, buildAllocationMatchProposal. rewrite Ha.
  by destruct (bool_decide _).
Qed.

Lemma storeUsedMaps_ids mctx out p ul ur :
  resolveUsedMaps mctx = (ul, ur) ->
  let mctx' := storeUsedMaps mctx out (markUsed (MP_LeftIDs p) ul) (markUsed (MP_RightIDs p) ur) in
  MC_proposals mctx' = out /\ MC_primaryIsLeft mctx' = MC_primaryIsLeft mctx /\
  (forall id, id ∈ MC_usedPrimary mctx' <-> id ∈ ids_on (MC_primaryIsLeft mctx) p \/ id ∈ MC_usedPrimary mctx) /\
  (forall id, id ∈ MC_usedSecondary mctx' <->
     id ∈ ids_on (negb (MC_primaryIsLeft mctx)) p \/ id ∈ MC_usedSecondary mctx).
Proof.
  unfold resolveUsedMaps, storeUsedMaps, ids_on.
  destruct (MC_primaryIsLeft mctx); intros [= <- <-]; simpl; split_and!; try done; intros id; apply markUsed_elem.
Qed.

Lemma storeUsedMaps_same mctx ul ur :
  resolveUsedMaps mctx = (ul, ur) -> storeUsedMaps mctx (MC_proposals mctx) ul ur = mctx.
Proof.
  unfold resolveUsedMaps, storeUsedMaps. destruct mctx as [? ? ? ? ? []]; simpl; by intros [= <- <-].
Qed.

Lemma addDirectProposal_step rule pc secondary mctx cs maxScore :
  RD_Allocation rule = None -> cs `sublist_of` secondary -> cs <> [] -> (minMatchScore <= maxScore)%Z ->
  (forall c, c ∈ cs -> (CT_ID c ∉ MC_usedSecondary mctx) /\
     exists score, (score <= maxScore)%Z /\ accepts_from (MC_primaryIsLeft mctx) rule pc c score) ->
  step_outcome rule pc secondary mctx (addDirectProposal rule (CT_ID pc) (CT_ID <$> cs) maxScore mctx).
Proof.
  intros Ha Hsub Hne Hmin Hacc. set (b := MC_primaryIsLeft mctx) in *.
  set (p := mkMatchProposal (RD_ID rule) (if b then [CT_ID pc] else CT_ID <$> cs)
              (if b then CT_ID <$> cs else [CT_ID pc]) [] [] maxScore (MC_mode mctx)).
  assert (Hp : addDirectProposal rule (CT_ID pc) (CT_ID <$> cs) maxScore mctx =
    mkMatchContext ({[CT_ID pc]} ∪ MC_usedPrimary mctx) (markUsed (CT_ID <$> cs) (MC_usedSecondary mctx))
      (MC_proposals mctx ++ [p]) (MC_allocFailures mctx) (MC_mode mctx) b).
  { unfold addDirectProposal, resolveProposalIDs, p. fold b. by destruct b. }
  assert (ids_on b p = [CT_ID pc]) as H1 by (by unfold p; destruct b).
  assert (ids_on (negb b) p = CT_ID <$> cs) as H2 by (by unfold p; destruct b).
  assert (primary_on_left b rule = b) as H3 by (unfold primary_on_left; by rewrite Ha).
  rewrite Hp. apply (step_add _ _ _ _ _ p); fold b; try done; rewrite ?H3, ?H2, ?H1.
  - intros id. simpl. rewrite elem_of_union, elem_of_singleton, list_elem_of_singleton. done.
  - intros id. apply markUsed_elem.
  - intros rules primary Hr Hpc. exists rule, pc. rewrite H3, H1, H2. split_and!; try done.
    { by destruct cs. }
    intros id (tx & -> & Htx)%list_elem_of_fmap. destruct (Hacc tx Htx) as (_ & s & ? & ?).
    exists tx, s. split_and!; try done. by eapply elem_of_sublist.
  - done.
  - intros Hnd. by eapply sublist_ids_NoDup.
  - intros id (tx & -> & Htx)%list_elem_of_fmap. by apply Hacc.
Qed.

Lemma tryMatchCandidate_step rule pc secondary mctx mctx' :
  tryMatchCandidate rule pc secondary mctx = Ok mctx' -> step_outcome rule pc secondary mctx mctx'.
Proof.
  unfold tryMatchCandidate. rewrite res_bind_Ok. intros ([[cs ids] maxScore] & Hf & H).
  apply findMatches_spec in Hf as (Hids & Hsub & Hmin & Hacc).
  case_bool_decide as Hnil; [injection H as <-; by apply step_same|].
  assert (Hcs : cs <> []) by (intros ->; by rewrite Hids in Hnil). specialize (Hmin Hcs).
  destruct (resolveUsedMaps mctx) as [ul ur] eqn:Hres.
  unfold applyAllocationProposalDetailed in H. destruct (RD_Allocation rule) as [cfg|] eqn:Ha; cbn [mbind res_bind] in H.
  - rewrite res_bind_Ok in H. destruct H as ([[applied failure] [[out ul'] ur']] & Hb & H).
    rewrite res_bind_Ok in Hb. destruct Hb as (r & Hr & Hb).
    destruct (APR_Failure r) as [f|] eqn:Ef; [|destruct (APR_Proposal r) as [p|] eqn:Ep];
      injection Hb as <- <- <- <- <-.
    1,3: rewrite (storeUsedMaps_same _ _ _ Hres) in H; injection H as <-; by apply step_same.
    injection H as <-. cbn [recordFailure].
    destruct (buildAllocationProposalDetailed_Some _ _ _ _ _ _ _ Ha Hr Ep) as (result & Hres' & Hc & ->).
    destruct (AllocateOneToManyDetailed_ids _ _ _ _ Hres') as (Hnd & Hin & Hne). specialize (Hne Hc).
    destruct (allocation_proposal_ids cfg rule pc (AR_Allocations result) (AR_Total result) maxScore
      (MC_primaryIsLeft mctx) Ha) as (H1 & H2 & H3 & H4).
    destruct (storeUsedMaps_ids mctx (MC_proposals mctx ++ [buildAllocationMatchProposal cfg rule pc
      (AR_Allocations result) (AR_Total result) maxScore])
      (buildAllocationMatchProposal cfg rule pc (AR_Allocations result) (AR_Total result) maxScore) _ _ Hres)
      as (S1 & S2 & S3 & S4).
    eapply step_add; try eassumption.
    + intros rules primary Hrule Hpc. exists rule, pc. rewrite H1, H2, H3, H4. split_and!; try done.
      { by destruct (AR_Allocations result). }
      intros id Hid. destruct (Hin id Hid) as (tx & Htx & <-). destruct (Hacc tx Htx) as (_ & s & ? & ?).
      exists tx, s. split_and!; try done. eapply elem_of_sublist; eassumption.
    + intros Hsec. rewrite H2. apply Hnd. by eapply sublist_ids_NoDup.
    + intros id. rewrite H2. intros Hid. destruct (Hin id Hid) as (tx & Htx & <-). by apply Hacc.
  - rewrite (storeUsedMaps_same _ _ _ Hres) in H. injection H as <-. cbn [recordFailure].
    subst ids. by apply addDirectProposal_step.
Qed.
(** Invariants of the context are established step by step. *)
Lemma processRuleMatches_inv (I : matchContext -> Prop) rule secondary primary mctx mctx' :
  (forall m pc m', pc ∈ primary -> CT_ID pc ∉ MC_usedPrimary m -> I m ->
     step_outcome rule pc secondary m m' -> I m') ->
  I mctx -> processRuleMatches rule secondary mctx primary = Ok mctx' -> I mctx'.
Proof.
  revert mctx. induction primary as [|pc primary IH]; intros mctx Hstep Hi; simpl.
  - by intros [= <-].
  - case_bool_decide as Hu.
    + apply IH; [|done]. intros m pc' m' Hin. apply Hstep. by right.
    + rewrite res_bind_Ok. intros (m & Hm & H). eapply IH; [| |exact H].
      * intros m1 pc' m2 Hin. apply Hstep. by right.
      * eapply Hstep; [by left|exact Hu|exact Hi|]. by apply tryMatchCandidate_step.
Qed.

Lemma matchWithDirectionDetailed_inv (I : matchContext -> Prop) rules primary secondary mode b result :
  (forall rule m pc m', rule ∈ rules -> pc ∈ primary -> CT_ID pc ∉ MC_usedPrimary m -> I m ->
     step_outcome rule pc secondary m m' -> I m') ->
  I (mkMatchContext ∅ ∅ [] ∅ mode b) ->
  matchWithDirectionDetailed rules primary secondary mode b = Ok result ->
  exists mctx, I mctx /\ ER_Proposals result = MC_proposals mctx.
Proof.
  intros Hstep Hi. unfold matchWithDirectionDetailed. rewrite res_bind_Ok.
  intros (mctx & Hm & [= <-]). exists mctx. split; [|done].
  eapply (res_foldl_inv I); [exact Hi| |exact Hm]. intros t rule t' Hrule Ht Hp.
  eapply processRuleMatches_inv; [|exact Ht|exact Hp]. intros m pc m' Hpc. by apply Hstep.
Qed.

Lemma matchWithDirectionDetailed_groups rules primary secondary mode b result :
  matchWithDirectionDetailed rules primary secondary mode b = Ok result ->
  Forall (group_ok b rules primary secondary) (ER_Proposals result).
Proof.
  intros H. eapply (matchWithDirectionDetailed_inv (fun m => MC_primaryIsLeft m = b /\
    Forall (group_ok b rules primary secondary) (MC_proposals m))) in H as (m & [_ ?] & ->); [done| |done].
  intros rule m pc m' Hr Hpc _ [<- Hg] Hs. destruct Hs as [m' _ _ -> ->|m' p -> -> _ _ Hok _ _ _]; [done|].
  split; [done|]. apply Forall_app. split; [done|]. constructor; [by apply Hok|done].
Qed.

Definition aligned (b : bool) (rule : RuleDefinition) : Prop := primary_on_left b rule = b.

Record ctx_inv (b : bool) (m : matchContext) : Prop := {
  ci_side : MC_primaryIsLeft m = b;
  ci_primary : forall id, id ∈ MC_usedPrimary m <-> id ∈ concat (ids_on b <$> MC_proposals m);
  ci_secondary : forall id, id ∈ MC_usedSecondary m <-> id ∈ concat (ids_on (negb b) <$> MC_proposals m);
  ci_primary_NoDup : NoDup (concat (ids_on b <$> MC_proposals m));
  ci_secondary_NoDup : NoDup (concat (ids_on (negb b) <$> MC_proposals m));
}.

Lemma ctx_inv_step b rule m pc secondary m' :
  aligned b rule -> NoDup (CT_ID <$> secondary) -> CT_ID pc ∉ MC_usedPrimary m ->
  ctx_inv b m -> step_outcome rule pc secondary m m' -> ctx_inv b m'.
Proof.
  intros Hal Hnd Hu [<- H1 H2 H3 H4] Hs.
  destruct Hs as [m' E1 E2 E3 E4|m' p E1 E2 E3 E4 _ E5 E6 E7].
  - split; by rewrite ?E1, ?E2, ?E3.
  - unfold aligned in Hal. rewrite Hal in *. specialize (E6 Hnd).
    split; [done|..]; rewrite ?E1, ?fmap_app, ?concat_app; simpl; rewrite ?app_nil_r, ?E5 in *.
    + intros id. rewrite E3, elem_of_app, H1. set_solver.
    + intros id. rewrite E4, elem_of_app, H2. tauto.
    + apply NoDup_app. split_and!; [done| |apply NoDup_singleton].
      intros id Hid ->%list_elem_of_singleton. by apply Hu, H1.
    + apply NoDup_app. split_and!; [done| |done]. intros id Hid%H2 Hc%E7. done.
Qed.

Lemma matchWithDirectionDetailed_disjoint rules primary secondary mode b result :
  (forall rule, rule ∈ rules -> aligned b rule) -> NoDup (CT_ID <$> secondary) ->
  matchWithDirectionDetailed rules primary secondary mode b = Ok result ->
  NoDup (left_ids (ER_Proposals result)) /\ NoDup (right_ids (ER_Proposals result)).
Proof.
  intros Hal Hnd H. eapply (matchWithDirectionDetailed_inv (ctx_inv b)) in H as (m & Hm & ->).
  - unfold left_ids, right_ids. destruct Hm as [_ _ _ H1 H2]. by destruct b.
  - intros rule m pc m' Hr Hpc Hu Hi Hs. eapply ctx_inv_step; eauto.
  - split; simpl; try done; try set_solver; apply NoDup_nil_2.
Qed.

Lemma Execute1vN_run engine rules left right ps :
  Execute1vN engine rules left right = Ok ps ->
  exists result, matchWithDirectionDetailed (SortRules rules) (SortTransactions left)
    (SortTransactions right) "1:N" true = Ok result /\ ps = ER_Proposals result.
Proof.
  unfold Execute1vN. rewrite res_bind_Ok. intros (result & H & [= <-]). exists result. split; [|done].
  unfold Execute1vNDetailed in H. destruct engine; [|done]. by destruct (candidateSetTooLarge _ _ _ _).
Qed.

Lemma ExecuteNv1_run engine rules left right ps :
  ExecuteNv1 engine rules left right = Ok ps ->
  exists result, matchWithDirectionDetailed (SortRules rules) (SortTransactions right)
    (SortTransactions left) "N:1" false = Ok result /\ ps = ER_Proposals result.
Proof.
  unfold ExecuteNv1. rewrite res_bind_Ok. intros (result & H & [= <-]). exists result. split; [|done].
  unfold ExecuteNv1Detailed in H. destruct engine; [|done]. by destruct (candidateSetTooLarge _ _ _ _).
Qed.

Lemma group_ok_sorted b rules primary secondary p :
  group_ok b (SortRules rules) (SortTransactions primary) (SortTransactions secondary) p ->
  group_ok b rules primary secondary p.
Proof.
  intros (rule & pc & Hr%stable_sort_elem_of & Hp%stable_sort_elem_of & ? & ? & ? & ? & Hids).
  exists rule, pc. split_and!; try done. intros id Hid.
  destruct (Hids id Hid) as (sc & s & Hsc%stable_sort_elem_of & ? & ? & ?). eauto 10.
Qed.

(** C23: in a 1:N pass every proposal joins one left transaction with right
    transactions its rule accepts, under the best of their scores (at least
    60); when no rule allocates right-to-left, the single transaction is on
    the left and no transaction takes part in two proposals.  Dually for N:1. *)
Theorem ExecuteMany_sound engine rules left right ps :
  NoDup (CT_ID <$> left) -> NoDup (CT_ID <$> right) ->
  (Execute1vN engine rules left right = Ok ps ->
   Forall (group_ok true rules left right) ps /\
   ((forall rule, rule ∈ rules -> aligned true rule) -> NoDup (left_ids ps) /\ NoDup (right_ids ps))) /\
  (ExecuteNv1 engine rules left right = Ok ps ->
   Forall (group_ok false rules right left) ps /\
   ((forall rule, rule ∈ rules -> aligned false rule) -> NoDup (left_ids ps) /\ NoDup (right_ids ps))).
Proof.
  intros Hl Hr. split.
  - intros (result & H & ->)%Execute1vN_run. split.
    + eapply Forall_impl; [by eapply matchWithDirectionDetailed_groups|]. intros p. apply group_ok_sorted.
    + intros Hal. eapply matchWithDirectionDetailed_disjoint; [| |exact H].
      * intros rule Hin%stable_sort_elem_of. by apply Hal.
      * unfold SortTransactions. by rewrite stable_sort_perm.
  - intros (result & H & ->)%ExecuteNv1_run. split.
    + eapply Forall_impl; [by eapply matchWithDirectionDetailed_groups|]. intros p. apply group_ok_sorted.
    + intros Hal. eapply matchWithDirectionDetailed_disjoint; [| |exact H].
      * intros rule Hin%stable_sort_elem_of. by apply Hal.
      * unfold SortTransactions. by rewrite stable_sort_perm.
Qed.

(** C39: a 1:N pass does not check the allocation direction of its rules.  When
    every rule allocates right-to-left, the left identifiers of each proposal
    are those of right transactions and its right identifier is that of a
    left transaction. *)
Theorem Execute1vN_reversed_sides engine rules left right ps :
  (forall rule, rule ∈ rules -> exists cfg, RD_Allocation rule = Some cfg /\
     AC_Direction cfg = AllocationDirectionRightToLeft) ->
  Execute1vN engine rules left right = Ok ps ->
  Forall (fun p => (exists l, l ∈ left /\ MP_RightIDs p = [CT_ID l]) /\
    forall id, id ∈ MP_LeftIDs p -> exists r, r ∈ right /\ CT_ID r = id) ps.
Proof.
  intros Hrules (result & H & ->)%Execute1vN_run.
  eapply Forall_impl; [by eapply matchWithDirectionDetailed_groups|].
  intros p (rule & pc & Hr & Hp & _ & H1 & _ & _ & H2)%group_ok_sorted.
  destruct (Hrules rule Hr) as (cfg & Ha & Hd). unfold primary_on_left in *. rewrite Ha, Hd in *.
  simpl in *. split; [eauto|]. intros id Hid. destruct (H2 id Hid) as (sc & ? & ? & ? & _). eauto.
Qed.
End resultsMany.

(** ** Concrete instances *)
Definition sample_engine : option Engine := Some NewEngine.
Definition sample_exact_rule (alloc : option (@AllocationConfig model_decimal))
    : @RuleDefinition model_uuid model_decimal :=
  mkRuleDefinition (U:=model_uuid) (D:=model_decimal) "exact" 1 "EXACT"
    (Some (mkExactConfig false true true DatePrecisionDay true true true false false 100 0)) None None alloc.
Definition sample_pair_rule : @RuleDefinition model_uuid model_decimal :=
  mkRuleDefinition (U:=model_uuid) (D:=model_decimal) "pair" 2 "EXACT" (Some sample_exact) None None None.
Definition sample_left : list (@CandidateTransaction model_uuid model_decimal) :=
  [sample_tx "l1" 100 1; sample_tx "l2" 100 2].
Definition sample_right : list (@CandidateTransaction model_uuid model_decimal) :=
  [sample_tx "r1" 100 2; sample_tx "r2" 60 1; sample_tx "r3" 40 1; sample_tx "r4" 100 1].
Definition sample_1v1 : list (@MatchProposal model_uuid model_decimal) :=
  from_ok [] (Execute1v1 (N:=model_unicode) sample_engine [sample_pair_rule] sample_left sample_right).

Lemma sample_1v1_ok :
  is_Ok (Execute1v1 (N:=model_unicode) sample_engine [sample_pair_rule] sample_left sample_right) = true.
Proof. vm_compute. reflexivity. Qed.

Lemma Execute1v1_sound_witness :
  NoDup (left_ids sample_1v1) /\ left_ids sample_1v1 = ["l1"; "l2"].
Proof.
  split; [|vm_compute; reflexivity].
  apply (Execute1v1_sound (L:=model_decimal_laws) (N:=model_unicode) sample_engine [sample_pair_rule]
    sample_left sample_right sample_1v1).
  apply from_ok_spec. exact sample_1v1_ok.
Defined.

Lemma Execute1v1_stable_witness :
  exists p rule', p ∈ sample_1v1 /\ rule' ∈ [sample_pair_rule] /\ MP_RuleID p = RD_ID rule' /\
    rule_less sample_pair_rule rule' = false /\ (("l1" : uuid) ∈ MP_LeftIDs p \/ ("r4" : uuid) ∈ MP_RightIDs p).
Proof.
  apply (Execute1v1_stable (L:=model_decimal_laws) (N:=model_unicode) sample_engine [sample_pair_rule]
    sample_left sample_right sample_1v1 sample_pair_rule (sample_tx "l1" 100 1) (sample_tx "r4" 100 1) 100).
  - apply from_ok_spec. exact sample_1v1_ok.
  - left.
  - left.
  - right. right. right. left.
  - split; [vm_compute; reflexivity|by vm_compute].
Defined.

Lemma Execute_order_independent_witness :
  Execute1v1 (N:=model_unicode) sample_engine [sample_pair_rule] sample_left sample_right =
  Execute1v1 (N:=model_unicode) sample_engine [sample_pair_rule] (rev sample_left) (rev sample_right).
Proof.
  apply (Execute_order_independent (UL:=model_uuid_laws) (L:=model_decimal_laws) (N:=model_unicode)).
  - apply (bool_decide_unpack _). vm_compute. exact I.
  - apply (bool_decide_unpack _). vm_compute. exact I.
  - apply (bool_decide_unpack _). vm_compute. exact I.
  - reflexivity.
  - apply Permutation_rev.
  - apply Permutation_rev.
Defined.

Definition sample_1vN : list (@MatchProposal model_uuid model_decimal) :=
  from_ok [] (Execute1vN (N:=model_unicode) sample_engine [sample_exact_rule (Some (sample_allocation true))]
                sample_left sample_right).

Lemma ExecuteMany_sound_witness :
  NoDup (right_ids sample_1vN) /\ right_ids sample_1vN = ["r3"; "r2"; "r1"].
Proof.
  split; [|vm_compute; reflexivity].
  refine (proj2 (proj2 (proj1 (ExecuteMany_sound (UL:=model_uuid_laws) (L:=model_decimal_laws) (N:=model_unicode)
    sample_engine [sample_exact_rule (Some (sample_allocation true))] sample_left sample_right sample_1vN
    _ _) _) _)).
  - apply (bool_decide_unpack _). vm_compute. exact I.
  - apply (bool_decide_unpack _). vm_compute. exact I.
  - apply from_ok_spec. vm_compute. reflexivity.
  - intros rule ->%list_elem_of_singleton. vm_compute. reflexivity.
Defined.

(** The same candidates under a right-to-left rule: the right transactions
    [r2] and [r3] appear as left identifiers, and two left transactions of the
    same day both claim them. *)
Definition sample_reversed : @AllocationConfig model_decimal :=
  mkAllocationConfig (D:=model_decimal) false AllocationDirectionRightToLeft
    AllocationToleranceAbsolute 0 false.
Definition sample_left_reversed : list (@CandidateTransaction model_uuid model_decimal) :=
  [sample_tx "l1" 100 1; sample_tx "l2" 100 1].
Definition sample_right_reversed : list (@CandidateTransaction model_uuid model_decimal) :=
  [sample_tx "r2" 60 1; sample_tx "r3" 40 1].
Definition sample_reversed_run : list (@MatchProposal model_uuid model_decimal) :=
  from_ok [] (Execute1vN (N:=model_unicode) sample_engine [sample_exact_rule (Some sample_reversed)]
                sample_left_reversed sample_right_reversed).

Lemma Execute1vN_reversed_sides_witness :
  Forall (fun p => (exists l, l ∈ sample_left_reversed /\ MP_RightIDs p = [CT_ID l]) /\
    forall id, id ∈ MP_LeftIDs p -> exists r, r ∈ sample_right_reversed /\ CT_ID r = id) sample_reversed_run /\
  (MP_LeftIDs <$> sample_reversed_run) = [["r3"; "r2"]; ["r3"; "r2"]].
Proof.
  split; [|vm_compute; reflexivity].
  apply (Execute1vN_reversed_sides (L:=model_decimal_laws) (N:=model_unicode) sample_engine
    [sample_exact_rule (Some sample_reversed)]).
  - intros rule ->%list_elem_of_singleton. exists sample_reversed. split; reflexivity.
  - apply from_ok_spec. vm_compute. reflexivity.
Defined.
