(* ===== verification/EngineDual.v ===== *)
(** * The N:1 pass mirrors the 1:N pass

    [ExecuteNv1Detailed] and [Execute1vNDetailed] of [engine.go] share one
    traversal.  Reading every rule from the other side (percentage base,
    date-lag direction and allocation direction swapped), running N:1 on
    swapped inputs gives exactly the 1:N proposals with their sides swapped. *)
From S2P Require Import GoLib GoLibModel FeeStructure FeeSchedule FeeRules MatchTypes Evaluators.
From S2P Require Import Confidence Allocate Engine.
From Stdlib Require Import QArith Qabs Qminmax Lqa.

Section mirror.
  Context {U : UUIDLib} {D : DecimalLib} {N : UnicodeLib}.

Definition mirror_allocation_direction (d : AllocationDirection) : AllocationDirection :=
  if bool_decide (d = AllocationDirectionLeftToRight) then AllocationDirectionRightToLeft
  else if bool_decide (d = AllocationDirectionRightToLeft) then AllocationDirectionLeftToRight
  else d.

Definition mirror_allocation (cfg : AllocationConfig) : AllocationConfig :=
  mkAllocationConfig (AC_AllowPartial cfg) (mirror_allocation_direction (AC_Direction cfg))
    (AC_ToleranceMode cfg) (AC_ToleranceValue cfg) (AC_UseBaseAmount cfg).

Definition mirror_rule (rule : RuleDefinition) : RuleDefinition :=
  mkRuleDefinition (RD_ID rule) (RD_Priority rule) (RD_Type rule) (RD_Exact rule)
    (mirror_tolerance <$> RD_Tolerance rule) (mirror_date_lag <$> RD_DateLag rule)
    (mirror_allocation <$> RD_Allocation rule).

Definition mirror_mode (mode : string) : string :=
  if bool_decide (mode = "1:N") then "N:1" else if bool_decide (mode = "N:1") then "1:N" else mode.

Definition mirror_proposal (p : MatchProposal) : MatchProposal :=
  mkMatchProposal (MP_RuleID p) (MP_RightIDs p) (MP_LeftIDs p) (MP_RightAllocations p)
    (MP_LeftAllocations p) (MP_Score p) (mirror_mode (MP_Mode p)).

Definition mirror_context (m : matchContext) : matchContext :=
  mkMatchContext (MC_usedPrimary m) (MC_usedSecondary m) (mirror_proposal <$> MC_proposals m)
    (MC_allocFailures m) (mirror_mode (MC_mode m)) (negb (MC_primaryIsLeft m)).

Definition mirror_result (r : EngineResult) : EngineResult :=
  mkEngineResult (mirror_proposal <$> ER_Proposals r) (ER_AllocFailures r).

Definition res_map {E A B} (f : A -> B) (m : res E A) : res E B := x ← m; Ok (f x).
End mirror.

Section results.
  Context {U : UUIDLib} {D : DecimalLib} {L : DecimalLaws D} {N : UnicodeLib} {NL : UnicodeLaws N}.

Lemma evalByType_mirror rule left right :
  evalByType (mirror_rule rule) right left = evalByType rule left right.
Proof.
  unfold evalByType, mirror_rule. cbn [RD_Exact RD_Tolerance RD_DateLag].
  destruct (RD_Exact rule) as [ec|].
  { rewrite (ExactMatch_sym right left), ScoreExactConfidence_sym.
    destruct (ExactMatch left right (Some ec)) as [[]|]; done. }
  destruct (RD_Tolerance rule) as [tc|]; cbn [fmap option_fmap option_map].
  { rewrite <- (ToleranceMatch_mirror left right (Some tc)),
      <- (ScoreToleranceConfidence_mirror (Some tc)). done. }
  destruct (RD_DateLag rule) as [dc|]; cbn [fmap option_fmap option_map]; [|done].
  rewrite <- (DateLagMatch_mirror left right (Some dc)),
    <- (ScoreDateLagConfidence_mirror (Some dc)). done.
Qed.

Lemma allocateCandidates_loop_mirror cfg currency source allocs remaining sum candidates :
  allocateCandidates_loop (mirror_allocation cfg) currency source allocs remaining sum candidates =
  allocateCandidates_loop cfg currency source allocs remaining sum candidates.
Proof.
  revert allocs remaining sum; induction candidates as [|c candidates IH]; intros; [done|].
  cbn [allocateCandidates_loop].
  change (tryAllocateCandidate c remaining (mirror_allocation cfg) currency)
    with (tryAllocateCandidate c remaining cfg currency).
  destruct (tryAllocateCandidate c remaining cfg currency) as [[[a r]|]|]; cbn [mbind res_bind]; try done.
  change (withinAllocationTolerance r source (mirror_allocation cfg))
    with (withinAllocationTolerance r source cfg). by rewrite IH.
Qed.

Lemma mirror_direction_valid d :
  (bool_decide (mirror_allocation_direction d = AllocationDirectionLeftToRight) =
   bool_decide (d = AllocationDirectionRightToLeft)) /\
  (bool_decide (mirror_allocation_direction d = AllocationDirectionRightToLeft) =
   bool_decide (d = AllocationDirectionLeftToRight)).
Proof.
  unfold mirror_allocation_direction. repeat (case_bool_decide; subst; try done).
Qed.

Lemma validateAllocationConfig_mirror cfg :
  validateAllocationConfig (mirror_allocation <$> cfg) = res_map mirror_allocation (validateAllocationConfig cfg).
Proof.
  destruct cfg as [cfg|]; [|done]. cbn. destruct (mirror_direction_valid (AC_Direction cfg)) as [-> ->].
  destruct (_ && _); [done|]. rewrite (andb_comm (negb (bool_decide (AC_Direction cfg = AllocationDirectionRightToLeft)))).
  destruct (_ && _); [done|]. by destruct (dec_IsNegative _).
Qed.

Lemma AllocateOneToManyDetailed_mirror target candidates cfg :
  AllocateOneToManyDetailed target candidates (mirror_allocation <$> cfg) =
  AllocateOneToManyDetailed target candidates cfg.
Proof.
  unfold AllocateOneToManyDetailed. rewrite validateAllocationConfig_mirror.
  destruct (validateAllocationConfig cfg) as [c|]; [|done]. cbn [res_map mbind res_bind].
  change (allocationAmountDetailed target (mirror_allocation c)) with (allocationAmountDetailed target c).
  change (resolveAllocationCurrency target (mirror_allocation c)) with (resolveAllocationCurrency target c).
  case_bool_decide; [done|]. destruct (_ <? _)%nat; [done|].
  destruct (allocationAmountDetailed target c) as [source [f|]]; [done|].
  destruct (dec_IsNegative source), (dec_IsZero source); try done.
  destruct (resolveAllocationCurrency target c) as [currency [f|]]; [done|].
  unfold allocateCandidates. by rewrite allocateCandidates_loop_mirror.
Qed.

Definition mirror_proposal_result (r : AllocationProposalResult) : AllocationProposalResult :=
  mkAllocationProposalResult (mirror_proposal <$> APR_Proposal r) (APR_Failure r).

Lemma buildAllocationMatchProposal_mirror cfg rule target allocs total score :
  AC_Direction cfg = AllocationDirectionLeftToRight \/ AC_Direction cfg = AllocationDirectionRightToLeft ->
  buildAllocationMatchProposal (mirror_allocation cfg) (mirror_rule rule) target allocs total score =
  mirror_proposal (buildAllocationMatchProposal cfg rule target allocs total score).
Proof. unfold buildAllocationMatchProposal. cbn. intros [E|E]; rewrite E; done. Qed.

Lemma buildAllocationProposalDetailed_mirror rule target candidates score :
  buildAllocationProposalDetailed (mirror_rule rule) target candidates score =
  res_map mirror_proposal_result (buildAllocationProposalDetailed rule target candidates score).
Proof.
  unfold buildAllocationProposalDetailed. cbn [mirror_rule RD_Allocation].
  destruct (RD_Allocation rule) as [cfg|]; cbn [fmap option_fmap option_map]; [|done].
  case_bool_decide; [done|]. pose proof (validateAllocationConfig_mirror (Some cfg)) as Hv.
  cbn [fmap option_fmap option_map] in Hv. rewrite Hv.
  destruct (validateAllocationConfig (Some cfg)) as [c|] eqn:Ev; [|done]. cbn [res_map mbind res_bind].
  apply validateAllocationConfig_Ok in Ev as (-> & _ & _ & Hd). unfold allocateByRuleDetailed.
  cbn [mirror_allocation AC_Direction]. destruct (mirror_direction_valid (AC_Direction cfg)) as [-> ->].
  rewrite (orb_comm (bool_decide (AC_Direction cfg = AllocationDirectionRightToLeft))).
  destruct (_ || _); [|done]. pose proof (AllocateOneToManyDetailed_mirror target candidates (Some cfg)) as Ha.
  cbn [fmap option_fmap option_map] in Ha. rewrite Ha.
  destruct (AllocateOneToManyDetailed target candidates (Some cfg)) as [r|]; [|done]. cbn [res_map mbind res_bind].
  destruct (AR_Failure r); [done|]. destruct (AR_Complete r); [|done]. cbn [negb].
  by rewrite buildAllocationMatchProposal_mirror.
Qed.

Lemma collectMatches_loop_mirror rule primary used b accC accI accS candidates :
  collectMatches_loop (mirror_rule rule) primary used (negb b) accC accI accS candidates =
  collectMatches_loop rule primary used b accC accI accS candidates.
Proof.
  revert accC accI accS; induction candidates as [|c candidates IH]; intros; [done|].
  cbn [collectMatches_loop]. rewrite !IH.
  assert ((if negb b then evalByType (mirror_rule rule) primary c else evalByType (mirror_rule rule) c primary) =
          (if b then evalByType rule primary c else evalByType rule c primary)) as ->.
  { destruct b; apply evalByType_mirror. }
  case_bool_decide; [done|].
  destruct (if b then _ else _) as [[matched score]|]; cbn [mbind res_bind]; [|done]. by rewrite IH.
Qed.

Lemma findMatches_mirror rule pc secondary m :
  findMatches (mirror_rule rule) pc secondary (mirror_context m) = findMatches rule pc secondary m.
Proof.
  unfold findMatches, findMatchesForLeft, findMatchesForRight, collectMatches. cbn [mirror_context MC_primaryIsLeft MC_usedSecondary].
  pose proof (collectMatches_loop_mirror rule pc (MC_usedSecondary m) (MC_primaryIsLeft m) [] [] 0 secondary) as H.
  by destruct (MC_primaryIsLeft m).
Qed.

Lemma resolveUsedMaps_mirror m :
  resolveUsedMaps (mirror_context m) = let '(l, r) := resolveUsedMaps m in (r, l).
Proof. unfold resolveUsedMaps. cbn. by destruct (MC_primaryIsLeft m). Qed.

Lemma storeUsedMaps_mirror m ps l r :
  storeUsedMaps (mirror_context m) (mirror_proposal <$> ps) r l = mirror_context (storeUsedMaps m ps l r).
Proof. unfold storeUsedMaps, mirror_context. cbn. by destruct (MC_primaryIsLeft m). Qed.

Lemma recordFailure_mirror f m : recordFailure f (mirror_context m) = mirror_context (recordFailure f m).
Proof. by destruct f. Qed.

Lemma addDirectProposal_mirror rule pid ids score m :
  addDirectProposal (mirror_rule rule) pid ids score (mirror_context m) =
  mirror_context (addDirectProposal rule pid ids score m).
Proof.
  unfold addDirectProposal, resolveProposalIDs, mirror_context. cbn.
  destruct (MC_primaryIsLeft m); cbn; by rewrite fmap_app.
Qed.

Lemma applyAllocationProposalDetailed_mirror rule pc cs score ps l r :
  applyAllocationProposalDetailed (mirror_rule rule) pc cs score (mirror_proposal <$> ps) r l =
  res_map (fun '(applied, failure, (ps, l, r)) => (applied, failure, (mirror_proposal <$> ps, r, l)))
    (applyAllocationProposalDetailed rule pc cs score ps l r).
Proof.
  unfold applyAllocationProposalDetailed. rewrite buildAllocationProposalDetailed_mirror.
  cbn [mirror_rule RD_Allocation]. destruct (RD_Allocation rule); cbn [fmap option_fmap option_map]; [|done].
  destruct (buildAllocationProposalDetailed rule pc cs score) as [[p f]|]; [|done]. cbn.
  destruct f; [done|]. destruct p; [|done]. cbn. by rewrite fmap_app.
Qed.

Lemma tryMatchCandidate_mirror rule pc secondary m :
  tryMatchCandidate (mirror_rule rule) pc secondary (mirror_context m) =
  res_map mirror_context (tryMatchCandidate rule pc secondary m).
Proof.
  unfold tryMatchCandidate. rewrite findMatches_mirror, resolveUsedMaps_mirror.
  destruct (findMatches rule pc secondary m) as [[[cs ids] score]|]; [|done]. cbn [res_map mbind res_bind].
  case_bool_decide; [done|]. destruct (resolveUsedMaps m) as [ul ur].
  cbn [mirror_context MC_proposals]. rewrite applyAllocationProposalDetailed_mirror.
  destruct (applyAllocationProposalDetailed _ _ _ _ _ _ _) as [[[applied f] [[ps l] r]]|]; [|done].
  cbn [res_map mbind res_bind]. fold (mirror_context m). rewrite storeUsedMaps_mirror, recordFailure_mirror.
  destruct applied; [done|]. cbn [mirror_rule RD_Allocation].
  destruct (RD_Allocation rule); cbn [fmap option_fmap option_map]; [done|].
  fold (mirror_rule rule). by rewrite addDirectProposal_mirror.
Qed.

Lemma processRuleMatches_mirror rule secondary primary m :
  processRuleMatches (mirror_rule rule) secondary (mirror_context m) primary =
  res_map mirror_context (processRuleMatches rule secondary m primary).
Proof.
  revert m; induction primary as [|pc primary IH]; intros m; [done|]. cbn [processRuleMatches].
  rewrite IH. cbn [mirror_context MC_usedPrimary]. case_bool_decide; [done|].
  fold (mirror_context m). rewrite tryMatchCandidate_mirror.
  destruct (tryMatchCandidate rule pc secondary m); [|done]. cbn [res_map mbind res_bind]. apply IH.
Qed.

Lemma matchWithDirectionDetailed_mirror rules primary secondary mode b :
  matchWithDirectionDetailed (mirror_rule <$> rules) primary secondary (mirror_mode mode) (negb b) =
  res_map mirror_result (matchWithDirectionDetailed rules primary secondary mode b).
Proof.
  unfold matchWithDirectionDetailed.
  change (mkMatchContext ∅ ∅ [] ∅ (mirror_mode mode) (negb b)) with
    (mirror_context (mkMatchContext ∅ ∅ [] ∅ mode b)).
  generalize (mkMatchContext ∅ ∅ [] ∅ mode b) as m.
  induction rules as [|rule rules IH]; intros m; [done|]. cbn [fmap list_fmap res_foldl].
  rewrite processRuleMatches_mirror. destruct (processRuleMatches rule secondary m primary) as [m'|]; [|done].
  cbn [res_map mbind res_bind]. apply IH.
Qed.

Lemma SortRules_mirror rules : SortRules (mirror_rule <$> rules) = mirror_rule <$> SortRules rules.
Proof. by apply stable_sort_fmap. Qed.

(** N:1 matching is 1:N matching read from the other side: on swapped
    inputs with mirrored rules, [ExecuteNv1Detailed] succeeds or fails exactly
    as [Execute1vNDetailed] does and returns the same proposals with left and
    right exchanged, and the same allocation failures. *)
Theorem ExecuteNv1_mirrors_1vN engine rules left right :
  ExecuteNv1Detailed engine (mirror_rule <$> rules) right left =
  res_map mirror_result (Execute1vNDetailed engine rules left right).
Proof.
  unfold ExecuteNv1Detailed, Execute1vNDetailed. destruct engine as [e|]; [|done].
  assert (candidateSetTooLarge e (mirror_rule <$> rules) right left = candidateSetTooLarge e rules left right) as ->.
  { unfold candidateSetTooLarge, slice_len. rewrite length_fmap, <- !orb_assoc. f_equal. apply orb_comm. }
  destruct (candidateSetTooLarge e rules left right); [done|]. rewrite SortRules_mirror.
  apply (matchWithDirectionDetailed_mirror (SortRules rules) (SortTransactions left) (SortTransactions right) "1:N" true).
Qed.
End results.

Lemma ExecuteNv1_mirrors_1vN_witness :
  ExecuteNv1Detailed (N:=model_unicode) sample_engine
    (mirror_rule <$> [sample_exact_rule (Some (sample_allocation true))]) sample_right sample_left =
  res_map mirror_result (Execute1vNDetailed (N:=model_unicode) sample_engine
    [sample_exact_rule (Some (sample_allocation true))] sample_left sample_right).
Proof. apply (ExecuteNv1_mirrors_1vN (L:=model_decimal_laws) (NL:=model_unicode_laws)). Defined.
