(* ===== verification/MatchEntities.v ===== *)
(** * Entities of the matching domain

    Models internal/matching/domain/entities: [match_group.go],
    [match_item.go], [match_run.go], [adjustment.go], [fee_variance.go], and
    the status and mode value objects.  [time.Now()] and [uuid.New()] are
    arguments.  Methods with a pointer receiver are computations in [st]. *)
From S2P Require Import GoLib GoLibModel FeeStructure FeeSchedule FeeRules MatchTypes Evaluators.
From S2P Require Import Confidence.
From Stdlib Require Import QArith Qabs Lqa.

(** ** Value objects *)
Definition MatchGroupStatus := string.
Definition MatchGroupStatusProposed : MatchGroupStatus := "PROPOSED".
Definition MatchGroupStatusConfirmed : MatchGroupStatus := "CONFIRMED".
Definition MatchGroupStatusRejected : MatchGroupStatus := "REJECTED".
Definition MatchGroupStatusRevoked : MatchGroupStatus := "REVOKED".
Definition MatchGroupStatus_IsValid (s : MatchGroupStatus) : bool :=
  bool_decide (s ∈ [MatchGroupStatusProposed; MatchGroupStatusConfirmed; MatchGroupStatusRejected;
                    MatchGroupStatusRevoked]).

Definition MatchRunMode := string.
Definition MatchRunModeDryRun : MatchRunMode := "DRY_RUN".
Definition MatchRunModeCommit : MatchRunMode := "COMMIT".
Definition MatchRunMode_IsValid (m : MatchRunMode) : bool :=
  bool_decide (m ∈ [MatchRunModeDryRun; MatchRunModeCommit]).

Definition MatchRunStatus := string.
Definition MatchRunStatusProcessing : MatchRunStatus := "PROCESSING".
Definition MatchRunStatusCompleted : MatchRunStatus := "COMPLETED".
Definition MatchRunStatusFailed : MatchRunStatus := "FAILED".
Definition MatchRunStatus_IsValid (s : MatchRunStatus) : bool :=
  bool_decide (s ∈ [MatchRunStatusProcessing; MatchRunStatusCompleted; MatchRunStatusFailed]).

(** Sentinel errors, and assertion failures by the label that wraps them. *)
Inductive MatchError : Type :=
| ErrAssert (label : string)
| ErrInvalidMatchGroupStatus | ErrInvalidMatchRunMode | ErrInvalidMatchRunStatus
| ErrMatchGroupMustBeProposedToConfirm | ErrMatchGroupMustBeProposedToReject
| ErrMatchGroupMustBeConfirmedToRevoke | ErrMatchGroupRevocationReasonRequired
| ErrMatchRunMustBeProcessingToComplete | ErrMatchRunMustBeProcessingToFail
| ErrFailureReasonRequired.

Definition ParseMatchGroupStatus (value : string) : res MatchError MatchGroupStatus :=
  if negb (MatchGroupStatus_IsValid value) then Err ErrInvalidMatchGroupStatus else Ok value.
Definition ParseMatchRunMode (value : string) : res MatchError MatchRunMode :=
  if negb (MatchRunMode_IsValid value) then Err ErrInvalidMatchRunMode else Ok value.
Definition ParseMatchRunStatus (value : string) : res MatchError MatchRunStatus :=
  if negb (MatchRunStatus_IsValid value) then Err ErrInvalidMatchRunStatus else Ok value.

Definition minMatchConfidence : Z := 60.
Definition autoConfirmConfidence : Z := 90.
Definition minMatchItems : nat := 2.
Definition maxMatchItems : nat := 500.

Section entities.
  Context {U : UUIDLib} {D : DecimalLib} {A : AssertLib}.

(** ** [match_item.go] *)
Record MatchItem : Type := mkMatchItem {
  MI_ID : uuid;
  MI_MatchGroupID : uuid;
  MI_TransactionID : uuid;
  MI_AllocatedAmount : decimal;
  MI_AllocatedCurrency : string;
  MI_ExpectedAmount : decimal;
  MI_AllowPartial : bool;
  MI_CreatedAt : Time;
  MI_UpdatedAt : Time;
}.

Definition newMatchItem (newID : uuid) (now : Time) (transactionID : uuid) (allocatedAmount : decimal)
    (currency : string) (expectedAmount : decimal) (allowPartial : bool) : res MatchError MatchItem :=
  _ ← ensure (assert_That (negb (bool_decide (transactionID = uuid_Nil)))) (ErrAssert "match item transaction id");
  _ ← ensure (assert_That (negb (dec_IsNegative allocatedAmount))) (ErrAssert "match item allocated amount");
  _ ← ensure (assert_That (negb (dec_IsNegative expectedAmount))) (ErrAssert "match item expected amount");
  _ ← ensure (assert_That (negb (dec_GreaterThan allocatedAmount expectedAmount)))
        (ErrAssert "match item allocation bounds");
  _ ← (if negb allowPartial
       then ensure (assert_That (dec_Equal allocatedAmount expectedAmount)) (ErrAssert "match item full allocation")
       else Ok tt);
  _ ← ensure (assert_NotEmpty currency) (ErrAssert "match item currency");
  Ok (mkMatchItem newID uuid_Nil transactionID allocatedAmount currency expectedAmount allowPartial now now).

Definition NewMatchItem (newID : uuid) (now : Time) (transactionID : uuid) (allocatedAmount : decimal)
    (currency : string) (expectedAmount : decimal) : res MatchError MatchItem :=
  newMatchItem newID now transactionID allocatedAmount currency expectedAmount false.

Definition NewMatchItemWithPolicy (newID : uuid) (now : Time) (transactionID : uuid)
    (allocatedAmount : decimal) (currency : string) (expectedAmount : decimal) (allowPartial : bool)
    : res MatchError MatchItem :=
  newMatchItem newID now transactionID allocatedAmount currency expectedAmount allowPartial.

Definition ApplyAllocation (now : Time) (amount : decimal) (requireFullCoverage : bool)
    : st MatchItem MatchError unit :=
  item ← st_get;
  _ ← st_ensure (assert_NotNil (Some item)) (ErrAssert "match item required");
  _ ← st_ensure (assert_That (negb (dec_IsNegative amount))) (ErrAssert "match item allocation amount");
  let requireFull := requireFullCoverage || negb (MI_AllowPartial item) in
  _ ← (if requireFull
       then st_ensure (assert_That (dec_Equal amount (MI_ExpectedAmount item))) (ErrAssert "match item full allocation")
       else st_ensure (assert_That (negb (dec_GreaterThan amount (MI_ExpectedAmount item))))
              (ErrAssert "match item allocation bounds"));
  st_modify (fun item => mkMatchItem (MI_ID item) (MI_MatchGroupID item) (MI_TransactionID item) amount
    (MI_AllocatedCurrency item) (MI_ExpectedAmount item) (MI_AllowPartial item) (MI_CreatedAt item) now).

(** ** [match_group.go] *)
Record MatchGroup : Type := mkMatchGroup {
  MG_ID : uuid;
  MG_ContextID : uuid;
  MG_RunID : uuid;
  MG_RuleID : uuid;
  MG_Confidence : ConfidenceScore;
  MG_Status : MatchGroupStatus;
  MG_Items : list MatchItem;
  MG_CreatedAt : Time;
  MG_UpdatedAt : Time;
  MG_RejectedReason : option string;
  MG_ConfirmedAt : option Time;
}.

Definition setMatchGroupID (groupID : uuid) (item : MatchItem) : MatchItem :=
  mkMatchItem (MI_ID item) groupID (MI_TransactionID item) (MI_AllocatedAmount item)
    (MI_AllocatedCurrency item) (MI_ExpectedAmount item) (MI_AllowPartial item) (MI_CreatedAt item)
    (MI_UpdatedAt item).

(** The slice holds pointers; a nil one is an error. *)
Definition NewMatchGroup (groupID : uuid) (now : Time) (contextID runID ruleID : uuid)
    (confidence : ConfidenceScore) (items : list (option MatchItem)) : res MatchError MatchGroup :=
  _ ← ensure (assert_That (negb (bool_decide (contextID = uuid_Nil)))) (ErrAssert "match group context id");
  _ ← ensure (assert_That (negb (bool_decide (runID = uuid_Nil)))) (ErrAssert "match group run id");
  _ ← ensure (assert_That ((0 <=? CS_value confidence)%Z && (CS_value confidence <=? 100)%Z))
        (ErrAssert "match group confidence bounds");
  _ ← ensure (assert_That (minMatchConfidence <=? CS_value confidence)%Z)
        (ErrAssert "match group confidence threshold");
  _ ← ensure (assert_That (minMatchItems <=? length items)%nat) (ErrAssert "match group item count");
  _ ← ensure (assert_That (length items <=? maxMatchItems)%nat) (ErrAssert "match group item count");
  items ← res_mapM (fun item =>
    match item with
    | Some i => _ ← ensure (assert_NotNil (Some i)) (ErrAssert "match group item"); Ok (setMatchGroupID groupID i)
    | None => _ ← ensure (assert_NotNil (@None MatchItem)) (ErrAssert "match group item"); Err (ErrAssert "match group item")
    end) items;
  Ok (mkMatchGroup groupID contextID runID ruleID confidence MatchGroupStatusProposed items now now None None).

Definition MatchGroup_Confirm (now : Time) : st MatchGroup MatchError unit :=
  group ← st_get;
  _ ← st_ensure (assert_NotNil (Some group)) (ErrAssert "match group required");
  _ ← st_ensure (bool_decide (MG_Status group = MatchGroupStatusProposed)) ErrMatchGroupMustBeProposedToConfirm;
  st_modify (fun g => mkMatchGroup (MG_ID g) (MG_ContextID g) (MG_RunID g) (MG_RuleID g) (MG_Confidence g)
    MatchGroupStatusConfirmed (MG_Items g) (MG_CreatedAt g) now (MG_RejectedReason g) (Some now)).

Definition CanAutoConfirm (group : option MatchGroup) : bool :=
  match group with
  | None => false
  | Some group => (autoConfirmConfidence <=? CS_value (MG_Confidence group))%Z
  end.

Definition setRejected (status : MatchGroupStatus) (reason : string) (now : Time) (g : MatchGroup) : MatchGroup :=
  mkMatchGroup (MG_ID g) (MG_ContextID g) (MG_RunID g) (MG_RuleID g) (MG_Confidence g) status (MG_Items g)
    (MG_CreatedAt g) now (Some reason) (MG_ConfirmedAt g).

Definition MatchGroup_Reject (reason : string) (now : Time) : st MatchGroup MatchError unit :=
  let reason := strings_TrimSpace reason in
  group ← st_get;
  _ ← st_ensure (assert_NotNil (Some group)) (ErrAssert "match group required");
  _ ← st_ensure (bool_decide (MG_Status group = MatchGroupStatusProposed)) ErrMatchGroupMustBeProposedToReject;
  _ ← st_ensure (assert_NotEmpty reason) (ErrAssert "match group rejection reason");
  st_modify (setRejected MatchGroupStatusRejected reason now).

Definition MatchGroup_Revoke (reason : string) (now : Time) : st MatchGroup MatchError unit :=
  let reason := strings_TrimSpace reason in
  group ← st_get;
  _ ← st_ensure (assert_NotNil (Some group)) (ErrAssert "match group required");
  _ ← st_ensure (bool_decide (MG_Status group = MatchGroupStatusConfirmed)) ErrMatchGroupMustBeConfirmedToRevoke;
  _ ← st_ensure (assert_NotEmpty reason) ErrMatchGroupRevocationReasonRequired;
  st_modify (setRejected MatchGroupStatusRevoked reason now).

(** ** [match_run.go] *)
Record MatchRun : Type := mkMatchRun {
  MR_ID : uuid;
  MR_ContextID : uuid;
  MR_Mode : MatchRunMode;
  MR_Status : MatchRunStatus;
  MR_StartedAt : Time;
  MR_CompletedAt : option Time;
  MR_Stats : gmap string Z;
  MR_FailureReason : option string;
  MR_CreatedAt : Time;
  MR_UpdatedAt : Time;
}.

Definition NewMatchRun (newID : uuid) (now : Time) (contextID : uuid) (mode : MatchRunMode)
    : res MatchError MatchRun :=
  _ ← ensure (assert_That (negb (bool_decide (contextID = uuid_Nil)))) (ErrAssert "match run context id");
  _ ← ensure (assert_That (MatchRunMode_IsValid mode)) (ErrAssert "match run mode");
  Ok (mkMatchRun newID contextID mode MatchRunStatusProcessing now None ∅ None now now).

(** A nil stats map is copied as an empty one. *)
Definition MatchRun_Complete (stats : option (gmap string Z)) (now : Time) : st MatchRun MatchError unit :=
  run ← st_get;
  _ ← st_ensure (assert_NotNil (Some run)) (ErrAssert "match run required");
  _ ← st_ensure (bool_decide (MR_Status run = MatchRunStatusProcessing)) ErrMatchRunMustBeProcessingToComplete;
  st_modify (fun r => mkMatchRun (MR_ID r) (MR_ContextID r) (MR_Mode r) MatchRunStatusCompleted
    (MR_StartedAt r) (Some now) (default ∅ stats) None (MR_CreatedAt r) now).

Definition MatchRun_Fail (reason : string) (now : Time) : st MatchRun MatchError unit :=
  run ← st_get;
  _ ← st_ensure (assert_NotNil (Some run)) (ErrAssert "match run required");
  _ ← st_ensure (bool_decide (MR_Status run = MatchRunStatusProcessing)) ErrMatchRunMustBeProcessingToFail;
  _ ← st_ensure (negb (string_empty reason)) ErrFailureReasonRequired;
  st_modify (fun r => mkMatchRun (MR_ID r) (MR_ContextID r) (MR_Mode r) MatchRunStatusFailed
    (MR_StartedAt r) (Some now) (MR_Stats r) (Some reason) (MR_CreatedAt r) now).

(** ** [adjustment.go] *)
Definition AdjustmentType := string.
Definition AdjustmentTypeBankFee : AdjustmentType := "BANK_FEE".
Definition AdjustmentTypeFXDifference : AdjustmentType := "FX_DIFFERENCE".
Definition AdjustmentTypeRounding : AdjustmentType := "ROUNDING".
Definition AdjustmentTypeWriteOff : AdjustmentType := "WRITE_OFF".
Definition AdjustmentTypeMiscellaneous : AdjustmentType := "MISCELLANEOUS".
Definition AdjustmentType_IsValid (t : AdjustmentType) : bool :=
  bool_decide (t ∈ [AdjustmentTypeBankFee; AdjustmentTypeFXDifference; AdjustmentTypeRounding;
                    AdjustmentTypeWriteOff; AdjustmentTypeMiscellaneous]).

Definition AdjustmentDirection := string.
Definition AdjustmentDirectionDebit : AdjustmentDirection := "DEBIT".
Definition AdjustmentDirectionCredit : AdjustmentDirection := "CREDIT".
Definition AdjustmentDirection_IsValid (d : AdjustmentDirection) : bool :=
  bool_decide (d ∈ [AdjustmentDirectionDebit; AdjustmentDirectionCredit]).

Record Adjustment : Type := mkAdjustment {
  ADJ_ID : uuid;
  ADJ_ContextID : uuid;
  ADJ_MatchGroupID : option uuid;
  ADJ_TransactionID : option uuid;
  ADJ_Type : AdjustmentType;
  ADJ_Direction : AdjustmentDirection;
  ADJ_Amount : decimal;
  ADJ_Currency : string;
  ADJ_Description : string;
  ADJ_Reason : string;
  ADJ_CreatedBy : string;
  ADJ_CreatedAt : Time;
  ADJ_UpdatedAt : Time;
}.

Definition SignedAmount (a : Adjustment) : decimal :=
  if bool_decide (ADJ_Direction a = AdjustmentDirectionCredit) then dec_Neg (ADJ_Amount a)
  else ADJ_Amount a.

Definition NewAdjustment (newID : uuid) (now : Time) (contextID : uuid)
    (matchGroupID transactionID : option uuid) (adjustmentType : AdjustmentType)
    (direction : AdjustmentDirection) (amount : decimal) (currency description reason createdBy : string)
    : res MatchError Adjustment :=
  _ ← ensure (assert_That (negb (bool_decide (contextID = uuid_Nil)))) (ErrAssert "adjustment context id");
  _ ← ensure (assert_That (bool_decide (is_Some matchGroupID) || bool_decide (is_Some transactionID)))
        (ErrAssert "adjustment target");
  _ ← ensure (assert_That (AdjustmentType_IsValid adjustmentType)) (ErrAssert "adjustment type");
  _ ← ensure (assert_That (AdjustmentDirection_IsValid direction)) (ErrAssert "adjustment direction");
  _ ← ensure (assert_That (dec_IsPositive amount)) (ErrAssert "adjustment amount");
  _ ← ensure (assert_NotEmpty currency) (ErrAssert "adjustment currency");
  _ ← ensure (assert_NotEmpty description) (ErrAssert "adjustment description");
  _ ← ensure (assert_NotEmpty reason) (ErrAssert "adjustment reason");
  _ ← ensure (assert_NotEmpty createdBy) (ErrAssert "adjustment created by");
  Ok (mkAdjustment newID contextID matchGroupID transactionID adjustmentType direction amount currency
        description reason createdBy now now).

(** ** [fee_variance.go] *)
Record FeeVariance : Type := mkFeeVariance {
  FV_ID : uuid;
  FV_ContextID : uuid;
  FV_RunID : uuid;
  FV_MatchGroupID : uuid;
  FV_TransactionID : uuid;
  FV_FeeScheduleID : uuid;
  FV_FeeScheduleNameSnapshot : string;
  FV_Currency : string;
  FV_ExpectedFee : decimal;
  FV_ActualFee : decimal;
  FV_Delta : decimal;
  FV_ToleranceAbs : decimal;
  FV_TolerancePct : decimal;
  FV_VarianceType : string;
  FV_CreatedAt : Time;
  FV_UpdatedAt : Time;
}.

Definition NewFeeVariance (newID : uuid) (now : Time)
    (contextID runID matchGroupID transactionID feeScheduleID : uuid)
    (feeScheduleNameSnapshot currency : string) (expected actual tolAbs tolPct : decimal)
    (varianceType : string) : res MatchError FeeVariance :=
  _ ← ensure (assert_That (negb (bool_decide (contextID = uuid_Nil)))) (ErrAssert "fee variance context id");
  _ ← ensure (assert_That (negb (bool_decide (runID = uuid_Nil)))) (ErrAssert "fee variance run id");
  _ ← ensure (assert_That (negb (bool_decide (matchGroupID = uuid_Nil)))) (ErrAssert "fee variance match group id");
  _ ← ensure (assert_That (negb (bool_decide (transactionID = uuid_Nil)))) (ErrAssert "fee variance transaction id");
  _ ← ensure (assert_That (negb (bool_decide (feeScheduleID = uuid_Nil)))) (ErrAssert "fee variance fee schedule id");
  _ ← ensure (assert_NotEmpty feeScheduleNameSnapshot) (ErrAssert "fee variance fee schedule name snapshot");
  _ ← ensure (assert_NotEmpty currency) (ErrAssert "fee variance currency");
  _ ← ensure (assert_That (negb (dec_IsNegative expected) && negb (dec_IsNegative actual)))
        (ErrAssert "fee variance amounts");
  _ ← ensure (assert_That (negb (dec_IsNegative tolAbs) && negb (dec_IsNegative tolPct)))
        (ErrAssert "fee variance tolerances");
  _ ← ensure (assert_NotEmpty varianceType) (ErrAssert "fee variance type");
  let computedDelta := dec_Abs (dec_Sub expected actual) in
  Ok (mkFeeVariance newID contextID runID matchGroupID transactionID feeScheduleID feeScheduleNameSnapshot
        currency expected actual computedDelta tolAbs tolPct varianceType now now).

(** ** Life cycles as sequences of method calls *)
Inductive group_op : Type :=
| OpConfirm (now : Time)
| OpReject (reason : string) (now : Time)
| OpRevoke (reason : string) (now : Time).

Definition group_step (op : group_op) : st MatchGroup MatchError unit :=
  match op with
  | OpConfirm now => MatchGroup_Confirm now
  | OpReject reason now => MatchGroup_Reject reason now
  | OpRevoke reason now => MatchGroup_Revoke reason now
  end.

Inductive run_op : Type :=
| OpComplete (stats : option (gmap string Z)) (now : Time)
| OpFail (reason : string) (now : Time).

Definition run_step (op : run_op) : st MatchRun MatchError unit :=
  match op with
  | OpComplete stats now => MatchRun_Complete stats now
  | OpFail reason now => MatchRun_Fail reason now
  end.

(** The receiver after a sequence of calls, whatever they return. *)
Definition st_run {S E Op} (step : Op -> st S E unit) (ops : list Op) (s : S) : S :=
  foldl (fun s op => (step op s).1) s ops.
End entities.

(** ** Results *)
Section results.
  Context {U : UUIDLib} {D : DecimalLib} {L : DecimalLaws D} {A : AssertLib} {AL : AssertLaws A}.

Lemma st_run_inv {S E Op} (inv : S -> Prop) (step : Op -> st S E unit) ops s :
  (forall op, st_preserves inv (step op)) -> inv s -> inv (st_run step ops s).
Proof.
  intros Hstep. revert s; induction ops as [|op ops IH]; intros s Hs; [done|].
  apply IH. by apply Hstep.
Qed.

(** *** Items *)
Record item_wf (item : MatchItem) : Prop := {
  iw_transaction : MI_TransactionID item <> uuid_Nil;
  iw_bounds : 0 <= dec_Rat (MI_AllocatedAmount item) <= dec_Rat (MI_ExpectedAmount item);
  iw_full : MI_AllowPartial item = false ->
    dec_Rat (MI_AllocatedAmount item) == dec_Rat (MI_ExpectedAmount item);
  iw_currency : MI_AllocatedCurrency item <> "";
}.

Lemma string_empty_false s : string_empty s = false <-> s <> "".
Proof. unfold string_empty. apply bool_decide_eq_false. Qed.

Lemma newMatchItem_wf newID now tx allocated currency expected partial item :
  newMatchItem newID now tx allocated currency expected partial = Ok item -> item_wf item.
Proof.
  unfold newMatchItem. intros H. destruct partial; cbn [negb] in H; res_inv; assert_inv;
    split; simpl; try done; try (by apply string_empty_false); dec_bool; try lra; done.
Qed.

Lemma ApplyAllocation_preserves now amount full : st_preserves item_wf (ApplyAllocation now amount full).
Proof.
  intros item [H1 H2 H3 H4]. unfold ApplyAllocation, st_ensure, st_get, mbind, st_bind, st_lift.
  destruct (ensure (assert_NotNil _) _); cbn; [|done].
  rewrite !assert_That_spec. destruct (dec_IsNegative amount) eqn:E1; cbn; [done|].
  destruct (full || negb (MI_AllowPartial item)) eqn:Ef.
  - destruct (dec_Equal amount (MI_ExpectedAmount item)) eqn:E2; cbn; [|done]. dec_bool.
    split; simpl; try done; lra.
  - apply orb_false_iff in Ef as [_ Ef%negb_false_iff].
    destruct (dec_GreaterThan amount (MI_ExpectedAmount item)) eqn:E2; cbn; [done|]. dec_bool.
    split; simpl; [done|lra|congruence|done].
Qed.

(** A match item never over-allocates: from creation on, through any
    sequence of successful or failed [ApplyAllocation] calls, the allocated
    amount stays between zero and the expected amount, and equals it when
    partial allocation is not allowed. *)
Theorem MatchItem_never_overallocates newID now tx allocated currency expected partial item
    (calls : list (Time * decimal * bool)) :
  NewMatchItemWithPolicy newID now tx allocated currency expected partial = Ok item ->
  item_wf (st_run (fun '(t, amount, full) => ApplyAllocation t amount full) calls item).
Proof.
  intros H. apply st_run_inv; [|by eapply newMatchItem_wf].
  intros [[t amount] full]. apply ApplyAllocation_preserves.
Qed.

(** *** Groups *)
Record group_wf (g : MatchGroup) : Prop := {
  gw_confidence : (60 <= CS_value (MG_Confidence g) <= 100)%Z;
  gw_items : (2 <= length (MG_Items g) <= 500)%nat;
  gw_owner : Forall (fun i => MI_MatchGroupID i = MG_ID g) (MG_Items g);
  gw_ids : MG_ContextID g <> uuid_Nil /\ MG_RunID g <> uuid_Nil;
  gw_status : (MG_Status g = MatchGroupStatusProposed /\ MG_ConfirmedAt g = None /\ MG_RejectedReason g = None) \/
    (MG_Status g = MatchGroupStatusConfirmed /\ is_Some (MG_ConfirmedAt g) /\ MG_RejectedReason g = None) \/
    (MG_Status g = MatchGroupStatusRejected /\ MG_ConfirmedAt g = None /\
       exists reason, MG_RejectedReason g = Some reason /\ reason <> "") \/
    (MG_Status g = MatchGroupStatusRevoked /\ is_Some (MG_ConfirmedAt g) /\
       exists reason, MG_RejectedReason g = Some reason /\ reason <> "");
}.

Lemma NewMatchGroup_ok groupID now ctx run rule confidence items g :
  NewMatchGroup groupID now ctx run rule confidence items = Ok g -> group_wf g.
Proof.
  unfold NewMatchGroup. intros H. res_inv. assert_inv.
  match goal with H : res_mapM _ _ = Ok _ |- _ => rename H into Hm end.
  apply res_mapM_Ok in Hm. pose proof (Forall2_length _ _ _ Hm) as Hlen.
  rewrite !Nat.leb_le, !Z.leb_le in *. unfold minMatchItems, maxMatchItems, minMatchConfidence in *.
  split; simpl; try done; try lia.
  - clear -Hm. induction Hm as [|i j items items' Hi _ IH]; constructor; [|done].
    destruct i; res_inv. done.
  - by left.
Qed.

(** The effect of each method, whatever the receiver. *)
Lemma group_step_cases op g :
  let '(g', r) := group_step op g in
  (exists e, r = Err e /\ g' = g) \/
  (r = Ok tt /\ match op with
   | OpConfirm now => MG_Status g = MatchGroupStatusProposed /\
       g' = mkMatchGroup (MG_ID g) (MG_ContextID g) (MG_RunID g) (MG_RuleID g) (MG_Confidence g)
              MatchGroupStatusConfirmed (MG_Items g) (MG_CreatedAt g) now (MG_RejectedReason g) (Some now)
   | OpReject reason now => MG_Status g = MatchGroupStatusProposed /\ strings_TrimSpace reason <> "" /\
       g' = setRejected MatchGroupStatusRejected (strings_TrimSpace reason) now g
   | OpRevoke reason now => MG_Status g = MatchGroupStatusConfirmed /\ strings_TrimSpace reason <> "" /\
       g' = setRejected MatchGroupStatusRevoked (strings_TrimSpace reason) now g
   end).
Proof.
  destruct op; unfold group_step, MatchGroup_Confirm, MatchGroup_Reject, MatchGroup_Revoke,
    st_ensure, st_get, mbind, st_bind, st_lift; rewrite assert_NotNil_Some; cbn;
    repeat case_bool_decide; cbn; try (left; eauto; fail); [by right|..];
    rewrite assert_NotEmpty_spec; destruct (string_empty _) eqn:E; cbn; try (left; eauto; fail);
    right; split_and!; try done; by apply string_empty_false.
Qed.

Lemma group_step_preserves op : st_preserves group_wf (group_step op).
Proof.
  intros g [H1 H2 H3 H4 H5]. pose proof (group_step_cases op g) as Hc.
  destruct (group_step op g) as [g' r]. destruct Hc as [(e & -> & ->)|[-> Hc]]; [done|].
  destruct op; [destruct Hc as [Hs ->]|destruct Hc as (Hs & Hr & ->)..]; split; simpl; try done;
    destruct H5 as [(E & ? & ?)|[(E & ? & ?)|[(E & ? & ?)|(E & ? & ?)]]]; rewrite E in Hs;
    try discriminate Hs; eauto 10.
Qed.

Inductive group_transition : MatchGroupStatus -> MatchGroupStatus -> Prop :=
| transition_confirm : group_transition MatchGroupStatusProposed MatchGroupStatusConfirmed
| transition_reject : group_transition MatchGroupStatusProposed MatchGroupStatusRejected
| transition_revoke : group_transition MatchGroupStatusConfirmed MatchGroupStatusRevoked.

(** Along every sequence of [Confirm], [Reject] and [Revoke] calls a match
    group keeps its invariant (60-100 confidence, 2-500 items that point back
    to it, timestamps and reasons that agree with the status); a call that
    fails changes nothing, one that succeeds follows the status diagram, and
    rejected and revoked groups refuse every call. *)
Theorem MatchGroup_lifecycle groupID now ctx run rule confidence items g ops op :
  NewMatchGroup groupID now ctx run rule confidence items = Ok g ->
  let g' := st_run group_step ops g in
  let '(g'', r) := group_step op g' in
  group_wf g' /\
  (is_Ok r = false -> g'' = g') /\
  (is_Ok r = true -> group_transition (MG_Status g') (MG_Status g'')) /\
  (MG_Status g' = MatchGroupStatusRejected \/ MG_Status g' = MatchGroupStatusRevoked -> is_Ok r = false).
Proof.
  intros Hn g'. assert (group_wf g') as Hwf.
  { apply st_run_inv; [apply group_step_preserves|]. by eapply NewMatchGroup_ok. }
  pose proof (group_step_cases op g') as Hc. destruct (group_step op g') as [g'' r].
  destruct Hc as [(e & -> & ->)|[-> Hc]]; [by split_and!|]. split_and!; try done.
  - intros _. destruct op; [destruct Hc as [Hs ->]|destruct Hc as (Hs & _ & ->)..]; simpl; rewrite Hs; constructor.
  - destruct op; [destruct Hc as [Hs _]|destruct Hc as (Hs & _ & _)..]; rewrite Hs; intros [E|E]; discriminate E.
Qed.

(** *** Runs *)
Record run_wf (r : MatchRun) : Prop := {
  rw_context : MR_ContextID r <> uuid_Nil;
  rw_mode : MatchRunMode_IsValid (MR_Mode r) = true;
  rw_status : (MR_Status r = MatchRunStatusProcessing /\ MR_CompletedAt r = None /\ MR_FailureReason r = None) \/
    (MR_Status r = MatchRunStatusCompleted /\ is_Some (MR_CompletedAt r) /\ MR_FailureReason r = None) \/
    (MR_Status r = MatchRunStatusFailed /\ is_Some (MR_CompletedAt r) /\
       exists reason, MR_FailureReason r = Some reason /\ reason <> "");
}.

Lemma run_step_cases op run :
  let '(run', r) := run_step op run in
  (exists e, r = Err e /\ run' = run) \/
  (r = Ok tt /\ MR_Status run = MatchRunStatusProcessing /\
   match op with
   | OpComplete stats now =>
       run' = mkMatchRun (MR_ID run) (MR_ContextID run) (MR_Mode run) MatchRunStatusCompleted
                (MR_StartedAt run) (Some now) (default ∅ stats) None (MR_CreatedAt run) now
   | OpFail reason now => reason <> "" /\
       run' = mkMatchRun (MR_ID run) (MR_ContextID run) (MR_Mode run) MatchRunStatusFailed
                (MR_StartedAt run) (Some now) (MR_Stats run) (Some reason) (MR_CreatedAt run) now
   end).
Proof.
  destruct op; unfold run_step, MatchRun_Complete, MatchRun_Fail, st_ensure, st_get, mbind, st_bind, st_lift;
    rewrite assert_NotNil_Some; cbn; case_bool_decide; cbn; try (left; eauto; fail); [by right|].
  destruct (string_empty reason) eqn:E; cbn; [left; eauto|]. right. split_and!; try done.
  by apply string_empty_false.
Qed.

Lemma run_step_preserves op : st_preserves run_wf (run_step op).
Proof.
  intros run [H1 H2 H3]. pose proof (run_step_cases op run) as Hc.
  destruct (run_step op run) as [run' r]. destruct Hc as [(e & -> & ->)|(-> & Hs & Hc)]; [done|].
  destruct op; [subst run'|destruct Hc as (Hr & ->)]; split; simpl; eauto 10.
Qed.

(** A match run ends exactly once: through any calls of [Complete] and
    [Fail] its completion time and failure reason agree with its status, and
    once it is completed or failed every further call fails and changes
    nothing. *)
Theorem MatchRun_ends_once newID now ctx mode run ops op :
  NewMatchRun newID now ctx mode = Ok run ->
  let run' := st_run run_step ops run in
  run_wf run' /\
  (MR_Status run' <> MatchRunStatusProcessing ->
   (run_step op run').1 = run' /\ is_Ok (run_step op run').2 = false).
Proof.
  intros Hn run'. split.
  - apply st_run_inv; [apply run_step_preserves|]. unfold NewMatchRun in Hn. res_inv. assert_inv.
    split; simpl; auto.
  - intros Hs. pose proof (run_step_cases op run') as Hc. destruct (run_step op run') as [run'' r].
    destruct Hc as [(e & -> & ->)|(_ & ? & _)]; done.
Qed.

(** *** Date-lag matches and auto-confirmation *)
Lemma DateLag_score_90 {N : UnicodeLib} cfg left right :
  DateLagMatch left right (Some cfg) = Ok true ->
  CT_Currency left = CT_Currency right -> CT_Currency left <> "" ->
  ScoreDateLagConfidence (Some cfg) left right = 90%Z.
Proof.
  intros Hm Hc Hn. rewrite ScoreDateLagConfidence_eq.
  destruct (DateLagMatch_components cfg left right Hm) as (-> & -> & ->).
  by rewrite bool_decide_eq_true_2.
Qed.

(** C40: a date-lag match between transactions of the same currency scores
    exactly the auto-confirmation threshold, so its group is confirmed
    automatically; the comment on the scoring weights says that such matches
    require human review. *)
Theorem DateLag_auto_confirms {N : UnicodeLib} cfg left right groupID now ctx run rule items g :
  DateLagMatch left right (Some cfg) = Ok true ->
  CT_Currency left = CT_Currency right -> CT_Currency left <> "" ->
  NewMatchGroup groupID now ctx run rule
    (mkConfidenceScore (ScoreDateLagConfidence (Some cfg) left right)) items = Ok g ->
  CanAutoConfirm (Some g) = true.
Proof.
  intros Hm Hc Hn Hg. rewrite (DateLag_score_90 cfg left right) in Hg by done.
  unfold NewMatchGroup in Hg. res_inv. done.
Qed.

(** *** Adjustments and fee variances *)
Lemma NewAdjustment_signed newID now ctx mg tx ty dir amount cur desc reason by_ adj :
  NewAdjustment newID now ctx mg tx ty dir amount cur desc reason by_ = Ok adj ->
  0 < dec_Rat (ADJ_Amount adj) /\ Qabs (dec_Rat (SignedAmount adj)) == dec_Rat (ADJ_Amount adj) /\
  (0 < dec_Rat (SignedAmount adj) <-> ADJ_Direction adj = AdjustmentDirectionDebit).
Proof.
  unfold NewAdjustment. intros H. res_inv. assert_inv. unfold SignedAmount. simpl. dec_bool.
  unfold AdjustmentDirection_IsValid in *. bool_inv.
  destruct (decide (dir = AdjustmentDirectionCredit)) as [->|E];
    [rewrite bool_decide_eq_true_2 by done|rewrite bool_decide_eq_false_2 by done].
  - split_and!; [done| |split; [|done]].
    + rewrite dec_Rat_Neg, Qabs_opp. apply Qabs_pos. lra.
    + rewrite dec_Rat_Neg. intros. lra.
  - split_and!; [done|apply Qabs_pos; lra|]. split; [intros _|done]. set_solver.
Qed.

Lemma NewFeeVariance_delta newID now ctx run mg tx fs name cur expected actual abs pct ty fv :
  NewFeeVariance newID now ctx run mg tx fs name cur expected actual abs pct ty = Ok fv ->
  dec_Rat (FV_Delta fv) == Qabs (dec_Rat (FV_ExpectedFee fv) - dec_Rat (FV_ActualFee fv)) /\
  0 <= dec_Rat (FV_Delta fv).
Proof.
  unfold NewFeeVariance. intros H. res_inv. simpl. rewrite dec_Rat_Abs, dec_Rat_Sub.
  split; [done|apply Qabs_nonneg].
Qed.
End results.

(** ** Concrete instances *)
Definition sample_match_item (id : string) : @MatchItem model_uuid model_decimal :=
  mkMatchItem (U:=model_uuid) (D:=model_decimal) id "" "tx" 100 "USD" 100 true 1 1.
Definition sample_new_item : res MatchError (@MatchItem model_uuid model_decimal) :=
  NewMatchItemWithPolicy (U:=model_uuid) (D:=model_decimal) "i" 1 "tx" 10 "USD" 100 true.
Definition sample_group (confidence : Z) : @MatchGroup model_uuid model_decimal :=
  mkMatchGroup (U:=model_uuid) (D:=model_decimal) "g" "c" "r" "rule" (mkConfidenceScore confidence)
    MatchGroupStatusProposed [sample_match_item "i"; sample_match_item "j"] 5 5 None None.
Definition sample_new_group (confidence : Z) : res MatchError (@MatchGroup model_uuid model_decimal) :=
  NewMatchGroup (U:=model_uuid) (D:=model_decimal) "g" 5 "c" "r" "rule" (mkConfidenceScore confidence)
    [Some (sample_match_item "i"); Some (sample_match_item "j")].

Lemma sample_new_item_ok : is_Ok sample_new_item = true.
Proof. vm_compute. reflexivity. Qed.
Lemma sample_new_group_ok : is_Ok (sample_new_group 95) = true.
Proof. vm_compute. reflexivity. Qed.

Lemma MatchItem_never_overallocates_witness :
  item_wf (st_run (fun '(t, amount, full) => ApplyAllocation t amount full)
    [(2%Z, (120 : @decimal model_decimal), false); (3%Z, (40 : @decimal model_decimal), false)]
    (from_ok (sample_match_item "i") sample_new_item)).
Proof.
  apply (MatchItem_never_overallocates (U:=model_uuid) (L:=model_decimal_laws) (AL:=model_assert_laws)
    "i" 1 "tx" 10 "USD" 100 true).
  exact (from_ok_spec (sample_match_item "i") sample_new_item sample_new_item_ok).
Defined.

Lemma MatchGroup_lifecycle_witness :
  group_wf (st_run group_step [OpConfirm 6; OpRevoke " dup " 7]
    (from_ok (sample_group 95) (sample_new_group 95))).
Proof.
  exact (proj1 (MatchGroup_lifecycle (U:=model_uuid) (D:=model_decimal) (AL:=model_assert_laws)
    "g" 5 "c" "r" "rule" (mkConfidenceScore 95)
    [Some (sample_match_item "i"); Some (sample_match_item "j")]
    (from_ok (sample_group 95) (sample_new_group 95))
    [OpConfirm 6; OpRevoke " dup " 7] (OpConfirm 8)
    (from_ok_spec (sample_group 95) (sample_new_group 95) sample_new_group_ok))).
Defined.

Lemma MatchRun_ends_once_witness :
  is_Ok (run_step (A:=model_assert) (OpFail "late" 9%Z)
    (st_run run_step [OpComplete None 8%Z]
       (mkMatchRun (U:=model_uuid) "r" "c" MatchRunModeCommit MatchRunStatusProcessing 5 None ∅ None 5 5))).2 = false.
Proof.
  refine (proj2 (proj2 (MatchRun_ends_once (U:=model_uuid) (AL:=model_assert_laws) "r" 5 "c" MatchRunModeCommit
    (mkMatchRun (U:=model_uuid) "r" "c" MatchRunModeCommit MatchRunStatusProcessing 5 None ∅ None 5 5)
    [OpComplete None 8%Z] (OpFail "late" 9%Z) _) _)).
  - vm_compute. reflexivity.
  - vm_compute. discriminate.
Defined.

Lemma sample_lag_score :
  is_Ok (NewMatchGroup (U:=model_uuid) (D:=model_decimal) "g" 5 "c" "r" "rule"
    (mkConfidenceScore (ScoreDateLagConfidence (Some sample_date_lag) (sample_tx "a" 100 7) (sample_tx "b" 101 9)))
    [Some (sample_match_item "i"); Some (sample_match_item "j")]) = true.
Proof. vm_compute. reflexivity. Qed.

Lemma DateLag_auto_confirms_witness :
  CanAutoConfirm (Some (from_ok (sample_group 0) (NewMatchGroup (U:=model_uuid) (D:=model_decimal)
    "g" 5 "c" "r" "rule"
    (mkConfidenceScore (ScoreDateLagConfidence (Some sample_date_lag) (sample_tx "a" 100 7) (sample_tx "b" 101 9)))
    [Some (sample_match_item "i"); Some (sample_match_item "j")]))) = true.
Proof.
  apply (DateLag_auto_confirms (L:=model_decimal_laws) (A:=model_assert) (N:=model_unicode) sample_date_lag
    (sample_tx "a" 100 7) (sample_tx "b" 101 9) "g" 5 "c" "r" "rule"
    [Some (sample_match_item "i"); Some (sample_match_item "j")]).
  - vm_compute. reflexivity.
  - reflexivity.
  - discriminate.
  - apply from_ok_spec. exact sample_lag_score.
Defined.
