(* ===== verification/Transaction.v ===== *)
(** * Shared kernel: transactions, match rules and exception reasons

    Models internal/shared/domain: [transaction.go] and [match_rule.go], and
    internal/matching/domain/enums/[exception_reasons.go].  Metadata values
    are immutable in the model, so the deep copy made by [NewTransaction] and
    the donated map of [NewTransactionWithDonatedMetadata] are the same value. *)
From S2P Require Import GoLib GoLibModel FeeStructure FeeSchedule FeeRules MatchTypes.
From Stdlib Require Import QArith Qabs Lqa.

(** ** Statuses *)
Definition ExtractionStatus := string.
Definition ExtractionStatusPending : ExtractionStatus := "PENDING".
Definition ExtractionStatusComplete : ExtractionStatus := "COMPLETE".
Definition ExtractionStatusFailed : ExtractionStatus := "FAILED".
Definition ExtractionStatus_IsValid (s : ExtractionStatus) : bool :=
  bool_decide (s ∈ [ExtractionStatusPending; ExtractionStatusComplete; ExtractionStatusFailed]).

Definition TransactionStatus := string.
Definition TransactionStatusUnmatched : TransactionStatus := "UNMATCHED".
Definition TransactionStatusMatched : TransactionStatus := "MATCHED".
Definition TransactionStatusIgnored : TransactionStatus := "IGNORED".
Definition TransactionStatusPendingReview : TransactionStatus := "PENDING_REVIEW".
Definition TransactionStatus_IsValid (s : TransactionStatus) : bool :=
  bool_decide (s ∈ [TransactionStatusUnmatched; TransactionStatusMatched; TransactionStatusIgnored;
                    TransactionStatusPendingReview]).

Inductive TransactionError : Type :=
| ErrInvalidExtractionStatus | ErrInvalidTransactionStatus | ErrTransactionNil | ErrExtractionNotPending
| ErrExtractionAlreadyComplete | ErrExtractionAlreadyFailed | ErrTxBaseCurrencyRequired
| ErrBaseAmountNegative | ErrTxFXRateNotPositive | ErrIngestionJobIDRequired | ErrSourceIDRequired
| ErrExternalIDRequired | ErrCurrencyRequired | ErrTransactionTenantIDRequired
| ErrInvalidRuleType | ErrInvalidContextType | ErrMatchRuleNil | ErrRuleContextRequired
| ErrRulePriorityInvalid | ErrRuleTypeInvalid | ErrRuleConfigRequired.

Definition ParseExtractionStatus (s : string) : res TransactionError ExtractionStatus :=
  if negb (ExtractionStatus_IsValid s) then Err ErrInvalidExtractionStatus else Ok s.
Definition ParseTransactionStatus (s : string) : res TransactionError TransactionStatus :=
  if negb (TransactionStatus_IsValid s) then Err ErrInvalidTransactionStatus else Ok s.

(** ** Rule and context types *)
Definition RuleTypeExact : RuleType := "EXACT".
Definition RuleTypeTolerance : RuleType := "TOLERANCE".
Definition RuleTypeDateLag : RuleType := "DATE_LAG".
Definition RuleType_Valid (rt : RuleType) : bool :=
  bool_decide (rt ∈ [RuleTypeExact; RuleTypeTolerance; RuleTypeDateLag]).

Definition ContextType := string.
Definition ContextTypeOneToOne : ContextType := "1:1".
Definition ContextTypeOneToMany : ContextType := "1:N".
Definition ContextTypeManyToMany : ContextType := "N:M".
Definition ContextType_Valid (ct : ContextType) : bool :=
  bool_decide (ct ∈ [ContextTypeOneToOne; ContextTypeOneToMany; ContextTypeManyToMany]).
Definition ParseContextType (s : string) : res TransactionError ContextType :=
  let ct := strings_TrimSpace s in
  if negb (ContextType_Valid ct) then Err ErrInvalidContextType else Ok ct.

Definition MaxPriority : Z := 1000.

(** ** Exception reasons *)
Definition ReasonUnmatched : string := "UNMATCHED".
Definition ReasonMissingBaseAmount : string := "MISSING_BASE_AMOUNT".
Definition ReasonMissingBaseCurrency : string := "MISSING_BASE_CURRENCY".
Definition MaxReasonLength : nat := 64.
Definition validReasons : list string :=
  [ReasonUnmatched; "FX_RATE_UNAVAILABLE"; ReasonMissingBaseAmount; ReasonMissingBaseCurrency;
   "SPLIT_INCOMPLETE"; "VALIDATION_FAILED"; "SOURCE_MISMATCH"; "DUPLICATE_TRANSACTION";
   "FEE_VARIANCE"; "FEE_DATA_MISSING"; "FEE_CURRENCY_MISMATCH"].

Definition SanitizeReason (reason : string) : string :=
  if string_empty reason then ReasonUnmatched
  else
    let reason := if (MaxReasonLength <? String.length reason)%nat
                  then String.substring 0 MaxReasonLength reason else reason in
    if bool_decide (reason ∈ validReasons) then reason else ReasonUnmatched.

Section shared.
  Context {U : UUIDLib} {D : DecimalLib} {A : AssertLib} {N : UnicodeLib}.

(** ** [transaction.go] *)
Record Transaction : Type := mkTransaction {
  TX_ID : uuid;
  TX_IngestionJobID : uuid;
  TX_SourceID : uuid;
  TX_ExternalID : string;
  TX_Amount : decimal;
  TX_Currency : string;
  TX_AmountBase : option decimal;
  TX_BaseCurrency : option string;
  TX_FXRate : option decimal;
  TX_FXRateSource : option string;
  TX_FXRateEffDate : option Time;
  TX_ExtractionStatus : ExtractionStatus;
  TX_Status : TransactionStatus;
  TX_Date : Time;
  TX_Description : string;
  TX_Metadata : option (gmap string any);
  TX_CreatedAt : Time;
  TX_UpdatedAt : Time;
}.

Definition newTransaction (newID : uuid) (now : Time) (tenantID jobID sourceID : uuid) (externalID : string)
    (amount : decimal) (currency : string) (date : Time) (description : string)
    (metadata : option (gmap string any)) : res TransactionError Transaction :=
  _ ← ensure (assert_That (negb (bool_decide (tenantID = uuid_Nil)))) ErrTransactionTenantIDRequired;
  _ ← ensure (assert_That (negb (bool_decide (jobID = uuid_Nil)))) ErrIngestionJobIDRequired;
  _ ← ensure (assert_That (negb (bool_decide (sourceID = uuid_Nil)))) ErrSourceIDRequired;
  _ ← ensure (assert_NotEmpty (strings_TrimSpace externalID)) ErrExternalIDRequired;
  let normalizedCurrency := strings_ToUpper (strings_TrimSpace currency) in
  _ ← ensure (assert_NotEmpty normalizedCurrency) ErrCurrencyRequired;
  Ok (mkTransaction newID jobID sourceID externalID amount normalizedCurrency None None None None None
        ExtractionStatusPending TransactionStatusUnmatched date description metadata now now).

Definition set_extraction (status : ExtractionStatus) (now : Time) (t : Transaction) : Transaction :=
  mkTransaction (TX_ID t) (TX_IngestionJobID t) (TX_SourceID t) (TX_ExternalID t) (TX_Amount t) (TX_Currency t)
    (TX_AmountBase t) (TX_BaseCurrency t) (TX_FXRate t) (TX_FXRateSource t) (TX_FXRateEffDate t) status
    (TX_Status t) (TX_Date t) (TX_Description t) (TX_Metadata t) (TX_CreatedAt t) now.

Definition MarkExtractionComplete (now : Time) : st Transaction TransactionError unit :=
  txn ← st_get;
  _ ← st_ensure (bool_decide (TX_ExtractionStatus txn = ExtractionStatusPending)) ErrExtractionNotPending;
  st_modify (set_extraction ExtractionStatusComplete now).

Definition MarkExtractionFailed (now : Time) : st Transaction TransactionError unit :=
  txn ← st_get;
  _ ← st_ensure (negb (bool_decide (TX_ExtractionStatus txn = ExtractionStatusComplete))) ErrExtractionAlreadyComplete;
  _ ← st_ensure (negb (bool_decide (TX_ExtractionStatus txn = ExtractionStatusFailed))) ErrExtractionAlreadyFailed;
  st_modify (set_extraction ExtractionStatusFailed now).

Definition SetFXConversion (originalAmount : decimal) (baseCurrency : string) (fxRate : decimal)
    (source : string) (effectiveDate now : Time) : st Transaction TransactionError unit :=
  _ ← st_ensure (negb (string_empty (strings_TrimSpace baseCurrency))) ErrTxBaseCurrencyRequired;
  _ ← st_ensure (negb (dec_IsNegative originalAmount)) ErrBaseAmountNegative;
  _ ← st_ensure (negb (dec_LessThanOrEqual fxRate dec_Zero)) ErrTxFXRateNotPositive;
  st_modify (fun t =>
    mkTransaction (TX_ID t) (TX_IngestionJobID t) (TX_SourceID t) (TX_ExternalID t) (TX_Amount t) (TX_Currency t)
      (Some (dec_Mul originalAmount fxRate)) (Some (strings_TrimSpace baseCurrency)) (Some fxRate) (Some source)
      (Some effectiveDate) (TX_ExtractionStatus t) (TX_Status t) (TX_Date t) (TX_Description t) (TX_Metadata t)
      (TX_CreatedAt t) now).

(** ** [match_rule.go] *)
Definition ParseRuleType (s : string) : res TransactionError RuleType :=
  let rt := strings_ToUpper (strings_TrimSpace s) in
  if negb (RuleType_Valid rt) then Err ErrInvalidRuleType else Ok rt.

Record MatchRule : Type := mkMatchRule {
  RU_ID : uuid;
  RU_ContextID : uuid;
  RU_Priority : Z;
  RU_Type : RuleType;
  RU_Config : option (gmap string any);
  RU_CreatedAt : Time;
  RU_UpdatedAt : Time;
}.

Definition config_len (config : option (gmap string any)) : nat := size (default ∅ config).

Definition NewMatchRule (newID : uuid) (now : Time) (contextID : uuid) (priority : Z) (type : RuleType)
    (config : option (gmap string any)) : res TransactionError MatchRule :=
  _ ← ensure (assert_That (negb (bool_decide (contextID = uuid_Nil)))) ErrRuleContextRequired;
  _ ← ensure (assert_That ((1 <=? priority)%Z && (priority <=? MaxPriority)%Z)) ErrRulePriorityInvalid;
  _ ← ensure (assert_That (RuleType_Valid type)) ErrRuleTypeInvalid;
  _ ← ensure (negb (config_len config =? 0)%nat) ErrRuleConfigRequired;
  Ok (mkMatchRule newID contextID priority type config now now).

Record UpdateMatchRuleInput : Type := mkUpdateMatchRuleInput {
  UMR_Priority : option Z;
  UMR_Type : option RuleType;
  UMR_Config : option (gmap string any);
}.

Definition MatchRule_Update (input : UpdateMatchRuleInput) (now : Time) : st MatchRule TransactionError unit :=
  mr ← st_get;
  _ ← st_ensure (assert_NotNil (Some mr)) ErrMatchRuleNil;
  _ ← st_when (UMR_Priority input) (fun priority =>
        _ ← st_ensure (negb ((priority <? 1)%Z || (MaxPriority <? priority)%Z)) ErrRulePriorityInvalid;
        st_modify (fun r => mkMatchRule (RU_ID r) (RU_ContextID r) priority (RU_Type r) (RU_Config r)
                              (RU_CreatedAt r) (RU_UpdatedAt r)));
  _ ← st_when (UMR_Type input) (fun type =>
        _ ← st_ensure (RuleType_Valid type) ErrRuleTypeInvalid;
        st_modify (fun r => mkMatchRule (RU_ID r) (RU_ContextID r) (RU_Priority r) type (RU_Config r)
                              (RU_CreatedAt r) (RU_UpdatedAt r)));
  _ ← st_when (UMR_Config input) (fun config =>
        _ ← st_ensure (negb (config_len (Some config) =? 0)%nat) ErrRuleConfigRequired;
        st_modify (fun r => mkMatchRule (RU_ID r) (RU_ContextID r) (RU_Priority r) (RU_Type r) (Some config)
                              (RU_CreatedAt r) (RU_UpdatedAt r)));
  st_modify (fun r => mkMatchRule (RU_ID r) (RU_ContextID r) (RU_Priority r) (RU_Type r) (RU_Config r)
                        (RU_CreatedAt r) now).

Definition rule_priority_less (a b : option MatchRule) : bool :=
  match a, b with
  | None, _ => false
  | Some _, None => true
  | Some x, Some y => (RU_Priority x <? RU_Priority y)%Z
  end.
End shared.

(** ** Results *)
Section results.
  Context {U : UUIDLib} {D : DecimalLib} {L : DecimalLaws D} {A : AssertLib} {AL : AssertLaws A} {N : UnicodeLib}.

Record match_rule_wf (r : MatchRule) : Prop := {
  mrw_context : RU_ContextID r <> uuid_Nil;
  mrw_priority : (1 <= RU_Priority r <= 1000)%Z;
  mrw_type : RuleType_Valid (RU_Type r) = true;
  mrw_config : exists config, RU_Config r = Some config /\ config <> ∅;
}.

Lemma config_len_pos config : negb (config_len config =? 0)%nat = true -> exists c, config = Some c /\ c <> ∅.
Proof.
  unfold config_len. intros H%negb_true_iff%Nat.eqb_neq. destruct config as [c|]; simpl in H.
  - exists c. split; [done|]. intros ->. by rewrite map_size_empty in H.
  - by rewrite map_size_empty in H.
Qed.

Lemma NewMatchRule_ok newID now ctx priority type config r :
  NewMatchRule newID now ctx priority type config = Ok r -> match_rule_wf r.
Proof.
  unfold NewMatchRule. intros H. res_inv. rewrite !assert_That_spec in *.
  match goal with H : negb (config_len _ =? 0)%nat = true |- _ => apply config_len_pos in H end.
  bool_inv. rewrite !Z.leb_le in *. unfold MaxPriority in *. by split.
Qed.

Lemma MatchRule_Update_preserves input now : st_preserves match_rule_wf (MatchRule_Update input now).
Proof.
  unfold MatchRule_Update. intros r Hr. unfold mbind at 1, st_bind at 1, st_get.
  apply (st_preserves_ensure match_rule_wf); [|done]. intros _.
  repeat st_step; intros s [? ? ? ?]; split; simpl; try done.
  - bool_inv. rewrite !Z.ltb_ge in *. unfold MaxPriority in *. lia.
  - by apply config_len_pos.
Qed.

Lemma SetFXConversion_base original currency rate source eff now t t' :
  SetFXConversion original currency rate source eff now t = (t', Ok tt) ->
  exists base cur, TX_AmountBase t' = Some base /\ TX_BaseCurrency t' = Some cur /\ cur <> "" /\
    dec_Rat base == dec_Rat original * dec_Rat rate /\ 0 <= dec_Rat base.
Proof.
  unfold SetFXConversion, st_ensure, mbind, st_bind, st_lift.
  destruct (string_empty _) eqn:E1; cbn; [done|]. destruct (dec_IsNegative _) eqn:E2; cbn; [done|].
  destruct (dec_LessThanOrEqual _ _) eqn:E3; cbn; [done|]. intros [= <-]. do 2 eexists. split_and!; [done|done|..].
  - unfold string_empty in E1. by apply bool_decide_eq_false in E1.
  - apply dec_Rat_Mul.
  - dec_bool. dec_facts. rewrite dec_Rat_Mul. nra.
Qed.

(** A sanitised reason is always one of the known reasons, and known reasons
    are kept. *)
Lemma SanitizeReason_valid reason :
  SanitizeReason reason ∈ validReasons /\ (reason ∈ validReasons -> SanitizeReason reason = reason).
Proof.
  assert (Hu : ReasonUnmatched ∈ validReasons) by (unfold validReasons; left).
  unfold SanitizeReason. destruct (string_empty reason) eqn:E.
  { split; [done|]. apply bool_decide_eq_true in E as ->. intros H.
    exfalso. revert H. apply (bool_decide_unpack (_ ∉ _)). vm_compute. exact I. }
  split; [by case_bool_decide|]. intros Hin.
  assert (Hlen : Forall (fun s => (String.length s <= 64)%nat) validReasons).
  { apply (bool_decide_unpack _). vm_compute. exact I. }
  rewrite Forall_forall in Hlen. specialize (Hlen _ Hin).
  destruct (Nat.ltb_spec MaxReasonLength (String.length reason)); [unfold MaxReasonLength in *; lia|].
  by rewrite bool_decide_eq_true_2.
Qed.

(** A match rule keeps a context, a priority from 1 to 1000, a known type
    and a non-empty configuration, through its construction and any sequence
    of updates, including updates that fail after changing some fields. *)
Theorem MatchRule_wf_invariant newID now ctx priority type config r
    (updates : list (UpdateMatchRuleInput * Time)) :
  NewMatchRule newID now ctx priority type config = Ok r ->
  match_rule_wf (foldl (fun r '(input, t) => (MatchRule_Update input t r).1) r updates).
Proof.
  intros Hn. apply NewMatchRule_ok in Hn. revert r Hn.
  induction updates as [|[input t] updates IH]; intros r Hr; [done|]. simpl. apply IH.
  by apply MatchRule_Update_preserves.
Qed.
End results.

Lemma MatchRule_wf_invariant_witness :
  match_rule_wf (foldl (fun r '(input, t) => (MatchRule_Update (A:=model_assert) input t r).1)
    (mkMatchRule (U:=model_uuid) "r" "c" 5 RuleTypeExact (Some {["matchAmount" := AnyBool true]}) 1 1)
    [(mkUpdateMatchRuleInput (Some 7%Z) (Some "BAD") None, 2%Z)]).
Proof.
  apply (MatchRule_wf_invariant (U:=model_uuid) (AL:=model_assert_laws) "r" 1 "c" 5 RuleTypeExact
    (Some {["matchAmount" := AnyBool true]})).
  reflexivity.
Defined.
