(* ===== verification/RuleDecode.v ===== *)
(** * Decoding stored rule configurations

    Models internal/matching/domain/services: [rule_config_decode.go],
    [rule_config_decode_helpers.go], [rule_config_decode_exact.go],
    [rule_config_decode_tolerance.go], [rule_config_decode_advanced.go] and
    [RuleDefinitionFromMatchRule] of [rule_definition.go].

    A configuration is a Go map from strings to dynamic values.  The decoders
    that fill a struct through a pointer return the struct instead: on an error
    their callers drop it. *)
From S2P Require Import GoLib GoLibModel FeeStructure FeeSchedule FeeRules MatchTypes Evaluators.
From S2P Require Import Confidence Allocate Engine MatchEntities Transaction.
From Stdlib Require Import QArith Lqa SpecFloat.

Inductive DecodeError : Type :=
| ErrRuleConfigDecode (msg : string)
| ErrNilMatchRule
| ErrUnsupportedRuleType.

Definition wrapDecodeErr {X} (msg : string) : res DecodeError X := Err (ErrRuleConfigDecode msg).
Definition errOutOfRange : string := "out of range".
Definition errMustBeInt : string := "must be integer".

Definition maxRoundingScale : Z := 10.
Definition maxDateWindowDays : Z := 3650.
Definition maxDateLagDays : Z := 3650.
Definition defaultExactScore : Z := 100.
Definition defaultExactBaseScore : Z := 90.
Definition defaultToleranceScore : Z := 85.
Definition defaultToleranceBase : Z := 80.
Definition defaultDateLagScore : Z := 80.
Definition defaultRoundingScale : Z := 2.

Definition ConfigMap := gmap string any.

(** ** [rule_config_decode_helpers.go] *)
Definition getBool (configMap : ConfigMap) (key : string) (def : bool) : res DecodeError bool :=
  match configMap !! key with
  | None | Some AnyNil => Ok def
  | Some (AnyBool b) => Ok b
  | Some _ => wrapDecodeErr (key +:+ " must be bool")
  end.

Definition hasExplicitFalse (configMap : ConfigMap) (key : string) : bool :=
  match configMap !! key with
  | Some (AnyBool b) => negb b
  | _ => false
  end.

(** [int] has 64 bits, so the conversion from [int64] is exact. *)
Definition parseInt64Value (num : Z) : res string Z := Ok num.

(** A finite float as a fraction, [None] if it is not an integer. *)
Definition f64_integer (num : float64) : option Z :=
  match num with
  | S754_zero _ => Some 0%Z
  | S754_finite s m e =>
      let abs := if (0 <=? e)%Z then Some (Z.pos m * 2 ^ e)%Z
                 else if (Z.pos m mod 2 ^ (- e) =? 0)%Z then Some (Z.pos m / 2 ^ (- e))%Z else None in
      (if s then Z.opp else id) <$> abs
  | _ => None
  end.

(** [maxInt] rounds to 2^63 and [minInt] to -2^63, so 2^63 itself passes the
    range check; its conversion is implementation-specific and wraps here. *)
Definition parseFloat64Value (num : float64) : res string Z :=
  match num with
  | S754_infinity _ => Err errOutOfRange
  | _ =>
      match f64_integer num with
      | None => Err errMustBeInt
      | Some n =>
          if (2 ^ 63 <? n)%Z || (n <? - 2 ^ 63)%Z then Err errOutOfRange
          else Ok (if (n =? 2 ^ 63)%Z then (- 2 ^ 63)%Z else n)
      end
  end.

(** [json.Number.Int64] and [strconv.Atoi] both parse a 64-bit decimal. *)
Definition parseJSONNumberValue (num : string) : res string Z :=
  match strconv_Atoi num with None => Err errMustBeInt | Some n => Ok n end.

Definition parseReflectValue (value : any) : res string Z :=
  match value with
  | AnySmallInt z => Ok z
  | AnyStringer false (Some z) _ => Ok z
  | _ => Err errMustBeInt
  end.

Section decode.
  Context {U : UUIDLib} {D : DecimalLib} {N : UnicodeLib} {F : FmtLib}.

Definition parseStringValue (num : string) : res string Z :=
  match strconv_Atoi (strings_TrimSpace num) with None => Err errMustBeInt | Some n => Ok n end.

Definition parseIntValue (value : any) : res string Z :=
  match value with
  | AnyInt num => parseInt64Value num
  | AnyFloat bits num => if (bits =? 64)%Z then parseFloat64Value num else parseReflectValue value
  | AnyJSONNumber num => parseJSONNumberValue num
  | AnyString num => parseStringValue num
  | _ => parseReflectValue value
  end.

Definition getInt (configMap : ConfigMap) (key : string) (def : Z) : res DecodeError Z :=
  match configMap !! key with
  | None | Some AnyNil => Ok def
  | Some value => map_err (fun e => ErrRuleConfigDecode (key +:+ ": " +:+ e)) (parseIntValue value)
  end.

Definition from_string (key what s : string) : res DecodeError decimal :=
  match dec_NewFromString s with None => wrapDecodeErr (key +:+ what) | Some d => Ok d end.

Definition getDecimal (configMap : ConfigMap) (key : string) (def : decimal) : res DecodeError decimal :=
  match configMap !! key with
  | None | Some AnyNil => Ok def
  | Some (AnyString s) => from_string key " invalid decimal string" s
  | Some (AnyFloat 64 f) => from_string key " invalid float value" (strconv_FormatFloat_f f 64)
  | Some (AnyInt n) => Ok (dec_NewFromInt n)
  | Some (AnyJSONNumber s) => from_string key " invalid json.Number" s
  | Some _ => wrapDecodeErr (key +:+ " unsupported type")
  end.

Definition validateScore (score : Z) : res DecodeError unit :=
  ensure (negb ((score <? 0)%Z || (100 <? score)%Z)) (ErrRuleConfigDecode "score must be between 0 and 100").

(** An optional string field restricted to [allowed]: the shape shared by
    the enumeration decoders. *)
Definition getEnum (configMap : ConfigMap) (key : string) (normalise : string -> string)
    (allowed : list string) (def : string) (invalid : string) : res DecodeError string :=
  match configMap !! key with
  | None => Ok def
  | Some (AnyString s) =>
      if bool_decide (normalise s ∈ allowed) then Ok (normalise s) else wrapDecodeErr invalid
  | Some _ => wrapDecodeErr (key +:+ " must be string")
  end.

(** ** [rule_config_decode_exact.go] *)
Definition defaultExactConfig : ExactConfig :=
  mkExactConfig true true true DatePrecisionDay true true false false false defaultExactScore
    defaultExactBaseScore.

Definition decodeExactBoolFields (configMap : ConfigMap) (cfg : ExactConfig) : res DecodeError ExactConfig :=
  matchAmount ← getBool configMap "matchAmount" (EC_MatchAmount cfg);
  matchCurrency ← getBool configMap "matchCurrency" (EC_MatchCurrency cfg);
  matchDate ← getBool configMap "matchDate" (EC_MatchDate cfg);
  matchReference ← getBool configMap "matchReference" (EC_MatchReference cfg);
  caseInsensitive ← getBool configMap "caseInsensitive" (EC_CaseInsensitive cfg);
  referenceMustSet ← getBool configMap "referenceMustSet" false;
  matchBaseAmount ← getBool configMap "matchBaseAmount" (EC_MatchBaseAmount cfg);
  matchBaseCurrency ← getBool configMap "matchBaseCurrency" (EC_MatchBaseCurrency cfg);
  allocationUseBaseAmount ← getBool configMap "allocationUseBaseAmount" false;
  Ok (mkExactConfig matchAmount matchCurrency matchDate (EC_DatePrecision cfg) matchReference caseInsensitive
        referenceMustSet (matchBaseAmount || allocationUseBaseAmount)
        (matchBaseCurrency || allocationUseBaseAmount) (EC_MatchScore cfg) (EC_MatchBaseScore cfg)).

Definition decodeExactScoreFields (configMap : ConfigMap) (cfg : ExactConfig) : res DecodeError ExactConfig :=
  matchScore ← getInt configMap "matchScore" (EC_MatchScore cfg);
  matchBaseScore ← getInt configMap "matchBaseScore" (EC_MatchBaseScore cfg);
  _ ← validateScore matchScore;
  _ ← (if EC_MatchBaseAmount cfg || EC_MatchBaseCurrency cfg then validateScore matchBaseScore else Ok tt);
  Ok (mkExactConfig (EC_MatchAmount cfg) (EC_MatchCurrency cfg) (EC_MatchDate cfg) (EC_DatePrecision cfg)
        (EC_MatchReference cfg) (EC_CaseInsensitive cfg) (EC_ReferenceMustSet cfg) (EC_MatchBaseAmount cfg)
        (EC_MatchBaseCurrency cfg) matchScore matchBaseScore).

Definition decodeExactDatePrecision (configMap : ConfigMap) (cfg : ExactConfig) : res DecodeError ExactConfig :=
  precision ← getEnum configMap "datePrecision" id [DatePrecisionDay; DatePrecisionTimestamp]
    (EC_DatePrecision cfg) "invalid datePrecision";
  Ok (mkExactConfig (EC_MatchAmount cfg) (EC_MatchCurrency cfg) (EC_MatchDate cfg) precision
        (EC_MatchReference cfg) (EC_CaseInsensitive cfg) (EC_ReferenceMustSet cfg) (EC_MatchBaseAmount cfg)
        (EC_MatchBaseCurrency cfg) (EC_MatchScore cfg) (EC_MatchBaseScore cfg)).

Definition decodeExactConfig (configMap : ConfigMap) : res DecodeError ExactConfig :=
  cfg ← decodeExactBoolFields configMap defaultExactConfig;
  cfg ← decodeExactScoreFields configMap cfg;
  decodeExactDatePrecision configMap cfg.

(** ** [rule_config_decode_tolerance.go] *)
Definition initToleranceConfig (configMap : ConfigMap) : res DecodeError ToleranceConfig :=
  absDefault ← from_string "" "invalid default absTolerance" "0.50";
  pctDefault ← from_string "" "invalid default percentTolerance" "0.005";
  dateWindowDays ← getInt configMap "dateWindowDays" 0;
  roundingScale ← getInt configMap "roundingScale" defaultRoundingScale;
  Ok (mkToleranceConfig true dateWindowDays absDefault pctDefault roundingScale RoundingHalfUp false false
        defaultToleranceScore defaultToleranceBase TolerancePercentageBaseMax false false false).

Definition validateToleranceBounds (cfg : ToleranceConfig) : res DecodeError unit :=
  _ ← ensure (negb (TC_DateWindowDays cfg <? 0)%Z) (ErrRuleConfigDecode "dateWindowDays must be >= 0");
  _ ← ensure (negb (maxDateWindowDays <? TC_DateWindowDays cfg)%Z)
        (ErrRuleConfigDecode "dateWindowDays exceeds maximum");
  _ ← ensure (negb (TC_RoundingScale cfg <? 0)%Z) (ErrRuleConfigDecode "roundingScale must be >= 0");
  ensure (negb (maxRoundingScale <? TC_RoundingScale cfg)%Z) (ErrRuleConfigDecode "roundingScale exceeds maximum").

Definition decodeToleranceRoundingMode (configMap : ConfigMap) (cfg : ToleranceConfig)
    : res DecodeError ToleranceConfig :=
  mode ← getEnum configMap "roundingMode" id
    [RoundingHalfUp; RoundingBankers; RoundingFloor; RoundingCeil; RoundingTruncate] (TC_RoundingMode cfg)
    "invalid roundingMode";
  Ok (mkToleranceConfig (TC_MatchCurrency cfg) (TC_DateWindowDays cfg) (TC_AbsAmountTolerance cfg)
        (TC_PercentTolerance cfg) (TC_RoundingScale cfg) mode (TC_MatchBaseAmount cfg) (TC_MatchBaseCurrency cfg)
        (TC_MatchScore cfg) (TC_MatchBaseScore cfg) (TC_PercentageBase cfg) (TC_MatchReference cfg)
        (TC_CaseInsensitive cfg) (TC_ReferenceMustSet cfg)).

Definition decodeTolerancePercentageBase (configMap : ConfigMap) (cfg : ToleranceConfig)
    : res DecodeError ToleranceConfig :=
  base ← getEnum configMap "percentageBase" strings_ToUpper
    [TolerancePercentageBaseMax; TolerancePercentageBaseMin; TolerancePercentageBaseAvg;
     TolerancePercentageBaseLeft; TolerancePercentageBaseRight] (TC_PercentageBase cfg)
    "invalid percentageBase: must be MAX, MIN, AVERAGE, LEFT, or RIGHT";
  Ok (mkToleranceConfig (TC_MatchCurrency cfg) (TC_DateWindowDays cfg) (TC_AbsAmountTolerance cfg)
        (TC_PercentTolerance cfg) (TC_RoundingScale cfg) (TC_RoundingMode cfg) (TC_MatchBaseAmount cfg)
        (TC_MatchBaseCurrency cfg) (TC_MatchScore cfg) (TC_MatchBaseScore cfg) base (TC_MatchReference cfg)
        (TC_CaseInsensitive cfg) (TC_ReferenceMustSet cfg)).

Definition decodeToleranceAmounts (configMap : ConfigMap) (cfg : ToleranceConfig)
    : res DecodeError ToleranceConfig :=
  absTol ← getDecimal configMap "absTolerance" (TC_AbsAmountTolerance cfg);
  pctTol ← getDecimal configMap "percentTolerance" (TC_PercentTolerance cfg);
  _ ← ensure (negb (dec_IsNegative absTol)) (ErrRuleConfigDecode "absTolerance must be non-negative");
  _ ← ensure (negb (dec_IsNegative pctTol)) (ErrRuleConfigDecode "percentTolerance must be non-negative");
  Ok (mkToleranceConfig (TC_MatchCurrency cfg) (TC_DateWindowDays cfg) absTol pctTol (TC_RoundingScale cfg)
        (TC_RoundingMode cfg) (TC_MatchBaseAmount cfg) (TC_MatchBaseCurrency cfg) (TC_MatchScore cfg)
        (TC_MatchBaseScore cfg) (TC_PercentageBase cfg) (TC_MatchReference cfg) (TC_CaseInsensitive cfg)
        (TC_ReferenceMustSet cfg)).

Definition decodeToleranceReferenceFields (configMap : ConfigMap) (cfg : ToleranceConfig)
    : res DecodeError ToleranceConfig :=
  matchReference ← getBool configMap "matchReference" true;
  caseInsensitive ← getBool configMap "caseInsensitive" true;
  referenceMustSet ← getBool configMap "referenceMustSet" false;
  Ok (mkToleranceConfig (TC_MatchCurrency cfg) (TC_DateWindowDays cfg) (TC_AbsAmountTolerance cfg)
        (TC_PercentTolerance cfg) (TC_RoundingScale cfg) (TC_RoundingMode cfg) (TC_MatchBaseAmount cfg)
        (TC_MatchBaseCurrency cfg) (TC_MatchScore cfg) (TC_MatchBaseScore cfg) (TC_PercentageBase cfg)
        matchReference caseInsensitive referenceMustSet).

Definition decodeToleranceMatchFields (configMap : ConfigMap) (cfg : ToleranceConfig)
    : res DecodeError ToleranceConfig :=
  matchCurrency ← getBool configMap "matchCurrency" (TC_MatchCurrency cfg);
  matchBaseAmount ← getBool configMap "matchBaseAmount" (TC_MatchBaseAmount cfg);
  matchBaseCurrency ← getBool configMap "matchBaseCurrency" (TC_MatchBaseCurrency cfg);
  matchScore ← getInt configMap "matchScore" (TC_MatchScore cfg);
  matchBaseScore ← getInt configMap "matchBaseScore" (TC_MatchBaseScore cfg);
  _ ← validateScore matchScore;
  _ ← (if matchBaseAmount || matchBaseCurrency then validateScore matchBaseScore else Ok tt);
  decodeToleranceReferenceFields configMap
    (mkToleranceConfig matchCurrency (TC_DateWindowDays cfg) (TC_AbsAmountTolerance cfg)
       (TC_PercentTolerance cfg) (TC_RoundingScale cfg) (TC_RoundingMode cfg) matchBaseAmount matchBaseCurrency
       matchScore matchBaseScore (TC_PercentageBase cfg) (TC_MatchReference cfg) (TC_CaseInsensitive cfg)
       (TC_ReferenceMustSet cfg)).

Definition decodeToleranceConfig (configMap : ConfigMap) : res DecodeError ToleranceConfig :=
  cfg ← initToleranceConfig configMap;
  _ ← validateToleranceBounds cfg;
  cfg ← decodeToleranceRoundingMode configMap cfg;
  cfg ← decodeTolerancePercentageBase configMap cfg;
  cfg ← decodeToleranceAmounts configMap cfg;
  decodeToleranceMatchFields configMap cfg.

(** ** [rule_config_decode_advanced.go] *)
Definition initAllocationConfig (configMap : ConfigMap) : res DecodeError AllocationConfig :=
  allowPartial ← getBool configMap "allowPartial" false;
  useBaseAmount ← getBool configMap "allocationUseBaseAmount" false;
  toleranceValue ← getDecimal configMap "allocationToleranceValue" dec_Zero;
  _ ← ensure (negb (dec_IsNegative toleranceValue))
        (ErrRuleConfigDecode "allocationToleranceValue must be non-negative");
  Ok (mkAllocationConfig allowPartial AllocationDirectionLeftToRight AllocationToleranceAbsolute toleranceValue
        useBaseAmount).

Definition decodeAllocationDirection (configMap : ConfigMap) (cfg : AllocationConfig)
    : res DecodeError AllocationConfig :=
  direction ← getEnum configMap "allocationDirection" id
    [AllocationDirectionLeftToRight; AllocationDirectionRightToLeft] (AC_Direction cfg)
    "invalid allocationDirection";
  Ok (mkAllocationConfig (AC_AllowPartial cfg) direction (AC_ToleranceMode cfg) (AC_ToleranceValue cfg)
        (AC_UseBaseAmount cfg)).

Definition decodeAllocationToleranceMode (configMap : ConfigMap) (cfg : AllocationConfig)
    : res DecodeError AllocationConfig :=
  mode ← getEnum configMap "allocationToleranceMode" id
    [AllocationToleranceAbsolute; AllocationTolerancePercent] (AC_ToleranceMode cfg)
    "invalid allocationToleranceMode";
  Ok (mkAllocationConfig (AC_AllowPartial cfg) (AC_Direction cfg) mode (AC_ToleranceValue cfg)
        (AC_UseBaseAmount cfg)).

Definition decodeAllocationConfig (configMap : ConfigMap) : res DecodeError AllocationConfig :=
  cfg ← initAllocationConfig configMap;
  cfg ← decodeAllocationDirection configMap cfg;
  decodeAllocationToleranceMode configMap cfg.

Definition initDateLagConfig (configMap : ConfigMap) : res DecodeError DateLagConfig :=
  minDays ← getInt configMap "minDays" 0;
  maxDays ← getInt configMap "maxDays" 0;
  inclusive ← getBool configMap "inclusive" true;
  feeTolerance ← getDecimal configMap "feeTolerance" dec_Zero;
  _ ← ensure (negb (dec_IsNegative feeTolerance)) (ErrRuleConfigDecode "feeTolerance must be non-negative");
  Ok (mkDateLagConfig minDays maxDays inclusive DateLagDirectionAbs feeTolerance defaultDateLagScore true).

Definition validateDateLagBounds (cfg : DateLagConfig) : res DecodeError unit :=
  _ ← ensure (negb ((DC_MinDays cfg <? 0)%Z || (DC_MaxDays cfg <? 0)%Z))
        (ErrRuleConfigDecode "minDays/maxDays must be >= 0");
  _ ← ensure (negb (DC_MaxDays cfg <? DC_MinDays cfg)%Z) (ErrRuleConfigDecode "maxDays must be >= minDays");
  _ ← ensure (negb ((maxDateLagDays <? DC_MinDays cfg)%Z || (maxDateLagDays <? DC_MaxDays cfg)%Z))
        (ErrRuleConfigDecode "date lag days exceed maximum");
  ensure (negb (negb (DC_Inclusive cfg) && (DC_MinDays cfg =? 0)%Z))
    (ErrRuleConfigDecode ("exclusive bounds (inclusive=false) with minDays=0 excludes same-day transactions; " +:+
       "use inclusive=true with minDays=0 to include same-day matches, " +:+
       "or set minDays=1 for exclusive bounds starting from 1 day")).

Definition decodeDateLagDirection (configMap : ConfigMap) (cfg : DateLagConfig) : res DecodeError DateLagConfig :=
  direction ← getEnum configMap "direction" id
    [DateLagDirectionAbs; DateLagDirectionLeftBeforeRight; DateLagDirectionRightBeforeLeft] (DC_Direction cfg)
    "invalid direction";
  Ok (mkDateLagConfig (DC_MinDays cfg) (DC_MaxDays cfg) (DC_Inclusive cfg) direction (DC_FeeTolerance cfg)
        (DC_MatchScore cfg) (DC_MatchCurrency cfg)).

Definition decodeDateLagMatchFields (configMap : ConfigMap) (cfg : DateLagConfig)
    : res DecodeError DateLagConfig :=
  matchCurrency ← getBool configMap "matchCurrency" (DC_MatchCurrency cfg);
  matchScore ← getInt configMap "matchScore" (DC_MatchScore cfg);
  _ ← validateScore matchScore;
  Ok (mkDateLagConfig (DC_MinDays cfg) (DC_MaxDays cfg) (DC_Inclusive cfg) (DC_Direction cfg)
        (DC_FeeTolerance cfg) matchScore matchCurrency).

Definition decodeDateLagConfig (configMap : ConfigMap) : res DecodeError DateLagConfig :=
  cfg ← initDateLagConfig configMap;
  _ ← validateDateLagBounds cfg;
  cfg ← decodeDateLagDirection configMap cfg;
  decodeDateLagMatchFields configMap cfg.

(** ** [rule_config_decode.go] *)
Definition RuleDefinitionFromMatchRule (rule : option MatchRule) : res DecodeError RuleDefinition :=
  match rule with
  | None => Err ErrNilMatchRule
  | Some rule =>
      if negb (RuleType_Valid (RU_Type rule)) then Err ErrUnsupportedRuleType
      else Ok (mkRuleDefinition (RU_ID rule) (RU_Priority rule) (RU_Type rule) None None None None)
  end.

(** The two base-matching flags and the allocation after alignment. *)
Definition alignBaseAmountSettings (config : ConfigMap) (allocation : AllocationConfig)
    (matchBaseAmount matchBaseCurrency : bool) : AllocationConfig * bool * bool :=
  let matchBaseAmount := matchBaseAmount || AC_UseBaseAmount allocation in
  let matchBaseCurrency := matchBaseCurrency || AC_UseBaseAmount allocation in
  let useBase := AC_UseBaseAmount allocation ||
    (matchBaseAmount && negb (hasExplicitFalse config "allocationUseBaseAmount")) in
  (mkAllocationConfig (AC_AllowPartial allocation) (AC_Direction allocation) (AC_ToleranceMode allocation)
     (AC_ToleranceValue allocation) useBase, matchBaseAmount, matchBaseCurrency).

(** [def.Exact] points to the configuration that the alignment changes. *)
Definition decodeExactRule (config : ConfigMap) (def : RuleDefinition) : res DecodeError RuleDefinition :=
  cfg ← decodeExactConfig config;
  allocation ← decodeAllocationConfig config;
  let '(allocation, baseAmount, baseCurrency) :=
    alignBaseAmountSettings config allocation (EC_MatchBaseAmount cfg) (EC_MatchBaseCurrency cfg) in
  let cfg := mkExactConfig (EC_MatchAmount cfg) (EC_MatchCurrency cfg) (EC_MatchDate cfg) (EC_DatePrecision cfg)
    (EC_MatchReference cfg) (EC_CaseInsensitive cfg) (EC_ReferenceMustSet cfg) baseAmount baseCurrency
    (EC_MatchScore cfg) (EC_MatchBaseScore cfg) in
  Ok (mkRuleDefinition (RD_ID def) (RD_Priority def) (RD_Type def) (Some cfg) (RD_Tolerance def) (RD_DateLag def)
        (Some allocation)).

Definition decodeToleranceRule (config : ConfigMap) (def : RuleDefinition) : res DecodeError RuleDefinition :=
  cfg ← decodeToleranceConfig config;
  allocation ← decodeAllocationConfig config;
  let '(allocation, baseAmount, baseCurrency) :=
    alignBaseAmountSettings config allocation (TC_MatchBaseAmount cfg) (TC_MatchBaseCurrency cfg) in
  let cfg := mkToleranceConfig (TC_MatchCurrency cfg) (TC_DateWindowDays cfg) (TC_AbsAmountTolerance cfg)
    (TC_PercentTolerance cfg) (TC_RoundingScale cfg) (TC_RoundingMode cfg) baseAmount baseCurrency
    (TC_MatchScore cfg) (TC_MatchBaseScore cfg) (TC_PercentageBase cfg) (TC_MatchReference cfg)
    (TC_CaseInsensitive cfg) (TC_ReferenceMustSet cfg) in
  Ok (mkRuleDefinition (RD_ID def) (RD_Priority def) (RD_Type def) (RD_Exact def) (Some cfg) (RD_DateLag def)
        (Some allocation)).

Definition decodeDateLagRule (config : ConfigMap) (def : RuleDefinition) : res DecodeError RuleDefinition :=
  cfg ← decodeDateLagConfig config;
  allocation ← decodeAllocationConfig config;
  Ok (mkRuleDefinition (RD_ID def) (RD_Priority def) (RD_Type def) (RD_Exact def) (RD_Tolerance def) (Some cfg)
        (Some allocation)).

(** A nil configuration reads as an empty one. *)
Definition DecodeRuleDefinition (rule : option MatchRule) : res DecodeError RuleDefinition :=
  def ← RuleDefinitionFromMatchRule rule;
  let config := default ∅ (rule ≫= RU_Config) in
  if bool_decide (RD_Type def = RuleTypeExact) then decodeExactRule config def
  else if bool_decide (RD_Type def = RuleTypeTolerance) then decodeToleranceRule config def
  else if bool_decide (RD_Type def = RuleTypeDateLag) then decodeDateLagRule config def
  else Err ErrUnsupportedRuleType.

Definition ValidateRuleConfig (ruleType : RuleType) (config : option ConfigMap) : res DecodeError unit :=
  match config with
  | None => wrapDecodeErr "config is nil"
  | Some config =>
      if (size config =? 0)%nat then wrapDecodeErr "config is empty"
      else
        _ ← DecodeRuleDefinition (Some (mkMatchRule uuid_Nil uuid_Nil 0 ruleType (Some config) 0 0));
        Ok tt
  end.
End decode.

(** ** Results *)
Section results.
  Context {U : UUIDLib} {UL : UUIDLaws U} {D : DecimalLib} {L : DecimalLaws D} {N : UnicodeLib} {F : FmtLib}.

Definition score_ok (n : Z) : Prop := (0 <= n <= 100)%Z.

Lemma validateScore_Ok n u : validateScore n = Ok u -> score_ok n.
Proof. unfold validateScore. intros H. res_inv. bool_inv. rewrite !Z.ltb_ge in *. by split. Qed.

Lemma getEnum_Ok configMap key norm allowed def invalid s :
  getEnum configMap key norm allowed def invalid = Ok s -> def ∈ allowed -> s ∈ allowed.
Proof.
  unfold getEnum. intros H Hd. destruct (configMap !! key) as [[]|]; simplify_eq; try done.
  by case_bool_decide; simplify_eq.
Qed.

(** *** What a decoded configuration satisfies *)
Record exact_wf (cfg : ExactConfig) : Prop := {
  ew_precision : EC_DatePrecision cfg ∈ [DatePrecisionDay; DatePrecisionTimestamp];
  ew_score : score_ok (EC_MatchScore cfg);
  ew_base_score : EC_MatchBaseAmount cfg || EC_MatchBaseCurrency cfg = true -> score_ok (EC_MatchBaseScore cfg);
}.

Record tolerance_wf (cfg : ToleranceConfig) : Prop := {
  tw_window : (0 <= TC_DateWindowDays cfg <= maxDateWindowDays)%Z;
  tw_scale : (0 <= TC_RoundingScale cfg <= maxRoundingScale)%Z;
  tw_mode : TC_RoundingMode cfg ∈ [RoundingHalfUp; RoundingBankers; RoundingFloor; RoundingCeil; RoundingTruncate];
  tw_base : TC_PercentageBase cfg ∈ [TolerancePercentageBaseMax; TolerancePercentageBaseMin;
    TolerancePercentageBaseAvg; TolerancePercentageBaseLeft; TolerancePercentageBaseRight];
  tw_abs : 0 <= dec_Rat (TC_AbsAmountTolerance cfg);
  tw_pct : 0 <= dec_Rat (TC_PercentTolerance cfg);
  tw_score : score_ok (TC_MatchScore cfg);
}.

Record date_lag_wf (cfg : DateLagConfig) : Prop := {
  dw_days : (0 <= DC_MinDays cfg <= DC_MaxDays cfg)%Z /\ (DC_MaxDays cfg <= maxDateLagDays)%Z;
  dw_exclusive : DC_Inclusive cfg = false -> (0 < DC_MinDays cfg)%Z;
  dw_direction : valid_direction (DC_Direction cfg);
  dw_fee : 0 <= dec_Rat (DC_FeeTolerance cfg);
  dw_score : score_ok (DC_MatchScore cfg);
}.

Lemma decodeExactConfig_wf config cfg :
  decodeExactConfig config = Ok cfg ->
  exact_wf cfg /\ (getBool config "allocationUseBaseAmount" false = Ok true ->
    EC_MatchBaseAmount cfg = true /\ EC_MatchBaseCurrency cfg = true).
Proof.
  unfold decodeExactConfig. intros H. res_inv.
  unfold decodeExactBoolFields in Hx. unfold decodeExactScoreFields in Hx0. unfold decodeExactDatePrecision in H.
  res_inv. split.
  - split; cbn in *.
    + eapply getEnum_Ok; [eassumption|]. set_solver.
    + by eapply validateScore_Ok.
    + intros Hb. match goal with H : (if _ then _ else _) = Ok _ |- _ => rewrite Hb in H end.
      by eapply validateScore_Ok.
  - intros Hu. cbn. match goal with H : getBool _ "allocationUseBaseAmount" _ = Ok ?b |- _ =>
      rewrite Hu in H; injection H as <- end. by rewrite !orb_true_r.
Qed.

Lemma decodeToleranceConfig_wf config cfg : decodeToleranceConfig config = Ok cfg -> tolerance_wf cfg.
Proof.
  unfold decodeToleranceConfig, initToleranceConfig, validateToleranceBounds, decodeToleranceRoundingMode,
    decodeTolerancePercentageBase, decodeToleranceAmounts, decodeToleranceMatchFields,
    decodeToleranceReferenceFields. intros H. res_inv. cbn in *. bool_inv. rewrite !Z.ltb_ge in *. dec_bool.
  split; cbn; try done; try (eapply getEnum_Ok; [eassumption|]; set_solver). by eapply validateScore_Ok.
Qed.

Lemma decodeDateLagConfig_wf config cfg : decodeDateLagConfig config = Ok cfg -> date_lag_wf cfg.
Proof.
  unfold decodeDateLagConfig, initDateLagConfig, validateDateLagBounds, decodeDateLagDirection,
    decodeDateLagMatchFields. intros H. res_inv. cbn in *. bool_inv. rewrite !Z.ltb_ge in *. dec_bool.
  split; cbn; try done; try lia.
  - intros ->. cbn in *. lia.
  - match goal with H : getEnum _ _ _ _ _ _ = Ok ?d |- valid_direction ?d =>
      eapply getEnum_Ok in H; [|set_solver]; unfold valid_direction; set_solver end.
  - by eapply validateScore_Ok.
Qed.

Lemma decodeAllocationConfig_valid config cfg :
  decodeAllocationConfig config = Ok cfg ->
  validateAllocationConfig (Some cfg) = Ok cfg /\
  getBool config "allocationUseBaseAmount" false = Ok (AC_UseBaseAmount cfg).
Proof.
  unfold decodeAllocationConfig, initAllocationConfig, decodeAllocationDirection, decodeAllocationToleranceMode.
  intros H. res_inv. cbn in *. bool_inv. split; [|done].
  repeat match goal with H : getEnum _ _ _ _ _ _ = Ok _ |- _ => eapply getEnum_Ok in H; [|set_solver] end.
  unfold validateAllocationConfig. cbn.
  repeat case_bool_decide; cbn;
    first [by match goal with H : dec_IsNegative _ = false |- _ => rewrite H end|set_solver].
Qed.

Lemma alignBaseAmountSettings_valid config allocation a c :
  validateAllocationConfig (Some allocation) = Ok allocation ->
  let '(alloc', a', c') := alignBaseAmountSettings config allocation a c in
  validateAllocationConfig (Some alloc') = Ok alloc' /\
  (AC_UseBaseAmount alloc' = true -> a' = true) /\
  (a' = true -> AC_UseBaseAmount alloc' = true \/ hasExplicitFalse config "allocationUseBaseAmount" = true) /\
  a' = a || AC_UseBaseAmount allocation /\ c' = c || AC_UseBaseAmount allocation.
Proof.
  unfold alignBaseAmountSettings, validateAllocationConfig. destruct allocation as [p d t v u]; cbn.
  intros H. split.
  - repeat case_bool_decide; cbn in *; try done; by destruct (dec_IsNegative v).
  - destruct u, a, (hasExplicitFalse _ _); cbn; rewrite ?orb_false_r; naive_solver.
Qed.

(** A definition the engine can run: one configuration, of the type the
    definition names, in range; a valid allocation; and an allocation on base
    amounts only where base amounts are matched. *)
Record rule_def_wf (def : RuleDefinition) : Prop := {
  rw_config :
    (exists cfg, RD_Type def = RuleTypeExact /\ RD_Exact def = Some cfg /\ RD_Tolerance def = None /\
       RD_DateLag def = None /\ exact_wf cfg) \/
    (exists cfg, RD_Type def = RuleTypeTolerance /\ RD_Exact def = None /\ RD_Tolerance def = Some cfg /\
       RD_DateLag def = None /\ tolerance_wf cfg) \/
    (exists cfg, RD_Type def = RuleTypeDateLag /\ RD_Exact def = None /\ RD_Tolerance def = None /\
       RD_DateLag def = Some cfg /\ date_lag_wf cfg);
  rw_allocation : exists alloc, RD_Allocation def = Some alloc /\
    validateAllocationConfig (Some alloc) = Ok alloc /\
    (AC_UseBaseAmount alloc = true ->
       (forall cfg, RD_Exact def = Some cfg -> EC_MatchBaseAmount cfg = true) /\
       (forall cfg, RD_Tolerance def = Some cfg -> TC_MatchBaseAmount cfg = true));
}.

Lemma decodeExactRule_wf config id prio def :
  decodeExactRule config (mkRuleDefinition id prio RuleTypeExact None None None None) = Ok def ->
  rule_def_wf def /\ RD_ID def = id /\ RD_Priority def = prio /\ RD_Type def = RuleTypeExact.
Proof.
  unfold decodeExactRule. intros H. res_inv.
  match goal with H : decodeExactConfig _ = Ok _ |- _ => apply decodeExactConfig_wf in H as [Hc Hu] end.
  match goal with H : decodeAllocationConfig _ = Ok ?a |- _ =>
    apply decodeAllocationConfig_valid in H as [Ha Hub];
    pose proof (alignBaseAmountSettings_valid config a (EC_MatchBaseAmount x) (EC_MatchBaseCurrency x) Ha) as Hal;
    destruct (alignBaseAmountSettings _ _ _ _) as [[alloc' a'] c']; destruct Hal as (Hv & Hab & _ & Ea & Ec) end.
  injection H as <-. split; [|done].
  assert (a' = EC_MatchBaseAmount x /\ c' = EC_MatchBaseCurrency x) as [-> ->].
  { subst. destruct (AC_UseBaseAmount _); [|by rewrite !orb_false_r].
    destruct (Hu Hub) as [-> ->]. done. }
  split; cbn.
  - left. eexists. split_and!; try done. destruct Hc as [H1 H2 H3]. by split.
  - exists alloc'. split_and!; try done. intros Hb. split; [|done]. intros ? [= <-]. by apply Hab.
Qed.

Lemma decodeToleranceRule_wf config id prio def :
  decodeToleranceRule config (mkRuleDefinition id prio RuleTypeTolerance None None None None) = Ok def ->
  rule_def_wf def /\ RD_ID def = id /\ RD_Priority def = prio /\ RD_Type def = RuleTypeTolerance.
Proof.
  unfold decodeToleranceRule. intros H. res_inv.
  match goal with H : decodeToleranceConfig _ = Ok _ |- _ => apply decodeToleranceConfig_wf in H as Hc end.
  match goal with H : decodeAllocationConfig _ = Ok ?a |- _ =>
    apply decodeAllocationConfig_valid in H as [Ha Hub];
    pose proof (alignBaseAmountSettings_valid config a (TC_MatchBaseAmount x) (TC_MatchBaseCurrency x) Ha) as Hal;
    destruct (alignBaseAmountSettings _ _ _ _) as [[alloc' a'] c']; destruct Hal as (Hv & Hab & _) end.
  injection H as <-. split; [|done]. split; cbn.
  - right; left. eexists. split_and!; try done. destruct Hc. by split.
  - exists alloc'. split_and!; try done. intros Hb. split; [done|]. intros ? [= <-]. by apply Hab.
Qed.

Lemma decodeDateLagRule_wf config id prio def :
  decodeDateLagRule config (mkRuleDefinition id prio RuleTypeDateLag None None None None) = Ok def ->
  rule_def_wf def /\ RD_ID def = id /\ RD_Priority def = prio /\ RD_Type def = RuleTypeDateLag.
Proof.
  unfold decodeDateLagRule. intros H. res_inv. split; [|done]. split; cbn.
  - right; right. eexists. split_and!; try done. by eapply decodeDateLagConfig_wf.
  - eexists. split_and!; [done|by eapply decodeAllocationConfig_valid|done].
Qed.

Lemma DecodeRuleDefinition_wf rule def :
  DecodeRuleDefinition (Some rule) = Ok def ->
  rule_def_wf def /\ RD_ID def = RU_ID rule /\ RD_Priority def = RU_Priority rule /\ RD_Type def = RU_Type rule.
Proof.
  unfold DecodeRuleDefinition, RuleDefinitionFromMatchRule. intros H. res_inv.
  destruct (RuleType_Valid _); cbn in *; simplify_eq. cbn in H.
  case_bool_decide as H1; [|case_bool_decide as H2; [|case_bool_decide as H3; [|done]]].
  - rewrite H1 in *. by apply decodeExactRule_wf in H.
  - rewrite H2 in *. by apply decodeToleranceRule_wf in H.
  - rewrite H3 in *. by apply decodeDateLagRule_wf in H.
Qed.

(** *** The engine on decoded rules *)
Lemma ExactMatch_total left right cfg : exact_wf cfg -> exists b, ExactMatch left right (Some cfg) = Ok b.
Proof.
  intros [Hp _ _]. unfold ExactMatch.
  assert (exists b, matchDate left right cfg = Ok b) as [b ->].
  { unfold matchDate. destruct (negb _); [eauto|]. case_bool_decide; [eauto|]. case_bool_decide; [eauto|set_solver]. }
  cbn. repeat (case_match; [by eauto|]). eauto.
Qed.

Lemma ToleranceMatch_total left right cfg :
  tolerance_wf cfg -> exists b, ToleranceMatch left right (Some cfg) = Ok b.
Proof.
  intros [[Hw _] Hs Hm _ Ha Hp _]. destruct (ToleranceMatch_Ok left right cfg) as (b & Hb & _); [|eauto].
  unfold validateToleranceConfig, roundAmount.
  assert ((TC_DateWindowDays cfg <? 0)%Z = false) as -> by lia.
  assert (dec_IsNegative (TC_AbsAmountTolerance cfg) = false) as -> by dec_lra.
  assert (dec_IsNegative (TC_PercentTolerance cfg) = false) as -> by dec_lra.
  unfold maxRoundingScale, max_int32 in *.
  assert ((TC_RoundingScale cfg <? 0)%Z = false) as -> by lia.
  rewrite (proj2 (Z.ltb_ge _ _)) by lia. cbn.
  repeat (case_bool_decide; cbn; [done|]). set_solver.
Qed.

Lemma DateLagMatch_total left right cfg :
  date_lag_wf cfg -> exists b, DateLagMatch left right (Some cfg) = Ok b.
Proof.
  intros [[[H1 H2] H3] _ Hd Hf _]. unfold DateLagMatch, validateDateLagConfig, validateFeeTolerance.
  assert ((DC_MinDays cfg <? 0)%Z = false) as -> by lia.
  assert ((DC_MaxDays cfg <? 0)%Z = false) as -> by lia.
  assert ((DC_MaxDays cfg <? DC_MinDays cfg)%Z = false) as -> by lia.
  cbn. assert (dec_IsNegative (DC_FeeTolerance cfg) = false) as -> by dec_lra. cbn.
  destruct (computeDateLagDiff_valid left right cfg Hd) as (diff & -> & _). cbn.
  repeat (case_match; [by eauto|]). eauto.
Qed.

Lemma evalByType_total def left right : rule_def_wf def -> exists r, evalByType def left right = Ok r.
Proof.
  unfold evalByType.
  intros [[(cfg & _ & -> & _ & _ & H)|[(cfg & _ & -> & -> & _ & H)|(cfg & _ & -> & -> & -> & H)]] _].
  - destruct (ExactMatch_total left right cfg H) as [b ->]. cbn. eauto.
  - destruct (ToleranceMatch_total left right cfg H) as [b ->]. cbn. eauto.
  - destruct (DateLagMatch_total left right cfg H) as [b ->]. cbn. eauto.
Qed.

(** The errors the allocation may still raise concern the transactions. *)
Definition amount_negative (tx : CandidateTransaction) : Prop :=
  dec_Rat (CT_Amount tx) < 0 \/ exists base, CT_AmountBase tx = Some base /\ dec_Rat base < 0.

Definition allocation_error (txs : list CandidateTransaction) (e : EngineError) : Prop :=
  e = ErrCandidateSetTooLarge /\ (maxAllocationCandidates < length txs)%nat \/
  (e = ErrNegativeAllocationTarget \/ e = ErrNegativeAllocationCandidate) /\ Exists amount_negative txs.

Lemma alloc_amount_negative cfg tx amount :
  alloc_amount cfg tx = Some amount -> dec_Rat amount < 0 -> amount_negative tx.
Proof.
  unfold alloc_amount. intros Ha Hn. destruct (AC_UseBaseAmount _); [|left; by simplify_eq].
  destruct (string_empty _); [done|]. right. eauto.
Qed.

Lemma findRight_total rule l used local right :
  rule_def_wf rule -> exists r, findRight rule l used local right = Ok r.
Proof.
  intros H. induction right as [|r right IH]; cbn; [eauto|]. repeat (case_bool_decide; [done|]).
  destruct (evalByType_total rule l r H) as [[matched score] ->]. cbn. destruct (_ || _); eauto.
Qed.

Lemma findAll1v1Matches_total rule right usedLeft usedRight left localLeft localRight ps :
  rule_def_wf rule ->
  exists r, findAll1v1Matches_loop rule right usedLeft usedRight localLeft localRight ps left = Ok r.
Proof.
  intros H. revert localLeft localRight ps. induction left as [|l left IH]; intros; cbn; [eauto|].
  repeat (case_bool_decide; [done|]).
  destruct (findRight_total rule l usedRight localRight right H) as [[[rt score]|] ->]; cbn; eauto.
Qed.

Lemma Execute1v1_loop_total left right rules usedLeft usedRight out :
  Forall rule_def_wf rules -> exists r, Execute1v1_loop left right usedLeft usedRight out rules = Ok r.
Proof.
  intros H. revert usedLeft usedRight out. induction H as [|rule rules Hr _ IH]; intros; cbn; [eauto|].
  unfold findAll1v1Matches.
  destruct (findAll1v1Matches_total rule right usedLeft usedRight left ∅ ∅ [] Hr) as [ps ->]. cbn. eauto.
Qed.

Lemma collectMatches_total rule primary used first cands mc mi ms :
  rule_def_wf rule ->
  exists r, collectMatches_loop rule primary used first mc mi ms cands = Ok r /\
    exists new, r.1.1 = mc ++ new /\ new ⊆ cands /\ (length new <= length cands)%nat.
Proof.
  intros H. revert mc mi ms. induction cands as [|c cands IH]; intros; cbn.
  { eexists. split; [done|]. exists []. by rewrite app_nil_r. }
  case_bool_decide.
  { edestruct IH as (r & -> & new & Hn & ? & ?). eexists. split; [done|]. exists new. split_and!; [exact Hn|set_solver|lia]. }
  assert (exists m, (if first then evalByType rule primary c else evalByType rule c primary) = Ok m) as [[matched score] ->]
    by (destruct first; by apply evalByType_total).
  cbn. destruct (_ || _).
  - edestruct IH as (r & -> & new & Hn & ? & ?). eexists. split; [done|]. exists new. split_and!; [exact Hn|set_solver|lia].
  - edestruct IH as (r & -> & new & Hn & ? & ?). eexists. split; [done|]. exists (c :: new). cbn.
    split_and!; [by rewrite Hn, <- app_assoc|set_solver|lia].
Qed.

Lemma buildAllocationProposalDetailed_errors rule target cands score txs :
  rule_def_wf rule -> target ∈ txs -> cands ⊆ txs -> (length cands <= length txs)%nat ->
  fails_only (allocation_error txs) (buildAllocationProposalDetailed rule target cands score).
Proof.
  intros [_ (alloc & Ha & Hv & _)] Ht Hc Hl. unfold buildAllocationProposalDetailed. rewrite Ha.
  case_bool_decide; [by apply fails_only_Ok|]. rewrite Hv. cbn.
  apply fails_only_bind; [|intros r _; repeat case_match; by apply fails_only_Ok].
  unfold allocateByRuleDetailed. pose proof (validateAllocationConfig_Ok _ _ Hv) as (_ & _ & _ & Hd).
  assert (bool_decide (AC_Direction alloc = AllocationDirectionLeftToRight) ||
          bool_decide (AC_Direction alloc = AllocationDirectionRightToLeft) = true) as ->
    by (rewrite orb_true_iff, !bool_decide_eq_true; exact Hd).
  pose proof (AllocateOneToManyDetailed_outcome target cands alloc alloc Hv) as Ho.
  intros e He. rewrite He in Ho. inversion Ho; subst.
  - left. split; [done|lia].
  - right. split; [by left|]. apply Exists_exists. eauto using alloc_amount_negative.
  - right. split; [by right|]. apply Exists_exists. eexists; split; [by apply Hc|].
    by eapply alloc_amount_negative.
Qed.

Lemma tryMatchCandidate_errors rule primary secondary mctx txs :
  rule_def_wf rule -> primary ∈ txs -> secondary ⊆ txs -> (length secondary <= length txs)%nat ->
  fails_only (allocation_error txs) (tryMatchCandidate rule primary secondary mctx).
Proof.
  intros Hr Hp Hs Hl. unfold tryMatchCandidate, findMatches, findMatchesForLeft, findMatchesForRight, collectMatches.
  assert (exists r, (if MC_primaryIsLeft mctx
      then collectMatches_loop rule primary (MC_usedSecondary mctx) true [] [] 0 secondary
      else collectMatches_loop rule primary (MC_usedSecondary mctx) false [] [] 0 secondary) = Ok r /\
    r.1.1 ⊆ secondary /\ (length r.1.1 <= length secondary)%nat) as ([[mc mi] ms] & -> & Hsub & Hlen).
  { destruct (MC_primaryIsLeft mctx);
      (edestruct (collectMatches_total rule primary (MC_usedSecondary mctx)) as (r & -> & new & Hn & ? & ?);
       [done|]; exists r; by rewrite Hn). }
  cbn. case_bool_decide; [by apply fails_only_Ok|]. destruct (resolveUsedMaps mctx) as [ul ur].
  apply fails_only_bind.
  - unfold applyAllocationProposalDetailed. destruct (RD_Allocation rule); [|by apply fails_only_Ok].
    apply fails_only_bind; [|intros r _; repeat case_match; by apply fails_only_Ok].
    cbn in *. apply buildAllocationProposalDetailed_errors; [done|done|set_solver|lia].
  - intros [[applied failure] [[ps ul'] ur']] _. repeat case_match; by apply fails_only_Ok.
Qed.

Lemma processRuleMatches_errors rule secondary primary mctx txs :
  rule_def_wf rule -> primary ⊆ txs -> secondary ⊆ txs -> (length secondary <= length txs)%nat ->
  fails_only (allocation_error txs) (processRuleMatches rule secondary mctx primary).
Proof.
  intros Hr Hp Hs Hl. revert mctx. induction primary as [|p primary IH]; intros; cbn; [by apply fails_only_Ok|].
  case_bool_decide; [apply IH; set_solver|]. apply fails_only_bind.
  - apply tryMatchCandidate_errors; try done. set_solver.
  - intros m _. apply IH. set_solver.
Qed.

Lemma matchWithDirectionDetailed_errors rules primary secondary mode first txs :
  Forall rule_def_wf rules -> primary ⊆ txs -> secondary ⊆ txs -> (length secondary <= length txs)%nat ->
  fails_only (allocation_error txs) (matchWithDirectionDetailed rules primary secondary mode first).
Proof.
  intros Hr Hp Hs Hl. unfold matchWithDirectionDetailed. apply fails_only_bind; [|intros; by apply fails_only_Ok].
  apply fails_only_foldl. intros mctx rule Hin. apply processRuleMatches_errors; try done.
  by eapply Forall_forall in Hr.
Qed.
End results.
