(* ===== verification/RunPrepare.v ===== *)
(** * Preparing a match run

    Models the first half of a run in internal/matching/services/command:
    [match_group_source_classification.go], the loading phase of
    [match_group_run_commands.go] and [match_group_run_support.go],
    [rule_execution_fee_normalization.go] and the engine dispatch of
    [rule_execution_commands.go] and [rule_execution_support.go].

    What the repositories return is an argument; tracing, logging and metrics
    are left out.  Slices of pointers are lists of [option]. *)
From S2P Require Import GoLib GoLibModel FeeStructure FeeSchedule FeeRules MatchTypes Evaluators.
From S2P Require Import Confidence Allocate Engine MatchEntities Transaction RuleDecode.

Inductive RunError : Type :=
| ErrAtLeastTwoSourcesRequired
| ErrSourceSideRequiredForMatching
| ErrOneToOneRequiresExactlyOneLeftSource
| ErrOneToOneRequiresExactlyOneRightSource
| ErrOneToManyRequiresExactlyOneLeftSource
| ErrAtLeastOneRightSourceRequired
| ErrUnsupportedContextType
| ErrRunMatchContextIDRequired
| ErrMatchRunModeRequired
| ErrContextNotFound
| ErrContextNotActive
| ErrNoSourcesConfigured
| ErrFeeRuleCountLimit
| ErrNilFeeScheduleRepository
| ErrFeeRulesReferenceMissingSchedules
| ErrFeeRulesRequiredForNormalization
| ErrContextIDRequired
| ErrLoadMatchRules (reason : string)
| ErrDecodeMatchRule (e : DecodeError)
| ErrRunEngineIsNil
| ErrEngineExecution (e : EngineError)
| ErrInvalidProposalScore
| ErrRunCancelled.

Section pipeline.
  Context {U : UUIDLib} {D : DecimalLib} {A : AssertLib} {N : UnicodeLib} {F : FmtLib}.

(** ** Sources *)
Record SourceInfo : Type := mkSourceInfo {
  SI_ID : uuid;
  SI_Type : string;
  SI_Side : MatchingSide;
}.

Definition validateSourceCountForContextType (contextType : ContextType) (leftCount rightCount : nat)
    : res RunError unit :=
  if bool_decide (contextType = ContextTypeOneToOne) then
    _ ← ensure (leftCount =? 1)%nat ErrOneToOneRequiresExactlyOneLeftSource;
    ensure (rightCount =? 1)%nat ErrOneToOneRequiresExactlyOneRightSource
  else if bool_decide (contextType = ContextTypeOneToMany) then
    _ ← ensure (leftCount =? 1)%nat ErrOneToManyRequiresExactlyOneLeftSource;
    ensure (negb (rightCount =? 0)%nat) ErrAtLeastOneRightSourceRequired
  else if bool_decide (contextType = ContextTypeManyToMany) then Err ErrUnsupportedContextType
  else Ok tt.

Definition classifySource (ids : gset uuid * gset uuid) (source : SourceInfo)
    : res RunError (gset uuid * gset uuid) :=
  let '(leftSourceIDs, rightSourceIDs) := ids in
  if negb (IsExclusive (SI_Side source)) then Err ErrSourceSideRequiredForMatching
  else if bool_decide (SI_Side source = MatchingSideLeft)
  then Ok ({[SI_ID source]} ∪ leftSourceIDs, rightSourceIDs)
  else Ok (leftSourceIDs, {[SI_ID source]} ∪ rightSourceIDs).

Definition classifySources (contextType : ContextType) (sources : list (option SourceInfo))
    : res RunError (gset uuid * gset uuid) :=
  let nonNil := omap id sources in
  if (length nonNil <? 2)%nat then Err ErrAtLeastTwoSourcesRequired
  else
    ids ← res_foldl classifySource (∅, ∅) nonNil;
    _ ← validateSourceCountForContextType contextType (size ids.1) (size ids.2);
    Ok ids.

Definition buildSourceTypeMap (sources : list (option SourceInfo)) : gmap uuid string :=
  foldl (fun m s => match s with None => m | Some s => <[SI_ID s := SI_Type s]> m end) ∅ sources.

(** The loop of [loadAndClassifyCandidates]. *)
Record CandidateSplit : Type := mkCandidateSplit {
  SP_left : list (option Transaction);
  SP_right : list (option Transaction);
  SP_unmatchedIDs : list uuid;
  SP_externalTxByID : gmap uuid Transaction;
}.

Definition classifyCandidate (leftSourceIDs rightSourceIDs : gset uuid) (s : CandidateSplit)
    (tx : option Transaction) : CandidateSplit :=
  match tx with
  | None => s
  | Some tx =>
      if bool_decide (TX_SourceID tx ∈ leftSourceIDs)
      then mkCandidateSplit (SP_left s ++ [Some tx]) (SP_right s) (SP_unmatchedIDs s) (SP_externalTxByID s)
      else if bool_decide (TX_SourceID tx ∈ rightSourceIDs)
      then mkCandidateSplit (SP_left s) (SP_right s ++ [Some tx]) (SP_unmatchedIDs s) (SP_externalTxByID s)
      else mkCandidateSplit (SP_left s) (SP_right s) (SP_unmatchedIDs s ++ [TX_ID tx])
             (<[TX_ID tx := tx]> (SP_externalTxByID s))
  end.

Definition classifyCandidates (leftSourceIDs rightSourceIDs : gset uuid)
    (candidates : list (option Transaction)) : CandidateSplit :=
  foldl (classifyCandidate leftSourceIDs rightSourceIDs) (mkCandidateSplit [] [] [] ∅) candidates.

(** nil rules sort last. *)
Definition sortFeeRulesByPriority (rules : list (option FeeRule)) : list (option FeeRule) :=
  stable_sort (fun a b =>
    match a, b with
    | None, _ => false
    | Some _, None => true
    | Some x, Some y => (Rule_Priority x <? Rule_Priority y)%Z
    end) rules.

(** ** Fee rules *)
Definition MaxFeeRulesPerContext : Z := 200.
Definition is_nil {X} (l : list X) : bool := match l with [] => true | _ => false end.

(** With both repositories configured: [rules] is what the rule provider
    returns and [getByIDs] the schedule repository.  A failed read ends the
    call with the repository's own error and is not modelled. *)
Definition loadFeeRulesAndSchedules (rules : list (option FeeRule))
    (getByIDs : list uuid -> gmap uuid (option FeeSchedule))
    : res RunError (list (option FeeRule) * list (option FeeRule) * gmap uuid (option FeeSchedule)) :=
  if is_nil rules then Ok ([], [], ∅)
  else if (MaxFeeRulesPerContext <? Z.of_nat (length rules))%Z then Err ErrFeeRuleCountLimit
  else
    let rules := sortFeeRulesByPriority rules in
    let scheduleIDs := elements (list_to_set (Rule_FeeScheduleID <$> omap id rules) : gset uuid) in
    if is_nil scheduleIDs then Err ErrNilFeeScheduleRepository
    else
      let schedules := getByIDs scheduleIDs in
      if negb (size schedules =? length scheduleIDs)%nat then Err ErrFeeRulesReferenceMissingSchedules
      else let '(leftRules, rightRules) := SplitRulesBySide rules in
           Ok (leftRules, rightRules, schedules).

(** ** Candidates and fee normalisation *)
Definition toCandidate (txn : Transaction) : CandidateTransaction :=
  mkCandidateTransaction (TX_ID txn) (TX_SourceID txn) (TX_Amount txn) (TX_Amount txn) (TX_AmountBase txn)
    None (TX_Currency txn) (default "" (TX_BaseCurrency txn)) (TX_ExternalID txn) (TX_Date txn).

Definition mapTransactions (txs : list (option Transaction)) : list CandidateTransaction :=
  toCandidate <$> omap id txs.

Definition setCandidateAmount (c : CandidateTransaction) (breakdown : FeeBreakdown) (amount : decimal)
    : CandidateTransaction :=
  mkCandidateTransaction (CT_ID c) (CT_SourceID c) amount (CT_OriginalAmount c) (CT_AmountBase c)
    (Some breakdown) (CT_Currency c) (CT_CurrencyBase c) (CT_Reference c) (CT_Date c).

Definition validateFeeCurrencies (txn : Transaction) (schedule : FeeSchedule) : bool :=
  match NormalizeCurrency (TX_Currency txn), NormalizeCurrency (Schedule_Currency schedule) with
  | Ok normalizedCurrency, Ok scheduleCurrency => bool_decide (normalizedCurrency = scheduleCurrency)
  | _, _ => false
  end.

Definition applyFeeMode (candidate : CandidateTransaction) (gross : Money) (schedule : FeeSchedule)
    (mode : NormalizationMode) : CandidateTransaction :=
  if bool_decide (mode = NormalizationModeNet) then
    match CalculateSchedule gross (Some schedule) with
    | Err _ => candidate
    | Ok breakdown => setCandidateAmount candidate breakdown (Money_Amount (NetAmount breakdown))
    end
  else if bool_decide (mode = NormalizationModeGross) then
    match CalculateGrossFromNet gross (Some schedule) with
    | Err _ => candidate
    | Ok (grossMoney, grossBreakdown) => setCandidateAmount candidate grossBreakdown (Money_Amount grossMoney)
    end
  else candidate.

Definition applyFeeNormalization (candidate : CandidateTransaction) (txn : Transaction)
    (schedule : FeeSchedule) (mode : NormalizationMode) : CandidateTransaction :=
  if bool_decide (mode = NormalizationModeNone) then candidate
  else if negb (validateFeeCurrencies txn schedule) then candidate
  else match NewMoney (TX_Amount txn) (TX_Currency txn) with
       | Err _ => candidate
       | Ok gross => applyFeeMode candidate gross schedule mode
       end.

Definition mapTransactionsWithFeeRules (txs : list (option Transaction)) (rules : list (option FeeRule))
    (schedules : gmap uuid (option FeeSchedule)) (mode : NormalizationMode) : list CandidateTransaction :=
  (fun txn =>
     match ResolveFeeSchedule (TX_Metadata txn) rules schedules with
     | None => toCandidate txn
     | Some schedule => applyFeeNormalization (toCandidate txn) txn schedule mode
     end) <$> omap id txs.

(** ** Engine dispatch *)
Definition executeByContextTypeDetailed (engine : option Engine) (rules : list RuleDefinition)
    (left_ right_ : list CandidateTransaction) (contextType : ContextType) : res RunError EngineResult :=
  match engine with
  | None => Err ErrRunEngineIsNil
  | Some _ =>
      if bool_decide (contextType = ContextTypeOneToMany)
      then map_err ErrEngineExecution (Execute1vNDetailed engine rules left_ right_)
      else if bool_decide (contextType = ContextTypeOneToOne) || string_empty contextType then
        proposals ← map_err ErrEngineExecution (Execute1v1 engine rules left_ right_);
        Ok (mkEngineResult proposals ∅)
      else Err ErrUnsupportedContextType
  end.

Record ExecuteRulesInput : Type := mkExecuteRulesInput {
  ERI_ContextID : uuid;
  ERI_ContextType : ContextType;
  ERI_Left : list (option Transaction);
  ERI_Right : list (option Transaction);
  ERI_LeftRules : list (option FeeRule);
  ERI_RightRules : list (option FeeRule);
  ERI_AllSchedules : gmap uuid (option FeeSchedule);
  ERI_FeeNormalization : NormalizationMode;
}.

Definition validateExecuteRulesInput (contextID : uuid) : res RunError unit :=
  ensure (negb (bool_decide (contextID = uuid_Nil))) ErrContextIDRequired.

(** [ListByContextID] is the rule repository. *)
Definition loadRuleDefinitions (ListByContextID : uuid -> res string (list (option MatchRule)))
    (contextID : uuid) : res RunError (list RuleDefinition) :=
  rules ← map_err ErrLoadMatchRules (ListByContextID contextID);
  res_mapM (fun rule => map_err ErrDecodeMatchRule (DecodeRuleDefinition rule)) rules.

Definition executeRulesEngineDetailed (defs : list RuleDefinition) (left_ right_ : list CandidateTransaction)
    (contextType : ContextType) : res RunError EngineResult :=
  executeByContextTypeDetailed (Some NewEngine) defs left_ right_ contextType.

(** The missing-base-field counters only feed traces. *)
Definition ExecuteRulesDetailed (ListByContextID : uuid -> res string (list (option MatchRule)))
    (input : ExecuteRulesInput) : res RunError EngineResult :=
  _ ← validateExecuteRulesInput (ERI_ContextID input);
  defs ← loadRuleDefinitions ListByContextID (ERI_ContextID input);
  let '(left_, right_) :=
    if negb (bool_decide (ERI_FeeNormalization input = NormalizationModeNone)) &&
       (negb (is_nil (ERI_LeftRules input)) || negb (is_nil (ERI_RightRules input)))
    then (mapTransactionsWithFeeRules (ERI_Left input) (ERI_LeftRules input) (ERI_AllSchedules input)
            (ERI_FeeNormalization input),
          mapTransactionsWithFeeRules (ERI_Right input) (ERI_RightRules input) (ERI_AllSchedules input)
            (ERI_FeeNormalization input))
    else (mapTransactions (ERI_Left input), mapTransactions (ERI_Right input)) in
  executeRulesEngineDetailed defs left_ right_ (ERI_ContextType input).

(** ** The run's context *)
Record ReconciliationContextInfo : Type := mkReconciliationContextInfo {
  RCI_ID : uuid;
  RCI_Type : ContextType;
  RCI_Active : bool;
  RCI_FeeToleranceAbs : decimal;
  RCI_FeeTolerancePct : decimal;
  RCI_FeeNormalization : option string;
}.

(** [ctxInfo] and [sources] are what the providers return. *)
Definition loadContextAndSources (ctxInfo : option ReconciliationContextInfo)
    (sources : list (option SourceInfo)) : res RunError (ReconciliationContextInfo * list (option SourceInfo)) :=
  match ctxInfo with
  | None => Err ErrContextNotFound
  | Some ctxInfo =>
      _ ← ensure (RCI_Active ctxInfo) ErrContextNotActive;
      _ ← ensure (bool_decide (RCI_Type ctxInfo = ContextTypeOneToOne) ||
                  bool_decide (RCI_Type ctxInfo = ContextTypeOneToMany)) ErrUnsupportedContextType;
      _ ← ensure (negb (is_nil sources)) ErrNoSourcesConfigured;
      Ok (ctxInfo, sources)
  end.

Definition prepareFeeVerificationInputs (feeNorm : NormalizationMode) (rules : list (option FeeRule))
    (getByIDs : list uuid -> gmap uuid (option FeeSchedule))
    : res RunError (list (option FeeRule) * list (option FeeRule) * gmap uuid (option FeeSchedule)) :=
  r ← loadFeeRulesAndSchedules rules getByIDs;
  let '(leftRules, rightRules, allSchedules) := r in
  _ ← ensure (negb (negb (bool_decide (feeNorm = NormalizationModeNone)) && is_nil leftRules && is_nil rightRules))
        ErrFeeRulesRequiredForNormalization;
  Ok (leftRules, rightRules, allSchedules).

(** The fields of [matchRunContext] that the rest of the run reads. *)
Record matchRunContext : Type := mkMatchRunContext {
  MRC_contextID : uuid;
  MRC_ctxInfo : ReconciliationContextInfo;
  MRC_sourceTypeByID : gmap uuid string;
  MRC_leftSourceIDs : gset uuid;
  MRC_rightSourceIDs : gset uuid;
  MRC_leftCandidates : list (option Transaction);
  MRC_rightCandidates : list (option Transaction);
  MRC_unmatchedIDs : list uuid;
  MRC_externalTxByID : gmap uuid Transaction;
  MRC_stats : gmap string Z;
  MRC_leftRules : list (option FeeRule);
  MRC_rightRules : list (option FeeRule);
  MRC_allSchedules : gmap uuid (option FeeSchedule);
}.

(** After the tenant check. *)
Definition prepareMatchRun (contextID : uuid) (mode : MatchRunMode)
    (ctxInfo : option ReconciliationContextInfo) (sources : list (option SourceInfo))
    (candidates : list (option Transaction)) (rules : list (option FeeRule))
    (getByIDs : list uuid -> gmap uuid (option FeeSchedule)) : res RunError matchRunContext :=
  _ ← ensure (negb (bool_decide (contextID = uuid_Nil))) ErrRunMatchContextIDRequired;
  _ ← ensure (MatchRunMode_IsValid mode) ErrMatchRunModeRequired;
  cs ← loadContextAndSources ctxInfo sources;
  let '(ctxInfo, sources) := cs in
  ids ← classifySources (RCI_Type ctxInfo) sources;
  let feeNorm := default NormalizationModeNone (RCI_FeeNormalization ctxInfo) in
  let split := classifyCandidates ids.1 ids.2 candidates in
  fees ← prepareFeeVerificationInputs feeNorm rules getByIDs;
  let '(leftRules, rightRules, allSchedules) := fees in
  let stats : gmap string Z :=
    <["candidates_right" := Z.of_nat (length (SP_right split))]>
    (<["candidates_left" := Z.of_nat (length (SP_left split))]> ∅) in
  Ok (mkMatchRunContext contextID ctxInfo (buildSourceTypeMap sources) ids.1 ids.2 (SP_left split)
        (SP_right split) (SP_unmatchedIDs split) (SP_externalTxByID split) stats leftRules rightRules allSchedules).
End pipeline.

(** ** Results *)
Section results.
  Context {U : UUIDLib} {D : DecimalLib} {A : AssertLib} {N : UnicodeLib} {F : FmtLib}.

(** Where each non-nil candidate goes, with [ext] the transactions of sources
    that are on neither side. *)
Record split_spec (L R : gset uuid) (candidates : list (option Transaction)) (s : CandidateSplit)
    (ext : list Transaction) : Prop := {
  ss_perm : omap id candidates ≡ₚ omap id (SP_left s) ++ omap id (SP_right s) ++ ext;
  ss_left : Forall (fun tx => TX_SourceID tx ∈ L) (omap id (SP_left s));
  ss_right : Forall (fun tx => (TX_SourceID tx ∉ L) /\ TX_SourceID tx ∈ R) (omap id (SP_right s));
  ss_external : Forall (fun tx => (TX_SourceID tx ∉ L) /\ TX_SourceID tx ∉ R) ext;
  ss_unmatched : SP_unmatchedIDs s = TX_ID <$> ext;
}.

Lemma classifyCandidates_spec L R candidates :
  exists ext, split_spec L R candidates (classifyCandidates L R candidates) ext.
Proof.
  unfold classifyCandidates.
  induction candidates as [|tx candidates (ext & [H1 H2 H3 H4 H5])] using rev_ind.
  { exists []. split; simpl; constructor. }
  rewrite foldl_snoc. set (s := foldl _ _ _) in *. destruct tx as [tx|]; cbn [classifyCandidate].
  2: { exists ext. split; try done. by rewrite omap_app, H1, app_nil_r. }
  case_bool_decide as Hl; [|case_bool_decide as Hr]; simpl.
  - exists ext. split; simpl; rewrite ?omap_snoc; [rewrite H1; solve_Permutation|..]; try done.
    apply Forall_app; by repeat constructor.
  - exists ext. split; simpl; rewrite ?omap_snoc; [rewrite H1; solve_Permutation|..]; try done.
    apply Forall_app; by repeat constructor.
  - exists (ext ++ [tx]). split; simpl; rewrite ?omap_snoc; [rewrite H1; solve_Permutation|..]; try done.
    + apply Forall_app; by repeat constructor.
    + by rewrite H5, fmap_app.
Qed.

Lemma validateSourceCount_spec ct l r u :
  validateSourceCountForContextType ct l r = Ok u ->
  (ct = ContextTypeOneToOne -> l = 1%nat /\ r = 1%nat) /\
  (ct = ContextTypeOneToMany -> l = 1%nat /\ r <> 0%nat) /\ ct <> ContextTypeManyToMany.
Proof.
  unfold validateSourceCountForContextType. repeat case_bool_decide; subst; intros Hv; res_inv; bool_inv;
    rewrite ?Nat.eqb_eq, ?Nat.eqb_neq in *; split_and!; intros; try done; congruence.
Qed.

Lemma classifySources_spec ct sources ids :
  classifySources ct sources = Ok ids ->
  (ct = ContextTypeOneToOne -> size ids.1 = 1%nat /\ size ids.2 = 1%nat) /\
  (ct = ContextTypeOneToMany -> size ids.1 = 1%nat /\ size ids.2 <> 0%nat).
Proof.
  unfold classifySources. destruct (_ <? _)%nat; [done|]. intros H. res_inv.
  match goal with H : validateSourceCountForContextType _ _ _ = Ok _ |- _ => apply validateSourceCount_spec in H end.
  tauto.
Qed.

Lemma SplitRulesBySide_elem rules rule :
  rule ∈ (SplitRulesBySide rules).1 \/ rule ∈ (SplitRulesBySide rules).2 -> rule ∈ rules /\ is_Some rule.
Proof.
  induction rules as [|[r|] rules IH]; simpl; [set_solver| |].
  - destruct (SplitRulesBySide rules) as [l r']; simpl in *.
    destruct (AppliesToLeft _), (AppliesToRight _); set_solver.
  - set_solver.
Qed.

(** Every rule that is used has its schedule. *)
Lemma loadFeeRulesAndSchedules_spec rules getByIDs leftRules rightRules schedules rule :
  (forall ids, dom (getByIDs ids) ⊆ list_to_set ids) ->
  loadFeeRulesAndSchedules rules getByIDs = Ok (leftRules, rightRules, schedules) ->
  Some rule ∈ leftRules ++ rightRules -> is_Some (schedules !! Rule_FeeScheduleID rule).
Proof.
  intros Hget. unfold loadFeeRulesAndSchedules. destruct (is_nil rules).
  { intros [= <- <- <-]. set_solver. }
  destruct (_ <? _)%Z; [done|]. set (ids := elements _). destruct (is_nil ids); [done|].
  destruct (_ =? _)%nat eqn:Hsize; [|done]. apply Nat.eqb_eq in Hsize. cbn [negb].
  destruct (SplitRulesBySide _) as [l r] eqn:Hsplit. intros [= <- <- <-] Hin%elem_of_app.
  assert (Some rule ∈ sortFeeRulesByPriority rules) as Hrule.
  { apply SplitRulesBySide_elem. by rewrite Hsplit. }
  apply elem_of_dom. assert (dom (getByIDs ids) = (list_to_set ids : gset uuid)) as ->.
  { apply set_subseteq_size_eq; [apply Hget|]. rewrite size_dom, Hsize. unfold ids.
    by rewrite list_to_set_elements_L. }
  unfold ids. rewrite list_to_set_elements. apply elem_of_list_to_set, list_elem_of_fmap.
  exists rule. split; [done|]. apply list_elem_of_omap. by exists (Some rule).
Qed.

Lemma loadContextAndSources_type ctxInfo sources info srcs :
  loadContextAndSources ctxInfo sources = Ok (info, srcs) ->
  RCI_Type info = ContextTypeOneToOne \/ RCI_Type info = ContextTypeOneToMany.
Proof.
  unfold loadContextAndSources. destruct ctxInfo as [ci|]; [|done]. intros H. res_inv.
  match goal with H : (_ || _)%bool = true |- _ => apply orb_true_iff in H as [H|H] end; bool_inv; auto.
Qed.

Lemma prepareFeeVerificationInputs_spec feeNorm rules getByIDs leftRules rightRules schedules :
  prepareFeeVerificationInputs feeNorm rules getByIDs = Ok (leftRules, rightRules, schedules) ->
  loadFeeRulesAndSchedules rules getByIDs = Ok (leftRules, rightRules, schedules) /\
  (feeNorm <> NormalizationModeNone -> leftRules <> [] \/ rightRules <> []).
Proof.
  unfold prepareFeeVerificationInputs. intros H. res_inv. destruct x as [[l r] s]. res_inv.
  split; [done|]. intros Hn. rewrite bool_decide_false in * by done.
  destruct leftRules; [|by left]. destruct rightRules; [done|by right].
Qed.

Lemma classifyCandidates_keyed L R candidates :
  map_Forall (fun id tx => TX_ID tx = id) (SP_externalTxByID (classifyCandidates L R candidates)).
Proof.
  unfold classifyCandidates. induction candidates as [|[tx|] candidates IH] using rev_ind; [apply map_Forall_empty| |];
    rewrite foldl_snoc; cbn [classifyCandidate]; [|done].
  case_bool_decide; [done|]. case_bool_decide; [done|]. cbn. by apply map_Forall_insert_2.
Qed.

Lemma prepareMatchRun_split contextID mode ctxInfo sources candidates rules getByIDs mrc :
  prepareMatchRun contextID mode ctxInfo sources candidates rules getByIDs = Ok mrc ->
  MRC_contextID mrc = contextID /\
  map_Forall (fun id tx => TX_ID tx = id) (MRC_externalTxByID mrc) /\
  exists ext, omap id candidates ≡ₚ omap id (MRC_leftCandidates mrc) ++ omap id (MRC_rightCandidates mrc) ++ ext /\
    MRC_unmatchedIDs mrc = TX_ID <$> ext.
Proof.
  unfold prepareMatchRun. intros H. res_inv.
  match goal with H : loadContextAndSources _ _ = Ok ?p |- _ => destruct p as [info srcs] end. res_inv.
  match goal with H : prepareFeeVerificationInputs _ _ _ = Ok ?p |- _ => destruct p as [[lr rr] sch] end.
  match goal with H : classifySources _ _ = Ok ?p |- _ => destruct p as [L R] end. res_inv.
  destruct (classifyCandidates_spec L R candidates) as (ext & [? ? ? ? ?]). cbn -[classifyCandidates] in *.
  split_and!; [done|apply classifyCandidates_keyed|by exists ext].
Qed.

(** Preparing a run sorts every candidate to exactly one place: left,
    right, or reported as unmatched because its source is on neither side.  A
    1:1 context has one source per side and a 1:N context one left source and
    some right ones; if fees are normalised there is a fee rule, and every fee
    rule of the run has its schedule. *)
Theorem prepareMatchRun_classifies contextID mode ctxInfo sources candidates rules getByIDs mrc :
  (forall ids, dom (getByIDs ids) ⊆ list_to_set ids) ->
  prepareMatchRun contextID mode ctxInfo sources candidates rules getByIDs = Ok mrc ->
  let L := MRC_leftSourceIDs mrc in
  let R := MRC_rightSourceIDs mrc in
  size L = 1%nat /\ (1 <= size R)%nat /\
  (RCI_Type (MRC_ctxInfo mrc) = ContextTypeOneToOne -> size R = 1%nat) /\
  (exists ext,
    omap id candidates ≡ₚ omap id (MRC_leftCandidates mrc) ++ omap id (MRC_rightCandidates mrc) ++ ext /\
    Forall (fun tx => TX_SourceID tx ∈ L) (omap id (MRC_leftCandidates mrc)) /\
    Forall (fun tx => (TX_SourceID tx ∉ L) /\ TX_SourceID tx ∈ R) (omap id (MRC_rightCandidates mrc)) /\
    Forall (fun tx => (TX_SourceID tx ∉ L) /\ TX_SourceID tx ∉ R) ext /\
    MRC_unmatchedIDs mrc = TX_ID <$> ext) /\
  (default "" (RCI_FeeNormalization (MRC_ctxInfo mrc)) <> "" ->
     MRC_leftRules mrc <> [] \/ MRC_rightRules mrc <> []) /\
  (forall rule, Some rule ∈ MRC_leftRules mrc ++ MRC_rightRules mrc ->
     is_Some (MRC_allSchedules mrc !! Rule_FeeScheduleID rule)).
Proof.
  intros Hget. unfold prepareMatchRun. intros H. res_inv.
  match goal with H : loadContextAndSources _ _ = Ok ?p |- _ =>
    destruct p as [info srcs]; apply loadContextAndSources_type in H as Htype end. res_inv.
  match goal with H : prepareFeeVerificationInputs _ _ _ = Ok ?p |- _ =>
    destruct p as [[lr rr] sch]; apply prepareFeeVerificationInputs_spec in H as [Hload Hnorm] end.
  match goal with H : classifySources _ _ = Ok ?p |- _ =>
    destruct p as [L R]; apply classifySources_spec in H as [H11 H1N] end. res_inv.
  destruct (classifyCandidates_spec L R candidates) as (ext & [? ? ? ? ?]). cbn -[classifyCandidates] in *.
  split_and!.
  - destruct Htype as [E|E]; [destruct (H11 E)|destruct (H1N E)]; done.
  - destruct Htype as [E|E]; [destruct (H11 E)|destruct (H1N E)]; lia.
  - intros E. by apply H11.
  - by exists ext.
  - exact Hnorm.
  - intros rule. by eapply loadFeeRulesAndSchedules_spec.
Qed.
End results.

(** ** The engine on loaded rules *)
Section loaded.
  Context {U : UUIDLib} {UL : UUIDLaws U} {D : DecimalLib} {L : DecimalLaws D} {N : UnicodeLib} {F : FmtLib}.

(** What loading makes of each stored rule. *)
Definition loaded_from (rule : option MatchRule) (def : RuleDefinition) : Prop :=
  exists r, rule = Some r /\ rule_def_wf def /\ RD_ID def = RU_ID r /\ RD_Priority def = RU_Priority r /\
    RD_Type def = RU_Type r /\ forall left_ right_, is_Ok (evalByType def left_ right_) = true.

Lemma loadRuleDefinitions_Forall2 provider contextID rules defs :
  provider contextID = Ok rules -> loadRuleDefinitions provider contextID = Ok defs ->
  Forall2 loaded_from rules defs.
Proof.
  unfold loadRuleDefinitions. intros -> H. cbn in H. apply res_mapM_Ok in H.
  eapply Forall2_impl; [exact H|]. intros [rule|] def Hd; [|done]. res_inv.
  match goal with H : DecodeRuleDefinition _ = Ok _ |- _ => apply DecodeRuleDefinition_wf in H as (Hw & ? & ? & ?) end.
  exists rule. split_and!; try done. intros l r. by destruct (evalByType_total def l r Hw) as [? ->].
Qed.

(** Errors of the 1:N and N:1 engines on well-formed rules. *)
Definition many_error (engine : Engine) (defs : list RuleDefinition) (left_ right_ : list CandidateTransaction)
    (e : EngineError) : Prop :=
  candidateSetTooLarge engine defs left_ right_ = true /\ e = ErrCandidateSetTooLarge \/
  allocation_error (left_ ++ right_) e.

Lemma ExecuteMany_errors engine defs left_ right_ :
  Forall rule_def_wf defs ->
  fails_only (many_error engine defs left_ right_) (Execute1vNDetailed (Some engine) defs left_ right_) /\
  fails_only (many_error engine defs left_ right_) (ExecuteNv1Detailed (Some engine) defs left_ right_).
Proof.
  intros Hd. unfold Execute1vNDetailed, ExecuteNv1Detailed, many_error.
  destruct (candidateSetTooLarge _ _ _ _) eqn:E; [by split; apply fails_only_Err; left|].
  assert (Hs : Forall rule_def_wf (SortRules defs)) by (unfold SortRules; by rewrite stable_sort_perm).
  assert (Hin : forall txs, txs ⊆ left_ ++ right_ -> SortTransactions txs ⊆ left_ ++ right_).
  { intros txs H x Hx. apply H. unfold SortTransactions in Hx. by apply stable_sort_elem_of in Hx. }
  assert (Hlen : forall txs, length (SortTransactions txs) = length txs).
  { intros txs. unfold SortTransactions. by rewrite stable_sort_perm. }
  split; intros e He; right; eapply matchWithDirectionDetailed_errors; try exact He; try done;
    try (apply Hin; set_solver); rewrite Hlen, length_app; lia.
Qed.

(** C28: the rule definitions that a run loads are ones the engine can run.
    Each carries the identifier, priority and type of its stored rule, exactly
    the configuration of that type with the fields the engine checks in range
    (the base score of a match is not one of them), and a valid allocation, and
    no evaluation of it on a pair of transactions fails. So
    the 1:1 engine succeeds on loaded rules exactly when no set exceeds its
    limit, and the 1:N and N:1 engines fail only in that case, or when an
    allocation meets too many candidates or a negative amount. *)
Theorem loadRuleDefinitions_engine_safe provider contextID rules defs engine left_ right_ :
  provider contextID = Ok rules -> loadRuleDefinitions provider contextID = Ok defs ->
  Forall2 loaded_from rules defs /\
  is_Ok (Execute1v1 (Some engine) defs left_ right_) = negb (candidateSetTooLarge engine defs left_ right_) /\
  fails_only (many_error engine defs left_ right_) (Execute1vNDetailed (Some engine) defs left_ right_) /\
  fails_only (many_error engine defs left_ right_) (ExecuteNv1Detailed (Some engine) defs left_ right_).
Proof.
  intros Hp Hl. pose proof (loadRuleDefinitions_Forall2 _ _ _ _ Hp Hl) as H2. split; [done|].
  assert (Hd : Forall rule_def_wf defs).
  { eapply Forall2_Forall_r; [exact H2|]. apply Forall_true. intros ? ? (? & _ & ? & _). done. }
  split; [|by apply ExecuteMany_errors]. unfold Execute1v1.
  destruct (candidateSetTooLarge _ _ _ _); [done|].
  edestruct (Execute1v1_loop_total (SortTransactions left_) (SortTransactions right_)) as [r ->]; [|done].
  unfold SortRules. by rewrite stable_sort_perm.
Qed.
End loaded.

(** ** A concrete run *)
Definition sample_stored (id : string) (priority : Z) (ruleType : string) (config : list (string * any))
    : option (@MatchRule model_uuid) :=
  Some (mkMatchRule (U:=model_uuid) id "ctx" priority ruleType (Some (list_to_map config)) 0%Z 0%Z).
Definition sample_provider (_ : @uuid model_uuid) : res string (list (option (@MatchRule model_uuid))) :=
  Ok [sample_stored "exact" 1 "EXACT" [("matchReference", AnyBool false)];
      sample_stored "tolerance" 2 "TOLERANCE" [("absTolerance", AnyInt 5); ("percentageBase", AnyString "left")];
      sample_stored "lag" 3 "DATE_LAG" [("minDays", AnyInt 1); ("maxDays", AnyInt 3); ("allowPartial", AnyBool true)]].

Lemma sample_provider_types :
  (match loadRuleDefinitions (D:=model_decimal) (N:=model_unicode) (F:=model_fmt) sample_provider "ctx" with
   | Ok defs => Some (RD_Type <$> defs)
   | Err _ => None
   end) = Some [RuleTypeExact; RuleTypeTolerance; RuleTypeDateLag].
Proof. vm_compute. reflexivity. Qed.

Lemma loadRuleDefinitions_engine_safe_witness :
  exists defs, loadRuleDefinitions (D:=model_decimal) (N:=model_unicode) (F:=model_fmt) sample_provider "ctx" = Ok defs /\
    is_Ok (Execute1v1 (Some NewEngine) defs sample_left sample_right) = true.
Proof.
  pose proof sample_provider_types as Hp.
  destruct (loadRuleDefinitions _ _) as [defs|] eqn:E; [|discriminate Hp]. injection Hp as Hp.
  exists defs. split; [done|].
  assert (Hlen : length defs = 3%nat) by (by rewrite <- (length_fmap RD_Type), Hp).
  rewrite (proj1 (proj2 (loadRuleDefinitions_engine_safe (UL:=model_uuid_laws) (L:=model_decimal_laws)
    sample_provider "ctx" _ defs NewEngine sample_left sample_right eq_refl E))).
  unfold candidateSetTooLarge, slice_len. rewrite Hlen. vm_compute. reflexivity.
Defined.

Definition sample_txn (id source : string) (amount : Q) : @Transaction model_uuid model_decimal :=
  mkTransaction (U:=model_uuid) (D:=model_decimal) id "job" source "ref" amount "USD" None None None None None
    ExtractionStatusComplete TransactionStatusUnmatched nanos_per_day "" None 0%Z 0%Z.
Definition sample_source (id : string) (side : MatchingSide) : @SourceInfo model_uuid :=
  mkSourceInfo (U:=model_uuid) id "LEDGER" side.
Definition sample_getByIDs (ids : list (@uuid model_uuid))
    : gmap (@uuid model_uuid) (option (@FeeSchedule model_uuid model_decimal)) :=
  list_to_map ((fun id => (id, None)) <$> ids).
Definition sample_prepared : res RunError (@matchRunContext model_uuid model_decimal) :=
  prepareMatchRun (U:=model_uuid) (D:=model_decimal) "ctx" MatchRunModeCommit
    (Some (mkReconciliationContextInfo (U:=model_uuid) (D:=model_decimal) "ctx" ContextTypeOneToOne true 0%Q 0%Q None))
    [Some (sample_source "bank" MatchingSideLeft); Some (sample_source "ledger" MatchingSideRight)]
    [Some (sample_txn "r1" "ledger" 5); None; Some (sample_txn "x1" "other" 7); Some (sample_txn "l1" "bank" 5)]
    [Some (sample_rule 1 "s1" [])] sample_getByIDs.

Lemma sample_prepared_unmatched :
  (match sample_prepared with Ok mrc => Some (MRC_unmatchedIDs mrc) | Err _ => None end) = Some ["x1"].
Proof. vm_compute. reflexivity. Qed.

Lemma sample_getByIDs_dom ids : dom (sample_getByIDs ids) ⊆ list_to_set ids.
Proof.
  unfold sample_getByIDs. rewrite dom_list_to_map, <- list_fmap_compose. simpl.
  by rewrite list_fmap_id.
Qed.

Lemma prepareMatchRun_classifies_witness :
  exists mrc, sample_prepared = Ok mrc /\ size (MRC_leftSourceIDs mrc) = 1%nat /\
    MRC_unmatchedIDs mrc = ["x1"] /\
    (forall rule, Some rule ∈ MRC_leftRules mrc ++ MRC_rightRules mrc ->
       is_Some (MRC_allSchedules mrc !! Rule_FeeScheduleID rule)).
Proof.
  pose proof sample_prepared_unmatched as Hu.
  destruct sample_prepared as [mrc|e] eqn:E; [|discriminate Hu]. injection Hu as Hu.
  exists mrc. split; [done|].
  destruct (prepareMatchRun_classifies (U:=model_uuid) (D:=model_decimal) "ctx" MatchRunModeCommit
    (Some (mkReconciliationContextInfo (U:=model_uuid) (D:=model_decimal) "ctx" ContextTypeOneToOne true 0%Q 0%Q None))
    [Some (sample_source "bank" MatchingSideLeft); Some (sample_source "ledger" MatchingSideRight)]
    [Some (sample_txn "r1" "ledger" 5); None; Some (sample_txn "x1" "other" 7); Some (sample_txn "l1" "bank" 5)]
    [Some (sample_rule 1 "s1" [])] sample_getByIDs mrc sample_getByIDs_dom E) as (HL & _ & _ & _ & _ & Hrules).
  split_and!; done.
Defined.
