(* ===== verification/RunExecute.v ===== *)
(** * Turning proposals into match groups

    Models internal/matching/services/command/[match_group_proposal_processing.go]
    and [match_group_execution.go]: the items and groups built from the engine's
    proposals, the matched/unmatched bookkeeping, the run statistics and the
    inputs of the exceptions raised for unmatched transactions.

    The n-th [uuid.New()] and [time.Now()] of a run are [newID n] and [clock n],
    and [cancelled i] is [ctx.Err() != nil] before the i-th proposal.  Spans and
    logs are left out. *)
From S2P Require Import GoLib GoLibModel FeeStructure FeeSchedule FeeRules MatchTypes Evaluators.
From S2P Require Import Confidence Allocate Engine MatchEntities Transaction RuleDecode RunPrepare.
From stdpp Require Import pretty.

Section execute.
  Context {U : UUIDLib} {D : DecimalLib} {A : AssertLib} {N : UnicodeLib} {F : FmtLib}.

(** ** Proposal processing *)
Definition allocationMap (allocations : list Allocation) : gmap uuid decimal :=
  foldl (fun m a => <[AL_TransactionID a := AL_AllocatedAmount a]> m) ∅ allocations.
Definition allocationCurrencyMap (allocations : list Allocation) : gmap uuid string :=
  foldl (fun m a => <[AL_TransactionID a := AL_Currency a]> m) ∅ allocations.
Definition allocationUseBaseMap (allocations : list Allocation) : gmap uuid bool :=
  foldl (fun m a => <[AL_TransactionID a := AL_UseBaseAmount a]> m) ∅ allocations.

(** (allocated, currency, expected), or the reason why there is none. *)
Definition allocationFields (tx : Transaction) (allocations : gmap uuid decimal)
    (allocationCurrencies : gmap uuid string) (allocationUseBase : gmap uuid bool)
    : res string (decimal * string * decimal) :=
  let '(allocated, currency, useBase) :=
    match allocations !! TX_ID tx with
    | None => (TX_Amount tx, TX_Currency tx, false)
    | Some value =>
        (value,
         match allocationCurrencies !! TX_ID tx with
         | Some c => if string_empty c then TX_Currency tx else c
         | None => TX_Currency tx
         end,
         default false (allocationUseBase !! TX_ID tx))
    end in
  if negb useBase then Ok (allocated, currency, TX_Amount tx)
  else
    match TX_AmountBase tx with
    | None => Err ReasonMissingBaseAmount
    | Some base =>
        match TX_BaseCurrency tx with
        | None => Err ReasonMissingBaseCurrency
        | Some cur => if string_empty (strings_TrimSpace cur) then Err ReasonMissingBaseCurrency
                      else Ok (allocated, cur, base)
        end
    end.

(** The run's supply of identifiers and instants, and the reasons recorded so
    far in the shared [unmatchedReasons] map. *)
Record procState : Type := mkProcState { PS_next : nat; PS_reasons : gmap uuid string }.

Section processing.
  Context (newID : nat -> uuid) (clock : nat -> Time).

(** [None]: the proposal is invalid. *)
Fixpoint buildProposalItems_loop (txByID : gmap uuid Transaction) (allocations : list Allocation)
    (items : list MatchItem) (s : procState) (ids : list uuid) : option (list MatchItem) * procState :=
  match ids with
  | [] => (Some items, s)
  | id :: ids' =>
      match txByID !! id with
      | None => (None, s)
      | Some tx =>
          match allocationFields tx (allocationMap allocations) (allocationCurrencyMap allocations)
                  (allocationUseBaseMap allocations) with
          | Err reason => (None, mkProcState (PS_next s) (<[TX_ID tx := reason]> (PS_reasons s)))
          | Ok (allocated, currency, expected) =>
              match NewMatchItemWithPolicy (newID (PS_next s)) (clock (PS_next s)) (TX_ID tx) allocated
                      currency expected (dec_LessThan allocated expected) with
              | Err _ => (None, s)
              | Ok item => buildProposalItems_loop txByID allocations (items ++ [item])
                             (mkProcState (S (PS_next s)) (PS_reasons s)) ids'
              end
          end
      end
  end.

Definition buildProposalItems (ids : list uuid) (txByID : gmap uuid Transaction)
    (allocations : list Allocation) (s : procState) : option (list MatchItem) * procState :=
  buildProposalItems_loop txByID allocations [] s ids.

Definition minMatchedItemsCount : nat := 2.

Definition processSingleProposal (contextID runID : uuid) (proposal : MatchProposal)
    (leftByID rightByID : gmap uuid Transaction) (s : procState)
    : res RunError (option MatchGroup * procState) :=
  match ParseConfidenceScore (MP_Score proposal) with
  | Err _ => Err ErrInvalidProposalScore
  | Ok confidence =>
      let '(leftItems, s) := buildProposalItems (MP_LeftIDs proposal) leftByID (MP_LeftAllocations proposal) s in
      match leftItems with
      | None | Some [] => Ok (None, s)
      | Some leftItems =>
          let '(rightItems, s) := buildProposalItems (MP_RightIDs proposal) rightByID (MP_RightAllocations proposal) s in
          match rightItems with
          | None | Some [] => Ok (None, s)
          | Some rightItems =>
              let proposalItems := leftItems ++ rightItems in
              if (length proposalItems <? minMatchedItemsCount)%nat then Ok (None, s)
              else
                let s' := mkProcState (S (PS_next s)) (PS_reasons s) in
                match NewMatchGroup (newID (PS_next s)) (clock (PS_next s)) contextID runID (MP_RuleID proposal)
                        confidence (Some <$> proposalItems) with
                | Err _ => Ok (None, s')
                | Ok group =>
                    if CanAutoConfirm (Some group)
                    then Ok (Some (MatchGroup_Confirm (clock (PS_next s')) group).1, s')
                    else Ok (Some group, s')
                end
          end
      end
  end.

Record proposalProcessingResult : Type := mkProposalProcessingResult {
  PR_groups : list MatchGroup;
  PR_items : list MatchItem;
  PR_autoMatchedIDs : list uuid;
  PR_pendingReviewIDs : list uuid;
  PR_leftMatched : gset uuid;
  PR_rightMatched : gset uuid;
  PR_leftConfirmed : gset uuid;
  PR_rightConfirmed : gset uuid;
  PR_leftPending : gset uuid;
  PR_rightPending : gset uuid;
}.

Definition emptyProcessingResult : proposalProcessingResult :=
  mkProposalProcessingResult [] [] [] [] ∅ ∅ ∅ ∅ ∅ ∅.

(** One iteration of the loop over [group.Items]. *)
Definition recordItem (leftByID rightByID : gmap uuid Transaction) (canAutoConfirm : bool)
    (r : proposalProcessingResult) (item : MatchItem) : proposalProcessingResult :=
  let txID := MI_TransactionID item in
  let auto := if canAutoConfirm then PR_autoMatchedIDs r ++ [txID] else PR_autoMatchedIDs r in
  let pending := if canAutoConfirm then PR_pendingReviewIDs r else PR_pendingReviewIDs r ++ [txID] in
  if bool_decide (is_Some (leftByID !! txID)) then
    mkProposalProcessingResult (PR_groups r) (PR_items r) auto pending
      ({[txID]} ∪ PR_leftMatched r) (PR_rightMatched r)
      (if canAutoConfirm then {[txID]} ∪ PR_leftConfirmed r else PR_leftConfirmed r) (PR_rightConfirmed r)
      (if canAutoConfirm then PR_leftPending r else {[txID]} ∪ PR_leftPending r) (PR_rightPending r)
  else if bool_decide (is_Some (rightByID !! txID)) then
    mkProposalProcessingResult (PR_groups r) (PR_items r) auto pending
      (PR_leftMatched r) ({[txID]} ∪ PR_rightMatched r)
      (PR_leftConfirmed r) (if canAutoConfirm then {[txID]} ∪ PR_rightConfirmed r else PR_rightConfirmed r)
      (PR_leftPending r) (if canAutoConfirm then PR_rightPending r else {[txID]} ∪ PR_rightPending r)
  else
    mkProposalProcessingResult (PR_groups r) (PR_items r) auto pending (PR_leftMatched r) (PR_rightMatched r)
      (PR_leftConfirmed r) (PR_rightConfirmed r) (PR_leftPending r) (PR_rightPending r).

Definition recordGroupResults (result : proposalProcessingResult) (group : MatchGroup)
    (leftByID rightByID : gmap uuid Transaction) : proposalProcessingResult :=
  let result := mkProposalProcessingResult (PR_groups result ++ [group]) (PR_items result ++ MG_Items group)
    (PR_autoMatchedIDs result) (PR_pendingReviewIDs result) (PR_leftMatched result) (PR_rightMatched result)
    (PR_leftConfirmed result) (PR_rightConfirmed result) (PR_leftPending result) (PR_rightPending result) in
  foldl (recordItem leftByID rightByID (CanAutoConfirm (Some group))) result (MG_Items group).

Fixpoint processProposals_loop (cancelled : nat -> bool) (contextID runID : uuid)
    (leftByID rightByID : gmap uuid Transaction) (i : nat) (result : proposalProcessingResult) (s : procState)
    (proposals : list MatchProposal) : res RunError (proposalProcessingResult * procState) :=
  match proposals with
  | [] => Ok (result, s)
  | proposal :: proposals' =>
      if cancelled i then Err ErrRunCancelled
      else
        r ← processSingleProposal contextID runID proposal leftByID rightByID s;
        let '(group, s) := r in
        let result := match group with
                      | None => result
                      | Some group => recordGroupResults result group leftByID rightByID
                      end in
        processProposals_loop cancelled contextID runID leftByID rightByID (S i) result s proposals'
  end.

Definition processProposals (cancelled : nat -> bool) (contextID runID : uuid)
    (proposals : list MatchProposal) (leftByID rightByID : gmap uuid Transaction) (s : procState)
    : res RunError (proposalProcessingResult * procState) :=
  processProposals_loop cancelled contextID runID leftByID rightByID 0 emptyProcessingResult s proposals.

(** ** [match_group_execution.go] *)
Definition indexTransactions (transactions : list (option Transaction)) : gmap uuid Transaction :=
  foldl (fun m tx => match tx with None => m | Some tx => <[TX_ID tx := tx]> m end) ∅ transactions.

(** [maps.Copy]: later maps win. *)
Definition mergeTransactionMaps (txMaps : list (gmap uuid Transaction)) : gmap uuid Transaction :=
  foldl (fun merged m => m ∪ merged) ∅ txMaps.

Fixpoint collectUnmatched (transactions : list (option Transaction)) (matched : gset uuid) : list uuid :=
  match transactions with
  | [] => []
  | None :: rest => collectUnmatched rest matched
  | Some tx :: rest =>
      if bool_decide (TX_ID tx ∈ matched) then collectUnmatched rest matched
      else TX_ID tx :: collectUnmatched rest matched
  end.

Definition mergeMatched (dest src : gset uuid) : gset uuid := src ∪ dest.

Record matchExecutionResult : Type := mkMatchExecutionResult {
  MER_groups : list MatchGroup;
  MER_items : list MatchItem;
  MER_autoMatchedIDs : list uuid;
  MER_pendingReviewIDs : list uuid;
  MER_unmatchedIDs : list uuid;
  MER_unmatchedReasons : gmap uuid string;
  MER_allTxByID : gmap uuid Transaction;
  MER_stats : gmap string Z;
}.

Definition count {X} (l : list X) : Z := Z.of_nat (length l).
Definition setSize (s : gset uuid) : Z := Z.of_nat (size s).

(** Reading a nil or an empty [unmatchedReasons] map is the same. *)
Definition executeMatchRules (cancelled : nat -> bool)
    (ListByContextID : uuid -> res string (list (option MatchRule))) (mrc : matchRunContext) (runID : uuid)
    : res RunError matchExecutionResult :=
  let feeNorm := default NormalizationModeNone (RCI_FeeNormalization (MRC_ctxInfo mrc)) in
  rulesResult ← ExecuteRulesDetailed ListByContextID
    (mkExecuteRulesInput (MRC_contextID mrc) (RCI_Type (MRC_ctxInfo mrc)) (MRC_leftCandidates mrc)
       (MRC_rightCandidates mrc) (MRC_leftRules mrc) (MRC_rightRules mrc) (MRC_allSchedules mrc) feeNorm);
  let leftByID := indexTransactions (MRC_leftCandidates mrc) in
  let rightByID := indexTransactions (MRC_rightCandidates mrc) in
  processed ← processProposals cancelled (MRC_contextID mrc) runID (ER_Proposals rulesResult) leftByID
    rightByID (mkProcState 0 ∅);
  let '(processOutput, s) := processed in
  let leftMatched := mergeMatched ∅ (PR_leftMatched processOutput) in
  let rightMatched := mergeMatched ∅ (PR_rightMatched processOutput) in
  let leftConfirmed := mergeMatched ∅ (PR_leftConfirmed processOutput) in
  let rightConfirmed := mergeMatched ∅ (PR_rightConfirmed processOutput) in
  let leftPending := mergeMatched ∅ (PR_leftPending processOutput) in
  let rightPending := mergeMatched ∅ (PR_rightPending processOutput) in
  let unmatchedReasons := PS_reasons s ∪ (AF_Code <$> ER_AllocFailures rulesResult) in
  let unmatchedLeft := collectUnmatched (MRC_leftCandidates mrc) leftMatched in
  let unmatchedRight := collectUnmatched (MRC_rightCandidates mrc) rightMatched in
  let allUnmatchedIDs := MRC_unmatchedIDs mrc ++ unmatchedLeft ++ unmatchedRight in
  let stats :=
    <["proposed_right" := (setSize rightMatched - setSize rightConfirmed)%Z]>
    (<["proposed_left" := (setSize leftMatched - setSize leftConfirmed)%Z]>
    (<["pending_review_right" := setSize rightPending]>
    (<["pending_review_left" := setSize leftPending]>
    (<["auto_matched_right" := setSize rightConfirmed]>
    (<["auto_matched_left" := setSize leftConfirmed]>
    (<["unmatched_external" := count (MRC_unmatchedIDs mrc)]>
    (<["unmatched_right" := count unmatchedRight]>
    (<["unmatched_left" := count unmatchedLeft]>
    (<["matches" := count (PR_groups processOutput)]> (MRC_stats mrc)))))))))) in
  Ok (mkMatchExecutionResult (PR_groups processOutput) (PR_items processOutput)
        (PR_autoMatchedIDs processOutput) (PR_pendingReviewIDs processOutput) allUnmatchedIDs unmatchedReasons
        (mergeTransactionMaps [leftByID; rightByID; MRC_externalTxByID mrc]) stats).
End processing.

(** ** Exceptions for unmatched transactions *)
Record ExceptionTransactionInput : Type := mkExceptionTransactionInput {
  ETI_TransactionID : uuid;
  ETI_AmountAbsBase : decimal;
  ETI_TransactionDate : Time;
  ETI_SourceType : string;
  ETI_FXMissing : bool;
  ETI_Reason : string;
}.

Definition buildExceptionInputFromTx (txn : Transaction) (sourceTypeByID : gmap uuid string) (reason : string)
    : ExceptionTransactionInput :=
  let amountAbsBase := match TX_AmountBase txn with
                       | Some base => dec_Abs base
                       | None => dec_Abs (TX_Amount txn)
                       end in
  let fxMissing := negb (bool_decide (is_Some (TX_AmountBase txn))) && bool_decide (is_Some (TX_BaseCurrency txn)) in
  mkExceptionTransactionInput (TX_ID txn) amountAbsBase (TX_Date txn)
    (default "" (sourceTypeByID !! TX_SourceID txn)) fxMissing reason.

Fixpoint buildExceptionInputs_loop (txByID : gmap uuid Transaction) (sourceTypeByID reasons : gmap uuid string)
    (seen : gset uuid) (txIDs : list uuid) : list ExceptionTransactionInput :=
  match txIDs with
  | [] => []
  | txID :: rest =>
      if bool_decide (txID ∈ seen) then buildExceptionInputs_loop txByID sourceTypeByID reasons seen rest
      else
        let reason := default "" (reasons !! txID) in
        let input := match txByID !! txID with
                     | None => mkExceptionTransactionInput txID dec_Zero time_zero "" false reason
                     | Some txn => buildExceptionInputFromTx txn sourceTypeByID reason
                     end in
        input :: buildExceptionInputs_loop txByID sourceTypeByID reasons ({[txID]} ∪ seen) rest
  end.

Definition buildExceptionInputs (txIDs : list uuid) (txByID : gmap uuid Transaction)
    (sourceTypeByID reasons : gmap uuid string) : list ExceptionTransactionInput :=
  buildExceptionInputs_loop txByID sourceTypeByID reasons ∅ txIDs.
End execute.

(** ** Results *)
Section results.
  Context {U : UUIDLib} {D : DecimalLib} {L : DecimalLaws D} {A : AssertLib} {AL : AssertLaws A}
    {N : UnicodeLib} {F : FmtLib}.
  Implicit Types (leftByID rightByID txByID : gmap uuid Transaction).

Definition keyed txByID : Prop := map_Forall (fun id tx => TX_ID tx = id) txByID.

Definition item_ids (items : list MatchItem) : list uuid := MI_TransactionID <$> items.
Definition group_ids (g : MatchGroup) : list uuid := item_ids (MG_Items g).

(** *** Items *)
Lemma buildProposalItems_loop_spec newID clock txByID allocs items s ids items' s' :
  buildProposalItems_loop newID clock txByID allocs items s ids = (Some items', s') ->
  exists new, items' = items ++ new /\ Forall item_wf new /\
    Forall2 (fun id item => exists tx, txByID !! id = Some tx /\ MI_TransactionID item = TX_ID tx) ids new.
Proof.
  revert items s. induction ids as [|id ids IH]; intros items s H; simpl in H.
  { injection H as -> _. exists []. by rewrite app_nil_r. }
  destruct (txByID !! id) as [tx|] eqn:Htx; [|done].
  destruct (allocationFields _ _ _ _) as [[[a c] e]|]; [|done].
  destruct (NewMatchItemWithPolicy _ _ _ _ _ _ _) as [item|] eqn:Hitem; [|done].
  apply IH in H as (new & -> & Hwf & Hids). exists (item :: new). split_and!.
  - by rewrite <- app_assoc.
  - constructor; [|done]. by eapply newMatchItem_wf.
  - constructor; [|done]. exists tx. split; [done|].
    unfold NewMatchItemWithPolicy, newMatchItem in Hitem. clear -Hitem.
    destruct (dec_LessThan _ _); cbn [negb] in Hitem; res_inv; done.
Qed.

Lemma buildProposalItems_spec newID clock ids txByID allocs s items s' :
  keyed txByID -> buildProposalItems newID clock ids txByID allocs s = (Some items, s') ->
  Forall item_wf items /\ item_ids items = ids /\ Forall (fun id => is_Some (txByID !! id)) ids.
Proof.
  intros Hk (new & -> & Hwf & Hids)%buildProposalItems_loop_spec. simpl. split; [done|]. clear Hwf.
  induction Hids as [|id item ids new (tx & Htx & Hid) _ [IH1 IH2]]; [done|]. split.
  - unfold item_ids in *. cbn. rewrite IH1, Hid. f_equal. by apply (Hk id).
  - by constructor; [rewrite Htx|].
Qed.

(** *** Groups *)
Definition auto_status (g : MatchGroup) : MatchGroupStatus :=
  if CanAutoConfirm (Some g) then MatchGroupStatusConfirmed else MatchGroupStatusProposed.

Record group_from leftByID rightByID (p : MatchProposal) (g : MatchGroup) : Prop := {
  gf_wf : group_wf g;
  gf_items : Forall item_wf (MG_Items g);
  gf_rule : MG_RuleID g = MP_RuleID p;
  gf_score : CS_value (MG_Confidence g) = MP_Score p;
  gf_status : MG_Status g = auto_status g;
  gf_ids : group_ids g = MP_LeftIDs p ++ MP_RightIDs p;
  gf_left : Forall (fun id => is_Some (leftByID !! id)) (MP_LeftIDs p);
  gf_right : Forall (fun id => is_Some (rightByID !! id)) (MP_RightIDs p);
}.

Lemma NewMatchGroup_shape groupID now ctx run rule confidence items g :
  NewMatchGroup groupID now ctx run rule confidence (Some <$> items) = Ok g ->
  MG_Items g = setMatchGroupID groupID <$> items /\ MG_RuleID g = rule /\ MG_Confidence g = confidence /\
  MG_Status g = MatchGroupStatusProposed.
Proof.
  unfold NewMatchGroup. intros H. res_inv. cbn. split_and!; try done.
  match goal with H : res_mapM _ _ = Ok ?y |- _ => rename H into Hm; generalize dependent y end.
  intros y Hm%res_mapM_Ok. clear -Hm. revert y Hm.
  induction items as [|i items IH]; intros y Hm; inversion Hm; subst; [done|]. res_inv.
  cbn. f_equal. by apply IH.
Qed.

Lemma setMatchGroupID_wf gid item : item_wf item -> item_wf (setMatchGroupID gid item).
Proof. by intros []; split. Qed.

Lemma ParseConfidenceScore_value n c : ParseConfidenceScore n = Ok c -> CS_value c = n.
Proof. unfold ParseConfidenceScore. repeat case_match; by intros [= <-]. Qed.

Lemma Confirm_proposed now g :
  group_wf g -> MG_Status g = MatchGroupStatusProposed ->
  let g' := (MatchGroup_Confirm now g).1 in
  group_wf g' /\ MG_Status g' = MatchGroupStatusConfirmed /\ MG_Items g' = MG_Items g /\
  MG_RuleID g' = MG_RuleID g /\ MG_Confidence g' = MG_Confidence g.
Proof.
  intros Hwf Hs. pose proof (group_step_preserves (OpConfirm now) g Hwf) as Hp. cbn [group_step] in Hp.
  split; [exact Hp|]. clear Hp.
  unfold MatchGroup_Confirm, st_ensure, st_get, mbind, st_bind, st_lift.
  rewrite assert_NotNil_Some, bool_decide_true by done. done.
Qed.

Lemma processSingleProposal_spec newID clock ctx run p leftByID rightByID s g s' :
  keyed leftByID -> keyed rightByID ->
  processSingleProposal newID clock ctx run p leftByID rightByID s = Ok (Some g, s') ->
  group_from leftByID rightByID p g.
Proof.
  intros Hkl Hkr. unfold processSingleProposal.
  destruct (ParseConfidenceScore _) as [conf|] eqn:Hc; [|done]. apply ParseConfidenceScore_value in Hc.
  destruct (buildProposalItems _ _ (MP_LeftIDs p) _ _ _) as [[li|] s1] eqn:Hl; [|done].
  destruct (buildProposalItems _ _ (MP_RightIDs p) _ _ _) as [[ri|] s2] eqn:Hr; [|by destruct li].
  apply buildProposalItems_spec in Hl as (Hlw & Hli & Hlk); [|done].
  apply buildProposalItems_spec in Hr as (Hrw & Hri & Hrk); [|done].
  destruct li as [|i li]; [done|]. destruct ri as [|j ri]; [done|].
  set (items := (i :: li) ++ (j :: ri)) in *. destruct (_ <? _)%nat; [done|].
  destruct (NewMatchGroup _ _ _ _ _ _ _) as [g0|] eqn:Hg; [|done].
  apply NewMatchGroup_ok in Hg as Hwf. apply NewMatchGroup_shape in Hg as (Hitems & Hrule & Hconf & Hst).
  assert (Forall item_wf (MG_Items g0)) as Hiw.
  { rewrite Hitems. apply Forall_fmap, Forall_app. split; (eapply Forall_impl; [done|]; intros; by apply setMatchGroupID_wf). }
  assert (item_ids (MG_Items g0) = MP_LeftIDs p ++ MP_RightIDs p) as Hids.
  { rewrite Hitems, <- Hli, <- Hri. unfold item_ids, items. by rewrite <- list_fmap_compose, fmap_app. }
  destruct (CanAutoConfirm (Some g0)) eqn:Hauto; intros [= <- <-].
  - destruct (Confirm_proposed (clock (S (PS_next s2))) g0) as (W & S1 & S2 & S3 & S4); [done..|].
    split; unfold group_ids, auto_status, CanAutoConfirm in *; cbn [PS_next] in *; rewrite ?S1, ?S2, ?S3, ?S4; try done.
    + congruence.
    + by rewrite Hauto.
  - split; unfold auto_status; rewrite ?Hauto; try done. congruence.
Qed.
(** *** Bookkeeping *)
Definition auto_ids (groups : list MatchGroup) : list uuid :=
  concat (group_ids <$> filter (fun g => CanAutoConfirm (Some g) = true) groups).
Definition pending_ids (groups : list MatchGroup) : list uuid :=
  concat (group_ids <$> filter (fun g => CanAutoConfirm (Some g) = false) groups).

(** The set holds the identifiers of [ids] that satisfy [P], besides [X]. *)
Definition adds (X Y : gset uuid) (P : uuid -> Prop) (ids : list uuid) : Prop :=
  forall id, id ∈ Y <-> id ∈ X \/ (P id /\ id ∈ ids).

Definition on_left leftByID (id : uuid) : Prop := is_Some (leftByID !! id).
Definition on_right leftByID rightByID (id : uuid) : Prop := leftByID !! id = None /\ is_Some (rightByID !! id).

Record recorded leftByID rightByID (b : bool) (ids : list uuid) (r r' : proposalProcessingResult) : Prop := {
  rc_groups : PR_groups r' = PR_groups r;
  rc_items : PR_items r' = PR_items r;
  rc_auto : PR_autoMatchedIDs r' = PR_autoMatchedIDs r ++ (if b then ids else []);
  rc_pending : PR_pendingReviewIDs r' = PR_pendingReviewIDs r ++ (if b then [] else ids);
  rc_lm : adds (PR_leftMatched r) (PR_leftMatched r') (on_left leftByID) ids;
  rc_rm : adds (PR_rightMatched r) (PR_rightMatched r') (on_right leftByID rightByID) ids;
  rc_lc : adds (PR_leftConfirmed r) (PR_leftConfirmed r') (on_left leftByID) (if b then ids else []);
  rc_rc : adds (PR_rightConfirmed r) (PR_rightConfirmed r') (on_right leftByID rightByID) (if b then ids else []);
  rc_lp : adds (PR_leftPending r) (PR_leftPending r') (on_left leftByID) (if b then [] else ids);
  rc_rp : adds (PR_rightPending r) (PR_rightPending r') (on_right leftByID rightByID) (if b then [] else ids);
}.

#[local] Instance adds_perm X Y P : Proper (Permutation ==> iff) (adds X Y P).
Proof. intros l k Hlk. unfold adds. by setoid_rewrite Hlk. Qed.

Lemma adds_nil X P : adds X X P [].
Proof. intros id. rewrite elem_of_nil. tauto. Qed.
Lemma adds_hit X P id : P id -> adds X ({[id]} ∪ X) P [id].
Proof. intros HP i. rewrite elem_of_union, elem_of_singleton, list_elem_of_singleton. naive_solver. Qed.
Lemma adds_miss X P id : ~ P id -> adds X X P [id].
Proof. intros HP i. rewrite list_elem_of_singleton. naive_solver. Qed.
Lemma adds_trans X Y Z P ids1 ids2 : adds X Y P ids1 -> adds Y Z P ids2 -> adds X Z P (ids1 ++ ids2).
Proof. intros H1 H2 id. rewrite (H2 id), (H1 id), elem_of_app. tauto. Qed.

Lemma recorded_trans leftByID rightByID b ids1 ids2 r1 r2 r3 :
  recorded leftByID rightByID b ids1 r1 r2 -> recorded leftByID rightByID b ids2 r2 r3 ->
  recorded leftByID rightByID b (ids1 ++ ids2) r1 r3.
Proof.
  intros [] []; split; try congruence.
  - destruct b; rewrite rc_auto1, rc_auto0, <- app_assoc; done.
  - destruct b; rewrite rc_pending1, rc_pending0, <- app_assoc; done.
  - by eapply adds_trans.
  - by eapply adds_trans.
  - destruct b; [by eapply adds_trans|]. by eapply (adds_trans _ _ _ _ [] []).
  - destruct b; [by eapply adds_trans|]. by eapply (adds_trans _ _ _ _ [] []).
  - destruct b; [by eapply (adds_trans _ _ _ _ [] [])|]. by eapply adds_trans.
  - destruct b; [by eapply (adds_trans _ _ _ _ [] [])|]. by eapply adds_trans.
Qed.

Lemma recordItem_spec leftByID rightByID b r item :
  recorded leftByID rightByID b [MI_TransactionID item] r (recordItem leftByID rightByID b r item).
Proof.
  unfold recordItem. case_bool_decide as Hl; [|case_bool_decide as Hr];
    destruct b; split; cbn; rewrite ?app_nil_r; try done;
    try (apply adds_nil); try (apply adds_hit); try (apply adds_miss); unfold on_left, on_right;
    rewrite ?eq_None_not_Some; tauto.
Qed.

Lemma recordItems_spec leftByID rightByID b items r :
  recorded leftByID rightByID b (item_ids items) r (foldl (recordItem leftByID rightByID b) r items).
Proof.
  revert r. induction items as [|item items IH]; intros r; simpl.
  - split; rewrite ?app_nil_r; try done; try (destruct b); rewrite ?app_nil_r; try done; apply adds_nil.
  - eapply (recorded_trans _ _ _ [_]); [apply recordItem_spec|apply IH].
Qed.

(** What the result holds once [groups] are recorded. *)
Record books leftByID rightByID (groups : list MatchGroup) (r : proposalProcessingResult) : Prop := {
  bk_groups : PR_groups r = groups;
  bk_items : PR_items r = concat (MG_Items <$> groups);
  bk_auto : PR_autoMatchedIDs r = auto_ids groups;
  bk_pending : PR_pendingReviewIDs r = pending_ids groups;
  bk_lm : adds ∅ (PR_leftMatched r) (on_left leftByID) (item_ids (concat (MG_Items <$> groups)));
  bk_rm : adds ∅ (PR_rightMatched r) (on_right leftByID rightByID) (item_ids (concat (MG_Items <$> groups)));
  bk_lc : adds ∅ (PR_leftConfirmed r) (on_left leftByID) (auto_ids groups);
  bk_rc : adds ∅ (PR_rightConfirmed r) (on_right leftByID rightByID) (auto_ids groups);
  bk_lp : adds ∅ (PR_leftPending r) (on_left leftByID) (pending_ids groups);
  bk_rp : adds ∅ (PR_rightPending r) (on_right leftByID rightByID) (pending_ids groups);
}.

Lemma books_empty leftByID rightByID : books leftByID rightByID [] emptyProcessingResult.
Proof. split; try done; apply adds_nil. Qed.

Lemma auto_ids_snoc groups g :
  auto_ids (groups ++ [g]) = auto_ids groups ++ (if CanAutoConfirm (Some g) then group_ids g else []).
Proof.
  unfold auto_ids. rewrite filter_app, fmap_app, concat_app. f_equal. rewrite filter_cons, filter_nil.
  destruct (CanAutoConfirm (Some g)); [rewrite decide_True by done|rewrite decide_False by done]; cbn;
    by rewrite ?app_nil_r.
Qed.
Lemma pending_ids_snoc groups g :
  pending_ids (groups ++ [g]) = pending_ids groups ++ (if CanAutoConfirm (Some g) then [] else group_ids g).
Proof.
  unfold pending_ids. rewrite filter_app, fmap_app, concat_app. f_equal. rewrite filter_cons, filter_nil.
  destruct (CanAutoConfirm (Some g)); [rewrite decide_False by done|rewrite decide_True by done]; cbn;
    by rewrite ?app_nil_r.
Qed.

Lemma recordGroupResults_books leftByID rightByID groups r g :
  books leftByID rightByID groups r ->
  books leftByID rightByID (groups ++ [g]) (recordGroupResults r g leftByID rightByID).
Proof.
  intros []. unfold recordGroupResults. set (r0 := mkProposalProcessingResult _ _ _ _ _ _ _ _ _ _).
  destruct (recordItems_spec leftByID rightByID (CanAutoConfirm (Some g)) (MG_Items g) r0).
  split; rewrite ?concat_fmap_snoc, ?auto_ids_snoc, ?pending_ids_snoc.
  - rewrite rc_groups0. cbn. congruence.
  - rewrite rc_items0. cbn. congruence.
  - rewrite rc_auto0. cbn. by rewrite bk_auto0.
  - rewrite rc_pending0. cbn. by rewrite bk_pending0.
  - unfold item_ids. rewrite fmap_app. by eapply adds_trans.
  - unfold item_ids. rewrite fmap_app. by eapply adds_trans.
  - by eapply adds_trans.
  - by eapply adds_trans.
  - by eapply adds_trans.
  - by eapply adds_trans.
Qed.

Lemma processProposals_loop_spec newID clock cancelled ctx run leftByID rightByID i r s ps done_ps groups r' s' :
  keyed leftByID -> keyed rightByID ->
  books leftByID rightByID groups r -> Forall2 (group_from leftByID rightByID) done_ps groups ->
  processProposals_loop newID clock cancelled ctx run leftByID rightByID i r s ps = Ok (r', s') ->
  exists kept new, sublist kept ps /\ books leftByID rightByID (groups ++ new) r' /\
    Forall2 (group_from leftByID rightByID) (done_ps ++ kept) (groups ++ new).
Proof.
  intros Hkl Hkr. revert i r s done_ps groups.
  induction ps as [|p ps IH]; intros i r s done_ps groups Hb Hf H; simpl in H.
  { injection H as <- <-. exists [], []. rewrite !app_nil_r. by split; [constructor|]. }
  destruct (cancelled i); [done|]. res_inv. destruct x as [[g|] s1].
  - apply processSingleProposal_spec in Hx as Hg; [|done..].
    eapply (IH _ _ _ (done_ps ++ [p]) (groups ++ [g])) in H as (kept & new & Hs & Hb' & Hf');
      [|by apply recordGroupResults_books|by apply Forall2_app; [|constructor]].
    exists (p :: kept), (g :: new). rewrite <- !app_assoc in *. split_and!; [by constructor|done..].
  - eapply IH in H as (kept & new & Hs & ?); [|done..]. exists kept, new. split; [by constructor|done].
Qed.

Lemma processProposals_books newID clock cancelled ctx run ps leftByID rightByID s r s' :
  keyed leftByID -> keyed rightByID ->
  processProposals newID clock cancelled ctx run ps leftByID rightByID s = Ok (r, s') ->
  exists kept, sublist kept ps /\ books leftByID rightByID (PR_groups r) r /\
    Forall2 (group_from leftByID rightByID) kept (PR_groups r).
Proof.
  intros Hkl Hkr H. eapply (processProposals_loop_spec _ _ _ _ _ _ _ _ _ _ _ [] []) in H
    as (kept & new & Hs & Hb & Hf); [|done..|apply books_empty|constructor].
  exists kept. pose proof (bk_groups _ _ _ _ Hb) as E. cbn in *. by rewrite E.
Qed.

(** C21: every group a run creates comes from one engine proposal, in order, and
    has exactly that proposal's transactions, rule and score; it is well
    formed, no item over-allocates its transaction, and it is confirmed when
    the score is at least 90 and left for review otherwise.  The lists of
    auto-matched and pending transactions are those of the two kinds of
    groups. *)
Theorem processProposals_sound newID clock cancelled ctx run ps leftByID rightByID s r s' :
  keyed leftByID -> keyed rightByID ->
  processProposals newID clock cancelled ctx run ps leftByID rightByID s = Ok (r, s') ->
  (exists kept, sublist kept ps /\
     Forall2 (fun p g => MG_RuleID g = MP_RuleID p /\ CS_value (MG_Confidence g) = MP_Score p /\
                group_ids g = MP_LeftIDs p ++ MP_RightIDs p) kept (PR_groups r)) /\
  Forall (fun g => group_wf g /\ Forall item_wf (MG_Items g) /\
            MG_Status g = if (90 <=? CS_value (MG_Confidence g))%Z then MatchGroupStatusConfirmed
                          else MatchGroupStatusProposed) (PR_groups r) /\
  PR_items r = concat (MG_Items <$> PR_groups r) /\
  PR_autoMatchedIDs r = concat (group_ids <$> filter (fun g => MG_Status g = MatchGroupStatusConfirmed) (PR_groups r)) /\
  PR_pendingReviewIDs r = concat (group_ids <$> filter (fun g => MG_Status g = MatchGroupStatusProposed) (PR_groups r)).
Proof.
  intros Hkl Hkr (kept & Hs & Hb & Hf)%processProposals_books; [|done..].
  assert (Hst : Forall (fun g => MG_Status g = auto_status g) (PR_groups r)).
  { apply Forall_forall. intros g (p & _ & [])%(Forall2_elem_of_r _ _ _ _ Hf). done. }
  split_and!.
  - exists kept. split; [done|]. eapply Forall2_impl; [done|]. by intros p g [].
  - apply Forall_forall. intros g (p & _ & [])%(Forall2_elem_of_r _ _ _ _ Hf). done.
  - apply Hb.
  - rewrite (bk_auto _ _ _ _ Hb). unfold auto_ids. f_equal. f_equal.
    apply list_filter_iff_Forall. eapply Forall_impl; [done|]. unfold auto_status. intros g ->. by destruct (CanAutoConfirm _).
  - rewrite (bk_pending _ _ _ _ Hb). unfold pending_ids. f_equal. f_equal.
    apply list_filter_iff_Forall. eapply Forall_impl; [done|]. unfold auto_status. intros g ->. by destruct (CanAutoConfirm _).
Qed.

(** *** Whole runs *)
Definition tx_ids (txs : list (option Transaction)) : list uuid := TX_ID <$> omap id txs.

Lemma tx_ids_snoc txs tx : tx_ids (txs ++ [Some tx]) = tx_ids txs ++ [TX_ID tx].
Proof. unfold tx_ids. by rewrite omap_snoc, fmap_app. Qed.
Lemma tx_ids_snoc_nil txs : tx_ids (txs ++ [None]) = tx_ids txs.
Proof. unfold tx_ids. by rewrite omap_app, app_nil_r. Qed.

Lemma indexTransactions_snoc txs tx :
  indexTransactions (txs ++ [Some tx]) = <[TX_ID tx := tx]> (indexTransactions txs).
Proof. unfold indexTransactions. by rewrite foldl_snoc. Qed.
Lemma indexTransactions_snoc_nil txs : indexTransactions (txs ++ [None]) = indexTransactions txs.
Proof. unfold indexTransactions. by rewrite foldl_snoc. Qed.

Lemma indexTransactions_keyed txs : keyed (indexTransactions txs).
Proof.
  induction txs as [|[tx|] txs IH] using rev_ind; [apply map_Forall_empty| |].
  - rewrite indexTransactions_snoc. by apply map_Forall_insert_2.
  - by rewrite indexTransactions_snoc_nil.
Qed.

Lemma indexTransactions_dom txs id : is_Some (indexTransactions txs !! id) <-> id ∈ tx_ids txs.
Proof.
  induction txs as [|[tx|] txs IH] using rev_ind.
  - unfold indexTransactions, tx_ids. cbn. rewrite lookup_empty, elem_of_nil. split; [by intros []|done].
  - rewrite indexTransactions_snoc, tx_ids_snoc, lookup_insert_is_Some', elem_of_app, IH, list_elem_of_singleton.
    naive_solver.
  - by rewrite indexTransactions_snoc_nil, tx_ids_snoc_nil.
Qed.

Lemma collectUnmatched_filter txs matched :
  collectUnmatched txs matched = filter (fun id => id ∉ matched) (tx_ids txs).
Proof.
  induction txs as [|[tx|] txs IH]; [done| |exact IH].
  change (tx_ids (Some tx :: txs)) with (TX_ID tx :: tx_ids txs). cbn [collectUnmatched].
  rewrite IH, filter_cons. case_bool_decide; case_decide; done.
Qed.

Lemma mergeTransactionMaps_keyed ms : Forall keyed ms -> keyed (mergeTransactionMaps ms).
Proof.
  intros H. unfold mergeTransactionMaps. assert (keyed ∅) as H0 by apply map_Forall_empty. revert H0.
  generalize (∅ : gmap uuid Transaction). induction H as [|m ms Hm _ IH]; intros acc Hacc; [done|].
  apply IH. by apply map_Forall_union_2.
Qed.

Lemma buildExceptionInputs_loop_ids txByID st reasons seen ids :
  keyed txByID -> NoDup ids -> (forall id, id ∈ ids -> id ∉ seen) ->
  ETI_TransactionID <$> buildExceptionInputs_loop txByID st reasons seen ids = ids.
Proof.
  intros Hk Hnd. revert seen. induction Hnd as [|id ids Hid _ IH]; intros seen Hs; [done|]. cbn.
  rewrite bool_decide_false by (apply Hs; by left). cbn. f_equal.
  - destruct (txByID !! id) as [tx|] eqn:E; [|done]. by apply (Hk id tx).
  - apply IH. intros i Hi. rewrite elem_of_union, elem_of_singleton. intros [->|?]; [done|].
    by eapply Hs; [right|].
Qed.

(** The result of a run in terms of the groups it created. *)
Record execution (mrc : matchRunContext) (kept : list MatchProposal) (r : matchExecutionResult)
    (out : proposalProcessingResult) : Prop := {
  ex_groups : MER_groups r = PR_groups out;
  ex_items : MER_items r = concat (MG_Items <$> MER_groups r);
  ex_auto : MER_autoMatchedIDs r = auto_ids (MER_groups r);
  ex_pending : MER_pendingReviewIDs r = pending_ids (MER_groups r);
  ex_from : Forall2 (group_from (indexTransactions (MRC_leftCandidates mrc))
                      (indexTransactions (MRC_rightCandidates mrc))) kept (MER_groups r);
  ex_books : books (indexTransactions (MRC_leftCandidates mrc)) (indexTransactions (MRC_rightCandidates mrc))
               (MER_groups r) out;
  ex_unmatched : MER_unmatchedIDs r = MRC_unmatchedIDs mrc ++
    filter (fun id => id ∉ PR_leftMatched out) (tx_ids (MRC_leftCandidates mrc)) ++
    filter (fun id => id ∉ PR_rightMatched out) (tx_ids (MRC_rightCandidates mrc));
}.

Lemma mergeMatched_empty X : mergeMatched ∅ X = X.
Proof. apply union_empty_r_L. Qed.

(** The four counters of a side. *)
Definition side_stats (r : matchExecutionResult) (auto pending proposed unmatched : string) (ids : list uuid)
    (matched confirmed pendingSet : gset uuid) : Prop :=
  MER_stats r !! auto = Some (setSize confirmed) /\
  MER_stats r !! pending = Some (setSize pendingSet) /\
  MER_stats r !! proposed = Some (setSize matched - setSize confirmed)%Z /\
  MER_stats r !! unmatched = Some (count (filter (fun id => id ∉ matched) ids)).

Ltac stats_lookup := repeat first [rewrite lookup_insert_ne by done | by rewrite lookup_insert_eq].

Lemma executeMatchRules_run newID clock cancelled load mrc runID r :
  executeMatchRules newID clock cancelled load mrc runID = Ok r ->
  exists result kept out,
    ExecuteRulesDetailed load (mkExecuteRulesInput (MRC_contextID mrc) (RCI_Type (MRC_ctxInfo mrc))
      (MRC_leftCandidates mrc) (MRC_rightCandidates mrc) (MRC_leftRules mrc) (MRC_rightRules mrc)
      (MRC_allSchedules mrc) (default NormalizationModeNone (RCI_FeeNormalization (MRC_ctxInfo mrc)))) = Ok result /\
    sublist kept (ER_Proposals result) /\ execution mrc kept r out /\
    MER_allTxByID r = mergeTransactionMaps [indexTransactions (MRC_leftCandidates mrc);
      indexTransactions (MRC_rightCandidates mrc); MRC_externalTxByID mrc] /\
    side_stats r "auto_matched_left" "pending_review_left" "proposed_left" "unmatched_left"
      (tx_ids (MRC_leftCandidates mrc)) (PR_leftMatched out) (PR_leftConfirmed out) (PR_leftPending out) /\
    side_stats r "auto_matched_right" "pending_review_right" "proposed_right" "unmatched_right"
      (tx_ids (MRC_rightCandidates mrc)) (PR_rightMatched out) (PR_rightConfirmed out) (PR_rightPending out).
Proof.
  unfold executeMatchRules. intros H. res_inv. destruct x0 as [out s].
  apply processProposals_books in Hx0 as (kept & Hs & Hb & Hf); [|apply indexTransactions_keyed..].
  injection H as <-. exists x, kept, out. rewrite !mergeMatched_empty, !collectUnmatched_filter.
  split_and!; [done..| |done| |]; [|split_and!; cbn [MER_stats]; stats_lookup..].
  destruct Hb. by split.
Qed.

Section run.
  Context (mrc : matchRunContext) (kept : list MatchProposal) (r : matchExecutionResult)
    (out : proposalProcessingResult) (Hex : execution mrc kept r out).
  Context (Hnd : NoDup (MRC_unmatchedIDs mrc ++ tx_ids (MRC_leftCandidates mrc) ++ tx_ids (MRC_rightCandidates mrc))).

Lemma candidates_disjoint id :
  id ∈ tx_ids (MRC_leftCandidates mrc) -> id ∉ tx_ids (MRC_rightCandidates mrc).
Proof. apply NoDup_app in Hnd as (_ & _ & (_ & H & _)%NoDup_app). apply H. Qed.

Lemma item_ids_elem id :
  id ∈ item_ids (MER_items r) <-> exists p, p ∈ kept /\ (id ∈ MP_LeftIDs p \/ id ∈ MP_RightIDs p).
Proof.
  destruct Hex. rewrite ex_items0. unfold item_ids. clear -ex_from0.
  induction ex_from0 as [|p g ps gs [_ _ _ _ _ Hids _ _] _ IH]; cbn.
  - rewrite elem_of_nil. split; [done|]. intros (p & ?%elem_of_nil & _). done.
  - rewrite fmap_app, elem_of_app, IH. unfold group_ids, item_ids in Hids. rewrite Hids, elem_of_app.
    setoid_rewrite elem_of_cons. naive_solver.
Qed.

Lemma kept_sides p : p ∈ kept ->
  Forall (fun id => id ∈ tx_ids (MRC_leftCandidates mrc)) (MP_LeftIDs p) /\
  Forall (fun id => id ∈ tx_ids (MRC_rightCandidates mrc)) (MP_RightIDs p).
Proof.
  intros Hp. destruct Hex. apply Forall2_flip in ex_from0.
  destruct (Forall2_elem_of_r _ _ _ _ ex_from0 Hp) as (g & _ & []).
  split; (eapply Forall_impl; [done|]); intros id; apply indexTransactions_dom.
Qed.

Lemma item_ids_candidates id : id ∈ item_ids (MER_items r) ->
  id ∈ tx_ids (MRC_leftCandidates mrc) \/ id ∈ tx_ids (MRC_rightCandidates mrc).
Proof.
  intros (p & Hp & Hid)%item_ids_elem. destruct (kept_sides p Hp) as [Hl Hr].
  rewrite Forall_forall in Hl, Hr. naive_solver.
Qed.

Lemma left_matched id :
  id ∈ PR_leftMatched out <-> id ∈ tx_ids (MRC_leftCandidates mrc) /\ id ∈ item_ids (MER_items r).
Proof.
  destruct Hex. rewrite (bk_lm _ _ _ _ ex_books0 id), <- ex_items0, <- indexTransactions_dom.
  unfold on_left. set_solver.
Qed.

Lemma right_matched id :
  id ∈ PR_rightMatched out <-> id ∈ tx_ids (MRC_rightCandidates mrc) /\ id ∈ item_ids (MER_items r).
Proof.
  destruct Hex. rewrite (bk_rm _ _ _ _ ex_books0 id), <- ex_items0, elem_of_empty.
  unfold on_right. rewrite eq_None_not_Some, !indexTransactions_dom.
  pose proof (candidates_disjoint id). tauto.
Qed.

Lemma unmatched_elem id :
  id ∈ MER_unmatchedIDs r <-> id ∈ MRC_unmatchedIDs mrc \/
    ((id ∈ tx_ids (MRC_leftCandidates mrc) \/ id ∈ tx_ids (MRC_rightCandidates mrc)) /\
     ~ id ∈ item_ids (MER_items r)).
Proof.
  destruct Hex. rewrite ex_unmatched0, !elem_of_app, !list_elem_of_filter, left_matched, right_matched. tauto.
Qed.

Lemma unmatched_NoDup : NoDup (MER_unmatchedIDs r).
Proof.
  destruct Hex. rewrite ex_unmatched0. eapply sublist_NoDup; [exact Hnd|].
  auto with lists.
Qed.

Lemma auto_pending_perm groups :
  auto_ids groups ++ pending_ids groups ≡ₚ item_ids (concat (MG_Items <$> groups)).
Proof.
  unfold item_ids. induction groups as [|g groups IH] using rev_ind; [done|].
  rewrite auto_ids_snoc, pending_ids_snoc, concat_fmap_snoc, fmap_app, <- IH. unfold group_ids, item_ids.
  destruct (CanAutoConfirm _); rewrite ?app_nil_r; solve_Permutation.
Qed.
End run.

(** C9: a run accounts for every candidate exactly once: a transaction is
    reported as unmatched or is an item of a created group, never both, and
    nothing else appears in either.  Every matched transaction is listed as
    auto-matched or as pending review, and each unmatched one raises exactly
    one exception. *)
Theorem executeMatchRules_conserves newID clock cancelled load mrc runID r sourceTypes :
  NoDup (MRC_unmatchedIDs mrc ++ tx_ids (MRC_leftCandidates mrc) ++ tx_ids (MRC_rightCandidates mrc)) ->
  keyed (MRC_externalTxByID mrc) ->
  executeMatchRules newID clock cancelled load mrc runID = Ok r ->
  (forall id, id ∈ MRC_unmatchedIDs mrc ++ tx_ids (MRC_leftCandidates mrc) ++ tx_ids (MRC_rightCandidates mrc) <->
     id ∈ MER_unmatchedIDs r \/ id ∈ item_ids (MER_items r)) /\
  (forall id, id ∈ MER_unmatchedIDs r -> id ∉ item_ids (MER_items r)) /\
  MER_autoMatchedIDs r ++ MER_pendingReviewIDs r ≡ₚ item_ids (MER_items r) /\
  NoDup (MER_unmatchedIDs r) /\
  ETI_TransactionID <$> buildExceptionInputs (MER_unmatchedIDs r) (MER_allTxByID r) sourceTypes
    (MER_unmatchedReasons r) = MER_unmatchedIDs r.
Proof.
  intros Hnd Hkey (result & kept & out & _ & _ & Hex & Hall & _)%executeMatchRules_run.
  pose proof (item_ids_candidates _ _ _ _ Hex) as Hcand.
  pose proof (unmatched_NoDup _ _ _ _ Hex Hnd) as Hund.
  split_and!; try done.
  - intros id. rewrite (unmatched_elem _ _ _ _ Hex Hnd), !elem_of_app. specialize (Hcand id).
    destruct (decide (id ∈ item_ids (MER_items r))); tauto.
  - intros id [Hu|[_ ?]]%(unmatched_elem _ _ _ _ Hex Hnd); [|done]. intros Hi%Hcand.
    apply NoDup_app in Hnd as (_ & Hd & _). apply (Hd id Hu), elem_of_app. tauto.
  - destruct Hex. rewrite ex_auto0, ex_pending0, ex_items0. apply auto_pending_perm.
  - apply buildExceptionInputs_loop_ids; [|done|set_solver]. rewrite Hall. apply mergeTransactionMaps_keyed.
    repeat constructor; try apply indexTransactions_keyed; done.
Qed.

(** *** 1:1 runs *)
Section one_to_one.
  Context {UL : UUIDLaws U}.

Lemma ExecuteRulesDetailed_1v1 load input result :
  ERI_ContextType input = ContextTypeOneToOne -> ExecuteRulesDetailed load input = Ok result ->
  NoDup (left_ids (ER_Proposals result)) /\ NoDup (right_ids (ER_Proposals result)) /\
  Forall (fun p => length (MP_LeftIDs p) = 1%nat /\ length (MP_RightIDs p) = 1%nat) (ER_Proposals result).
Proof.
  intros Ht. unfold ExecuteRulesDetailed, executeRulesEngineDetailed, executeByContextTypeDetailed. rewrite Ht. intros H. res_inv.
  destruct (if _ && _ then _ else _) as [lc rc].
  rewrite bool_decide_false, bool_decide_true in H by done. cbn [orb] in H. res_inv.
  apply Execute1v1_run in Hx1 as (ul & ur & [_ _ Hp Hl Hr _]).
  split_and!; [done..|]. eapply Forall_impl; [exact Hp|]. by intros p (rule & l & rt & sc & _ & _ & _ & _ & ->).
Qed.

Lemma size_filter_length (X : gset uuid) (ids : list uuid) :
  NoDup ids -> (forall id, id ∈ X -> id ∈ ids) ->
  (size X + length (filter (fun id => id ∉ X) ids) = length ids)%nat.
Proof.
  intros Hnd Hsub.
  assert (X = list_to_set (filter (fun id => id ∈ X) ids)) as HX.
  { apply set_eq. intros id. rewrite elem_of_list_to_set, list_elem_of_filter. naive_solver. }
  rewrite HX at 1. rewrite size_list_to_set by by apply NoDup_filter.
  clear. induction ids as [|i ids IH]; [done|]. rewrite !filter_cons. repeat case_decide; cbn; try tauto; lia.
Qed.

(** On one side, matched transactions are confirmed or pending, not both. *)
Lemma side_counts P matched confirmed pendingSet groups ids :
  NoDup (item_ids (concat (MG_Items <$> groups))) -> NoDup ids -> (forall id, P id -> id ∈ ids) ->
  adds ∅ matched P (item_ids (concat (MG_Items <$> groups))) ->
  adds ∅ confirmed P (auto_ids groups) -> adds ∅ pendingSet P (pending_ids groups) ->
  (setSize confirmed + setSize pendingSet = setSize matched)%Z /\
  (setSize matched + count (filter (fun id => id ∉ matched) ids) = count ids)%Z.
Proof.
  intros Hitems Hids HP Hm Hc Hp. rewrite <- auto_pending_perm in Hitems, Hm.
  apply NoDup_app in Hitems as (_ & Hdisj & _). unfold setSize, count. split.
  - assert (matched = confirmed ∪ pendingSet) as ->.
    { apply set_eq. intros id. rewrite elem_of_union, (Hm id), (Hc id), (Hp id), elem_of_app. tauto. }
    rewrite size_union; [lia|]. intros id Hi Hj. apply Hc in Hi. apply Hp in Hj. set_solver.
  - rewrite <- Nat2Z.inj_add, size_filter_length; [done..|]. intros id [?%elem_of_empty|[? _]]%Hm; [done|auto].
Qed.

Lemma one_to_one_NoDup mrc kept r out ps :
  execution mrc kept r out ->
  NoDup (MRC_unmatchedIDs mrc ++ tx_ids (MRC_leftCandidates mrc) ++ tx_ids (MRC_rightCandidates mrc)) ->
  sublist kept ps -> NoDup (left_ids ps) -> NoDup (right_ids ps) -> NoDup (item_ids (MER_items r)).
Proof.
  intros Hex Hnd Hs Hl Hr.
  assert (item_ids (MER_items r) = concat ((fun p => MP_LeftIDs p ++ MP_RightIDs p) <$> kept)) as ->.
  { destruct Hex. rewrite ex_items0. clear -ex_from0. unfold item_ids.
    induction ex_from0 as [|p g ps gs [_ _ _ _ _ Hids _ _] _ IH]; cbn; [done|].
    rewrite fmap_app, IH. f_equal. exact Hids. }
  rewrite concat_fmap_app_perm. apply NoDup_app. split_and!.
  - eapply sublist_NoDup; [exact Hl|]. unfold left_ids. auto with lists.
  - intros id (p & Hp & Hin)%elem_of_concat_fmap (q & Hq & Hjn)%elem_of_concat_fmap.
    destruct (kept_sides _ _ _ _ Hex p Hp) as [Hpl _]. destruct (kept_sides _ _ _ _ Hex q Hq) as [_ Hqr].
    rewrite Forall_forall in Hpl, Hqr. eapply (candidates_disjoint mrc Hnd); eauto.
  - eapply sublist_NoDup; [exact Hr|]. unfold right_ids. auto with lists.
Qed.

(** In a 1:1 run no transaction takes part in two groups, every group has
    one item per side, and the statistics add up: on each side the
    auto-matched, pending and unmatched counts sum to the number of
    candidates, and the proposed count is the pending one. *)
Theorem executeMatchRules_one_to_one newID clock cancelled load mrc runID r :
  NoDup (MRC_unmatchedIDs mrc ++ tx_ids (MRC_leftCandidates mrc) ++ tx_ids (MRC_rightCandidates mrc)) ->
  RCI_Type (MRC_ctxInfo mrc) = ContextTypeOneToOne ->
  executeMatchRules newID clock cancelled load mrc runID = Ok r ->
  NoDup (item_ids (MER_items r)) /\ Forall (fun g => length (MG_Items g) = 2%nat) (MER_groups r) /\
  (exists auto pending unmatched,
     MER_stats r !! "auto_matched_left" = Some auto /\ MER_stats r !! "pending_review_left" = Some pending /\
     MER_stats r !! "proposed_left" = Some pending /\ MER_stats r !! "unmatched_left" = Some unmatched /\
     (auto + pending + unmatched = Z.of_nat (length (tx_ids (MRC_leftCandidates mrc))))%Z) /\
  (exists auto pending unmatched,
     MER_stats r !! "auto_matched_right" = Some auto /\ MER_stats r !! "pending_review_right" = Some pending /\
     MER_stats r !! "proposed_right" = Some pending /\ MER_stats r !! "unmatched_right" = Some unmatched /\
     (auto + pending + unmatched = Z.of_nat (length (tx_ids (MRC_rightCandidates mrc))))%Z).
Proof.
  intros Hnd Ht (result & kept & out & Hrun & Hs & Hex & _ & (La & Lp & Lq & Lu) & (Ra & Rp & Rq & Ru))%executeMatchRules_run.
  apply ExecuteRulesDetailed_1v1 in Hrun as (Hl & Hr & Hlen); [|done].
  pose proof (one_to_one_NoDup _ _ _ _ _ Hex Hnd Hs Hl Hr) as Hitems.
  apply NoDup_app in Hnd as (_ & _ & (HndL & Hdisj & HndR)%NoDup_app). destruct Hex. rewrite ex_items0 in Hitems |- *.
  destruct ex_books0.
  destruct (side_counts _ _ _ _ _ _ Hitems HndL (fun id => proj1 (indexTransactions_dom _ id))
    bk_lm0 bk_lc0 bk_lp0) as [L1 L2].
  destruct (side_counts _ _ _ _ _ _ Hitems HndR (fun id H => proj1 (indexTransactions_dom _ id) (proj2 H))
    bk_rm0 bk_rc0 bk_rp0) as [R1 R2].
  split_and!; [done| | |].
  - apply Forall_forall. intros g (p & Hp & [_ _ _ _ _ Hids _ _])%(Forall2_elem_of_r _ _ _ _ ex_from0).
    eapply elem_of_sublist in Hp; [|exact Hs]. rewrite Forall_forall in Hlen. destruct (Hlen p Hp).
    apply (f_equal length) in Hids. unfold group_ids, item_ids in Hids. rewrite length_fmap, length_app in Hids. lia.
  - eexists _, _, _. split_and!; [exact La|exact Lp|rewrite Lq; f_equal; lia|exact Lu|]. unfold count in *. lia.
  - eexists _, _, _. split_and!; [exact Ra|exact Rp|rewrite Rq; f_equal; lia|exact Ru|]. unfold count in *. lia.
Qed.
End one_to_one.
End results.

(** ** A concrete run: [l1] pairs with [r1], [l2] and the external [x1] stay
    unmatched. *)
Definition sample_ids (n : nat) : @uuid model_uuid := "id" +:+ pretty n.
Definition sample_clock (n : nat) : Time := Z.of_nat n.
Definition sample_mrc : @matchRunContext model_uuid model_decimal :=
  mkMatchRunContext (U:=model_uuid) (D:=model_decimal) "ctx"
    (mkReconciliationContextInfo (U:=model_uuid) (D:=model_decimal) "ctx" ContextTypeOneToOne true 0%Q 0%Q None) ∅ ∅ ∅
    [Some (sample_txn "l1" "bank" 100); Some (sample_txn "l2" "bank" 70)] [Some (sample_txn "r1" "ledger" 100)]
    ["x1"] (<["x1" := sample_txn "x1" "other" 7]> ∅) ∅ [] [] ∅.
Definition sample_load (_ : @uuid model_uuid) : res string (list (option (@MatchRule model_uuid))) :=
  Ok [sample_stored "pair" 2 "EXACT" []].
Definition sample_execution : res RunError (@matchExecutionResult model_uuid model_decimal) :=
  executeMatchRules sample_ids sample_clock (fun _ => false) sample_load sample_mrc "run".

Lemma sample_execution_summary :
  (match sample_execution with
   | Ok r => Some (MER_unmatchedIDs r, MER_autoMatchedIDs r, MER_stats r !! "unmatched_left")
   | Err _ => None
   end) = Some (["x1"; "l2"], ["l1"; "r1"], Some 1%Z).
Proof. vm_compute. reflexivity. Qed.

Lemma sample_mrc_NoDup :
  NoDup (MRC_unmatchedIDs sample_mrc ++ tx_ids (MRC_leftCandidates sample_mrc) ++
         tx_ids (MRC_rightCandidates sample_mrc)).
Proof. apply (bool_decide_unpack _). vm_compute. exact I. Qed.

Lemma executeMatchRules_conserves_witness :
  exists r, sample_execution = Ok r /\ MER_unmatchedIDs r = ["x1"; "l2"] /\
    ETI_TransactionID <$> buildExceptionInputs (MER_unmatchedIDs r) (MER_allTxByID r) ∅ (MER_unmatchedReasons r) =
    MER_unmatchedIDs r.
Proof.
  pose proof sample_execution_summary as Hsum.
  destruct sample_execution as [r|] eqn:E; [|discriminate Hsum]. injection Hsum as Hu _ _.
  exists r. split_and!; [done|done|].
  apply (executeMatchRules_conserves (L:=model_decimal_laws) (AL:=model_assert_laws) sample_ids sample_clock
    (fun _ => false) sample_load sample_mrc "run" r ∅ sample_mrc_NoDup); [|exact E].
  apply map_Forall_insert_2; [reflexivity|apply map_Forall_empty].
Defined.

Lemma executeMatchRules_one_to_one_witness :
  exists r, sample_execution = Ok r /\ NoDup (item_ids (MER_items r)) /\
    MER_stats r !! "unmatched_left" = Some 1%Z.
Proof.
  pose proof sample_execution_summary as Hsum.
  destruct sample_execution as [r|] eqn:E; [|discriminate Hsum]. injection Hsum as _ _ Hs.
  exists r. split_and!; [done| |done].
  apply (executeMatchRules_one_to_one (UL:=model_uuid_laws) (L:=model_decimal_laws) (AL:=model_assert_laws)
    sample_ids sample_clock (fun _ => false) sample_load sample_mrc "run" r sample_mrc_NoDup eq_refl E).
Defined.

Definition sample_proposal : @MatchProposal model_uuid model_decimal :=
  mkMatchProposal (U:=model_uuid) (D:=model_decimal) "rule" ["l1"] ["r1"] [] [] 80 "1:1".
Definition sample_processed :=
  processProposals (U:=model_uuid) (D:=model_decimal) sample_ids sample_clock (fun _ => false) "ctx" "run"
    [sample_proposal] (indexTransactions (MRC_leftCandidates sample_mrc))
    (indexTransactions (MRC_rightCandidates sample_mrc)) (mkProcState 0 ∅).

Lemma sample_processed_pending :
  (match sample_processed with Ok (r, _) => Some (PR_pendingReviewIDs r) | Err _ => None end) = Some ["l1"; "r1"].
Proof. vm_compute. reflexivity. Qed.

Lemma processProposals_sound_witness :
  exists r s, sample_processed = Ok (r, s) /\ PR_pendingReviewIDs r = ["l1"; "r1"] /\
    PR_items r = concat (MG_Items <$> PR_groups r).
Proof.
  pose proof sample_processed_pending as Hp.
  destruct sample_processed as [[r s]|] eqn:E; [|discriminate Hp]. injection Hp as Hp.
  exists r, s. split_and!; [done..|].
  apply (processProposals_sound (L:=model_decimal_laws) (AL:=model_assert_laws) sample_ids sample_clock
    (fun _ => false) "ctx" "run" [sample_proposal] (indexTransactions (MRC_leftCandidates sample_mrc))
    (indexTransactions (MRC_rightCandidates sample_mrc)) (mkProcState 0 ∅) r s
    (indexTransactions_keyed _) (indexTransactions_keyed _) E).
Defined.

(** ** Gross normalisation and allocations

    The engine allocates the normalised (gross) amount, but an item may not
    hold more than the transaction amount: the proposal for [l1] is made and
    then dropped, and no reason is recorded.  Without normalisation the same
    candidates form a group. *)
Definition sample_gross_schedule : @FeeSchedule model_uuid model_decimal :=
  mkFeeSchedule (U:=model_uuid) (D:=model_decimal) "s1" "tenant" "flat" "USD" ApplicationOrderParallel 2 "HALF_UP"
    [mkFeeScheduleItem (U:=model_uuid) (D:=model_decimal) "i" "flat" 1
       (Some (FlatFee (D:=model_decimal) (10 # 1)%Q)) 0 0] 0 0.
Definition sample_gross_mrc (norm : option string) : @matchRunContext model_uuid model_decimal :=
  mkMatchRunContext (U:=model_uuid) (D:=model_decimal) "ctx"
    (mkReconciliationContextInfo (U:=model_uuid) (D:=model_decimal) "ctx" ContextTypeOneToMany true 0%Q 0%Q norm)
    ∅ ∅ ∅ [Some (sample_txn "l1" "bank" (100 # 1)%Q)]
    [Some (sample_txn "r1" "ledger" (60 # 1)%Q); Some (sample_txn "r2" "ledger" (50 # 1)%Q)]
    [] ∅ ∅ [Some (sample_rule 1 "s1" [])] [] (<["s1" := Some sample_gross_schedule]> ∅).
Definition sample_gross_rule : option (@MatchRule model_uuid) :=
  sample_stored "rule" 1 "DATE_LAG" [("maxDays", AnyInt 5); ("feeTolerance", AnyInt 1000);
    ("allowPartial", AnyBool true); ("allocationToleranceMode", AnyString "ABS")].
Definition sample_gross_run (norm : option string) : option (nat * list (@uuid model_uuid) * nat) :=
  match executeMatchRules sample_ids sample_clock (fun _ => false) (fun _ => Ok [sample_gross_rule])
          (sample_gross_mrc norm) "run" with
  | Ok r => Some (length (MER_groups r), MER_unmatchedIDs r, size (MER_unmatchedReasons r))
  | Err _ => None
  end.

Example gross_allocation_dropped :
  sample_gross_run (Some NormalizationModeGross) = Some (0%nat, ["l1"; "r1"; "r2"], 0%nat) /\
  sample_gross_run None = Some (1%nat, [], 0%nat).
Proof. split; vm_compute; reflexivity. Qed.
