(* ===== verification/Severity.v ===== *)
(** * Exception severity

    Models internal/shared/domain/exception/severity.go: the severities, the
    ordered threshold rules and the classification of an exception by the
    first rule it meets.  The default rules are shown to be the documented
    thresholds, and the classification to be monotone in the amount and the
    age. *)
From S2P Require Import GoLib GoLibModel.

Inductive SeverityError : Type :=
| ErrInvalidExceptionSeverity | ErrEmptySeverityRules.

Definition ExceptionSeverity := string.
Definition ExceptionSeverityLow : ExceptionSeverity := "LOW".
Definition ExceptionSeverityMedium : ExceptionSeverity := "MEDIUM".
Definition ExceptionSeverityHigh : ExceptionSeverity := "HIGH".
Definition ExceptionSeverityCritical : ExceptionSeverity := "CRITICAL".

Definition ExceptionSeverity_IsValid (severity : ExceptionSeverity) : bool :=
  bool_decide (severity ∈ [ExceptionSeverityLow; ExceptionSeverityMedium; ExceptionSeverityHigh;
                           ExceptionSeverityCritical]).

Definition criticalAmountThreshold : Z := 100000.
Definition criticalAgeHours : Z := 120.
Definition highAmountThreshold : Z := 10000.
Definition highAgeHours : Z := 72.
Definition mediumAmountThreshold : Z := 1000.
Definition mediumAgeHours : Z := 24.

Section severity.
  Context {D : DecimalLib} {N : UnicodeLib}.

Definition ParseExceptionSeverity (value : string) : res SeverityError ExceptionSeverity :=
  let sev := strings_ToUpper (strings_TrimSpace value) in
  if negb (ExceptionSeverity_IsValid sev) then Err ErrInvalidExceptionSeverity else Ok sev.

Record SeverityClassificationInput : Type := mkSeverityClassificationInput {
  SC_AmountAbsBase : decimal;
  SC_AgeHours : Z;
  SC_SourceType : string;
  SC_FXMissing : bool;
}.

Record SeverityRule : Type := mkSeverityRule {
  SR_Severity : ExceptionSeverity;
  SR_MinAmountAbsBase : option decimal;
  SR_MinAgeHours : option Z;
  SR_RegulatorySourceTypes : list string;
}.

Record SeverityClassificationResult : Type := mkSeverityClassificationResult {
  SCR_Severity : ExceptionSeverity;
  SCR_Reasons : list string;
}.

Definition DefaultSeverityRules (regulatorySourceTypes : list string) : list SeverityRule :=
  [mkSeverityRule ExceptionSeverityCritical (Some (dec_NewFromInt criticalAmountThreshold)) (Some criticalAgeHours)
     regulatorySourceTypes;
   mkSeverityRule ExceptionSeverityHigh (Some (dec_NewFromInt highAmountThreshold)) (Some highAgeHours) [];
   mkSeverityRule ExceptionSeverityMedium (Some (dec_NewFromInt mediumAmountThreshold)) (Some mediumAgeHours) [];
   mkSeverityRule ExceptionSeverityLow None None []].

Definition normalizeSeverityInput (input : SeverityClassificationInput) : SeverityClassificationInput :=
  mkSeverityClassificationInput (dec_Abs (SC_AmountAbsBase input))
    (if (SC_AgeHours input <? 0)%Z then 0%Z else SC_AgeHours input)
    (strings_TrimSpace (SC_SourceType input)) (SC_FXMissing input).

Fixpoint isSourceTypeAllowed_loop (sourceType : string) (allowed : list string) : bool :=
  match allowed with
  | [] => false
  | candidate :: allowed' =>
      if strings_EqualFold sourceType (strings_TrimSpace candidate) then true
      else isSourceTypeAllowed_loop sourceType allowed'
  end.
Definition isSourceTypeAllowed (sourceType : string) (allowed : list string) : bool :=
  if string_empty sourceType then false else isSourceTypeAllowed_loop sourceType allowed.

Definition matchesSeverityRule (input : SeverityClassificationInput) (rule : SeverityRule) : bool :=
  if negb (bool_decide (is_Some (SR_MinAmountAbsBase rule))) && negb (bool_decide (is_Some (SR_MinAgeHours rule))) &&
     bool_decide (SR_RegulatorySourceTypes rule = [])
  then true
  else
    let amountMatch := match SR_MinAmountAbsBase rule with
                       | Some min => negb (dec_LessThan (SC_AmountAbsBase input) min)
                       | None => false
                       end in
    let ageMatch := match SR_MinAgeHours rule with
                    | Some min => (min <=? SC_AgeHours input)%Z
                    | None => false
                    end in
    let sourceMatch := negb (bool_decide (SR_RegulatorySourceTypes rule = [])) &&
                       isSourceTypeAllowed (SC_SourceType input) (SR_RegulatorySourceTypes rule) in
    amountMatch || ageMatch || sourceMatch.

Definition ReasonFXRateUnavailable : string := "FX_RATE_UNAVAILABLE".

Fixpoint classifyBy (normalized : SeverityClassificationInput) (reasons : list string) (rules : list SeverityRule)
    : res SeverityError SeverityClassificationResult :=
  match rules with
  | [] => Ok (mkSeverityClassificationResult ExceptionSeverityLow reasons)
  | rule :: rules' =>
      if negb (ExceptionSeverity_IsValid (SR_Severity rule)) then Err ErrInvalidExceptionSeverity
      else if matchesSeverityRule normalized rule
      then Ok (mkSeverityClassificationResult (SR_Severity rule) reasons)
      else classifyBy normalized reasons rules'
  end.

Definition ClassifyExceptionSeverity (input : SeverityClassificationInput) (rules : list SeverityRule)
    : res SeverityError SeverityClassificationResult :=
  match rules with
  | [] => Err ErrEmptySeverityRules
  | _ =>
      let normalized := normalizeSeverityInput input in
      classifyBy normalized (if SC_FXMissing normalized then [ReasonFXRateUnavailable] else []) rules
  end.
End severity.

(** ** Results *)
Definition severity_rank (s : ExceptionSeverity) : nat :=
  if bool_decide (s = ExceptionSeverityCritical) then 3
  else if bool_decide (s = ExceptionSeverityHigh) then 2
  else if bool_decide (s = ExceptionSeverityMedium) then 1 else 0.

Lemma severity_rank_values :
  severity_rank ExceptionSeverityCritical = 3%nat /\ severity_rank ExceptionSeverityHigh = 2%nat /\
  severity_rank ExceptionSeverityMedium = 1%nat /\ severity_rank ExceptionSeverityLow = 0%nat.
Proof. done. Qed.

Section results.
  Context {D : DecimalLib} {L : DecimalLaws D} {N : UnicodeLib}.
  Local Open Scope Q_scope.

(** Whether the exception reaches a threshold. *)
Definition reaches (input : SeverityClassificationInput) (amount age : Z) : Prop :=
  inject_Z amount <= Qabs (dec_Rat (SC_AmountAbsBase input)) \/ (age <= SC_AgeHours input)%Z.

Definition regulated (input : SeverityClassificationInput) (regulatory : list string) : Prop :=
  isSourceTypeAllowed (strings_TrimSpace (SC_SourceType input)) regulatory = true.

Lemma matchesSeverityRule_threshold input sev amount age regulatory :
  (0 < age)%Z ->
  matchesSeverityRule (normalizeSeverityInput input)
    (mkSeverityRule sev (Some (dec_NewFromInt amount)) (Some age) regulatory) = true <->
  reaches input amount age \/ regulated input regulatory.
Proof.
  intros Hage. unfold matchesSeverityRule, reaches, regulated. cbn.
  rewrite !orb_true_iff, negb_true_iff, dec_LessThan_false, dec_Rat_NewFromInt, dec_Rat_Abs, Z.leb_le.
  assert (Ha : (age <= (if (SC_AgeHours input <? 0)%Z then 0 else SC_AgeHours input))%Z <->
               (age <= SC_AgeHours input)%Z) by (destruct (Z.ltb_spec (SC_AgeHours input) 0); lia).
  rewrite Ha. destruct regulatory as [|r l]; cbn [negb andb].
  - rewrite bool_decide_eq_true_2 by done. unfold isSourceTypeAllowed. destruct (string_empty _); cbn; tauto.
  - by rewrite bool_decide_eq_false_2 by done.
Qed.

(** The default rules by thresholds: how high the severity is. *)
Lemma ClassifyExceptionSeverity_rank input regulatory :
  exists r, ClassifyExceptionSeverity input (DefaultSeverityRules regulatory) = Ok r /\
    SCR_Reasons r = (if SC_FXMissing input then [ReasonFXRateUnavailable] else []) /\
    ExceptionSeverity_IsValid (SCR_Severity r) = true /\
    ((3 <= severity_rank (SCR_Severity r))%nat <->
       reaches input criticalAmountThreshold criticalAgeHours \/ regulated input regulatory) /\
    ((2 <= severity_rank (SCR_Severity r))%nat <->
       reaches input highAmountThreshold highAgeHours \/ regulated input regulatory) /\
    ((1 <= severity_rank (SCR_Severity r))%nat <->
       reaches input mediumAmountThreshold mediumAgeHours \/ regulated input regulatory).
Proof.
  pose proof (fun s a => matchesSeverityRule_threshold input s a) as Hm.
  assert (Hlow : forall a, regulated input a -> a = [] -> False).
  { intros a Hr ->. unfold regulated, isSourceTypeAllowed in Hr. by destruct (string_empty _). }
  assert (Hch : reaches input criticalAmountThreshold criticalAgeHours -> reaches input highAmountThreshold highAgeHours).
  { unfold reaches. intros [H|H]; [left|right; unfold criticalAgeHours, highAgeHours in *; lia].
    eapply Qle_trans; [|exact H]. done. }
  assert (Hhm : reaches input highAmountThreshold highAgeHours -> reaches input mediumAmountThreshold mediumAgeHours).
  { unfold reaches. intros [H|H]; [left|right; unfold highAgeHours, mediumAgeHours in *; lia].
    eapply Qle_trans; [|exact H]. done. }
  destruct severity_rank_values as (R3 & R2 & R1 & R0).
  unfold ClassifyExceptionSeverity, DefaultSeverityRules. cbn [classifyBy].
  change (SC_FXMissing (normalizeSeverityInput input)) with (SC_FXMissing input).
  repeat match goal with |- context [negb (ExceptionSeverity_IsValid (SR_Severity ?r))] =>
    change (negb (ExceptionSeverity_IsValid (SR_Severity r))) with false end.
  destruct (matchesSeverityRule _ (mkSeverityRule ExceptionSeverityCritical _ _ _)) eqn:E3.
  { apply Hm in E3; [|done]. eexists. split_and!; [done..| | |];
      cbn [SCR_Severity SR_Severity]; rewrite ?R3, ?R2, ?R1, ?R0; split; intros; try lia; tauto. }
  destruct (matchesSeverityRule _ (mkSeverityRule ExceptionSeverityHigh _ _ _)) eqn:E2.
  { apply not_true_iff_false in E3. rewrite Hm in E3 by done. apply Hm in E2; [|done].
    assert (H2 : reaches input highAmountThreshold highAgeHours) by (destruct E2 as [|E2]; [done|by destruct (Hlow _ E2)]).
    eexists. split_and!; [done..| | |];
      cbn [SCR_Severity SR_Severity]; rewrite ?R3, ?R2, ?R1, ?R0; split; intros; try lia; tauto. }
  destruct (matchesSeverityRule _ (mkSeverityRule ExceptionSeverityMedium _ _ _)) eqn:E1.
  { apply not_true_iff_false in E3. rewrite Hm in E3 by done. apply not_true_iff_false in E2. rewrite Hm in E2 by done.
    apply Hm in E1; [|done].
    assert (H1 : reaches input mediumAmountThreshold mediumAgeHours)
      by (destruct E1 as [|E1]; [done|by destruct (Hlow _ E1)]).
    eexists. split_and!; [done..| | |];
      cbn [SCR_Severity SR_Severity]; rewrite ?R3, ?R2, ?R1, ?R0; split; intros; try lia; tauto. }
  apply not_true_iff_false in E3, E2, E1. rewrite Hm in E3, E2, E1 by done.
  eexists. split_and!; [done..| | |];
      cbn [SCR_Severity SR_Severity]; rewrite ?R3, ?R2, ?R1, ?R0; split; intros; try lia; tauto.
Qed.

(** With the default rules every exception gets a severity, and it is the
    documented one: CRITICAL from 100000 in base amount, 120 hours of age or a
    regulated source, HIGH from 10000 or 72 hours, MEDIUM from 1000 or 24
    hours, LOW below. So an exception with at least the amount and the age of
    another of the same source is at least as severe. *)
Theorem ClassifyExceptionSeverity_default input regulatory :
  (exists r, ClassifyExceptionSeverity input (DefaultSeverityRules regulatory) = Ok r /\
    ((3 <= severity_rank (SCR_Severity r))%nat <->
       reaches input criticalAmountThreshold criticalAgeHours \/ regulated input regulatory) /\
    ((2 <= severity_rank (SCR_Severity r))%nat <->
       reaches input highAmountThreshold highAgeHours \/ regulated input regulatory) /\
    ((1 <= severity_rank (SCR_Severity r))%nat <->
       reaches input mediumAmountThreshold mediumAgeHours \/ regulated input regulatory)) /\
  (forall input' r r', ClassifyExceptionSeverity input (DefaultSeverityRules regulatory) = Ok r ->
    ClassifyExceptionSeverity input' (DefaultSeverityRules regulatory) = Ok r' ->
    SC_SourceType input = SC_SourceType input' -> (SC_AgeHours input <= SC_AgeHours input')%Z ->
    Qabs (dec_Rat (SC_AmountAbsBase input)) <= Qabs (dec_Rat (SC_AmountAbsBase input')) ->
    (severity_rank (SCR_Severity r) <= severity_rank (SCR_Severity r'))%nat).
Proof.
  split.
  - destruct (ClassifyExceptionSeverity_rank input regulatory) as (r & -> & _ & _ & H). by exists r.
  - intros input' r r' Hr Hr' Hs Ha Hq.
    destruct (ClassifyExceptionSeverity_rank input regulatory) as (r1 & E & _ & _ & H3 & H2 & H1).
    destruct (ClassifyExceptionSeverity_rank input' regulatory) as (r2 & E' & _ & _ & H3' & H2' & H1').
    rewrite E in Hr. rewrite E' in Hr'. simplify_eq.
    assert (Hreach : forall a h, reaches input a h -> reaches input' a h).
    { unfold reaches. intros a h [|]; [left|right]; [by eapply Qle_trans|lia]. }
    assert (Hreg : regulated input regulatory -> regulated input' regulatory) by (unfold regulated; by rewrite Hs).
    assert (Hle : (severity_rank (SCR_Severity r) <= 3)%nat)
      by (unfold severity_rank; repeat case_bool_decide; lia).
    destruct (severity_rank (SCR_Severity r)) as [|[|[|[|n]]]] eqn:En; [lia| | | |lia].
    + apply H1'. destruct (proj1 H1 ltac:(lia)); auto.
    + apply H2'. destruct (proj1 H2 ltac:(lia)); auto.
    + apply H3'. destruct (proj1 H3 ltac:(lia)); auto.
Qed.
End results.

(** ** A concrete classification *)
Definition sample_severity_input (amount : Q) (age : Z) : @SeverityClassificationInput model_decimal :=
  mkSeverityClassificationInput (D:=model_decimal) amount age "BANK" false.

Lemma ClassifyExceptionSeverity_default_witness :
  exists r, ClassifyExceptionSeverity (N:=model_unicode) (sample_severity_input (15000 # 1) 3)
              (DefaultSeverityRules []) = Ok r /\ (2 <= severity_rank (SCR_Severity r))%nat.
Proof.
  destruct (proj1 (ClassifyExceptionSeverity_default (L:=model_decimal_laws) (N:=model_unicode)
    (sample_severity_input (15000 # 1) 3) [])) as (r & Hr & _ & H2 & _).
  exists r. split; [exact Hr|]. apply H2. left. left. vm_compute. discriminate.
Defined.
