(* ===== verification/Exceptions.v ===== *)
(** * The exception aggregate

    Models internal/exception/domain/entities/{exception,exception_comment}.go,
    domain/value_objects/{exception_status,resolution_transition,override_reason,
    adjustment_reason,currency}.go and the part of
    services/command/callback_apply.go that changes the aggregate.

    A method call is a state change of the object it is called on.  The
    methods keep the invariant of the aggregate, follow its status diagram and
    commute with changes of severity and reason, which a matching run makes
    behind their back. *)
From S2P Require Import GoLib GoLibModel Severity.

(** ** [exception_status.go] and [resolution_transition.go] *)
Inductive ExceptionError : Type :=
| ErrExceptionNotFound | ErrExceptionNil | ErrExceptionTransactionIDRequired | ErrExceptionSeverityInvalid
| ErrExceptionMustBeOpenToAssign | ErrExceptionMustBeOpenOrAssignedToResolve | ErrResolutionNotesRequired
| ErrAssigneeRequired | ErrAssignedExceptionRequiresAssignee | ErrExceptionMustBeAssignedToUnassign
| ErrExceptionPendingResolution | ErrExceptionMustBePendingToAbort | ErrInvalidAbortTargetStatus
| ErrInvalidExceptionStatus | ErrInvalidResolutionTransition
| ErrInvalidOverrideReason | ErrInvalidAdjustmentReason | ErrInvalidCurrencyCode
| ErrCallbackOpenNotValidTarget | ErrCallbackAssigneeRequired | ErrCallbackStatusUnsupported (status : string)
| ErrCommentExceptionIDRequired | ErrCommentAuthorRequired | ErrCommentContentRequired | ErrCommentNotFound.

(** ** [services/command/commands.go], the gateway to matching and the audit
    publisher: errors of the commands *)
Inductive ExceptionCmdError : Type :=
| ErrExceptionIDRequired | ErrActorRequired | ErrZeroAdjustmentAmount | ErrNegativeAdjustmentAmount
| ErrInvalidAdjustment | ErrInvalidDirection
| ErrBulkEmptyIDs | ErrBulkTooManyIDs | ErrBulkAssigneeEmpty | ErrBulkResolutionEmpty
| ErrCommentIDRequired | ErrCommentContentEmpty | ErrExceptionAlreadyResolved | ErrNotCommentAuthor
| ErrIngestionJobNotFound | ErrSourceNotFound
| ErrAuditTenantIDMissing | ErrMarshalAuditEvent | ErrAuditTenantMismatch | ErrAuditTenantContextMissing
| ErrNilInfrastructureProvider
| ErrCriticalOutboxTxRequired | ErrStreamTenantIDMissing
| ErrEmptyIdempotencyKey | ErrInvalidIdempotencyKey
| ErrCallbackExternalSystem | ErrCallbackExternalIssueID | ErrCallbackStatusRequired
| ErrCallbackRateLimitExceeded | ErrCallbackInProgress | ErrCallbackRetryable
| ErrCacheEntryNoStatus | ErrRedis.

Definition ExceptionStatus := string.
Definition ExceptionStatusOpen : ExceptionStatus := "OPEN".
Definition ExceptionStatusAssigned : ExceptionStatus := "ASSIGNED".
Definition ExceptionStatusPendingResolution : ExceptionStatus := "PENDING_RESOLUTION".
Definition ExceptionStatusResolved : ExceptionStatus := "RESOLVED".

Definition ExceptionStatus_IsValid (status : ExceptionStatus) : bool :=
  bool_decide (status ∈ [ExceptionStatusOpen; ExceptionStatusAssigned; ExceptionStatusPendingResolution;
                         ExceptionStatusResolved]).

(** The table is a Go map; a missing key gives the empty slice. *)
Definition allowedResolutionTransitions (from : ExceptionStatus) : list ExceptionStatus :=
  if bool_decide (from = ExceptionStatusOpen)
  then [ExceptionStatusAssigned; ExceptionStatusResolved; ExceptionStatusPendingResolution]
  else if bool_decide (from = ExceptionStatusAssigned)
  then [ExceptionStatusResolved; ExceptionStatusPendingResolution]
  else if bool_decide (from = ExceptionStatusPendingResolution)
  then [ExceptionStatusResolved; ExceptionStatusOpen; ExceptionStatusAssigned]
  else [].

Definition ValidateResolutionTransition (from to : ExceptionStatus) : res ExceptionError unit :=
  _ ← ensure (ExceptionStatus_IsValid from && ExceptionStatus_IsValid to) ErrInvalidExceptionStatus;
  ensure (bool_decide (to ∈ allowedResolutionTransitions from)) ErrInvalidResolutionTransition.

Section parsers.
  Context {N : UnicodeLib}.

Definition ParseExceptionStatus (value : string) : res ExceptionError ExceptionStatus :=
  let status := strings_ToUpper (strings_TrimSpace value) in
  if negb (ExceptionStatus_IsValid status) then Err ErrInvalidExceptionStatus else Ok status.

(** ** [override_reason.go], [adjustment_reason.go], [currency.go] *)
Definition OverrideReason_IsValid (reason : string) : bool :=
  bool_decide (reason ∈ ["POLICY_EXCEPTION"; "OPS_APPROVAL"; "CUSTOMER_DISPUTE"; "DATA_CORRECTION"]).

Definition ParseOverrideReason (value : string) : res ExceptionError string :=
  let trimmed := strings_TrimSpace value in
  if string_empty trimmed then Err ErrInvalidOverrideReason
  else
    let reason := strings_ToUpper trimmed in
    if negb (OverrideReason_IsValid reason) then Err ErrInvalidOverrideReason else Ok reason.

Definition AdjustmentReasonCode_IsValid (reason : string) : bool :=
  bool_decide (reason ∈ ["AMOUNT_CORRECTION"; "CURRENCY_CORRECTION"; "DATE_CORRECTION"; "OTHER"]).

Definition ParseAdjustmentReason (value : string) : res ExceptionError string :=
  let trimmed := strings_TrimSpace value in
  if string_empty trimmed then Err ErrInvalidAdjustmentReason
  else
    let reason := strings_ToUpper trimmed in
    if negb (AdjustmentReasonCode_IsValid reason) then Err ErrInvalidAdjustmentReason else Ok reason.

Definition allowedCurrencies : list string :=
  ["AED"; "AFN"; "ALL"; "AMD"; "ANG"; "AOA"; "ARS"; "AUD"; "AWG"; "AZN"; "BAM"; "BBD"; "BDT"; "BGN"; "BHD"; "BIF";
   "BMD"; "BND"; "BOB"; "BRL"; "BSD"; "BTN"; "BWP"; "BYN"; "BZD"; "CAD"; "CDF"; "CHF"; "CLP"; "CNY"; "COP"; "CRC";
   "CUP"; "CVE"; "CZK"; "DJF"; "DKK"; "DOP"; "DZD"; "EGP"; "ERN"; "ETB"; "EUR"; "FJD"; "FKP"; "GBP"; "GEL"; "GHS";
   "GIP"; "GMD"; "GNF"; "GTQ"; "GYD"; "HKD"; "HNL"; "HTG"; "HUF"; "IDR"; "ILS"; "INR"; "IQD"; "IRR"; "ISK"; "JMD";
   "JOD"; "JPY"; "KES"; "KGS"; "KHR"; "KMF"; "KPW"; "KRW"; "KWD"; "KYD"; "KZT"; "LAK"; "LBP"; "LKR"; "LRD"; "LSL";
   "LYD"; "MAD"; "MDL"; "MGA"; "MKD"; "MMK"; "MNT"; "MOP"; "MRU"; "MUR"; "MVR"; "MWK"; "MXN"; "MYR"; "MZN"; "NAD";
   "NGN"; "NIO"; "NOK"; "NPR"; "NZD"; "OMR"; "PAB"; "PEN"; "PGK"; "PHP"; "PKR"; "PLN"; "PYG"; "QAR"; "RON"; "RSD";
   "RUB"; "RWF"; "SAR"; "SBD"; "SCR"; "SDG"; "SEK"; "SGD"; "SHP"; "SLE"; "SOS"; "SRD"; "SSP"; "STN"; "SVC"; "SYP";
   "SZL"; "THB"; "TJS"; "TMT"; "TND"; "TOP"; "TRY"; "TTD"; "TWD"; "TZS"; "UAH"; "UGX"; "USD"; "UYU"; "UZS"; "VES";
   "VND"; "VUV"; "WST"; "XAF"; "XCD"; "XOF"; "XPF"; "YER"; "ZAR"; "ZMW"; "ZWL"].

Definition ParseCurrencyCode (value : string) : res ExceptionError string :=
  let trimmed := strings_TrimSpace value in
  if string_empty trimmed then Err ErrInvalidCurrencyCode
  else
    let code := strings_ToUpper trimmed in
    if negb (bool_decide (code ∈ allowedCurrencies)) then Err ErrInvalidCurrencyCode else Ok code.

Definition NormalizeOptionalText (value : option string) : option string :=
  match value with
  | None => None
  | Some v => let trimmed := strings_TrimSpace v in if string_empty trimmed then None else Some trimmed
  end.
End parsers.

(** ** [exception.go] *)
Section aggregate.
  Context {U : UUIDLib} {A : AssertLib} {N : UnicodeLib}.

Record Exception : Type := mkException {
  EX_ID : uuid;
  EX_TransactionID : uuid;
  EX_Severity : ExceptionSeverity;
  EX_Status : ExceptionStatus;
  EX_ExternalSystem : option string;
  EX_ExternalIssueID : option string;
  EX_AssignedTo : option string;
  EX_DueAt : option Time;
  EX_ResolutionNotes : option string;
  EX_ResolutionType : option string;
  EX_ResolutionReason : option string;
  EX_Reason : option string;
  EX_Version : Z;
  EX_CreatedAt : Time;
  EX_UpdatedAt : Time;
}.

Definition NewException (id : uuid) (now : Time) (transactionID : uuid) (severity : ExceptionSeverity)
    (reason : option string) : res ExceptionError Exception :=
  _ ← ensure (assert_That (negb (bool_decide (transactionID = uuid_Nil)))) ErrExceptionTransactionIDRequired;
  _ ← ensure (assert_That (ExceptionSeverity_IsValid severity)) ErrExceptionSeverityInvalid;
  Ok (mkException id transactionID severity ExceptionStatusOpen None None None None None None None
        (NormalizeOptionalText reason) 0 now now).

(** Assignments to the fields of the aggregate. *)
Definition set_exception_status (status : ExceptionStatus) (x : Exception) : Exception :=
  mkException (EX_ID x) (EX_TransactionID x) (EX_Severity x) status (EX_ExternalSystem x) (EX_ExternalIssueID x)
    (EX_AssignedTo x) (EX_DueAt x) (EX_ResolutionNotes x) (EX_ResolutionType x) (EX_ResolutionReason x) (EX_Reason x)
    (EX_Version x) (EX_CreatedAt x) (EX_UpdatedAt x).
Definition set_external (externalSystem externalIssueID : string) (x : Exception) : Exception :=
  mkException (EX_ID x) (EX_TransactionID x) (EX_Severity x) (EX_Status x) (Some externalSystem)
    (Some externalIssueID) (EX_AssignedTo x) (EX_DueAt x) (EX_ResolutionNotes x) (EX_ResolutionType x)
    (EX_ResolutionReason x) (EX_Reason x) (EX_Version x) (EX_CreatedAt x) (EX_UpdatedAt x).
Definition set_assignment (assignedTo : option string) (dueAt : option Time) (x : Exception) : Exception :=
  mkException (EX_ID x) (EX_TransactionID x) (EX_Severity x) (EX_Status x) (EX_ExternalSystem x)
    (EX_ExternalIssueID x) assignedTo dueAt (EX_ResolutionNotes x) (EX_ResolutionType x) (EX_ResolutionReason x)
    (EX_Reason x) (EX_Version x) (EX_CreatedAt x) (EX_UpdatedAt x).
Definition set_resolution (notes type reason : option string) (x : Exception) : Exception :=
  mkException (EX_ID x) (EX_TransactionID x) (EX_Severity x) (EX_Status x) (EX_ExternalSystem x)
    (EX_ExternalIssueID x) (EX_AssignedTo x) (EX_DueAt x) notes type reason (EX_Reason x) (EX_Version x)
    (EX_CreatedAt x) (EX_UpdatedAt x).
Definition set_exception_updated (now : Time) (x : Exception) : Exception :=
  mkException (EX_ID x) (EX_TransactionID x) (EX_Severity x) (EX_Status x) (EX_ExternalSystem x)
    (EX_ExternalIssueID x) (EX_AssignedTo x) (EX_DueAt x) (EX_ResolutionNotes x) (EX_ResolutionType x)
    (EX_ResolutionReason x) (EX_Reason x) (EX_Version x) (EX_CreatedAt x) now.

Definition Exception_Assign (assignee : string) (dueAt : option Time) (now : Time) : st Exception ExceptionError unit :=
  exception ← st_get;
  _ ← st_ensure (assert_NotNil (Some exception)) ErrExceptionNil;
  _ ← st_ensure (bool_decide (EX_Status exception = ExceptionStatusOpen)) ErrExceptionMustBeOpenToAssign;
  let trimmedAssignee := strings_TrimSpace assignee in
  _ ← st_ensure (assert_NotEmpty trimmedAssignee) ErrAssigneeRequired;
  st_modify (fun x => set_exception_updated now (set_assignment (Some trimmedAssignee) dueAt
    (set_exception_status ExceptionStatusAssigned x))).

Definition Exception_Unassign (now : Time) : st Exception ExceptionError unit :=
  exception ← st_get;
  _ ← st_ensure (assert_NotNil (Some exception)) ErrExceptionNil;
  _ ← st_ensure (bool_decide (EX_Status exception = ExceptionStatusAssigned)) ErrExceptionMustBeAssignedToUnassign;
  st_modify (fun x => set_exception_updated now (set_assignment None None
    (set_exception_status ExceptionStatusOpen x))).

Definition Exception_StartResolution (now : Time) : st Exception ExceptionError unit :=
  exception ← st_get;
  _ ← st_ensure (assert_NotNil (Some exception)) ErrExceptionNil;
  _ ← st_ensure (negb (bool_decide (EX_Status exception = ExceptionStatusPendingResolution)))
        ErrExceptionPendingResolution;
  _ ← st_ensure (bool_decide (EX_Status exception = ExceptionStatusOpen) ||
                 bool_decide (EX_Status exception = ExceptionStatusAssigned)) ErrExceptionMustBeOpenOrAssignedToResolve;
  st_modify (fun x => set_exception_updated now (set_exception_status ExceptionStatusPendingResolution x)).

Definition Exception_AbortResolution (previousStatus : ExceptionStatus) (now : Time) : st Exception ExceptionError unit :=
  exception ← st_get;
  _ ← st_ensure (assert_NotNil (Some exception)) ErrExceptionNil;
  _ ← st_ensure (bool_decide (EX_Status exception = ExceptionStatusPendingResolution)) ErrExceptionMustBePendingToAbort;
  _ ← st_ensure (bool_decide (previousStatus = ExceptionStatusOpen) ||
                 bool_decide (previousStatus = ExceptionStatusAssigned)) ErrInvalidAbortTargetStatus;
  st_modify (fun x => set_exception_updated now (set_exception_status previousStatus x)).

(** The options of [Resolve]: functions that fill in the type or the reason. *)
Inductive ResolveOption : Type :=
| WithResolutionType (t : string)
| WithResolutionReason (r : string).

Definition resolve_options (opts : list ResolveOption) : string * string :=
  fold_left (fun o opt => match opt with
                          | WithResolutionType t => (t, o.2)
                          | WithResolutionReason r => (o.1, r)
                          end) opts ("", "").

Definition blank (s : option string) : bool :=
  match s with None => true | Some v => string_empty (strings_TrimSpace v) end.

Definition non_empty_or (value : string) (old : option string) : option string :=
  if string_empty value then old else Some value.

Definition Exception_Resolve (notes : string) (opts : list ResolveOption) (now : Time)
    : st Exception ExceptionError unit :=
  exception ← st_get;
  _ ← st_ensure (assert_NotNil (Some exception)) ErrExceptionNil;
  _ ← st_ensure (bool_decide (EX_Status exception = ExceptionStatusOpen) ||
                 bool_decide (EX_Status exception = ExceptionStatusAssigned) ||
                 bool_decide (EX_Status exception = ExceptionStatusPendingResolution))
        ErrExceptionMustBeOpenOrAssignedToResolve;
  let trimmedNotes := strings_TrimSpace notes in
  _ ← st_ensure (assert_NotEmpty trimmedNotes) ErrResolutionNotesRequired;
  _ ← st_ensure (negb (bool_decide (EX_Status exception = ExceptionStatusAssigned) && blank (EX_AssignedTo exception)))
        ErrAssignedExceptionRequiresAssignee;
  let '(resolutionType, resolutionReason) := resolve_options opts in
  st_modify (fun x => set_exception_updated now
    (set_resolution (Some trimmedNotes) (non_empty_or resolutionType (EX_ResolutionType x))
       (non_empty_or resolutionReason (EX_ResolutionReason x)) (set_exception_status ExceptionStatusResolved x))).

(** ** [callback_apply.go]: the change a callback asks for *)
Record callbackParams : Type := mkCallbackParams {
  CP_externalSystem : string;
  CP_externalIssueID : string;
  CP_status : ExceptionStatus;
  CP_resolutionNotes : option string;
  CP_assignee : string;
  CP_dueAt : option Time;
  CP_updatedAt : option Time;
}.

Definition applyCallbackMetadataUpdate (params : callbackParams) (now : Time) (x : Exception) : Exception :=
  let trimmed := strings_TrimSpace (CP_assignee params) in
  let assignedTo := if string_empty trimmed then EX_AssignedTo x else Some trimmed in
  let dueAt := match CP_dueAt params with Some t => Some t | None => EX_DueAt x end in
  let updated := negb (string_empty trimmed) || bool_decide (is_Some (CP_dueAt params)) in
  let x := set_assignment assignedTo dueAt x in
  if updated then set_exception_updated now x else x.

Definition callback_notes (params : callbackParams) : string :=
  if blank (CP_resolutionNotes params) then ("Resolved via " ++ CP_externalSystem params ++ " callback")%string
  else default "" (CP_resolutionNotes params).

Definition applyCallbackStatusTransition (params : callbackParams) (now : Time) : st Exception ExceptionError unit :=
  if bool_decide (CP_status params = ExceptionStatusAssigned) then
    _ ← st_ensure (negb (string_empty (strings_TrimSpace (CP_assignee params)))) ErrCallbackAssigneeRequired;
    Exception_Assign (CP_assignee params) (CP_dueAt params) now
  else if bool_decide (CP_status params = ExceptionStatusResolved) then
    Exception_Resolve (callback_notes params) [] now
  else st_lift (Err (ErrCallbackStatusUnsupported (CP_status params))).

Definition applyCallback (params : callbackParams) (now : Time) : st Exception ExceptionError unit :=
  _ ← st_modify (set_external (CP_externalSystem params) (CP_externalIssueID params));
  exception ← st_get;
  if bool_decide (EX_Status exception = CP_status params) then st_modify (applyCallbackMetadataUpdate params now)
  else
    _ ← st_lift (ValidateResolutionTransition (EX_Status exception) (CP_status params));
    _ ← st_ensure (negb (bool_decide (CP_status params = ExceptionStatusOpen))) ErrCallbackOpenNotValidTarget;
    applyCallbackStatusTransition params now.

(** ** [exception_comment.go] *)
Record ExceptionComment : Type := mkExceptionComment {
  EC_ID : uuid;
  EC_ExceptionID : uuid;
  EC_Author : string;
  EC_Content : string;
  EC_CreatedAt : Time;
  EC_UpdatedAt : Time;
}.

Definition NewExceptionComment (id : uuid) (now : Time) (exceptionID : uuid) (author content : string)
    : res ExceptionError ExceptionComment :=
  _ ← ensure (assert_That (negb (bool_decide (exceptionID = uuid_Nil)))) ErrCommentExceptionIDRequired;
  let trimmedAuthor := strings_TrimSpace author in
  _ ← ensure (assert_NotEmpty trimmedAuthor) ErrCommentAuthorRequired;
  let trimmedContent := strings_TrimSpace content in
  _ ← ensure (assert_NotEmpty trimmedContent) ErrCommentContentRequired;
  Ok (mkExceptionComment id exceptionID trimmedAuthor trimmedContent now now).
End aggregate.

(** ** Behaviour of the aggregate *)
Section behaviour.
  Context {U : UUIDLib} {A : AssertLib} {AL : AssertLaws A} {N : UnicodeLib}.

(** The calls that change an exception. *)
Inductive exception_op : Type :=
| XAssign (assignee : string) (dueAt : option Time)
| XUnassign
| XStart
| XAbort (previousStatus : ExceptionStatus)
| XResolve (notes : string) (opts : list ResolveOption)
| XCallback (params : callbackParams).

Definition exception_step (op : exception_op) (now : Time) : st Exception ExceptionError unit :=
  match op with
  | XAssign assignee dueAt => Exception_Assign assignee dueAt now
  | XUnassign => Exception_Unassign now
  | XStart => Exception_StartResolution now
  | XAbort previousStatus => Exception_AbortResolution previousStatus now
  | XResolve notes opts => Exception_Resolve notes opts now
  | XCallback params => applyCallback params now
  end.

(** The status diagram; the loops are callbacks that only carry metadata. *)
Inductive exception_transition : ExceptionStatus -> ExceptionStatus -> Prop :=
| xt_assign : exception_transition ExceptionStatusOpen ExceptionStatusAssigned
| xt_unassign : exception_transition ExceptionStatusAssigned ExceptionStatusOpen
| xt_start s : s ∈ [ExceptionStatusOpen; ExceptionStatusAssigned] ->
    exception_transition s ExceptionStatusPendingResolution
| xt_abort s : s ∈ [ExceptionStatusOpen; ExceptionStatusAssigned] ->
    exception_transition ExceptionStatusPendingResolution s
| xt_resolve s : s ∈ [ExceptionStatusOpen; ExceptionStatusAssigned; ExceptionStatusPendingResolution] ->
    exception_transition s ExceptionStatusResolved
| xt_metadata s : exception_transition s s.

Definition has_assignee (x : Exception) : Prop := exists a, EX_AssignedTo x = Some a /\ a <> "".

Record exception_wf (x : Exception) : Prop := {
  xw_status : ExceptionStatus_IsValid (EX_Status x) = true;
  xw_assigned : EX_Status x = ExceptionStatusAssigned -> has_assignee x;
  xw_resolved : EX_Status x = ExceptionStatusResolved -> exists n, EX_ResolutionNotes x = Some n /\ n <> "";
}.

(** Severity, reason and time of the last change: what a matching run may
    change without a call on the aggregate. *)
Definition reclass (severity : ExceptionSeverity) (reason : option string) (updated : Time) (x : Exception) : Exception :=
  mkException (EX_ID x) (EX_TransactionID x) severity (EX_Status x) (EX_ExternalSystem x) (EX_ExternalIssueID x)
    (EX_AssignedTo x) (EX_DueAt x) (EX_ResolutionNotes x) (EX_ResolutionType x) (EX_ResolutionReason x) reason
    (EX_Version x) (EX_CreatedAt x) updated.

Definition same_core (x y : Exception) : Prop := exists s r u, y = reclass s r u x.

#[export] Instance same_core_equivalence : Equivalence same_core.
Proof.
  split.
  - intros x. exists (EX_Severity x), (EX_Reason x), (EX_UpdatedAt x). by destruct x.
  - intros x y (s & r & u & ->). exists (EX_Severity x), (EX_Reason x), (EX_UpdatedAt x). by destruct x.
  - intros x y z (s & r & u & ->) (s' & r' & u' & ->). by exists s', r', u'.
Qed.

#[export] Instance exception_wf_proper : Proper (same_core ==> iff) exception_wf.
Proof. intros x y (s & r & u & ->). split; intros [H1 H2 H3]; by split. Qed.

(** *** The effect of each method, on every receiver *)
Ltac statuses :=
  unfold ExceptionStatusOpen, ExceptionStatusAssigned, ExceptionStatusPendingResolution, ExceptionStatusResolved in *.

Ltac method_effect :=
  unfold Exception_Assign, Exception_Unassign, Exception_StartResolution, Exception_AbortResolution,
    Exception_Resolve, st_ensure, ensure, st_get, st_modify, mbind, st_bind, st_lift, string_empty;
  rewrite assert_NotNil_Some, ?assert_NotEmpty_spec; cbn -[strings_TrimSpace]; unfold string_empty;
  repeat (case_bool_decide; cbn -[strings_TrimSpace blank]); try (destruct (blank _) eqn:?; cbn -[strings_TrimSpace]);
  repeat match goal with |- context [let '(_, _) := ?p in _] => destruct p eqn:?; cbn -[strings_TrimSpace] in * end;
  (split; [intros ?; simplify_eq|intros ?; destruct_and?; simplify_eq]); statuses; intuition congruence.

Lemma Exception_Assign_effect assignee dueAt now x x' :
  Exception_Assign assignee dueAt now x = (x', Ok tt) <->
  EX_Status x = ExceptionStatusOpen /\ strings_TrimSpace assignee <> "" /\
  x' = set_exception_updated now (set_assignment (Some (strings_TrimSpace assignee)) dueAt
         (set_exception_status ExceptionStatusAssigned x)).
Proof. method_effect. Qed.

Lemma Exception_Unassign_effect now x x' :
  Exception_Unassign now x = (x', Ok tt) <->
  EX_Status x = ExceptionStatusAssigned /\
  x' = set_exception_updated now (set_assignment None None (set_exception_status ExceptionStatusOpen x)).
Proof. method_effect. Qed.

Lemma Exception_StartResolution_effect now x x' :
  Exception_StartResolution now x = (x', Ok tt) <->
  (EX_Status x = ExceptionStatusOpen \/ EX_Status x = ExceptionStatusAssigned) /\
  x' = set_exception_updated now (set_exception_status ExceptionStatusPendingResolution x).
Proof. method_effect. Qed.

Lemma Exception_AbortResolution_effect previousStatus now x x' :
  Exception_AbortResolution previousStatus now x = (x', Ok tt) <->
  EX_Status x = ExceptionStatusPendingResolution /\
  (previousStatus = ExceptionStatusOpen \/ previousStatus = ExceptionStatusAssigned) /\
  x' = set_exception_updated now (set_exception_status previousStatus x).
Proof. method_effect. Qed.

Definition resolved (notes : string) (opts : list ResolveOption) (now : Time) (x : Exception) : Exception :=
  set_exception_updated now
    (set_resolution (Some (strings_TrimSpace notes)) (non_empty_or (resolve_options opts).1 (EX_ResolutionType x))
       (non_empty_or (resolve_options opts).2 (EX_ResolutionReason x)) (set_exception_status ExceptionStatusResolved x)).

Lemma Exception_Resolve_effect notes opts now x x' :
  Exception_Resolve notes opts now x = (x', Ok tt) <->
  (EX_Status x = ExceptionStatusOpen \/ EX_Status x = ExceptionStatusAssigned \/
   EX_Status x = ExceptionStatusPendingResolution) /\
  strings_TrimSpace notes <> "" /\ (EX_Status x = ExceptionStatusAssigned -> blank (EX_AssignedTo x) = false) /\
  x' = resolved notes opts now x.
Proof. unfold resolved. method_effect. Qed.

Lemma applyCallback_effect params now x x' :
  let y := set_external (CP_externalSystem params) (CP_externalIssueID params) x in
  applyCallback params now x = (x', Ok tt) <->
  if bool_decide (EX_Status x = CP_status params) then x' = applyCallbackMetadataUpdate params now y
  else ValidateResolutionTransition (EX_Status x) (CP_status params) = Ok tt /\
    ((CP_status params = ExceptionStatusAssigned /\ Exception_Assign (CP_assignee params) (CP_dueAt params) now y = (x', Ok tt)) \/
     (CP_status params = ExceptionStatusResolved /\ Exception_Resolve (callback_notes params) [] now y = (x', Ok tt))).
Proof.
  intros y. unfold applyCallback, st_modify, st_get, mbind, st_bind, st_lift. fold y. change (EX_Status y) with (EX_Status x).
  case_bool_decide; [split; [by intros [= <-]|by intros ->]|].
  destruct (ValidateResolutionTransition _ _) as [[]|e]; [|split; [done|by intros [? _]]].
  unfold applyCallbackStatusTransition, st_ensure, ensure, mbind, st_bind, st_lift.
  destruct (decide (CP_status params = ExceptionStatusOpen)) as [Ho|Ho].
  { rewrite Ho. split; [done|]. by intros [_ [[? _]|[? _]]]. }
  rewrite (bool_decide_eq_false_2 _ Ho). cbn -[strings_TrimSpace]. case_bool_decide as Ha.
  { rewrite Ha. destruct (string_empty (strings_TrimSpace (CP_assignee params))) eqn:E; cbn -[strings_TrimSpace].
    - split; [done|]. intros [_ [[_ Hx]|[? _]]]; [|done]. apply Exception_Assign_effect in Hx as (_ & Hx & _).
      by apply bool_decide_eq_true in E.
    - split; [by auto|]. by intros [_ [[_ ?]|[? _]]]. }
  case_bool_decide as Hr.
  - split; [by auto|]. by intros [_ [[? _]|[_ ?]]].
  - split; [done|]. by intros [_ [[? _]|[? _]]].
Qed.

(** A call commutes with a change of class. *)
Lemma exception_step_reclass op now x x' s r u :
  exception_step op now x = (x', Ok tt) ->
  exists u', exception_step op now (reclass s r u x) = (reclass s r u' x', Ok tt).
Proof.
  destruct op; cbn [exception_step]; intros H.
  - apply Exception_Assign_effect in H as (? & ? & ->). exists now. by apply Exception_Assign_effect.
  - apply Exception_Unassign_effect in H as (? & ->). exists now. by apply Exception_Unassign_effect.
  - apply Exception_StartResolution_effect in H as (? & ->). exists now. by apply Exception_StartResolution_effect.
  - apply Exception_AbortResolution_effect in H as (? & ? & ->). exists now. by apply Exception_AbortResolution_effect.
  - apply Exception_Resolve_effect in H as (? & ? & ? & ->). exists now. by apply Exception_Resolve_effect.
  - apply applyCallback_effect in H. setoid_rewrite applyCallback_effect. cbn [EX_Status reclass].
    case_bool_decide.
    + subst x'. unfold applyCallbackMetadataUpdate. case_match; [by exists now|by exists u].
    + destruct H as [Hv [[? H]|[? H]]].
      * apply Exception_Assign_effect in H as (? & ? & ->). exists now. split; [done|left].
        split; [done|]. by apply Exception_Assign_effect.
      * apply Exception_Resolve_effect in H as (? & ? & ? & ->). exists now. split; [done|right].
        split; [done|]. by apply Exception_Resolve_effect.
Qed.

(** Every successful call follows the status diagram and leaves the identity,
    the transaction, the version, the class and the creation time alone. *)
Lemma exception_step_transition op now x x' :
  exception_step op now x = (x', Ok tt) -> exception_transition (EX_Status x) (EX_Status x').
Proof.
  assert (forall a due y, EX_Status y = EX_Status x -> Exception_Assign a due now y = (x', Ok tt) ->
    exception_transition (EX_Status x) (EX_Status x')) as Ha.
  { intros a due y <- H. apply Exception_Assign_effect in H as (-> & ? & ->). apply xt_assign. }
  assert (forall n o y, EX_Status y = EX_Status x -> Exception_Resolve n o now y = (x', Ok tt) ->
    exception_transition (EX_Status x) (EX_Status x')) as Hr.
  { intros n o y <- H. apply Exception_Resolve_effect in H as (? & ? & ? & ->). apply xt_resolve. set_solver. }
  destruct op; cbn [exception_step]; intros H; eauto.
  - apply Exception_Unassign_effect in H as (-> & ->). apply xt_unassign.
  - apply Exception_StartResolution_effect in H as (? & ->). apply xt_start. set_solver.
  - apply Exception_AbortResolution_effect in H as (-> & ? & ->). apply xt_abort. cbn. set_solver.
  - apply applyCallback_effect in H. case_bool_decide.
    + subst x'. unfold applyCallbackMetadataUpdate. case_match; apply xt_metadata.
    + destruct H as [_ [[_ H]|[_ H]]]; [by eapply Ha; [|exact H]|by eapply Hr; [|exact H]].
Qed.

Lemma exception_step_identity op now x x' :
  exception_step op now x = (x', Ok tt) ->
  EX_ID x' = EX_ID x /\ EX_TransactionID x' = EX_TransactionID x /\ EX_Version x' = EX_Version x /\
  EX_Severity x' = EX_Severity x /\ EX_Reason x' = EX_Reason x /\ EX_CreatedAt x' = EX_CreatedAt x.
Proof.
  destruct op; cbn [exception_step]; intros H.
  - by apply Exception_Assign_effect in H as (_ & _ & ->).
  - by apply Exception_Unassign_effect in H as (_ & ->).
  - by apply Exception_StartResolution_effect in H as (_ & ->).
  - by apply Exception_AbortResolution_effect in H as (_ & _ & ->).
  - by apply Exception_Resolve_effect in H as (_ & _ & _ & ->).
  - apply applyCallback_effect in H. case_bool_decide.
    + subst x'. unfold applyCallbackMetadataUpdate. by case_match.
    + destruct H as [_ [[_ H]|[_ H]]].
      * by apply Exception_Assign_effect in H as (_ & _ & ->).
      * by apply Exception_Resolve_effect in H as (_ & _ & _ & ->).
Qed.

(** An abort goes back to the status the resolution started from. *)
Definition abort_sound (op : exception_op) (x : Exception) : Prop :=
  op = XAbort ExceptionStatusAssigned -> has_assignee x.

Lemma exception_step_wf op now x x' :
  exception_wf x -> abort_sound op x -> exception_step op now x = (x', Ok tt) -> exception_wf x'.
Proof.
  intros [H1 H2 H3] Hab.
  assert (forall a due y, Exception_Assign a due now y = (x', Ok tt) -> exception_wf x') as Ha.
  { intros a due y H. apply Exception_Assign_effect in H as (_ & ? & ->). split; [done|by eexists|done]. }
  assert (forall n o y, Exception_Resolve n o now y = (x', Ok tt) -> exception_wf x') as Hr.
  { intros n o y H. apply Exception_Resolve_effect in H as (_ & ? & _ & ->). split; [done|done|by eexists]. }
  destruct op; cbn [exception_step]; intros H; eauto.
  - apply Exception_Unassign_effect in H as (_ & ->). by split.
  - apply Exception_StartResolution_effect in H as (_ & ->). by split.
  - apply Exception_AbortResolution_effect in H as (_ & [-> | ->] & ->); split; try done. intros _. by apply Hab.
  - apply applyCallback_effect in H. case_bool_decide; [subst x'|destruct H as [_ [[_ H]|[_ H]]]; eauto].
    unfold applyCallbackMetadataUpdate. destruct (string_empty _) eqn:E; cbn [negb orb].
    + case_match; split; auto.
    + split; cbn; auto. intros _. eexists. split; [done|]. by apply bool_decide_eq_false in E.
Qed.
End behaviour.
