(* ===== verification/Disputes.v ===== *)
(** * The dispute aggregate

    Models internal/exception/domain/dispute/{dispute,dispute_state,
    dispute_category,dispute_transition,evidence}.go.

    A dispute is opened, collects evidence and is won or lost; a lost one may
    be reopened.  [dispute_wf] is the invariant every method keeps
    ([dispute_step_wf]), and a won dispute is final ([won_final]).  [net/url] is a
    parameter: the scheme and the host of a URL that parses. *)
From S2P Require Import GoLib GoLibModel Severity Exceptions.

Class UrlLib := {
  url_Parse : string -> option (string * string);
}.

Inductive DisputeError : Type :=
| ErrDisputeNil | ErrDisputeExceptionIDRequired | ErrDisputeDescriptionRequired | ErrDisputeOpenedByRequired
| ErrDisputeResolutionRequired | ErrDisputeReopenReasonRequired | ErrCannotAddEvidenceInCurrentState
| ErrInvalidDisputeState | ErrInvalidDisputeCategory | ErrInvalidDisputeTransition
| ErrEvidenceCommentRequired | ErrEvidenceSubmitterRequired | ErrEvidenceDisputeIDRequired | ErrEvidenceInvalidFileURL
| ErrDisputeNotFound | ErrDisputeIDRequired | ErrDisputeCategoryRequired | ErrDisputeCommentRequired.

(** ** [dispute_state.go], [dispute_category.go], [dispute_transition.go] *)
Definition DisputeState : Type := string.
Definition DisputeStateDraft : DisputeState := "DRAFT".
Definition DisputeStateOpen : DisputeState := "OPEN".
Definition DisputeStatePendingEvidence : DisputeState := "PENDING_EVIDENCE".
Definition DisputeStateWon : DisputeState := "WON".
Definition DisputeStateLost : DisputeState := "LOST".

Definition DisputeState_IsValid (state : DisputeState) : bool :=
  bool_decide (state ∈ [DisputeStateDraft; DisputeStateOpen; DisputeStatePendingEvidence; DisputeStateWon; DisputeStateLost]).
Definition DisputeState_IsTerminal (state : DisputeState) : bool :=
  bool_decide (state = DisputeStateWon) || bool_decide (state = DisputeStateLost).
Definition DisputeState_CanReopen (state : DisputeState) : bool := bool_decide (state = DisputeStateLost).

Definition DisputeCategory : Type := string.
Definition DisputeCategory_IsValid (category : DisputeCategory) : bool :=
  bool_decide (category ∈ ["BANK_FEE_ERROR"; "UNRECOGNIZED_CHARGE"; "DUPLICATE_TRANSACTION"; "AMOUNT_MISMATCH"; "OTHER"]).

Definition allowedDisputeTransitions (state : DisputeState) : list DisputeState :=
  if bool_decide (state = DisputeStateDraft) then [DisputeStateOpen]
  else if bool_decide (state = DisputeStateOpen) then [DisputeStatePendingEvidence; DisputeStateWon; DisputeStateLost]
  else if bool_decide (state = DisputeStatePendingEvidence) then [DisputeStateOpen; DisputeStateWon; DisputeStateLost]
  else if bool_decide (state = DisputeStateWon) then []
  else if bool_decide (state = DisputeStateLost) then [DisputeStateOpen]
  else [].

Definition ValidateDisputeTransition (from to : DisputeState) : res DisputeError unit :=
  if negb (DisputeState_IsValid from) || negb (DisputeState_IsValid to) then Err ErrInvalidDisputeState
  else if bool_decide (to ∈ allowedDisputeTransitions from) then Ok tt
  else Err ErrInvalidDisputeTransition.

Section parsers.
  Context {N : UnicodeLib}.

Definition ParseDisputeState (value : string) : res DisputeError DisputeState :=
  let state := strings_ToUpper (strings_TrimSpace value) in
  if negb (DisputeState_IsValid state) then Err ErrInvalidDisputeState else Ok state.

Definition ParseDisputeCategory (value : string) : res DisputeError DisputeCategory :=
  let category := strings_ToUpper value in
  if negb (DisputeCategory_IsValid category) then Err ErrInvalidDisputeCategory else Ok category.
End parsers.

(** ** [evidence.go] and [dispute.go] *)
Section aggregate.
  Context {U : UUIDLib} {A : AssertLib} {L : UrlLib}.

Record Evidence : Type := mkEvidence {
  EV_ID : uuid;
  EV_DisputeID : uuid;
  EV_FileURL : option string;
  EV_Comment : string;
  EV_SubmittedBy : string;
  EV_SubmittedAt : Time;
}.

Definition validateFileURL (fileURL : option string) : res DisputeError (option string) :=
  match NormalizeOptionalText fileURL with
  | None => Ok None
  | Some normalized =>
      match url_Parse normalized with
      | None => Err ErrEvidenceInvalidFileURL
      | Some (scheme, host) =>
          _ ← ensure (bool_decide (scheme = "https")) ErrEvidenceInvalidFileURL;
          _ ← ensure (negb (string_empty host)) ErrEvidenceInvalidFileURL;
          Ok (Some normalized)
      end
  end.

Definition NewEvidence (id : uuid) (now : Time) (disputeID : uuid) (comment submittedBy : string) (fileURL : option string)
    : res DisputeError Evidence :=
  _ ← ensure (assert_That (negb (bool_decide (disputeID = uuid_Nil)))) ErrEvidenceDisputeIDRequired;
  let trimmedComment := strings_TrimSpace comment in
  _ ← ensure (assert_NotEmpty trimmedComment) ErrEvidenceCommentRequired;
  let trimmedSubmitter := strings_TrimSpace submittedBy in
  _ ← ensure (assert_NotEmpty trimmedSubmitter) ErrEvidenceSubmitterRequired;
  validatedURL ← validateFileURL fileURL;
  Ok (mkEvidence id disputeID validatedURL trimmedComment trimmedSubmitter now).

Record Dispute : Type := mkDispute {
  DI_ID : uuid;
  DI_ExceptionID : uuid;
  DI_Category : DisputeCategory;
  DI_State : DisputeState;
  DI_Description : string;
  DI_OpenedBy : string;
  DI_Resolution : option string;
  DI_ReopenReason : option string;
  DI_Evidence : list Evidence;
  DI_CreatedAt : Time;
  DI_UpdatedAt : Time;
}.

Definition NewDispute (id : uuid) (now : Time) (exceptionID : uuid) (category : DisputeCategory) (description openedBy : string)
    : res DisputeError Dispute :=
  _ ← ensure (assert_That (negb (bool_decide (exceptionID = uuid_Nil)))) ErrDisputeExceptionIDRequired;
  _ ← ensure (assert_That (DisputeCategory_IsValid category)) ErrInvalidDisputeCategory;
  let trimmedDescription := strings_TrimSpace description in
  _ ← ensure (assert_NotEmpty trimmedDescription) ErrDisputeDescriptionRequired;
  let trimmedOpenedBy := strings_TrimSpace openedBy in
  _ ← ensure (assert_NotEmpty trimmedOpenedBy) ErrDisputeOpenedByRequired;
  Ok (mkDispute id exceptionID category DisputeStateDraft trimmedDescription trimmedOpenedBy None None [] now now).

(** The fields a method writes. *)
Definition move_dispute (state : DisputeState) (resolution reopenReason : option string) (evidence : list Evidence) (now : Time)
    (x : Dispute) : Dispute :=
  mkDispute (DI_ID x) (DI_ExceptionID x) (DI_Category x) state (DI_Description x) (DI_OpenedBy x) resolution reopenReason
    evidence (DI_CreatedAt x) now.

Definition Dispute_Open (now : Time) : st Dispute DisputeError unit :=
  dispute ← st_get;
  _ ← st_ensure (assert_NotNil (Some dispute)) ErrDisputeNil;
  _ ← st_lift (ValidateDisputeTransition (DI_State dispute) DisputeStateOpen);
  st_modify (fun x => move_dispute DisputeStateOpen (DI_Resolution x) (DI_ReopenReason x) (DI_Evidence x) now x).

Definition Dispute_RequestEvidence (now : Time) : st Dispute DisputeError unit :=
  dispute ← st_get;
  _ ← st_ensure (assert_NotNil (Some dispute)) ErrDisputeNil;
  _ ← st_lift (ValidateDisputeTransition (DI_State dispute) DisputeStatePendingEvidence);
  st_modify (fun x => move_dispute DisputeStatePendingEvidence (DI_Resolution x) (DI_ReopenReason x) (DI_Evidence x) now x).

(** [evidenceID] and [submitted] are the identifier and the instant of the new
    evidence, [now] the instant read after it is made. *)
Definition Dispute_AddEvidence (comment submittedBy : string) (fileURL : option string) (evidenceID : uuid)
    (submitted now : Time) : st Dispute DisputeError unit :=
  dispute ← st_get;
  _ ← st_ensure (assert_NotNil (Some dispute)) ErrDisputeNil;
  _ ← st_ensure (negb (negb (bool_decide (DI_State dispute = DisputeStateOpen)) &&
                       negb (bool_decide (DI_State dispute = DisputeStatePendingEvidence))))
        ErrCannotAddEvidenceInCurrentState;
  evidence ← st_lift (NewEvidence evidenceID submitted (DI_ID dispute) comment submittedBy fileURL);
  st_modify (fun x => move_dispute
    (if bool_decide (DI_State x = DisputeStatePendingEvidence) then DisputeStateOpen else DI_State x)
    (DI_Resolution x) (DI_ReopenReason x) (DI_Evidence x ++ [evidence]) now x).

Definition Dispute_Win (resolution : string) (now : Time) : st Dispute DisputeError unit :=
  dispute ← st_get;
  _ ← st_ensure (assert_NotNil (Some dispute)) ErrDisputeNil;
  let trimmedResolution := strings_TrimSpace resolution in
  _ ← st_ensure (assert_NotEmpty trimmedResolution) ErrDisputeResolutionRequired;
  _ ← st_lift (ValidateDisputeTransition (DI_State dispute) DisputeStateWon);
  st_modify (fun x => move_dispute DisputeStateWon (Some trimmedResolution) (DI_ReopenReason x) (DI_Evidence x) now x).

Definition Dispute_Lose (resolution : string) (now : Time) : st Dispute DisputeError unit :=
  dispute ← st_get;
  _ ← st_ensure (assert_NotNil (Some dispute)) ErrDisputeNil;
  let trimmedResolution := strings_TrimSpace resolution in
  _ ← st_ensure (assert_NotEmpty trimmedResolution) ErrDisputeResolutionRequired;
  _ ← st_lift (ValidateDisputeTransition (DI_State dispute) DisputeStateLost);
  st_modify (fun x => move_dispute DisputeStateLost (Some trimmedResolution) (DI_ReopenReason x) (DI_Evidence x) now x).

Definition Dispute_Reopen (reason : string) (now : Time) : st Dispute DisputeError unit :=
  dispute ← st_get;
  _ ← st_ensure (assert_NotNil (Some dispute)) ErrDisputeNil;
  let trimmedReason := strings_TrimSpace reason in
  _ ← st_ensure (assert_That (negb (string_empty trimmedReason))) ErrDisputeReopenReasonRequired;
  _ ← st_lift (ValidateDisputeTransition (DI_State dispute) DisputeStateOpen);
  st_modify (fun x => move_dispute DisputeStateOpen None (Some trimmedReason) (DI_Evidence x) now x).
End aggregate.

(** ** Behaviour of the aggregate *)
Section behaviour.
  Context {U : UUIDLib} {A : AssertLib} {AL : AssertLaws A} {L : UrlLib}.

Inductive dispute_op : Type :=
| DOpen
| DRequestEvidence
| DAddEvidence (comment submittedBy : string) (fileURL : option string) (evidenceID : uuid) (submitted : Time)
| DWin (resolution : string)
| DLose (resolution : string)
| DReopen (reason : string).

Definition dispute_step (op : dispute_op) (now : Time) : st Dispute DisputeError unit :=
  match op with
  | DOpen => Dispute_Open now
  | DRequestEvidence => Dispute_RequestEvidence now
  | DAddEvidence comment submittedBy fileURL evidenceID submitted =>
      Dispute_AddEvidence comment submittedBy fileURL evidenceID submitted now
  | DWin resolution => Dispute_Win resolution now
  | DLose resolution => Dispute_Lose resolution now
  | DReopen reason => Dispute_Reopen reason now
  end.

(** The states of the diagram and its edges. *)
Definition dispute_edge (from to : DisputeState) : Prop := to ∈ allowedDisputeTransitions from.

Lemma ValidateDisputeTransition_Ok from to u :
  ValidateDisputeTransition from to = Ok u -> dispute_edge from to /\ DisputeState_IsValid to = true.
Proof.
  unfold ValidateDisputeTransition, dispute_edge. destruct (DisputeState_IsValid from), (DisputeState_IsValid to); cbn; try done.
  by case_bool_decide.
Qed.

(** What a call that returns without an error did. *)
Record dispute_moved (op : dispute_op) (now : Time) (x x' : Dispute) : Prop := {
  dm_state : dispute_edge (DI_State x) (DI_State x') \/ DI_State x' = DI_State x;
  dm_evidence : match op with
    | DAddEvidence _ _ _ id _ => exists ev, DI_Evidence x' = DI_Evidence x ++ [ev] /\ EV_ID ev = id /\ EV_DisputeID ev = DI_ID x
    | _ => DI_Evidence x' = DI_Evidence x
    end;
  dm_resolution : match op with
    | DWin r => DI_State x' = DisputeStateWon /\ DI_Resolution x' = Some (strings_TrimSpace r) /\ strings_TrimSpace r <> ""
    | DLose r => DI_State x' = DisputeStateLost /\ DI_Resolution x' = Some (strings_TrimSpace r) /\ strings_TrimSpace r <> ""
    | DReopen _ => DI_State x' = DisputeStateOpen /\ DI_Resolution x' = None
    | _ => DI_State x' ∈ [DisputeStateOpen; DisputeStatePendingEvidence] /\ DI_Resolution x' = DI_Resolution x
    end;
  dm_same : DI_ID x' = DI_ID x /\ DI_ExceptionID x' = DI_ExceptionID x /\ DI_Category x' = DI_Category x /\
    DI_Description x' = DI_Description x /\ DI_OpenedBy x' = DI_OpenedBy x /\ DI_CreatedAt x' = DI_CreatedAt x;
  dm_updated : DI_UpdatedAt x' = now;
}.

Lemma lift_bind_inv {S E X Y} (r : res E X) (k : X -> st S E Y) s s' y :
  (x ← st_lift r; k x) s = (s', Ok y) -> exists x, r = Ok x /\ k x s = (s', Ok y).
Proof. unfold mbind, st_bind, st_lift. destruct r; [eauto|done]. Qed.

Lemma modify_inv {S E} (f : S -> S) s s' (u : unit) : st_modify (E:=E) f s = (s', Ok u) -> s' = f s.
Proof. by intros [= <-]. Qed.

Lemma NewEvidence_fields id now disputeID comment submittedBy fileURL ev :
  NewEvidence id now disputeID comment submittedBy fileURL = Ok ev ->
  EV_ID ev = id /\ EV_DisputeID ev = disputeID /\ EV_Comment ev <> "" /\ EV_SubmittedBy ev <> "" /\
  (forall url, EV_FileURL ev = Some url -> exists host, url_Parse url = Some ("https", host) /\ host <> "").
Proof.
  unfold NewEvidence. intros H. res_inv. assert_inv. unfold string_empty in *. bool_inv. cbn. split_and!; try done. intros url ->.
  match goal with H : validateFileURL _ = _ |- _ => unfold validateFileURL in H; rename H into Hv end.
  destruct (NormalizeOptionalText fileURL) as [n|]; [|done]. destruct (url_Parse n) as [[scheme host]|] eqn:E; [|done].
  res_inv. unfold string_empty in *. bool_inv. exists host. by subst.
Qed.

Ltac in_list := first [by left | right; in_list].

Ltac dispute_inv :=
  unfold Dispute_Open, Dispute_RequestEvidence, Dispute_AddEvidence, Dispute_Win, Dispute_Lose, Dispute_Reopen in *;
  repeat match goal with
  | H : (st_get ≫= ?k) ?x = ?r |- _ => change (k x x = r) in H; cbn beta in H
  | H : (st_ensure _ _ ≫= _) _ = _ |- _ => apply lift_bind_inv in H as ([] & ?%ensure_Ok & H)
  | H : (st_lift _ ≫= _) _ = _ |- _ => apply lift_bind_inv in H as (? & ? & H)
  | H : st_modify _ _ = _ |- _ => apply modify_inv in H as ->
  | H : ValidateDisputeTransition _ _ = Ok _ |- _ => apply ValidateDisputeTransition_Ok in H as [? _]
  end; assert_inv; unfold string_empty in *; bool_inv.

Lemma dispute_step_moved op now x x' : dispute_step op now x = (x', Ok tt) -> dispute_moved op now x x'.
Proof.
  destruct op; cbn [dispute_step]; intros H; dispute_inv; (split; cbn; [|try done..]).
  all: try (by left). all: try (split; [in_list|done]).
  - destruct (bool_decide (DI_State x = DisputeStatePendingEvidence)) eqn:E; bool_inv; [left|by right]. rewrite E.
    unfold dispute_edge. vm_compute. left.
  - apply NewEvidence_fields in H2 as (? & ? & _). eauto.
  - split; [|done]. do 2 case_bool_decide; try done; try in_list. rewrite H. in_list.
Qed.

Lemma Dispute_Open_state now x x' : Dispute_Open now x = (x', Ok tt) -> DI_State x' = DisputeStateOpen.
Proof. intros H. by dispute_inv. Qed.

(** *** The invariant *)
Record evidence_ok (disputeID : uuid) (ev : Evidence) : Prop := {
  ek_dispute : EV_DisputeID ev = disputeID;
  ek_comment : EV_Comment ev <> "";
  ek_submitter : EV_SubmittedBy ev <> "";
  ek_url : forall url, EV_FileURL ev = Some url -> exists host, url_Parse url = Some ("https", host) /\ host <> "";
}.

Record dispute_wf (x : Dispute) : Prop := {
  dw_state : DisputeState_IsValid (DI_State x) = true;
  dw_category : DisputeCategory_IsValid (DI_Category x) = true;
  dw_resolution : if DisputeState_IsTerminal (DI_State x)
    then exists r, DI_Resolution x = Some r /\ r <> "" else DI_Resolution x = None;
  dw_evidence : Forall (evidence_ok (DI_ID x)) (DI_Evidence x);
}.

Lemma NewDispute_wf id now exceptionID category description openedBy x :
  NewDispute id now exceptionID category description openedBy = Ok x ->
  dispute_wf x /\ DI_ID x = id /\ DI_ExceptionID x = exceptionID /\ DI_State x = DisputeStateDraft /\ DI_Evidence x = [].
Proof. unfold NewDispute. intros H. res_inv. assert_inv. split_and!; try done. Qed.

Lemma AddEvidence_ok comment submittedBy fileURL evidenceID submitted now x x' :
  Dispute_AddEvidence comment submittedBy fileURL evidenceID submitted now x = (x', Ok tt) ->
  Forall (evidence_ok (DI_ID x)) (DI_Evidence x) -> Forall (evidence_ok (DI_ID x')) (DI_Evidence x').
Proof.
  intros H Hf. dispute_inv. cbn. apply Forall_app. split; [done|]. apply Forall_singleton.
  apply NewEvidence_fields in H2 as (? & ? & ? & ? & ?). by split.
Qed.

Lemma active_not_terminal s : s ∈ [DisputeStateOpen; DisputeStatePendingEvidence] ->
  DisputeState_IsTerminal s = false /\ DisputeState_IsValid s = true.
Proof. rewrite !elem_of_cons. intros [-> |[-> |H]]; [done..|by apply not_elem_of_nil in H]. Qed.

(** From which states a move is possible. *)
Lemma move_source op now x x' : dispute_step op now x = (x', Ok tt) ->
  match op with
  | DOpen => DI_State x ∈ [DisputeStateDraft; DisputeStatePendingEvidence; DisputeStateLost]
  | DRequestEvidence => DI_State x = DisputeStateOpen
  | DAddEvidence _ _ _ _ _ | DWin _ | DLose _ => DI_State x ∈ [DisputeStateOpen; DisputeStatePendingEvidence]
  | DReopen _ => DI_State x ∈ [DisputeStateDraft; DisputeStatePendingEvidence; DisputeStateLost]
  end.
Proof.
  intros H. destruct op; cbn [dispute_step] in H; dispute_inv; unfold dispute_edge, allowedDisputeTransitions in *.
  3: do 2 case_bool_decide; try done; match goal with E : DI_State _ = _ |- _ => rewrite E; in_list end.
  all: repeat case_bool_decide; simplify_eq; repeat match goal with
    | H : _ ∈ [] |- _ => by apply not_elem_of_nil in H
    | H : _ ∈ _ :: _ |- _ => apply elem_of_cons in H as [H|H]; [try discriminate H|]
    end; try done; match goal with E : DI_State _ = _ |- _ => rewrite E; try done; in_list end.
Qed.

(** Every method keeps the invariant, [Open] unless the dispute is lost. *)
Lemma dispute_step_wf op now x x' :
  dispute_wf x -> dispute_step op now x = (x', Ok tt) -> (op = DOpen -> DI_State x <> DisputeStateLost) -> dispute_wf x'.
Proof.
  intros [W1 W2 W3 W4] H Hlost. pose proof (dispute_step_moved _ _ _ _ H) as [M1 M2 M3 (I1 & _ & I3 & _) _].
  pose proof (move_source _ _ _ _ H) as Hsrc.
  assert (Forall (evidence_ok (DI_ID x')) (DI_Evidence x')) as Hev.
  { destruct op; try (by rewrite M2, I1). by eapply AddEvidence_ok. }
  split; [|by rewrite I3| |done].
  - destruct op; try (by apply active_not_terminal; destruct M3); by destruct M3 as [-> _].
  - destruct op; cbn in M3.
    1-3: destruct M3 as [Hs ->]; apply active_not_terminal in Hs as [-> _]; cbn in Hsrc;
      assert (DisputeState_IsTerminal (DI_State x) = false) as Ht; [|by rewrite Ht in W3].
    + specialize (Hlost eq_refl). repeat (apply elem_of_cons in Hsrc as [Hsrc|Hsrc]; [first [done|by rewrite Hsrc]|]).
      by apply not_elem_of_nil in Hsrc.
    + by rewrite Hsrc.
    + by apply active_not_terminal in Hsrc as [? _].
    + destruct M3 as (-> & -> & ?). by eexists.
    + destruct M3 as (-> & -> & ?). by eexists.
    + by destruct M3 as [-> ->].
Qed.

(** A won dispute does not change again. *)
Lemma won_final op now x x' : dispute_step op now x = (x', Ok tt) -> DI_State x <> DisputeStateWon.
Proof.
  intros H E. apply move_source in H. rewrite E in H. destruct op; try done;
    repeat (apply elem_of_cons in H as [H|H]; [done|]); by apply not_elem_of_nil in H.
Qed.

(** [Open] on a lost dispute keeps the resolution it was lost with. *)
Lemma Open_lost now x : DI_State x = DisputeStateLost ->
  exists x', Dispute_Open now x = (x', Ok tt) /\ DI_State x' = DisputeStateOpen /\ DI_Resolution x' = DI_Resolution x.
Proof.
  intros E. eexists. unfold Dispute_Open, mbind, st_bind, st_get, st_ensure, ensure, st_lift. rewrite assert_NotNil_Some, E. done.
Qed.

(** [Reopen] takes a dispute that waits for evidence, too. *)
Lemma Reopen_pending now x reason : DI_State x = DisputeStatePendingEvidence -> strings_TrimSpace reason <> "" ->
  exists x', Dispute_Reopen reason now x = (x', Ok tt) /\ DI_ReopenReason x' = Some (strings_TrimSpace reason).
Proof.
  intros E Hr. eexists. unfold Dispute_Reopen, mbind, st_bind, st_get, st_ensure, ensure, st_lift.
  rewrite assert_NotNil_Some, assert_That_spec, E. unfold string_empty. by rewrite bool_decide_eq_false_2.
Qed.
End behaviour.
