(* ===== verification/AuditEvent.v ===== *)
(** * Audit events of the exception commands

    Models internal/exception/ports/audit_publisher.go (the pseudonymised
    actor), internal/exception/adapters/audit/outbox_publisher.go (the event
    put into the outbox), AuditLogCreatedEvent of
    internal/shared/domain/events.go and the truncation marker of
    internal/shared/domain/outbox_payload.go.  HMAC-SHA-256 of crypto/hmac is
    written out. *)
From S2P Require Import GoLib GoLibModel Sha256 GoTime GoJson AuditChain.
Local Open Scope Z_scope.

(** ** crypto/hmac with SHA-256 *)
Definition hmac_blocksize : nat := 64.

Definition hmac_pad (key : bytes) (mask : Z) : bytes :=
  (fun c => byte_of (Z.lxor (code c) mask)) <$> (key ++ replicate (hmac_blocksize - length key) (byte_of 0)).

Definition hmac_sha256 (key message : bytes) : bytes :=
  let key := if (hmac_blocksize <? length key)%nat then sha256_Sum256 key else key in
  sha256_Sum256 (hmac_pad key 0x5c ++ sha256_Sum256 (hmac_pad key 0x36 ++ message)).

(** RFC 4231, test case 2. *)
Example hmac_rfc4231 :
  hex_EncodeToString (hmac_sha256 (bytes_of "Jefe") (bytes_of "what do ya want for nothing?"))
  = "5bdcc146bf60754e6a042426089575c75a003f089d2739839dec58b964ec3843".
Proof. by vm_compute. Qed.

(** ** [audit_publisher.go] *)
Definition ActorHashLength : nat := 32.

Definition HashActor (actor salt : string) : string :=
  if string_empty actor then ""
  else
    let digest := if string_empty salt then sha256_Sum256 (bytes_of actor)
                  else hmac_sha256 (bytes_of salt) (bytes_of actor) in
    String.substring 0 ActorHashLength (hex_EncodeToString digest).

Section events.
  Context {U : UUIDLib}.

Record AuditEvent : Type := mkAuditEvent {
  AV_ExceptionID : uuid;
  AV_Action : string;
  AV_Actor : string;
  AV_ActorHash : string;
  AV_Notes : string;
  AV_ReasonCode : option string;
  AV_OccurredAt : Time;
  AV_Metadata : gmap string string;
}.

Definition ResolveActorHash (event : AuditEvent) (salt : string) : string :=
  if negb (string_empty (AV_ActorHash event)) then AV_ActorHash event
  else if string_empty (AV_Actor event) then "" else HashActor (AV_Actor event) salt.

(** ** [events.go]: the event the outbox carries *)

(** The values the program puts into a map of changes. *)
Inductive change : Type :=
| ChangeString (s : string)
| ChangeTime (t : Time)
| ChangeStrings (m : gmap string string)
| ChangeBool (b : bool)
| ChangeInt (n : Z).

Definition EventTypeAuditLogCreated : string := "governance.audit_log_created".

Record AuditLogCreatedEvent : Type := mkAuditLogCreatedEvent {
  AE_UniqueID : uuid;
  AE_EventType : string;
  AE_TenantID : uuid;
  AE_EntityType : string;
  AE_EntityID : uuid;
  AE_Action : string;
  AE_Actor : option string;
  AE_Changes : gmap string change;
  AE_OccurredAt : Time;
  AE_Timestamp : Time;
}.

(** encoding/json writes the entries of a map in the order of their keys. *)
Definition sorted_entries {V} (m : gmap string V) : list (string * V) :=
  stable_sort (cmp_lt (cmp_on fst String.compare)) (map_to_list m).

Definition marshal_strings (m : gmap string string) : bytes :=
  json_object ((fun e => (e.1, marshal_string e.2)) <$> sorted_entries m).

Definition marshal_bool (b : bool) : bytes := bytes_of (if b then "true" else "false").

Definition marshal_change (c : change) : option bytes :=
  match c with
  | ChangeString s => Some (marshal_string s)
  | ChangeTime t => marshal_time t
  | ChangeStrings m => Some (marshal_strings m)
  | ChangeBool b => Some (marshal_bool b)
  | ChangeInt n => Some (marshal_int n)
  end.

Definition marshal_entry (e : string * change) : option (string * bytes) :=
  v ← marshal_change e.2; Some (e.1, v).

Definition marshal_changes (m : gmap string change) : option bytes :=
  fields ← mapM marshal_entry (sorted_entries m); Some (json_object fields).

(** [json.Marshal(event)]; [actor] and [changes] are left out when empty. *)
Definition marshal_AuditLogCreatedEvent (e : AuditLogCreatedEvent) : option bytes :=
  changes ← marshal_changes (AE_Changes e);
  occurred ← marshal_time (AE_OccurredAt e);
  stamp ← marshal_time (AE_Timestamp e);
  Some (json_object
    ([("id", marshal_uuid (AE_UniqueID e)); ("eventType", marshal_string (AE_EventType e));
      ("tenantId", marshal_uuid (AE_TenantID e)); ("entityType", marshal_string (AE_EntityType e));
      ("entityId", marshal_uuid (AE_EntityID e)); ("action", marshal_string (AE_Action e))]
     ++ (match AE_Actor e with Some a => [("actor", marshal_string a)] | None => [] end)
     ++ (if bool_decide (AE_Changes e = ∅) then [] else [("changes", changes)])
     ++ [("occurredAt", occurred); ("timestamp", stamp)])).

(** ** [outbox_payload.go] *)
Definition TruncationNoteAuditDiff : string :=
  "audit diff exceeded outbox payload cap; original not persisted".

Definition BuildAuditChangesTruncationMarker (originalSize maxAllowed : Z) : gmap string change :=
  list_to_map [("_truncated", ChangeBool true); ("_originalSize", ChangeInt originalSize);
               ("_note", ChangeString TruncationNoteAuditDiff); ("_maxAllowed", ChangeInt maxAllowed)].

(** ** [outbox_publisher.go] *)
Definition entityTypeException : string := "exception".

Definition with_changes (changes : gmap string change) (e : AuditLogCreatedEvent) : AuditLogCreatedEvent :=
  mkAuditLogCreatedEvent (AE_UniqueID e) (AE_EventType e) (AE_TenantID e) (AE_EntityType e) (AE_EntityID e)
    (AE_Action e) (AE_Actor e) changes (AE_OccurredAt e) (AE_Timestamp e).

(** The event as it is marshalled: its changes give way to a marker when the
    payload would exceed the cap. *)
Definition marshalOrTruncate (maxBytes : Z) (event : AuditLogCreatedEvent) : option AuditLogCreatedEvent :=
  payload ← marshal_AuditLogCreatedEvent event;
  if Z.of_nat (length payload) <=? maxBytes then Some event
  else
    let event := with_changes (BuildAuditChangesTruncationMarker (Z.of_nat (length payload)) maxBytes) event in
    _ ← marshal_AuditLogCreatedEvent event;
    Some event.

Definition buildOutboxChangesMap (event : AuditEvent) (salt : string) : gmap string change :=
  let actorHash := ResolveActorHash event salt in
  list_to_map
    ([("exception_id", ChangeString (uuid_String (AV_ExceptionID event)));
      ("action", ChangeString (AV_Action event)); ("occurred_at", ChangeTime (AV_OccurredAt event))]
     ++ (if string_empty actorHash then [] else [("actor_hash", ChangeString actorHash)])
     ++ (if string_empty (AV_Notes event) then [] else [("notes", ChangeString (AV_Notes event))])
     ++ (match AV_ReasonCode event with Some r => [("reason_code", ChangeString r)] | None => [] end)
     ++ (if bool_decide (AV_Metadata event = ∅) then [] else [("metadata", ChangeStrings (AV_Metadata event))])).

(** The audit event of [buildOutboxEvent], before it is marshalled. *)
Definition auditCreatedEvent (uniqueID tenantID : uuid) (now : Time) (salt : string) (event : AuditEvent)
    : AuditLogCreatedEvent :=
  let actorHash := ResolveActorHash event salt in
  mkAuditLogCreatedEvent uniqueID EventTypeAuditLogCreated tenantID entityTypeException (AV_ExceptionID event)
    (AV_Action event) (if string_empty actorHash then None else Some actorHash) (buildOutboxChangesMap event salt)
    (AV_OccurredAt event) now.

(** Truncation changes nothing but the changes. *)
Lemma marshalOrTruncate_same maxBytes event event' :
  marshalOrTruncate maxBytes event = Some event' -> exists changes, event' = with_changes changes event.
Proof.
  unfold marshalOrTruncate. intros H. destruct (marshal_AuditLogCreatedEvent event) as [p|]; [|done].
  cbn [mbind option_bind] in H. destruct (Z.of_nat (length p) <=? maxBytes).
  - injection H as <-. exists (AE_Changes event). by destruct event.
  - destruct (marshal_AuditLogCreatedEvent _); [|done]. cbn [mbind option_bind] in H. injection H as <-. eauto.
Qed.
End events.

Lemma String_length_substring n s : (n <= String.length s)%nat -> String.length (String.substring 0 n s) = n.
Proof. revert n. induction s as [|c s IH]; intros [|n] H; cbn in *; try done; [lia|]. rewrite IH; lia. Qed.

Lemma hex_EncodeToString_length l : String.length (hex_EncodeToString l) = (2 * length l)%nat.
Proof.
  induction l as [|c l IH]; [done|]. change (S (S (String.length (hex_EncodeToString l))) = (2 * S (length l))%nat). lia.
Qed.

(** The pseudonym of an actor has a fixed length. *)
Lemma HashActor_length actor salt : actor <> "" -> String.length (HashActor actor salt) = ActorHashLength.
Proof.
  intros Ha. unfold HashActor. unfold string_empty at 1. rewrite bool_decide_eq_false_2 by done.
  apply String_length_substring. rewrite hex_EncodeToString_length. unfold ActorHashLength.
  destruct (string_empty salt); unfold hmac_sha256; rewrite sha256_length; lia.
Qed.
