(* ===== verification/Store.v ===== *)
(** * The database behind the matching commands

    The tables the matching commands touch, and the repositories that read
    and write them:
    internal/matching/adapters/postgres/{match_run,match_group,match_item,exception_creator,fee_variance},
    internal/ingestion/adapters/postgres/transaction/{transaction_bulk,transaction_list,transaction_search}.go,
    internal/shared/adapters/postgres/common/{tx,transaction_queries}.go and the
    outbox table.

    A command runs in an environment that may fail any statement, cancel the
    request or lose the lock at any point: [Env] gives, for each step, what
    happens there, and theorems quantify over it.  Each SQL statement is one
    step on the tables; [WithTx] runs its body on a copy and publishes it only
    if the body and the commit succeed.  Constraints other than primary keys
    are statement failures.

    Two simplifications bear on what the theorems say.  A read outside a
    transaction sees the tables as last committed: [WithTenantReadQuery] of
    common/read.go may send it to a replica, which can lag behind.  A commit
    that reports an error is taken not to have happened: a reply lost after the
    server committed is not a behaviour of the model, so a statement that a
    failed call left the tables as they were speaks of commits whose outcome
    the client learns. *)
From stdpp Require Import pretty.
From S2P Require Import GoLib GoLibModel FeeStructure FeeSchedule FeeRules MatchTypes Evaluators.
From S2P Require Import Confidence Allocate Engine MatchEntities Transaction RuleDecode RunPrepare.
From S2P Require Import RunExecute Events Severity Exceptions Disputes Sha256 AuditChain AuditEvent.

(** ** Errors of the matching commands *)
Inductive CmdError : Type :=
| ErrDatabase (text : string)
| ErrNoRows
| ErrDuplicateKey
| ErrInvalidTx
| ErrMatch (e : MatchError)
| ErrRun (e : RunError)
| ErrEvent (e : EventError)
| ErrConfidenceScore
| ErrFee (text : string)
| ErrTenantIDRequired
| ErrTenantIDMismatch
| ErrMatchRunLocked
| ErrLockBackend
| ErrLockRefreshFailed
| ErrContextCancelled (where_ : string)
| ErrMatchRunPersistedNil
| ErrMarkRunFailed (e : MatchError)
| ErrUpdateRunFailed (update cause : CmdError)
| ErrOutboxRejected
| ErrCmdContextNotFound | ErrCmdContextNotActive
| ErrMinimumTransactionsRequired | ErrDuplicateTransactionIDs | ErrTransactionNotFound
| ErrTransactionNotUnmatched | ErrManualMatchSourcesNotDiverse | ErrManualMatchNoGroupCreated
| ErrUnmatchContextIDRequired | ErrUnmatchMatchGroupIDRequired | ErrUnmatchReasonRequired | ErrMatchGroupNotFound
| ErrAdjustment (text : string)
| ErrAudit (e : AuditError)
| ErrException (e : ExceptionError)
| ErrExceptionCmd (e : ExceptionCmdError)
| ErrDispute (e : DisputeError)
| ErrConcurrentModification.

(** [err.Error()]: the text of an error. *)
Class ErrorText := { err_Error : CmdError -> string }.
Class ErrorTextLaws {T : ErrorText} : Prop := { err_Error_nonempty : forall e, err_Error e <> "" }.
Arguments ErrorTextLaws : clear implicits.

Section tables.
  Context {U : UUIDLib} {D : DecimalLib} {A : AssertLib} {N : UnicodeLib}.

Inductive OutboxPayload : Type :=
| PayloadConfirmed (event : MatchConfirmedEvent)
| PayloadUnmatched (event : MatchUnmatchedEvent)
| PayloadAudit (event : AuditLogCreatedEvent).

Record OutboxEvent : Type := mkOutboxEvent {
  OE_EventType : string;
  OE_AggregateID : uuid;
  OE_Payload : OutboxPayload;
}.

(** Rows of [match_groups] do not hold the items.  [DB_sourceContext] and
    [DB_jobContext] are the context columns of sources and ingestion jobs;
    [DB_exceptions] holds the rows of [exceptions] by the transaction they are
    about, a unique column; [DB_chainState] is the next sequence number of
    each tenant's audit chain. *)
Record DB : Type := mkDB {
  DB_runs : gmap uuid MatchRun;
  DB_groups : gmap uuid MatchGroup;
  DB_items : list MatchItem;
  DB_txs : gmap uuid Transaction;
  DB_sourceContext : gmap uuid uuid;
  DB_jobContext : gmap uuid uuid;
  DB_exceptions : gmap uuid Exception;
  DB_variances : list FeeVariance;
  DB_outbox : list OutboxEvent;
  DB_adjustments : gmap uuid Adjustment;
  DB_auditLogs : list AuditLog;
  DB_chainState : gmap uuid Z;
  DB_disputes : gmap uuid Dispute;
  DB_comments : gmap uuid ExceptionComment;
}.

Definition set_runs (f : gmap uuid MatchRun -> gmap uuid MatchRun) (d : DB) : DB :=
  mkDB (f (DB_runs d)) (DB_groups d) (DB_items d) (DB_txs d) (DB_sourceContext d) (DB_jobContext d)
    (DB_exceptions d) (DB_variances d) (DB_outbox d) (DB_adjustments d) (DB_auditLogs d) (DB_chainState d)
    (DB_disputes d) (DB_comments d).
Definition set_groups (f : gmap uuid MatchGroup -> gmap uuid MatchGroup) (d : DB) : DB :=
  mkDB (DB_runs d) (f (DB_groups d)) (DB_items d) (DB_txs d) (DB_sourceContext d) (DB_jobContext d)
    (DB_exceptions d) (DB_variances d) (DB_outbox d) (DB_adjustments d) (DB_auditLogs d) (DB_chainState d)
    (DB_disputes d) (DB_comments d).
Definition set_items (f : list MatchItem -> list MatchItem) (d : DB) : DB :=
  mkDB (DB_runs d) (DB_groups d) (f (DB_items d)) (DB_txs d) (DB_sourceContext d) (DB_jobContext d)
    (DB_exceptions d) (DB_variances d) (DB_outbox d) (DB_adjustments d) (DB_auditLogs d) (DB_chainState d)
    (DB_disputes d) (DB_comments d).
Definition set_txs (f : gmap uuid Transaction -> gmap uuid Transaction) (d : DB) : DB :=
  mkDB (DB_runs d) (DB_groups d) (DB_items d) (f (DB_txs d)) (DB_sourceContext d) (DB_jobContext d)
    (DB_exceptions d) (DB_variances d) (DB_outbox d) (DB_adjustments d) (DB_auditLogs d) (DB_chainState d)
    (DB_disputes d) (DB_comments d).
Definition set_exceptions (f : gmap uuid Exception -> gmap uuid Exception) (d : DB) : DB :=
  mkDB (DB_runs d) (DB_groups d) (DB_items d) (DB_txs d) (DB_sourceContext d) (DB_jobContext d)
    (f (DB_exceptions d)) (DB_variances d) (DB_outbox d) (DB_adjustments d) (DB_auditLogs d) (DB_chainState d)
    (DB_disputes d) (DB_comments d).
Definition set_variances (f : list FeeVariance -> list FeeVariance) (d : DB) : DB :=
  mkDB (DB_runs d) (DB_groups d) (DB_items d) (DB_txs d) (DB_sourceContext d) (DB_jobContext d)
    (DB_exceptions d) (f (DB_variances d)) (DB_outbox d) (DB_adjustments d) (DB_auditLogs d) (DB_chainState d)
    (DB_disputes d) (DB_comments d).
Definition set_outbox (f : list OutboxEvent -> list OutboxEvent) (d : DB) : DB :=
  mkDB (DB_runs d) (DB_groups d) (DB_items d) (DB_txs d) (DB_sourceContext d) (DB_jobContext d)
    (DB_exceptions d) (DB_variances d) (f (DB_outbox d)) (DB_adjustments d) (DB_auditLogs d) (DB_chainState d)
    (DB_disputes d) (DB_comments d).
Definition set_adjustments (f : gmap uuid Adjustment -> gmap uuid Adjustment) (d : DB) : DB :=
  mkDB (DB_runs d) (DB_groups d) (DB_items d) (DB_txs d) (DB_sourceContext d) (DB_jobContext d)
    (DB_exceptions d) (DB_variances d) (DB_outbox d) (f (DB_adjustments d)) (DB_auditLogs d) (DB_chainState d)
    (DB_disputes d) (DB_comments d).
Definition set_auditLogs (f : list AuditLog -> list AuditLog) (d : DB) : DB :=
  mkDB (DB_runs d) (DB_groups d) (DB_items d) (DB_txs d) (DB_sourceContext d) (DB_jobContext d)
    (DB_exceptions d) (DB_variances d) (DB_outbox d) (DB_adjustments d) (f (DB_auditLogs d)) (DB_chainState d)
    (DB_disputes d) (DB_comments d).
Definition set_chainState (f : gmap uuid Z -> gmap uuid Z) (d : DB) : DB :=
  mkDB (DB_runs d) (DB_groups d) (DB_items d) (DB_txs d) (DB_sourceContext d) (DB_jobContext d)
    (DB_exceptions d) (DB_variances d) (DB_outbox d) (DB_adjustments d) (DB_auditLogs d) (f (DB_chainState d))
    (DB_disputes d) (DB_comments d).
Definition set_disputes (f : gmap uuid Dispute -> gmap uuid Dispute) (d : DB) : DB :=
  mkDB (DB_runs d) (DB_groups d) (DB_items d) (DB_txs d) (DB_sourceContext d) (DB_jobContext d)
    (DB_exceptions d) (DB_variances d) (DB_outbox d) (DB_adjustments d) (DB_auditLogs d) (DB_chainState d)
    (f (DB_disputes d)) (DB_comments d).
Definition set_comments (f : gmap uuid ExceptionComment -> gmap uuid ExceptionComment) (d : DB) : DB :=
  mkDB (DB_runs d) (DB_groups d) (DB_items d) (DB_txs d) (DB_sourceContext d) (DB_jobContext d)
    (DB_exceptions d) (DB_variances d) (DB_outbox d) (DB_adjustments d) (DB_auditLogs d) (DB_chainState d)
    (DB_disputes d) (f (DB_comments d)).
End tables.

(** ** The environment and the effects of a command

    What the execution of the rules draws and observes is counted apart. *)
Class Env {U : UUIDLib} := {
  env_newID : nat -> uuid;
  env_now : nat -> Time;
  env_dbFails : nat -> bool;
  env_ctxDone : nat -> bool;
  env_lockLost : nat -> bool;
  env_execID : nat -> uuid;
  env_execNow : nat -> Time;
  env_execDone : nat -> bool;
}.
Arguments Env : clear implicits.

Section effects.
  Context {U : UUIDLib} {D : DecimalLib} {A : AssertLib} {N : UnicodeLib} {V : Env U}.

(** [W_db] is the committed state, [W_tx] the state inside an open
    transaction; [W_next] counts identifiers, [W_step] statements and checks.
    [W_run] is the match run object the command holds: methods change it in
    place, and a rollback does not restore it. *)
Record World : Type := mkWorld {
  W_db : DB;
  W_tx : option DB;
  W_next : nat;
  W_step : nat;
  W_run : option MatchRun;
}.

Definition io (X : Type) : Type := st World CmdError X.

Definition io_fail {X} (e : CmdError) : io X := st_lift (Err e).

(** The next identifier with the time it is drawn at. *)
Definition io_fresh : io (uuid * Time) := fun w =>
  (mkWorld (W_db w) (W_tx w) (S (W_next w)) (W_step w) (W_run w), Ok (env_newID (W_next w), env_now (W_next w))).

Definition io_now : io Time := fun w =>
  (mkWorld (W_db w) (W_tx w) (S (W_next w)) (W_step w) (W_run w), Ok (env_now (W_next w))).

Definition io_hold (run : MatchRun) : io unit := fun w =>
  (mkWorld (W_db w) (W_tx w) (W_next w) (W_step w) (Some run), Ok tt).

(** A method call on the held run; it returns the run as the call left it. *)
Definition io_run (method : Time -> st MatchRun MatchError unit) : io MatchRun := fun w =>
  match W_run w with
  | None => (w, Err ErrMatchRunPersistedNil)
  | Some run =>
      let '(run', r) := method (env_now (W_next w)) run in
      (mkWorld (W_db w) (W_tx w) (S (W_next w)) (W_step w) (Some run'),
       match r with Ok _ => Ok run' | Err e => Err (ErrMatch e) end)
  end.

(** One observation of the environment. *)
Definition io_step : io nat := fun w =>
  (mkWorld (W_db w) (W_tx w) (W_next w) (S (W_step w)) (W_run w), Ok (W_step w)).

Definition io_check (lost : nat -> bool) (e : CmdError) : io unit :=
  n ← io_step; st_ensure (negb (lost n)) e.

(** A round trip to the server: it fails when the server does or, unless the
    call is detached from the request, when the request is cancelled. *)
Definition io_roundtrip (detached : bool) : io unit :=
  n ← io_step;
  st_ensure (negb (env_dbFails n || (negb detached && env_ctxDone n))) (ErrDatabase "statement").

Definition in_tx {X} (f : DB -> res CmdError (DB * X)) : io X := fun w =>
  match W_tx w with
  | None => (w, Err ErrInvalidTx)
  | Some d => match f d with
              | Ok (d', x) => (mkWorld (W_db w) (Some d') (W_next w) (W_step w) (W_run w), Ok x)
              | Err e => (w, Err e)
              end
  end.

(** A statement inside the open transaction. *)
Definition sql {X} (detached : bool) (f : DB -> res CmdError (DB * X)) : io X :=
  _ ← io_roundtrip detached; in_tx f.

(** A read outside any transaction. *)
Definition sql_read {X} (f : DB -> res CmdError X) : io X :=
  _ ← io_roundtrip false; w ← st_get; st_lift (f (W_db w)).

(** [WithTenantTxOrExistingProvider] without a transaction: begin, run the
    body on a copy, commit; any failure rolls back. *)
Definition begin_tx (w : World) : World := mkWorld (W_db w) (Some (W_db w)) (W_next w) (W_step w) (W_run w).
Definition rollback_tx (w : World) : World := mkWorld (W_db w) None (W_next w) (W_step w) (W_run w).
Definition commit_tx (w : World) : World := mkWorld (default (W_db w) (W_tx w)) None (W_next w) (W_step w) (W_run w).

Definition tx_scope {X} (detached : bool) (body : io X) : io X := fun w =>
  match body (begin_tx w) with
  | (w1, Err e) => (rollback_tx w1, Err e)
  | (w1, Ok x) =>
      match io_roundtrip detached w1 with
      | (w2, Ok _) => (commit_tx w2, Ok x)
      | (w2, Err e) => (rollback_tx w2, Err e)
      end
  end.

Definition WithTx {X} (detached : bool) (body : io X) : io X :=
  _ ← io_roundtrip detached; tx_scope detached body.

(** The same with a transaction: the tenant schema is set, then the body runs. *)
Definition ExistingTx {X} (body : io X) : io X := _ ← io_roundtrip false; body.
End effects.

(** ** Repositories *)
Section repositories.
  Context {U : UUIDLib} {D : DecimalLib} {A : AssertLib} {N : UnicodeLib} {V : Env U}.

(** *** [match_run] *)
Definition MatchRun_ToEntity (row : MatchRun) : res CmdError MatchRun :=
  _ ← map_err ErrMatch (ParseMatchRunMode (MR_Mode row));
  _ ← map_err ErrMatch (ParseMatchRunStatus (MR_Status row));
  Ok row.

Definition insert_match_run (run : MatchRun) (d : DB) : res CmdError (DB * unit) :=
  match DB_runs d !! MR_ID run with
  | Some _ => Err ErrDuplicateKey
  | None => Ok (set_runs <[MR_ID run := run]> d, tt)
  end.

Definition select_match_run (contextID runID : uuid) (d : DB) : res CmdError (DB * MatchRun) :=
  match DB_runs d !! runID with
  | Some row => if bool_decide (MR_ContextID row = contextID)
                then run ← MatchRun_ToEntity row; Ok (d, run) else Err ErrNoRows
  | None => Err ErrNoRows
  end.

(** The columns an update writes. *)
Definition updated_run (run row : MatchRun) : MatchRun :=
  mkMatchRun (MR_ID row) (MR_ContextID row) (MR_Mode row) (MR_Status run) (MR_StartedAt row) (MR_CompletedAt run)
    (MR_Stats run) (MR_FailureReason run) (MR_CreatedAt row) (MR_UpdatedAt run).

Definition update_match_run (run : MatchRun) (d : DB) : res CmdError (DB * unit) :=
  match DB_runs d !! MR_ID run with
  | Some row => if bool_decide (MR_ContextID row = MR_ContextID run)
                then Ok (set_runs <[MR_ID run := updated_run run row]> d, tt) else Err ErrNoRows
  | None => Err ErrNoRows
  end.

Definition matchRunRepo_create (detached : bool) (run : MatchRun) : io MatchRun :=
  _ ← sql detached (insert_match_run run);
  sql detached (select_match_run (MR_ContextID run) (MR_ID run)).

Definition matchRunRepo_update (detached : bool) (run : MatchRun) : io MatchRun :=
  _ ← sql detached (update_match_run run);
  sql detached (select_match_run (MR_ContextID run) (MR_ID run)).

Definition matchRunRepo_Create (run : MatchRun) : io MatchRun := WithTx false (matchRunRepo_create false run).
Definition matchRunRepo_CreateWithTx (run : MatchRun) : io MatchRun := ExistingTx (matchRunRepo_create false run).
Definition matchRunRepo_Update (detached : bool) (run : MatchRun) : io MatchRun :=
  WithTx detached (matchRunRepo_update detached run).
Definition matchRunRepo_UpdateWithTx (run : MatchRun) : io MatchRun := ExistingTx (matchRunRepo_update false run).

(** *** [match_group] *)
Definition group_row (group : MatchGroup) : MatchGroup :=
  mkMatchGroup (MG_ID group) (MG_ContextID group) (MG_RunID group) (MG_RuleID group) (MG_Confidence group)
    (MG_Status group) [] (MG_CreatedAt group) (MG_UpdatedAt group) (MG_RejectedReason group) (MG_ConfirmedAt group).

Definition MatchGroup_ToEntity (row : MatchGroup) : res CmdError MatchGroup :=
  confidence ← map_err (fun _ => ErrConfidenceScore) (ParseConfidenceScore (CS_value (MG_Confidence row)));
  _ ← map_err ErrMatch (ParseMatchGroupStatus (MG_Status row));
  Ok (mkMatchGroup (MG_ID row) (MG_ContextID row) (MG_RunID row) (MG_RuleID row) confidence (MG_Status row) []
        (MG_CreatedAt row) (MG_UpdatedAt row) (MG_RejectedReason row) (MG_ConfirmedAt row)).

Definition insert_match_group (group : MatchGroup) (d : DB) : res CmdError (DB * unit) :=
  match DB_groups d !! MG_ID group with
  | Some _ => Err ErrDuplicateKey
  | None => Ok (set_groups <[MG_ID group := group_row group]> d, tt)
  end.

Fixpoint insertBatch (groups : list MatchGroup) : io unit :=
  match groups with
  | [] => mret tt
  | group :: groups' => _ ← sql false (insert_match_group group); insertBatch groups'
  end.

(** [id = ANY(ids) ORDER BY created_at]. *)
Definition fetchBatch (ids : list uuid) (d : DB) : res CmdError (DB * list MatchGroup) :=
  let rows := omap (fun id => DB_groups d !! id) (remove_dups ids) in
  groups ← res_mapM MatchGroup_ToEntity (stable_sort (cmp_lt (cmp_on MG_CreatedAt Z.compare)) rows);
  Ok (d, groups).

Definition matchGroupRepo_CreateBatchWithTx (groups : list MatchGroup) : io (list MatchGroup) :=
  if bool_decide (groups = []) then mret []
  else ExistingTx (_ ← insertBatch groups; sql false (fetchBatch (MG_ID <$> groups))).

Definition select_match_group (contextID id : uuid) (d : DB) : res CmdError MatchGroup :=
  match DB_groups d !! id with
  | Some row => if bool_decide (MG_ContextID row = contextID) then MatchGroup_ToEntity row else Err ErrNoRows
  | None => Err ErrNoRows
  end.

Definition matchGroupRepo_FindByID (contextID id : uuid) : io MatchGroup := sql_read (select_match_group contextID id).

Definition update_match_group (group : MatchGroup) (d : DB) : res CmdError (DB * unit) :=
  match DB_groups d !! MG_ID group with
  | Some row =>
      if bool_decide (MG_ContextID row = MG_ContextID group)
      then Ok (set_groups <[MG_ID group :=
             mkMatchGroup (MG_ID row) (MG_ContextID row) (MG_RunID row) (MG_RuleID row) (MG_Confidence row)
               (MG_Status group) [] (MG_CreatedAt row) (MG_UpdatedAt group) (MG_RejectedReason group)
               (MG_ConfirmedAt group)]> d, tt)
      else Err ErrNoRows
  | None => Err ErrNoRows
  end.

Definition matchGroupRepo_UpdateWithTx (group : MatchGroup) : io MatchGroup :=
  ExistingTx (_ ← sql false (update_match_group group);
              sql false (fun d => g ← select_match_group (MG_ContextID group) (MG_ID group) d; Ok (d, g))).

(** *** [match_item] *)
Definition insert_match_item (item : MatchItem) (d : DB) : res CmdError (DB * unit) :=
  if bool_decide (MI_ID item ∈ MI_ID <$> DB_items d) then Err ErrDuplicateKey
  else Ok (set_items (fun items => items ++ [item]) d, tt).

Fixpoint insertItems (items : list MatchItem) : io unit :=
  match items with
  | [] => mret tt
  | item :: items' => _ ← sql false (insert_match_item item); insertItems items'
  end.

Definition matchItemRepo_CreateBatchWithTx (items : list MatchItem) : io (list MatchItem) :=
  if bool_decide (items = []) then mret []
  else ExistingTx (_ ← insertItems items; mret items).

Definition items_of_group (groupID : uuid) (d : DB) : list MatchItem :=
  stable_sort (cmp_lt (cmp_on MI_CreatedAt Z.compare)) (filter (fun i => MI_MatchGroupID i = groupID) (DB_items d)).

(** The read runs on its own connection, outside the caller's transaction. *)
Definition matchItemRepo_ListByMatchGroupID (groupID : uuid) : io (list MatchItem) :=
  sql_read (fun d => Ok (items_of_group groupID d)).

(** *** [transactions]: the queries of transaction_queries.go, transaction_list.go
    and transaction_search.go *)
Definition set_status (status : TransactionStatus) (now : Time) (t : Transaction) : Transaction :=
  mkTransaction (TX_ID t) (TX_IngestionJobID t) (TX_SourceID t) (TX_ExternalID t) (TX_Amount t) (TX_Currency t)
    (TX_AmountBase t) (TX_BaseCurrency t) (TX_FXRate t) (TX_FXRateSource t) (TX_FXRateEffDate t)
    (TX_ExtractionStatus t) status (TX_Date t) (TX_Description t) (TX_Metadata t) (TX_CreatedAt t) now.

Definition source_in_context (d : DB) (contextID : uuid) (t : Transaction) : bool :=
  bool_decide (DB_sourceContext d !! TX_SourceID t = Some contextID).

(** The update selects by context and identifier only. *)
Definition BuildMarkStatusQuery (contextID : uuid) (transactionIDs : list uuid) (status : TransactionStatus)
    (now : Time) (d : DB) : res CmdError (DB * unit) :=
  let ids := list_to_set (C:=gset uuid) transactionIDs in
  Ok (set_txs (map_imap (fun id t =>
        Some (if bool_decide (id ∈ ids) && source_in_context d contextID t then set_status status now t else t))) d,
      tt).

Definition executeMark (contextID : uuid) (transactionIDs : list uuid) (status : TransactionStatus) : io unit :=
  _ ← st_ensure (negb (bool_decide (contextID = uuid_Nil))) (ErrRun ErrContextIDRequired);
  if bool_decide (transactionIDs = []) then mret tt
  else now ← io_now; sql false (BuildMarkStatusQuery contextID transactionIDs status now).

Definition MarkMatchedWithTx (contextID : uuid) (transactionIDs : list uuid) : io unit :=
  executeMark contextID transactionIDs "MATCHED".
Definition MarkPendingReviewWithTx (contextID : uuid) (transactionIDs : list uuid) : io unit :=
  executeMark contextID transactionIDs "PENDING_REVIEW".
Definition MarkUnmatchedWithTx (contextID : uuid) (transactionIDs : list uuid) : io unit :=
  executeMark contextID transactionIDs "UNMATCHED".

Definition tx_order : Transaction -> Transaction -> comparison :=
  cmp_then (cmp_on TX_Date Z.compare) (cmp_on (fun t => uuid_String (TX_ID t)) String.compare).

Definition in_window (start end_ : option Time) (t : Transaction) : bool :=
  (match start with Some s => (s <=? TX_Date t)%Z | None => true end) &&
  (match end_ with Some e => (TX_Date t <=? e)%Z | None => true end).

Definition unmatched_row (d : DB) (contextID : uuid) (start end_ : option Time) (t : Transaction) : bool :=
  source_in_context d contextID t && bool_decide (TX_ExtractionStatus t = "COMPLETE") &&
  bool_decide (TX_Status t = "UNMATCHED") && in_window start end_ t.

Definition buildUnmatchedByContextQuery (contextID : uuid) (start end_ : option Time) (limit offset : nat) (d : DB)
    : list Transaction :=
  take limit (drop offset (stable_sort (cmp_lt tx_order)
    (filter (fun t => unmatched_row d contextID start end_ t = true) (map_to_list (DB_txs d)).*2))).

Definition validateListUnmatchedParams (contextID : uuid) (limit offset : Z) : res CmdError unit :=
  _ ← ensure (negb (bool_decide (contextID = uuid_Nil))) (ErrRun ErrContextIDRequired);
  _ ← ensure (negb (limit <=? 0)%Z) (ErrDatabase "limit must be positive");
  ensure (negb (offset <? 0)%Z) (ErrDatabase "offset must be non-negative").

Definition ListUnmatchedByContext (contextID : uuid) (start end_ : option Time) (limit offset : Z)
    : io (list Transaction) :=
  _ ← st_lift (validateListUnmatchedParams contextID limit offset);
  sql_read (fun d => Ok (buildUnmatchedByContextQuery contextID start end_ (Z.to_nat limit) (Z.to_nat offset) d)).

(** The context here is that of the ingestion job. *)
Definition FindByContextAndIDs (contextID : uuid) (transactionIDs : list uuid) : io (list Transaction) :=
  _ ← st_ensure (negb (bool_decide (contextID = uuid_Nil))) (ErrRun ErrContextIDRequired);
  if bool_decide (transactionIDs = []) then mret []
  else sql_read (fun d => Ok (filter (fun t => TX_ID t ∈ transactionIDs /\
         DB_jobContext d !! TX_IngestionJobID t = Some contextID) (map_to_list (DB_txs d)).*2)).

(** *** [exception_creator] *)
Definition classifySeverity (input : ExceptionTransactionInput) (now : Time) (rules : list SeverityRule)
    : ExceptionSeverity :=
  let ageHours :=
    if negb (time_IsZero (ETI_TransactionDate input)) then
      let duration := time_Sub now (ETI_TransactionDate input) in
      if (0 <? duration)%Z then int_of_float64 (duration_Hours duration) else 0%Z
    else 0%Z in
  match ClassifyExceptionSeverity (mkSeverityClassificationInput (ETI_AmountAbsBase input) ageHours
          (ETI_SourceType input) (ETI_FXMissing input)) rules with
  | Err _ => ExceptionSeverityMedium
  | Ok result => SCR_Severity result
  end.

Definition sanitizeInputReason (reason : string) : string :=
  if string_empty (strings_TrimSpace reason) then ReasonUnmatched else SanitizeReason reason.

(** The [CASE] expressions of the upsert. *)
Definition merged_severity (excluded existing : ExceptionSeverity) : ExceptionSeverity :=
  if bool_decide (excluded = "CRITICAL") then excluded
  else if bool_decide (excluded = "HIGH") && negb (bool_decide (existing ∈ ["CRITICAL"])) then excluded
  else if bool_decide (excluded = "MEDIUM") && negb (bool_decide (existing ∈ ["CRITICAL"; "HIGH"])) then excluded
  else existing.

Definition merged_reason (excluded : string) (existing : option string) : option string :=
  match existing with
  | Some r => if bool_decide (excluded = "UNMATCHED") && negb (bool_decide (r = "UNMATCHED")) then existing
              else Some excluded
  | None => Some excluded
  end.

(** [severity] and [reason] of an existing row are merged; its version stays. *)
Definition reclassified (severity : ExceptionSeverity) (reason : string) (now : Time) (old : Exception) : Exception :=
  mkException (EX_ID old) (EX_TransactionID old) (merged_severity severity (EX_Severity old)) (EX_Status old)
    (EX_ExternalSystem old) (EX_ExternalIssueID old) (EX_AssignedTo old) (EX_DueAt old) (EX_ResolutionNotes old)
    (EX_ResolutionType old) (EX_ResolutionReason old) (merged_reason reason (EX_Reason old)) (EX_Version old)
    (EX_CreatedAt old) now.

(** A new row: the columns the statement does not name have their defaults. *)
Definition opened (id txID : uuid) (severity : ExceptionSeverity) (reason : string) (now : Time) : Exception :=
  mkException id txID severity ExceptionStatusOpen None None None None None None None (Some reason) 1 now now.

(** The row with an identifier. *)
Definition exception_at (id : uuid) (d : DB) : option Exception :=
  head (filter (fun x => EX_ID x = id) (map_to_list (DB_exceptions d)).*2).

Definition upsert_exception (id txID : uuid) (severity : ExceptionSeverity) (reason : string) (now : Time) (d : DB)
    : res CmdError (DB * unit) :=
  match DB_exceptions d !! txID, exception_at id d with
  | Some old, _ => Ok (set_exceptions <[txID := reclassified severity reason now old]> d, tt)
  | None, None => Ok (set_exceptions <[txID := opened id txID severity reason now]> d, tt)
  | None, Some _ => Err ErrDuplicateKey
  end.

Fixpoint insertExceptions (now : Time) (rules : list SeverityRule) (inputs : list ExceptionTransactionInput)
    : io unit :=
  match inputs with
  | [] => mret tt
  | input :: inputs' =>
      if bool_decide (ETI_TransactionID input = uuid_Nil) then insertExceptions now rules inputs'
      else
        id ← io_fresh;
        _ ← sql false (upsert_exception (id.1) (ETI_TransactionID input) (classifySeverity input now rules)
              (sanitizeInputReason (ETI_Reason input)) now);
        insertExceptions now rules inputs'
  end.

Definition CreateExceptionsWithTx (inputs : list ExceptionTransactionInput) (regulatorySourceTypes : list string)
    : io unit :=
  if bool_decide (inputs = []) then mret tt
  else
    now ← io_now;
    ExistingTx (insertExceptions now (DefaultSeverityRules regulatorySourceTypes) inputs).

(** *** [fee_variance] and the outbox *)
Definition insert_variance (row : FeeVariance) (d : DB) : res CmdError (DB * unit) :=
  if bool_decide (FV_ID row ∈ FV_ID <$> DB_variances d) then Err ErrDuplicateKey
  else Ok (set_variances (fun rows => rows ++ [row]) d, tt).

Fixpoint insertVariances (rows : list FeeVariance) : io unit :=
  match rows with
  | [] => mret tt
  | row :: rows' => _ ← sql false (insert_variance row); insertVariances rows'
  end.

Definition feeVarianceRepo_CreateBatchWithTx (rows : list FeeVariance) : io (list FeeVariance) :=
  if bool_decide (rows = []) then mret [] else ExistingTx (_ ← insertVariances rows; mret rows).

Definition outboxRepo_CreateWithTx (event : OutboxEvent) : io unit :=
  sql false (fun d => Ok (set_outbox (fun events => events ++ [event]) d, tt)).
End repositories.

(** ** Reasoning about transactions

    [tx_spec m P]: run inside a transaction, [m] leaves the committed state and
    the held run alone, and if it succeeds it has moved the transaction's
    tables from [d] to [d'] with [P d d' x]. *)
Section logic.
  Context {U : UUIDLib} {D : DecimalLib} {A : AssertLib} {N : UnicodeLib} {V : Env U}.

Definition framed (w w' : World) : Prop :=
  W_db w' = W_db w /\ W_run w' = W_run w /\ (W_step w <= W_step w')%nat.

Lemma framed_refl w : framed w w.
Proof. by split_and!. Qed.

Lemma framed_trans w1 w2 w3 : framed w1 w2 -> framed w2 w3 -> framed w1 w3.
Proof. intros (? & ? & ?) (? & ? & ?). split_and!; [congruence|congruence|lia]. Qed.

Definition tx_spec {X} (m : io X) (P : DB -> DB -> X -> Prop) : Prop :=
  forall w d, W_tx w = Some d ->
  let '(w', r) := m w in
  framed w w' /\ is_Some (W_tx w') /\
  match r with Ok x => exists d', W_tx w' = Some d' /\ P d d' x | Err _ => True end.

Lemma tx_weaken {X} (m : io X) (P Q : DB -> DB -> X -> Prop) :
  tx_spec m P -> (forall d d' x, P d d' x -> Q d d' x) -> tx_spec m Q.
Proof.
  intros H HPQ w d Hw. specialize (H w d Hw). destruct (m w) as [w' [x|e]]; [|done].
  destruct H as (? & ? & d' & ? & ?). split_and!; eauto.
Qed.

Lemma tx_ret {X} (x : X) : tx_spec (mret x) (fun d d' y => d' = d /\ y = x).
Proof. intros w d Hw. cbn. split_and!; eauto using framed_refl. Qed.

Lemma tx_bind {X Y} (m : io X) (f : X -> io Y) P Q :
  tx_spec m P -> (forall x, tx_spec (f x) (Q x)) ->
  tx_spec (m ≫= f) (fun d d' y => exists d1 x, P d d1 x /\ Q x d1 d' y).
Proof.
  intros Hm Hf w d Hw. specialize (Hm w d Hw). unfold mbind, st_bind. destruct (m w) as [w1 [x|e]]; [|done].
  destruct Hm as (H1 & _ & d1 & Hd1 & HP). specialize (Hf x w1 d1 Hd1).
  destruct (f x w1) as [w2 [y|e]]; destruct Hf as (H3 & H5 & H6); split_and!; eauto using framed_trans.
  destruct H6 as (d2 & ? & ?). eauto 10.
Qed.

Lemma tx_lift {X} (m : res CmdError X) : tx_spec (st_lift m) (fun d d' x => d' = d /\ m = Ok x).
Proof. intros w d Hw. cbn. destruct m; split_and!; eauto using framed_refl. Qed.

Lemma tx_fail {X} (e : CmdError) P : tx_spec (io_fail (X:=X) e) P.
Proof. intros w d Hw. cbn. split_and!; eauto using framed_refl. Qed.

Lemma tx_fresh : tx_spec io_fresh (fun d d' _ => d' = d).
Proof. intros w d Hw. cbn. split_and!; eauto. by split_and!. Qed.

Lemma tx_now : tx_spec io_now (fun d d' _ => d' = d).
Proof. intros w d Hw. cbn. split_and!; eauto. by split_and!. Qed.

Lemma tx_step : tx_spec io_step (fun d d' _ => d' = d).
Proof. intros w d Hw. cbn. split_and!; eauto. split_and!; [done..|cbn; lia]. Qed.

Lemma tx_check lost e : tx_spec (io_check lost e) (fun d d' _ => d' = d).
Proof.
  eapply tx_weaken; [apply tx_bind; [apply tx_step|intros n; apply tx_lift]|].
  intros d d' x (d1 & n & -> & -> & _). done.
Qed.

Lemma tx_roundtrip detached : tx_spec (io_roundtrip detached) (fun d d' _ => d' = d).
Proof.
  eapply tx_weaken; [apply tx_bind; [apply tx_step|intros n; apply tx_lift]|].
  intros d d' x (d1 & n & -> & -> & _). done.
Qed.

Lemma tx_existing {X} (m : io X) P : tx_spec m P -> tx_spec (ExistingTx m) P.
Proof.
  intros Hm. eapply tx_weaken; [eapply tx_bind; [apply tx_roundtrip|intros ?; exact Hm]|].
  by intros d d' x (d1 & _ & -> & ?).
Qed.

Lemma tx_sql {X} detached (f : DB -> res CmdError (DB * X)) :
  tx_spec (sql detached f) (fun d d' x => f d = Ok (d', x)).
Proof.
  eapply tx_weaken; [eapply (tx_bind _ _ _ (fun _ d d' x => f d = Ok (d', x))); [apply tx_roundtrip|]|].
  - intros _ w d Hw. unfold in_tx. rewrite Hw.
    destruct (f d) as [[d' x]|e]; cbn; split_and!; eauto using framed_refl; by split_and!.
  - by intros d d' x (d1 & _ & -> & ?).
Qed.

Lemma tx_sql_read {X} (f : DB -> res CmdError X) : tx_spec (sql_read f) (fun d d' _ => d' = d).
Proof.
  eapply tx_weaken; [eapply (tx_bind _ _ _ (fun _ d d' _ => d' = d)); [apply tx_roundtrip|]|].
  - intros _ w d Hw. unfold mbind, st_bind, st_get, st_lift. cbn.
    destruct (f (W_db w)); split_and!; eauto using framed_refl.
  - by intros d d' x (d1 & _ & -> & ->).
Qed.

(** What happens at step [n] to a statement, and between two steps. *)
Definition fault (detached : bool) (n : nat) : Prop :=
  env_dbFails n = true \/ (detached = false /\ env_ctxDone n = true).
Definition faulty (detached : bool) (a b : nat) : Prop := exists n, (a <= n < b)%nat /\ fault detached n.

Lemma faulty_mono detached a a' b b' : (a' <= a)%nat -> (b <= b')%nat -> faulty detached a b -> faulty detached a' b'.
Proof. intros ? ? (n & ? & ?). exists n. split; [lia|done]. Qed.

Definition tick (w : World) : World := mkWorld (W_db w) (W_tx w) (W_next w) (S (W_step w)) (W_run w).

Lemma io_roundtrip_cases detached w :
  io_roundtrip detached w = (tick w, Ok tt) \/
  (exists e, io_roundtrip detached w = (tick w, Err e)) /\ fault detached (W_step w).
Proof.
  unfold io_roundtrip, io_step, st_ensure, st_lift, mbind, st_bind, fault. cbn.
  destruct (env_dbFails _); cbn; [right; eauto|]. destruct detached; cbn; [by left|].
  destruct (env_ctxDone _); cbn; [right; eauto|by left].
Qed.

Lemma io_roundtrip_quiet detached w : ~ fault detached (W_step w) -> io_roundtrip detached w = (tick w, Ok tt).
Proof. intros Hf. by destruct (io_roundtrip_cases detached w) as [->|[_ H]]. Qed.

(** A transaction: it does not begin, the body fails, the commit fails, or it
    is published. *)
Lemma WithTx_cases {X} detached (m : io X) w :
  let '(w', r) := WithTx detached m w in
  ((exists e, r = Err e) /\ w' = tick w /\ fault detached (W_step w)) \/
  (exists w1 r1, m (begin_tx (tick w)) = (w1, r1) /\
     ((exists e, r1 = Err e /\ r = Err e /\ w' = rollback_tx w1) \/
      (exists x, r1 = Ok x /\ r = Ok x /\ w' = commit_tx (tick w1)) \/
      (exists x e, r1 = Ok x /\ r = Err e /\ w' = rollback_tx (tick w1) /\ fault detached (W_step w1)))).
Proof.
  unfold WithTx, mbind, st_bind. destruct (io_roundtrip_cases detached w) as [->|[[e ->] Hf]]; [|by eauto 10].
  unfold tx_scope. destruct (m (begin_tx (tick w))) as [w1 [x|e]]; [|by eauto 15].
  destruct (io_roundtrip_cases detached w1) as [->|[[e ->] Hf]]; eauto 20.
Qed.

(** A transaction publishes its tables exactly when it succeeds. *)
Lemma WithTx_spec {X} detached (m : io X) P w :
  tx_spec m P -> W_tx w = None ->
  let '(w', r) := WithTx detached m w in
  W_tx w' = None /\ W_run w' = W_run w /\ (W_step w <= W_step w')%nat /\
  match r with Ok x => P (W_db w) (W_db w') x | Err _ => W_db w' = W_db w end.
Proof.
  intros Hm Hw. pose proof (WithTx_cases detached m w) as Hc. destruct (WithTx detached m w) as [w' r].
  destruct Hc as [([e ->] & -> & _)|(w1 & r1 & E & Hc)]; [cbn; split_and!; try done; lia|].
  pose proof (Hm (begin_tx (tick w)) (W_db w) eq_refl) as H. rewrite E in H. destruct H as ((H1 & H2 & H3) & _ & H4).
  cbn in H1, H2, H3.
  destruct Hc as [(e & -> & -> & ->)|[(x & -> & -> & ->)|(x & e & -> & -> & -> & _)]]; cbn; split_and!; try done; try lia.
  destruct H4 as (d' & -> & ?). done.
Qed.

(** A statement whose precondition holds fails only by a fault. *)
Lemma sql_total {X} detached (f : DB -> res CmdError (DB * X)) w d d' x :
  W_tx w = Some d -> f d = Ok (d', x) ->
  sql detached f w = (mkWorld (W_db w) (Some d') (W_next w) (S (W_step w)) (W_run w), Ok x) \/
  (exists e, sql detached f w = (tick w, Err e)) /\ fault detached (W_step w).
Proof.
  intros Hw Hf. unfold sql, mbind, st_bind. destruct (io_roundtrip_cases detached w) as [->|[[e ->] ?]]; [left|eauto].
  unfold in_tx. cbn. by rewrite Hw, Hf.
Qed.

End logic.

(** Walk down the statements of a body: each known step is replaced by its
    specification. *)
Create HintDb tx.
#[export] Hint Resolve tx_ret tx_lift tx_fresh tx_now tx_step tx_check tx_roundtrip tx_sql tx_sql_read tx_fail : tx.

Ltac tx_bind := eapply tx_bind; [solve [eauto with tx]|intros ?].

(** ** What the repositories do to the tables *)
Section repository_specs.
  Context {U : UUIDLib} {D : DecimalLib} {A : AssertLib} {N : UnicodeLib} {V : Env U}.

(** *** Runs *)
Definition run_row_valid (run : MatchRun) : Prop :=
  MatchRunMode_IsValid (MR_Mode run) = true /\ MatchRunStatus_IsValid (MR_Status run) = true.

Lemma MatchRun_ToEntity_valid run : run_row_valid run -> MatchRun_ToEntity run = Ok run.
Proof.
  intros [Hm Hs]. unfold MatchRun_ToEntity, ParseMatchRunMode, ParseMatchRunStatus. by rewrite Hm, Hs.
Qed.

Lemma MatchRun_ToEntity_id row run : MatchRun_ToEntity row = Ok run -> run = row.
Proof. unfold MatchRun_ToEntity. intros H. by res_inv. Qed.

Lemma matchRunRepo_create_spec detached run :
  tx_spec (matchRunRepo_create detached run) (fun d d' x =>
    DB_runs d !! MR_ID run = None /\ d' = set_runs <[MR_ID run := run]> d /\ x = run).
Proof.
  eapply tx_weaken; [tx_bind; apply tx_sql|]. intros d d' x (d1 & [] & H1 & H2).
  unfold insert_match_run in H1. destruct (DB_runs d !! MR_ID run) eqn:E; simplify_eq.
  unfold select_match_run in H2. cbn in H2. rewrite lookup_insert_eq, bool_decide_eq_true_2 in H2 by done.
  apply res_bind_Ok in H2 as (y & ->%MatchRun_ToEntity_id & [= <- <-]). done.
Qed.

Lemma matchRunRepo_update_spec detached run :
  tx_spec (matchRunRepo_update detached run) (fun d d' x => exists row,
    DB_runs d !! MR_ID run = Some row /\ x = updated_run run row /\ d' = set_runs <[MR_ID run := x]> d).
Proof.
  eapply tx_weaken; [tx_bind; apply tx_sql|]. intros d d' x (d1 & [] & H1 & H2).
  unfold update_match_run in H1. destruct (DB_runs d !! MR_ID run) as [row|] eqn:E; [|done].
  case_bool_decide as Hc; simplify_eq. unfold select_match_run in H2. cbn in H2.
  rewrite lookup_insert_eq in H2. cbn in H2. rewrite bool_decide_eq_true_2 in H2 by done.
  apply res_bind_Ok in H2 as (y & ->%MatchRun_ToEntity_id & [= <- <-]). eauto.
Qed.

(** A run whose row is there is updated unless the environment fails. *)
Lemma matchRunRepo_update_total detached run row w d :
  W_tx w = Some d -> DB_runs d !! MR_ID run = Some row -> MR_ContextID row = MR_ContextID run ->
  run_row_valid (updated_run run row) ->
  let '(w', r) := matchRunRepo_update detached run w in
  framed w w' /\
  ((r = Ok (updated_run run row) /\ W_tx w' = Some (set_runs <[MR_ID run := updated_run run row]> d)) \/
   ((exists e, r = Err e) /\ faulty detached (W_step w) (W_step w'))).
Proof.
  intros Hw Hrow Hctx Hv. unfold matchRunRepo_update, mbind, st_bind.
  set (d1 := set_runs <[MR_ID run := updated_run run row]> d).
  assert (H1 : update_match_run run d = Ok (d1, tt)).
  { unfold update_match_run. by rewrite Hrow, bool_decide_eq_true_2. }
  assert (H2 : select_match_run (MR_ContextID run) (MR_ID run) d1 = Ok (d1, updated_run run row)).
  { unfold select_match_run. cbn. rewrite lookup_insert_eq. cbn. rewrite bool_decide_eq_true_2 by done.
    by rewrite MatchRun_ToEntity_valid. }
  destruct (sql_total detached _ w d d1 tt Hw H1) as [->|[[e ->] Hf]].
  2: { split; [split_and!; cbn; auto|]. right. split; [eauto|]. exists (W_step w). cbn. split; [lia|done]. }
  set (w1 := mkWorld _ _ _ _ _).
  destruct (sql_total detached _ w1 d1 d1 (updated_run run row) eq_refl H2) as [->|[[e ->] Hf]]; cbn.
  - split; [split_and!; cbn; auto|]. by left.
  - split; [split_and!; cbn; auto|]. right. split; [eauto|]. exists (S (W_step w)). split; [lia|done].
Qed.

Lemma matchRunRepo_UpdateWithTx_total run row w d :
  W_tx w = Some d -> DB_runs d !! MR_ID run = Some row -> MR_ContextID row = MR_ContextID run ->
  run_row_valid (updated_run run row) ->
  let '(w', r) := matchRunRepo_UpdateWithTx run w in
  framed w w' /\
  ((r = Ok (updated_run run row) /\ W_tx w' = Some (set_runs <[MR_ID run := updated_run run row]> d)) \/
   ((exists e, r = Err e) /\ faulty false (W_step w) (W_step w'))).
Proof.
  intros Hw Hrow Hctx Hv. unfold matchRunRepo_UpdateWithTx, ExistingTx, mbind, st_bind.
  destruct (io_roundtrip_cases false w) as [->|[[e ->] Hf]].
  - pose proof (matchRunRepo_update_total false run row (tick w) d Hw Hrow Hctx Hv) as H.
    destruct (matchRunRepo_update false run (tick w)) as [w' r]. destruct H as ((H1 & H2 & H3) & H4). cbn in H3.
    split; [split_and!; [done..|lia]|]. destruct H4 as [?|[? Hf]]; [by left|right]. split; [done|].
    eapply faulty_mono; [..|exact Hf]; cbn; lia.
  - split; [split_and!; cbn; auto|]. right. split; [eauto|]. exists (W_step w). cbn. split; [lia|done].
Qed.

Lemma matchRunRepo_Update_total detached run row w :
  W_tx w = None -> DB_runs (W_db w) !! MR_ID run = Some row -> MR_ContextID row = MR_ContextID run ->
  run_row_valid (updated_run run row) ->
  let '(w', r) := matchRunRepo_Update detached run w in
  W_tx w' = None /\ W_run w' = W_run w /\ (W_step w <= W_step w')%nat /\
  ((r = Ok (updated_run run row) /\ W_db w' = set_runs <[MR_ID run := updated_run run row]> (W_db w)) \/
   ((exists e, r = Err e) /\ W_db w' = W_db w /\ faulty detached (W_step w) (W_step w'))).
Proof.
  intros Hw Hrow Hctx Hv. unfold matchRunRepo_Update.
  pose proof (WithTx_cases detached (matchRunRepo_update detached run) w) as Hc.
  destruct (WithTx _ _ w) as [w' r]. destruct Hc as [([e ->] & -> & Hf)|(w1 & r1 & E & Hc)].
  { cbn. split_and!; try done; [lia|]. right. split_and!; eauto. exists (W_step w). split; [lia|done]. }
  pose proof (matchRunRepo_update_total detached run row (begin_tx (tick w)) (W_db w) eq_refl Hrow Hctx Hv) as H.
  rewrite E in H. destruct H as ((H1 & H2 & H3) & H4). cbn in H1, H2, H3, H4.
  destruct Hc as [(e & -> & -> & ->)|[(x & -> & -> & ->)|(x & e & -> & -> & -> & Hf)]]; cbn; split_and!; try done; try lia.
  - destruct H4 as [[? _]|[_ Hf]]; [done|]. right. split_and!; eauto. eapply faulty_mono; [..|exact Hf]; lia.
  - destruct H4 as [[[= ->] ->]|[[e ?] _]]; [|done]. by left.
  - right. split_and!; eauto. exists (W_step w1). split; [lia|done].
Qed.

(** *** The other tables *)
Definition add_groups (groups : list MatchGroup) (m : gmap uuid MatchGroup) : gmap uuid MatchGroup :=
  foldl (fun m g => <[MG_ID g := group_row g]> m) m groups.

Lemma insertBatch_spec groups :
  tx_spec (insertBatch groups) (fun d d' _ => d' = set_groups (add_groups groups) d /\
    NoDup (MG_ID <$> groups) /\ Forall (fun g => DB_groups d !! MG_ID g = None) groups).
Proof.
  induction groups as [|g groups IH]; cbn [insertBatch].
  - eapply tx_weaken; [apply tx_ret|]. intros d d' x [-> _]. split_and!; [by destruct d|constructor|constructor].
  - eapply tx_weaken; [tx_bind; apply IH|].
    intros d d' x (d1 & [] & H1 & H2 & H3 & H4). unfold insert_match_group in H1.
    destruct (DB_groups d !! MG_ID g) eqn:E; simplify_eq. cbn in *. split_and!; [done| |].
    + apply NoDup_cons. split; [|done]. intros (g' & Hg & Hin)%list_elem_of_fmap.
      eapply Forall_forall in H4; [|exact Hin]. rewrite <- Hg, lookup_insert_eq in H4. done.
    + constructor; [done|]. eapply Forall_impl; [exact H4|]. cbn. intros g' Hg'.
      by apply lookup_insert_None in Hg' as [? _].
Qed.

Lemma matchGroupRepo_CreateBatchWithTx_spec groups :
  tx_spec (matchGroupRepo_CreateBatchWithTx groups) (fun d d' _ => d' = set_groups (add_groups groups) d /\
    NoDup (MG_ID <$> groups) /\ Forall (fun g => DB_groups d !! MG_ID g = None) groups).
Proof.
  unfold matchGroupRepo_CreateBatchWithTx. case_bool_decide as E.
  - rewrite E. eapply tx_weaken; [apply tx_ret|]. intros d d' x [-> _].
    split_and!; [by destruct d|constructor|constructor].
  - eapply tx_weaken; [apply tx_existing; eapply tx_bind; [apply insertBatch_spec|intros ?; apply tx_sql]|].
    intros d d' x (d2 & _ & H1 & H2). unfold fetchBatch in H2. res_inv. done.
Qed.

Lemma insertItems_spec items :
  tx_spec (insertItems items) (fun d d' _ => d' = set_items (fun l => l ++ items) d).
Proof.
  induction items as [|i items IH]; cbn [insertItems].
  - eapply tx_weaken; [apply tx_ret|]. intros d d' x [-> _]. destruct d; cbn. unfold set_items. cbn.
    by rewrite app_nil_r.
  - eapply tx_weaken; [tx_bind; apply IH|]. intros d d' x (d1 & [] & H1 & ->).
    unfold insert_match_item in H1. case_bool_decide; simplify_eq. unfold set_items. cbn. by rewrite <- app_assoc.
Qed.

Lemma matchItemRepo_CreateBatchWithTx_spec items :
  tx_spec (matchItemRepo_CreateBatchWithTx items) (fun d d' _ => d' = set_items (fun l => l ++ items) d).
Proof.
  unfold matchItemRepo_CreateBatchWithTx. case_bool_decide as E.
  - rewrite E. eapply tx_weaken; [apply tx_ret|]. intros d d' x [-> _]. destruct d; cbn. unfold set_items. cbn.
    by rewrite app_nil_r.
  - eapply tx_weaken; [apply tx_existing; eapply tx_bind; [apply insertItems_spec|intros ?; apply tx_ret]|].
    by intros d d' x (d2 & _ & -> & -> & _).
Qed.

(** Transactions of the context among [ids] get the status. *)
Definition mark_txs (d : DB) (contextID : uuid) (ids : list uuid) (status : TransactionStatus) (now : Time)
    : gmap uuid Transaction -> gmap uuid Transaction :=
  map_imap (fun id t =>
    Some (if bool_decide (id ∈ list_to_set (C:=gset uuid) ids) && source_in_context d contextID t
          then set_status status now t else t)).

Lemma mark_txs_lookup d contextID ids status now m id :
  mark_txs d contextID ids status now m !! id =
  (fun t => if bool_decide (id ∈ ids) && source_in_context d contextID t then set_status status now t else t)
    <$> m !! id.
Proof.
  unfold mark_txs. rewrite map_lookup_imap. destruct (m !! id) as [t|]; cbn; [|done].
  by rewrite (bool_decide_ext _ (id ∈ ids)) by apply elem_of_list_to_set.
Qed.

Lemma mark_txs_nil (d d' : DB) contextID status now :
  set_txs (mark_txs d contextID [] status now) d' = d'.
Proof.
  destruct d'. unfold set_txs. cbn. f_equal. apply map_eq. intros id. rewrite mark_txs_lookup.
  rewrite bool_decide_eq_false_2 by set_solver. cbn. by destruct (_ !! id).
Qed.

Lemma executeMark_spec contextID ids status :
  tx_spec (executeMark contextID ids status) (fun d d' _ => exists now,
    d' = set_txs (mark_txs d contextID ids status now) d).
Proof.
  unfold executeMark.
  eapply tx_weaken; [eapply (tx_bind _ _ _ (fun _ d d' _ =>
    exists now, d' = set_txs (mark_txs d contextID ids status now) d)); [apply tx_lift|intros _]|].
  { case_bool_decide as E.
    - eapply tx_weaken; [apply tx_ret|]. intros d d' x [-> _]. exists 0%Z. by rewrite E, mark_txs_nil.
    - eapply tx_weaken; [tx_bind; apply tx_sql|]. intros d d' x (d1 & now & -> & H1). exists now.
      unfold BuildMarkStatusQuery in H1. by simplify_eq. }
  intros d d' x (d1 & _ & [-> _] & H). done.
Qed.

Lemma merged_severity_rank excluded existing :
  severity_rank (merged_severity excluded existing) = Nat.max (severity_rank excluded) (severity_rank existing).
Proof.
  unfold merged_severity, severity_rank, ExceptionSeverityCritical, ExceptionSeverityHigh, ExceptionSeverityMedium.
  repeat case_bool_decide; cbn; subst; try lia; try congruence; set_solver.
Qed.

(** Exceptions only accumulate: rows keep their identity, status and creation
    time and never lose severity; each input has a row at least as severe as
    it calls for; rows of other transactions do not change. *)
Record exceptions_grown (inputs : list ExceptionTransactionInput) (now : Time) (rules : list SeverityRule)
    (old new : gmap uuid Exception) : Prop := {
  eg_kept : forall id row, old !! id = Some row -> exists row', new !! id = Some row' /\
    EX_ID row' = EX_ID row /\ EX_Status row' = EX_Status row /\ EX_CreatedAt row' = EX_CreatedAt row /\
    (severity_rank (EX_Severity row) <= severity_rank (EX_Severity row'))%nat;
  eg_added : Forall (fun input => ETI_TransactionID input <> uuid_Nil -> exists row',
    new !! ETI_TransactionID input = Some row' /\
    (severity_rank (classifySeverity input now rules) <= severity_rank (EX_Severity row'))%nat) inputs;
  eg_other : forall id, id ∉ (ETI_TransactionID <$> inputs) -> new !! id = old !! id;
  eg_open : forall id row', old !! id = None -> new !! id = Some row' -> EX_Status row' = "OPEN";
}.

Lemma exceptions_grown_nil now rules m : exceptions_grown [] now rules m m.
Proof. split; [intros id row ->; eauto 10|constructor|done|intros; congruence]. Qed.

Lemma exceptions_grown_cons input inputs now rules old mid new :
  exceptions_grown [input] now rules old mid -> exceptions_grown inputs now rules mid new ->
  exceptions_grown (input :: inputs) now rules old new.
Proof.
  intros [K1 A1 O1 P1] [K2 A2 O2 P2]. split.
  - intros id row Hr. destruct (K1 _ _ Hr) as (r1 & Hr1 & ? & ? & ? & ?).
    destruct (K2 _ _ Hr1) as (r2 & Hr2 & ? & ? & ? & ?). exists r2. split_and!; try congruence. lia.
  - constructor; [|done]. intros Hn. apply Forall_cons in A1 as [A1 _]. destruct (A1 Hn) as (r1 & H1 & ?).
    destruct (K2 _ _ H1) as (r2 & H2 & ? & ? & ? & ?). exists r2. split; [done|lia].
  - intros id Hid. rewrite O2, O1; [done|set_solver..].
  - intros id row Hold Hnew. destruct (mid !! id) as [r|] eqn:E; [|by eapply P2].
    destruct (K2 _ _ E) as (r2 & H2 & _ & Hs & _). rewrite Hnew in H2. simplify_eq. rewrite Hs. by eapply P1.
Qed.

Lemma upsert_exception_row id txID severity reason now d d' u :
  upsert_exception id txID severity reason now d = Ok (d', u) -> exists row,
  d' = set_exceptions <[txID := row]> d /\
  row = match DB_exceptions d !! txID with
        | Some old => reclassified severity reason now old
        | None => opened id txID severity reason now
        end.
Proof.
  unfold upsert_exception. destruct (_ !! txID); [|destruct (exception_at id d)]; intros [= <- _]; eauto.
Qed.

Lemma upsert_exception_grown input id now rules d d' u :
  upsert_exception id (ETI_TransactionID input) (classifySeverity input now rules)
    (sanitizeInputReason (ETI_Reason input)) now d = Ok (d', u) ->
  exists new, d' = set_exceptions (fun _ => new) d /\ exceptions_grown [input] now rules (DB_exceptions d) new.
Proof.
  intros H. apply upsert_exception_row in H as (row & -> & Hrow). eexists. split; [done|].
  set (txID := ETI_TransactionID input) in *. split.
  - intros i r Hr. destruct (decide (i = txID)) as [->|Hn].
    + exists row. rewrite lookup_insert_eq. rewrite Hr in Hrow. subst row. cbn. rewrite merged_severity_rank.
      split_and!; try done. lia.
    + exists r. rewrite lookup_insert_ne by done. by split_and!.
  - apply Forall_singleton. intros _. exists row. rewrite lookup_insert_eq. split; [done|].
    destruct (_ !! txID); subst row; cbn; [rewrite merged_severity_rank|]; lia.
  - intros i Hi. rewrite lookup_insert_ne; [done|]. cbn in Hi. set_solver.
  - intros i r Hold Hr. destruct (decide (i = txID)) as [->|Hn].
    + rewrite lookup_insert_eq in Hr. injection Hr as <-. rewrite Hold in Hrow. by subst row.
    + rewrite lookup_insert_ne in Hr by done. congruence.
Qed.

Lemma insertExceptions_spec now rules inputs :
  tx_spec (insertExceptions now rules inputs) (fun d d' _ => exists new,
    d' = set_exceptions (fun _ => new) d /\ exceptions_grown inputs now rules (DB_exceptions d) new).
Proof.
  induction inputs as [|i inputs IH]; cbn [insertExceptions].
  - eapply tx_weaken; [apply tx_ret|]. intros d d' x [-> _]. exists (DB_exceptions d).
    split; [by destruct d|apply exceptions_grown_nil].
  - case_bool_decide as Hn.
    + eapply tx_weaken; [apply IH|]. intros d d' x (new & -> & Hg). exists new. split; [done|].
      eapply exceptions_grown_cons; [|exact Hg]. split; [intros ? ? ->; eauto 10| |done|intros; congruence].
      by constructor; [|constructor].
    + eapply tx_weaken; [tx_bind; tx_bind; apply IH|].
      intros d d' x (d1 & id & -> & d2 & u & H1 & new & -> & Hg).
      apply upsert_exception_grown in H1 as (mid & -> & Hm). exists new. split; [done|].
      by eapply exceptions_grown_cons.
Qed.

Lemma CreateExceptionsWithTx_spec inputs regulatory :
  tx_spec (CreateExceptionsWithTx inputs regulatory) (fun d d' _ => exists new now,
    d' = set_exceptions (fun _ => new) d /\
    exceptions_grown inputs now (DefaultSeverityRules regulatory) (DB_exceptions d) new).
Proof.
  unfold CreateExceptionsWithTx. case_bool_decide as E.
  - eapply tx_weaken; [apply tx_ret|]. intros d d' x [-> _]. exists (DB_exceptions d), 0%Z. rewrite E.
    split; [by destruct d|apply exceptions_grown_nil].
  - eapply tx_weaken; [tx_bind; apply tx_existing, insertExceptions_spec|].
    intros d d' x (d1 & now & -> & new & -> & Hg). eauto.
Qed.

Lemma insertVariances_spec rows :
  tx_spec (insertVariances rows) (fun d d' _ => d' = set_variances (fun l => l ++ rows) d).
Proof.
  induction rows as [|i rows IH]; cbn [insertVariances].
  - eapply tx_weaken; [apply tx_ret|]. intros d d' x [-> _]. destruct d; unfold set_variances; cbn.
    by rewrite app_nil_r.
  - eapply tx_weaken; [tx_bind; apply IH|]. intros d d' x (d1 & [] & H1 & ->).
    unfold insert_variance in H1. case_bool_decide; simplify_eq. unfold set_variances. cbn. by rewrite <- app_assoc.
Qed.

Lemma feeVarianceRepo_CreateBatchWithTx_spec rows :
  tx_spec (feeVarianceRepo_CreateBatchWithTx rows) (fun d d' _ => d' = set_variances (fun l => l ++ rows) d).
Proof.
  unfold feeVarianceRepo_CreateBatchWithTx. case_bool_decide as E.
  - rewrite E. eapply tx_weaken; [apply tx_ret|]. intros d d' x [-> _]. destruct d; unfold set_variances; cbn.
    by rewrite app_nil_r.
  - eapply tx_weaken; [apply tx_existing; eapply tx_bind; [apply insertVariances_spec|intros ?; apply tx_ret]|].
    by intros d d' x (d2 & _ & -> & -> & _).
Qed.

Lemma outboxRepo_CreateWithTx_spec event :
  tx_spec (outboxRepo_CreateWithTx event) (fun d d' _ => d' = set_outbox (fun l => l ++ [event]) d).
Proof. eapply tx_weaken; [apply tx_sql|]. by intros d d' x [= <- _]. Qed.
End repository_specs.

(** ** A concrete environment *)
Definition never (_ : nat) : bool := false.
Definition model_env (dbFails ctxDone lockLost : nat -> bool) : Env model_uuid := {|
  env_newID n := "id" +:+ pretty n;
  env_now n := Z.of_nat n;
  env_dbFails := dbFails;
  env_ctxDone := ctxDone;
  env_lockLost := lockLost;
  env_execID n := "exec" +:+ pretty n;
  env_execNow n := Z.of_nat n;
  env_execDone := never;
|}.
#[export] Instance quiet_env : Env model_uuid := model_env never never never.
Definition emptyDB : @DB model_uuid model_decimal := mkDB (U:=model_uuid) (D:=model_decimal) ∅ ∅ [] ∅ ∅ ∅ ∅ [] [] ∅ [] ∅ ∅ ∅.
Definition in_transaction (d : @DB model_uuid model_decimal) : @World model_uuid model_decimal :=
  mkWorld (U:=model_uuid) (D:=model_decimal) d (Some d) 0 0 None.
