(* ===== verification/AuditRepo.v ===== *)
(** * The audit log repository

    internal/governance/adapters/postgres/audit_log_write.postgresql.go: an
    audit log takes the next number of its tenant's chain, hashes itself after
    the previous record and is inserted, inside the caller's transaction.

    [executeCreate_extends] shows that the stored chain of every tenant keeps
    verifying.  [writers_keep_chain] is the concurrent statement: transactions
    of any number of writers interleave statement by statement under
    READ COMMITTED with the row lock the code takes, any of them may abort at
    any point, and in every reachable state the committed rows of each tenant
    form one chain without gaps or forks. *)
From S2P Require Import GoLib GoLibModel FeeStructure FeeSchedule FeeRules MatchTypes Evaluators.
From S2P Require Import Confidence Allocate Engine MatchEntities Transaction RuleDecode RunPrepare.
From S2P Require Import RunExecute Events Severity Sha256 GoTime GoJson AuditChain Store.

Local Open Scope Z_scope.

Section repository.
  Context {U : UUIDLib} {D : DecimalLib} {A : AssertLib} {N : UnicodeLib} {V : Env U}.

(** ** The statements *)

(** [INSERT ... VALUES (tenant, 2) ON CONFLICT DO UPDATE SET next_seq =
    next_seq + 1 RETURNING next_seq - 1]; [next_seq] is a BIGINT. *)
Definition upsert_chain_state (tenantID : uuid) (d : DB) : res CmdError (DB * Z) :=
  match DB_chainState d !! tenantID with
  | None => Ok (set_chainState <[tenantID := 2]> d, 1)
  | Some n => if max_int64 <? n + 1 then Err (ErrDatabase "bigint out of range")
              else Ok (set_chainState <[tenantID := n + 1]> d, n)
  end.

Definition is_record (tenantID : uuid) (seq : Z) (log : AuditLog) : bool :=
  bool_decide (AL_TenantID log = tenantID) && (AL_TenantSeq log =? seq).

Definition select_record_hash (tenantID : uuid) (seq : Z) (d : DB) : res CmdError (DB * bytes) :=
  match find (is_record tenantID seq) (DB_auditLogs d) with
  | Some log => Ok (d, AL_RecordHash log)
  | None => Err (ErrAudit (ErrPreviousRecordNotFound seq))
  end.

(** The unique keys of the table: [(id, created_at)] and
    [(tenant_id, tenant_seq, created_at)]. *)
Definition same_key (a b : AuditLog) : bool :=
  bool_decide (AL_CreatedAt a = AL_CreatedAt b) &&
  (bool_decide (AL_ID a = AL_ID b)
   || bool_decide (AL_TenantID a = AL_TenantID b) && (AL_TenantSeq a =? AL_TenantSeq b)).

Definition insert_audit_log (row : AuditLog) (d : DB) : res CmdError (DB * AuditLog) :=
  if existsb (same_key row) (DB_auditLogs d) then Err ErrDuplicateKey
  else Ok (set_auditLogs (fun rows => rows ++ [row]) d, row).

(** ** The operations *)
Definition acquireNextSequence (tenantID : uuid) : io Z :=
  _ ← sql false (fun d => Ok (d, tt));
  sql false (upsert_chain_state tenantID).

Definition getPreviousHash (tenantID : uuid) (currentSeq : Z) : io bytes :=
  if currentSeq =? 1 then mret GenesisHash
  else sql false (select_record_hash tenantID (currentSeq - 1)).

(** The row of a log with its place in the chain. *)
Definition chained (log : AuditLog) (tenantID : uuid) (seq : Z) (prev hash : bytes) : AuditLog :=
  mkAuditLog (AL_ID log) tenantID (AL_EntityType log) (AL_EntityID log) (AL_Action log) (AL_ActorID log)
    (AL_Changes log) (time_Truncate (AL_CreatedAt log) nanos_per_microsecond) seq prev hash HashVersion.

Definition hash_log (log : AuditLog) (tenantID : uuid) (seq : Z) (prev : bytes) : res CmdError AuditLog :=
  hash ← map_err (fun e => ErrAudit (ErrAuditHash e))
           (ComputeRecordHash prev (record_data (chained log tenantID seq prev [])));
  Ok (chained log tenantID seq prev hash).

(** [ctxTenant] is the tenant of the request, when it is there and parses. *)
Definition executeCreate (ctxTenant : option uuid) (auditLog : AuditLog) : io AuditLog :=
  let tenantID := default (AL_TenantID auditLog) ctxTenant in
  tenantSeq ← acquireNextSequence tenantID;
  prevHash ← getPreviousHash tenantID tenantSeq;
  row ← st_lift (hash_log auditLog tenantID tenantSeq prevHash);
  sql false (insert_audit_log row).

Definition auditLogRepo_Create (ctxTenant : option uuid) (auditLog : AuditLog) : io AuditLog :=
  WithTx false (executeCreate ctxTenant auditLog).
Definition auditLogRepo_CreateWithTx (ctxTenant : option uuid) (auditLog : AuditLog) : io AuditLog :=
  ExistingTx (executeCreate ctxTenant auditLog).

(** ** The stored chains *)

Definition tenant_logs (tenantID : uuid) (rows : list AuditLog) : list AuditLog :=
  filter (fun log => AL_TenantID log = tenantID) rows.

(** Rows numbered [1 .. n] that verify. *)
Definition chain_ok (rows : list AuditLog) : Prop :=
  VerifyChain (chain_record <$> rows) = Ok tt /\
  forall i log, rows !! i = Some log -> AL_TenantSeq log = Z.of_nat i + 1.

(** Every tenant's rows are a chain and its counter is the next number. *)
Record chains_wf (rows : list AuditLog) (next : gmap uuid Z) : Prop := {
  wf_chain : forall t, chain_ok (tenant_logs t rows);
  wf_next : forall t, default 1 (next !! t) = Z.of_nat (length (tenant_logs t rows)) + 1;
  wf_max : forall t n, next !! t = Some n -> n <= max_int64;
}.

(** ** Extending a chain *)
Definition last_hash (rows : list AuditLog) : bytes := default GenesisHash (AL_RecordHash <$> last rows).

Lemma hash_log_Ok log t seq prev row :
  hash_log log t seq prev = Ok row ->
  exists hash, row = chained log t seq prev hash /\ ComputeRecordHash prev (record_data row) = Ok hash.
Proof. unfold hash_log. intros H. res_inv. eauto. Qed.

Lemma hash_log_link log t seq prev row :
  hash_log log t seq prev = Ok row -> verify_link prev (chain_record row) = Ok tt.
Proof.
  intros (hash & -> & H)%hash_log_Ok. apply verify_link_spec. unfold ComputeRecordHash in H. res_inv.
  apply Nat.eqb_eq in Hx. cbn [chain_record CR_Data CR_PrevHash CR_RecordHash]. case_match; [|done]. injection H as <-.
  split_and!; eauto.
Qed.

Lemma chain_ok_last rows p :
  chain_ok rows -> last rows = Some p -> AL_TenantSeq p = Z.of_nat (length rows).
Proof.
  intros [_ Hn] Hl. rewrite last_lookup in Hl. rewrite (Hn _ _ Hl).
  apply lookup_lt_Some in Hl. lia.
Qed.

Lemma chain_ok_extend rows log t row :
  chain_ok rows -> hash_log log t (Z.of_nat (length rows) + 1) (last_hash rows) = Ok row ->
  Z.of_nat (length rows) + 1 <= max_int64 -> chain_ok (rows ++ [row]).
Proof.
  intros Hc Hh Hmax. pose proof (hash_log_link _ _ _ _ _ Hh) as Hv.
  destruct (hash_log_Ok _ _ _ _ _ Hh) as (hash & Hrow & _). split.
  - rewrite fmap_app. apply VerifyChain_snoc. split; [apply Hc|]. unfold next_link. rewrite fmap_last.
    unfold last_hash in Hv. destruct (last rows) as [p|] eqn:Hl; cbn in Hv |- *.
    + rewrite (chain_ok_last _ _ Hc Hl). rewrite Hrow at 1. cbn. split; [|done].
      unfold int64, max_int64 in *. rewrite Z.mod_small by lia. lia.
    + apply last_None in Hl as ->. rewrite Hrow at 1. done.
  - intros i l Hi. apply lookup_app_Some in Hi as [Hi|[Hi1 Hi2]]; [by apply Hc|].
    apply list_lookup_singleton_Some in Hi2 as [Hi2 <-]. rewrite Hrow. cbn. lia.
Qed.

(** The row the previous hash is read from. *)
Lemma find_record t seq rows :
  find (is_record t seq) rows = find (fun log => AL_TenantSeq log =? seq) (tenant_logs t rows).
Proof.
  induction rows as [|log rows IH]; [done|]. unfold tenant_logs in *. rewrite filter_cons.
  cbn [find]. unfold is_record at 1. destruct (decide (AL_TenantID log = t)); cbn [find].
  - rewrite bool_decide_eq_true_2 by done. cbn [andb]. by rewrite IH.
  - rewrite bool_decide_eq_false_2 by done. exact IH.
Qed.

Lemma find_numbered (rows : list AuditLog) k p :
  (forall i log, rows !! i = Some log -> AL_TenantSeq log = Z.of_nat (k + i) + 1) -> last rows = Some p ->
  find (fun log => AL_TenantSeq log =? Z.of_nat (k + length rows)) rows = Some p.
Proof.
  revert k. induction rows as [|log rows IH]; intros k Hn Hl; [done|].
  pose proof (Hn 0%nat log eq_refl) as H0. destruct rows as [|log' rows].
  - cbn in *. injection Hl as ->. by rewrite (proj2 (Z.eqb_eq _ _)) by lia.
  - replace (k + length (log :: log' :: rows))%nat with (S k + length (log' :: rows))%nat by (cbn; lia).
    cbn [find]. rewrite (proj2 (Z.eqb_neq _ _)) by (cbn; lia). apply IH; [|done].
    intros i l Hi. rewrite (Hn (S i) l Hi). lia.
Qed.

Lemma select_previous t d :
  chain_ok (tenant_logs t (DB_auditLogs d)) -> tenant_logs t (DB_auditLogs d) <> [] ->
  select_record_hash t (Z.of_nat (length (tenant_logs t (DB_auditLogs d)))) d
  = Ok (d, last_hash (tenant_logs t (DB_auditLogs d))).
Proof.
  intros [_ Hn] Hne. unfold select_record_hash, last_hash. rewrite find_record.
  destruct (last (tenant_logs t (DB_auditLogs d))) as [p|] eqn:Hl; [|by apply last_None in Hl].
  pose proof (find_numbered _ 0 p Hn Hl) as Hf. cbn [Nat.add] in Hf. by rewrite Hf.
Qed.

Lemma tenant_logs_snoc t rows row :
  tenant_logs t (rows ++ [row]) = tenant_logs t rows ++ (if decide (AL_TenantID row = t) then [row] else []).
Proof. unfold tenant_logs. rewrite filter_app, filter_cons. by destruct (decide _). Qed.

Lemma chains_wf_extend rows next t log row :
  let n := Z.of_nat (length (tenant_logs t rows)) + 1 in
  chains_wf rows next -> hash_log log t n (last_hash (tenant_logs t rows)) = Ok row -> n + 1 <= max_int64 ->
  chains_wf (rows ++ [row]) (<[t := n + 1]> next).
Proof.
  intros n [Hc Hn Hm] Hh Hmax. assert (AL_TenantID row = t) as Ht by (by apply hash_log_Ok in Hh as (hash & -> & _)).
  split.
  - intros t'. rewrite tenant_logs_snoc. destruct (decide (AL_TenantID row = t')) as [<-|]; [|by rewrite app_nil_r].
    subst t. eapply chain_ok_extend; [apply Hc|exact Hh|lia].
  - intros t'. rewrite tenant_logs_snoc, length_app. destruct (decide (AL_TenantID row = t')) as [<-|Hne].
    + subst t. rewrite lookup_insert_eq. cbn. lia.
    + rewrite lookup_insert_ne by congruence. rewrite Hn. cbn. lia.
  - intros t' n' H. apply lookup_insert_Some in H as [[_ <-]|[_ H]]; [lia|by eapply Hm].
Qed.

(** ** One writer *)

(** What a successful call did: it appended one row, holding the given log
    under the request's tenant, and moved the counter. *)
Definition appended (ctxTenant : option uuid) (log : AuditLog) (d d' : DB) (row : AuditLog) : Prop :=
  let t := default (AL_TenantID log) ctxTenant in
  (exists next, d' = set_chainState (fun _ => next) (set_auditLogs (fun rows => rows ++ [row]) d)) /\
  exists seq prev hash, row = chained log t seq prev hash.

Lemma getPreviousHash_spec t seq :
  tx_spec (getPreviousHash t seq) (fun d d' prev => d' = d /\
    (if seq =? 1 then prev = GenesisHash else select_record_hash t (seq - 1) d = Ok (d, prev))).
Proof.
  unfold getPreviousHash. destruct (seq =? 1).
  - eapply tx_weaken; [apply tx_ret|]. intros d d' x [-> ->]. done.
  - eapply tx_weaken; [apply tx_sql|]. intros d d' x H. unfold select_record_hash in *. case_match; [|done].
    injection H as <- <-. done.
Qed.

(** In a well-formed store the number taken is the next one and the hash read
    is that of the last record. *)
Lemma upsert_chain_state_wf t d d' seq :
  chains_wf (DB_auditLogs d) (DB_chainState d) -> upsert_chain_state t d = Ok (d', seq) ->
  seq = Z.of_nat (length (tenant_logs t (DB_auditLogs d))) + 1 /\ seq + 1 <= max_int64 /\
  d' = set_chainState <[t := seq + 1]> d.
Proof.
  intros [_ Hn _]. specialize (Hn t). unfold upsert_chain_state.
  destruct (DB_chainState d !! t) as [n|]; cbn in Hn.
  - destruct (Z.ltb_spec max_int64 (n + 1)); [done|]. intros [= <- <-]. split_and!; [lia|lia|done].
  - intros [= <- <-]. split_and!; [lia|done|done].
Qed.

Lemma previous_hash_wf t rows d seq prev :
  chain_ok (tenant_logs t rows) -> DB_auditLogs d = rows -> seq = Z.of_nat (length (tenant_logs t rows)) + 1 ->
  (if seq =? 1 then prev = GenesisHash else select_record_hash t (seq - 1) d = Ok (d, prev)) ->
  prev = last_hash (tenant_logs t rows).
Proof.
  intros Hc Hr -> H. destruct (tenant_logs t rows) as [|x l] eqn:El; [done|].
  rewrite (proj2 (Z.eqb_neq _ _)) in H by (cbn; lia). rewrite Z.add_simpl_r in H.
  rewrite <-El, <-Hr in Hc. rewrite <-El, <-Hr, select_previous in H; [|done|by rewrite Hr, El].
  injection H as <-. by rewrite Hr, El.
Qed.

Lemma executeCreate_spec ctxTenant log :
  tx_spec (executeCreate ctxTenant log) (fun d d' row =>
    chains_wf (DB_auditLogs d) (DB_chainState d) ->
    chains_wf (DB_auditLogs d') (DB_chainState d') /\ appended ctxTenant log d d' row).
Proof.
  unfold executeCreate, acquireNextSequence, appended. set (t := default _ _).
  eapply tx_weaken.
  { eapply tx_bind; [tx_bind; apply tx_sql|intros seq].
    eapply tx_bind; [apply getPreviousHash_spec|intros prev]. tx_bind. apply tx_sql. }
  intros d d' row (d1 & seq & (d0 & [] & [= <-] & Hup) & d2 & prev & [-> Hprev] & d3 & r & [-> Hh] & Hins) Hwf.
  destruct (upsert_chain_state_wf _ _ _ _ Hwf Hup) as (Hseq & Hmax & ->).
  eapply previous_hash_wf in Hprev; [|apply Hwf|done|done]. subst prev seq.
  unfold insert_audit_log in Hins. case_match; [done|]. injection Hins as <- <-. cbn.
  split; [by eapply chains_wf_extend|]. split; [by eexists|].
  apply hash_log_Ok in Hh as (hash & -> & _). eauto.
Qed.

(** The audit trail stays verifiable.  Whatever the environment does,
    after [Create] every tenant's stored rows are numbered from 1 without gaps
    and pass [VerifyChain], and the counters are right.  A successful call
    appended exactly one row, the given log under the request's tenant; a
    failed call changed nothing. *)
Theorem executeCreate_extends ctxTenant log w :
  W_tx w = None -> chains_wf (DB_auditLogs (W_db w)) (DB_chainState (W_db w)) ->
  let '(w', r) := auditLogRepo_Create ctxTenant log w in
  chains_wf (DB_auditLogs (W_db w')) (DB_chainState (W_db w')) /\
  match r with
  | Ok row => appended ctxTenant log (W_db w) (W_db w') row
  | Err _ => W_db w' = W_db w
  end.
Proof.
  intros Hw Hwf. pose proof (WithTx_spec false _ _ w (executeCreate_spec ctxTenant log) Hw) as H.
  unfold auditLogRepo_Create. destruct (WithTx false _ w) as [w' [row|e]]; destruct H as (_ & _ & _ & H).
  - by apply H.
  - by rewrite H.
Qed.
End repository.

(** ** Concurrent writers

    Each writer runs the statements of [executeCreate] in a transaction of its
    own.  Statements see the committed rows (READ COMMITTED).  The row of
    [audit_log_chain_state] is locked by the SELECT ... FOR UPDATE when it is
    there, by the upsert in any case (an uncommitted insert of the row blocks
    other inserts of it), and until the transaction ends.  A transaction holds
    its changes back until it commits. *)
Section writers.
  Context {U : UUIDLib} {D : DecimalLib} {A : AssertLib} {N : UnicodeLib}.

Inductive writer : Type :=
| Begun (log : AuditLog)
| Checked (log : AuditLog)
| Numbered (log : AuditLog) (seq : Z)
| Linked (log : AuditLog) (seq : Z) (prev : bytes)
| Inserted (row : AuditLog)
| Finished.

Definition writer_tenant (x : writer) : option uuid :=
  match x with
  | Begun log | Checked log | Numbered log _ | Linked log _ _ | Inserted log => Some (AL_TenantID log)
  | Finished => None
  end.

Record server : Type := mkServer {
  SV_db : DB;
  SV_lock : gmap uuid nat;
  SV_writers : gmap nat writer;
}.

Definition set_writer (i : nat) (x : writer) (s : server) : server :=
  mkServer (SV_db s) (SV_lock s) (<[i := x]> (SV_writers s)).
Definition take_lock (t : uuid) (i : nat) (s : server) : server :=
  mkServer (SV_db s) (<[t := i]> (SV_lock s)) (SV_writers s).
(** The end of transaction [i] releases its lock. *)
Definition release (t : uuid) (i : nat) (s : server) : server :=
  mkServer (SV_db s) (if decide (SV_lock s !! t = Some i) then delete t (SV_lock s) else SV_lock s) (SV_writers s).

(** What a commit publishes. *)
Definition publish (row : AuditLog) (d : DB) : DB :=
  set_auditLogs (fun rows => rows ++ [row]) (set_chainState <[AL_TenantID row := AL_TenantSeq row + 1]> d).

Definition lock_free (t : uuid) (i : nat) (s : server) : Prop := SV_lock s !! t = None \/ SV_lock s !! t = Some i.

Inductive writer_step : server -> server -> Prop :=
| step_begin s i log :
    SV_writers s !! i = None -> writer_step s (set_writer i (Begun log) s)
| step_lock s i log n :
    SV_writers s !! i = Some (Begun log) -> DB_chainState (SV_db s) !! AL_TenantID log = Some n ->
    lock_free (AL_TenantID log) i s ->
    writer_step s (set_writer i (Checked log) (take_lock (AL_TenantID log) i s))
| step_no_row s i log :
    SV_writers s !! i = Some (Begun log) -> DB_chainState (SV_db s) !! AL_TenantID log = None ->
    writer_step s (set_writer i (Checked log) s)
| step_upsert s i log d seq :
    SV_writers s !! i = Some (Checked log) -> lock_free (AL_TenantID log) i s ->
    upsert_chain_state (AL_TenantID log) (SV_db s) = Ok (d, seq) ->
    writer_step s (set_writer i (Numbered log seq) (take_lock (AL_TenantID log) i s))
| step_link s i log seq prev :
    SV_writers s !! i = Some (Numbered log seq) ->
    (if seq =? 1 then prev = GenesisHash
     else select_record_hash (AL_TenantID log) (seq - 1) (SV_db s) = Ok (SV_db s, prev)) ->
    writer_step s (set_writer i (Linked log seq prev) s)
| step_insert s i log seq prev row d :
    SV_writers s !! i = Some (Linked log seq prev) -> hash_log log (AL_TenantID log) seq prev = Ok row ->
    insert_audit_log row (SV_db s) = Ok (d, row) ->
    writer_step s (set_writer i (Inserted row) s)
| step_commit s i row :
    SV_writers s !! i = Some (Inserted row) ->
    writer_step s (release (AL_TenantID row) i
      (mkServer (publish row (SV_db s)) (SV_lock s) (<[i := Finished]> (SV_writers s))))
| step_abort s i x t :
    SV_writers s !! i = Some x -> writer_tenant x = Some t ->
    writer_step s (release t i (set_writer i Finished s)).

(** What holds of a writer that has its number: it holds the lock, and the
    rows of its tenant are still those it read. *)
Definition writer_ok (s : server) (i : nat) (x : writer) : Prop :=
  let at_number t seq := SV_lock s !! t = Some i /\
    seq = Z.of_nat (length (tenant_logs t (DB_auditLogs (SV_db s)))) + 1 /\ seq + 1 <= max_int64 in
  match x with
  | Begun _ | Checked _ | Finished => True
  | Numbered log seq => at_number (AL_TenantID log) seq
  | Linked log seq prev =>
      at_number (AL_TenantID log) seq /\ prev = last_hash (tenant_logs (AL_TenantID log) (DB_auditLogs (SV_db s)))
  | Inserted row =>
      at_number (AL_TenantID row) (AL_TenantSeq row) /\
      exists log, hash_log log (AL_TenantID row) (AL_TenantSeq row)
                    (last_hash (tenant_logs (AL_TenantID row) (DB_auditLogs (SV_db s)))) = Ok row
  end.

Record server_ok (s : server) : Prop := {
  ok_chains : chains_wf (DB_auditLogs (SV_db s)) (DB_chainState (SV_db s));
  ok_writers : forall i x, SV_writers s !! i = Some x -> writer_ok s i x;
}.

(** A writer is undisturbed when its tenant's rows and its lock are. *)
Lemma writer_ok_frame s s' i x :
  (forall t, writer_tenant x = Some t -> SV_lock s !! t = Some i ->
     tenant_logs t (DB_auditLogs (SV_db s')) = tenant_logs t (DB_auditLogs (SV_db s)) /\ SV_lock s' !! t = Some i) ->
  writer_ok s i x -> writer_ok s' i x.
Proof.
  intros Hf. destruct x as [log|log|log seq|log seq prev|row|]; cbn in *; try done.
  - intros (Hl & Hs & Hm). destruct (Hf _ eq_refl Hl) as [-> ->]. done.
  - intros ((Hl & Hs & Hm) & Hp). destruct (Hf _ eq_refl Hl) as [-> ->]. done.
  - intros ((Hl & Hs & Hm) & Hp). destruct (Hf _ eq_refl Hl) as [-> ->]. done.
Qed.

Lemma release_ne t i s t' j : i <> j -> SV_lock s !! t' = Some j -> SV_lock (release t i s) !! t' = Some j.
Proof.
  intros Hne Hl. unfold release. cbn. destruct (decide _) as [Hd|]; [|done].
  rewrite lookup_delete_ne; [done|]. intros ->. congruence.
Qed.

(** A step that only moves writer [i]. *)
Lemma server_ok_move s i x :
  server_ok s -> writer_ok (set_writer i x s) i x -> server_ok (set_writer i x s).
Proof.
  intros [Hc Hw] Hx. split; [done|]. intros j y Hy. cbn in Hy. apply lookup_insert_Some in Hy as [[-> ->]|[Hne Hy]]; [done|].
  eapply writer_ok_frame; [|by apply Hw]. done.
Qed.

Lemma server_ok_lock s t i : lock_free t i s -> server_ok s -> server_ok (take_lock t i s).
Proof.
  intros Hfree [Hc Hw]. split; [done|]. intros j y Hy. eapply writer_ok_frame; [|by apply Hw].
  intros t' _ Hl. split; [done|]. cbn. rewrite lookup_insert_Some.
  destruct (decide (t = t')) as [<-|]; [|by right]. left. destruct Hfree; split; congruence.
Qed.

Lemma server_ok_commit s i row :
  server_ok s -> SV_writers s !! i = Some (Inserted row) ->
  server_ok (release (AL_TenantID row) i
    (mkServer (publish row (SV_db s)) (SV_lock s) (<[i := Finished]> (SV_writers s)))).
Proof.
  intros [Hc Hw] Hi. destruct (Hw i _ Hi) as ((Hl & Hs & Hm) & log & Hh). split.
  - cbn. rewrite Hs in Hh, Hm |- *. by eapply chains_wf_extend.
  - intros j y Hy. cbn in Hy. apply lookup_insert_Some in Hy as [[-> <-]|[Hne Hy]]; [done|].
    eapply writer_ok_frame; [|by apply Hw]. intros t' _ Hl'. split; [|by apply release_ne].
    change (tenant_logs t' (DB_auditLogs (SV_db s) ++ [row]) = tenant_logs t' (DB_auditLogs (SV_db s))).
    rewrite tenant_logs_snoc. destruct (decide _) as [<-|]; [congruence|by rewrite app_nil_r].
Qed.

Lemma server_ok_abort s i t : server_ok s -> server_ok (release t i (set_writer i Finished s)).
Proof.
  intros [Hc Hw]. split; [done|]. intros j y Hy. cbn in Hy.
  apply lookup_insert_Some in Hy as [[-> <-]|[Hne Hy]]; [done|].
  eapply writer_ok_frame; [|by apply Hw]. intros t' _ Hl'. split; [done|by apply release_ne].
Qed.

Lemma writer_step_ok s s' : writer_step s s' -> server_ok s -> server_ok s'.
Proof.
  intros [s0 i log Hi|s0 i log n Hi Hn Hf|s0 i log Hi Hn|s0 i log d seq Hi Hf Hu|s0 i log seq prev Hi Hp
    |s0 i log seq prev row d Hi Hh Hins|s0 i row Hi|s0 i x t Hi Ht] Hok.
  - by apply server_ok_move.
  - apply server_ok_move; [by apply server_ok_lock|done].
  - by apply server_ok_move.
  - apply server_ok_move; [by apply server_ok_lock|].
    destruct (upsert_chain_state_wf _ _ _ _ (ok_chains _ Hok) Hu) as (Hs & Hm & _).
    cbn. split_and!; [by rewrite lookup_insert_eq|done|done].
  - apply server_ok_move; [done|]. destruct (ok_writers _ Hok i _ Hi) as (Hl & Hs & Hm).
    split; [done|]. by eapply previous_hash_wf; [apply (ok_chains _ Hok)|..].
  - apply server_ok_move; [done|]. destruct (ok_writers _ Hok i _ Hi) as ((Hl & Hs & Hm) & ->).
    destruct (hash_log_Ok _ _ _ _ _ Hh) as (hash & Hrow & _).
    assert (AL_TenantID row = AL_TenantID log) as Ht by (by rewrite Hrow).
    assert (AL_TenantSeq row = seq) as Hq by (by rewrite Hrow).
    cbn. rewrite Ht, Hq. split; [done|]. by exists log.
  - by apply server_ok_commit.
  - by apply server_ok_abort.
Qed.

Lemma writer_step_appends s s' :
  writer_step s s' -> DB_auditLogs (SV_db s) `prefix_of` DB_auditLogs (SV_db s').
Proof. intros []; cbn; try reflexivity. by apply prefix_app_r. Qed.

(** C11: concurrent audit writers cannot fork the chain.  Start from a store
    whose chains are well-formed, with no transaction open, and let any number
    of writers begin, run their statements, commit or abort in any order.  In
    every state reached, each tenant's committed rows are numbered from 1
    without gaps or repetitions, each links to the hash of the one before, the
    whole chain verifies, and no row committed earlier was lost. *)
Theorem writers_keep_chain s0 s :
  rtc writer_step s0 s -> chains_wf (DB_auditLogs (SV_db s0)) (DB_chainState (SV_db s0)) -> SV_writers s0 = ∅ ->
  (forall t, chain_ok (tenant_logs t (DB_auditLogs (SV_db s)))) /\
  DB_auditLogs (SV_db s0) `prefix_of` DB_auditLogs (SV_db s).
Proof.
  intros Hr Hc Hw. assert (server_ok s0) as Hok by (split; [done|intros i x; by rewrite Hw, lookup_empty]). clear Hc Hw.
  induction Hr as [s|s1 s2 s3 H12 _ IH]; [split; [apply Hok|done]|].
  destruct (IH (writer_step_ok _ _ H12 Hok)) as [H1 H2]. split; [done|].
  etrans; [by eapply writer_step_appends|done].
Qed.
End writers.

(** ** Two writers of one tenant *)
Lemma chains_wf_empty {U : UUIDLib} : chains_wf [] ∅.
Proof.
  split.
  - intros t. split; [done|]. by intros [|i] log H.
  - intros t. by rewrite lookup_empty.
  - intros t n. by rewrite lookup_empty.
Qed.

Definition sample_log (id : string) : AuditLog (U:=model_uuid) :=
  mkAuditLog (U:=model_uuid) id "t1" "adjustment" "e1" "CREATE" (Some "ana") (bytes_of "{}")
    1768473000120000123 0 [] [] 0.
Definition sample_audit_world : @World model_uuid model_decimal := mkWorld emptyDB None 0 0 None.
Definition sample_create :=
  auditLogRepo_Create (V:=quiet_env) (Some "t1" : option (@uuid model_uuid))
    (sample_log "a1") sample_audit_world.

Lemma sample_create_seq :
  match sample_create with (_, Ok row) => AL_TenantSeq row = 1 /\ AL_CreatedAt row = 1768473000120000000 | _ => False end.
Proof. by vm_compute. Qed.

Lemma executeCreate_extends_witness :
  exists w' row, sample_create = (w', Ok row) /\ AL_TenantSeq row = 1 /\
    chains_wf (DB_auditLogs (W_db w')) (DB_chainState (W_db w')).
Proof.
  pose proof sample_create_seq as Hs. destruct sample_create as [w' [row|]] eqn:E; [|destruct Hs].
  exists w', row. split; [reflexivity|]. split; [exact (proj1 Hs)|]. unfold sample_create in E.
  pose proof (executeCreate_extends (V:=quiet_env) (Some "t1")
    (sample_log "a1") sample_audit_world eq_refl chains_wf_empty) as H.
  rewrite E in H. exact (proj1 H).
Defined.

Lemma sample_row_Ok : exists hash,
  hash_log (sample_log "a1") "t1" 1 GenesisHash = Ok (chained (sample_log "a1") "t1" 1 GenesisHash hash).
Proof.
  destruct (hash_log (sample_log "a1") "t1" 1 GenesisHash) as [row|] eqn:E.
  - destruct (hash_log_Ok _ _ _ _ _ E) as (hash & -> & _). by exists hash.
  - assert (is_Ok (hash_log (sample_log "a1") "t1" 1 GenesisHash) = true) as H by (by vm_compute). by rewrite E in H.
Qed.

Definition sample_server : server := mkServer emptyDB ∅ ∅.

Lemma writers_keep_chain_witness :
  exists s hash, rtc writer_step sample_server s /\
    DB_auditLogs (SV_db s) = [chained (sample_log "a1") "t1" 1 GenesisHash hash] /\
    forall t, chain_ok (tenant_logs t (DB_auditLogs (SV_db s))).
Proof.
  destruct sample_row_Ok as [hash Hrow]. set (row := chained _ _ _ _ hash) in Hrow.
  eexists. exists hash. fold row. match goal with |- ?R /\ ?Q /\ ?P => assert (R /\ Q) as [H1 H2] end.
  - split.
    + eapply rtc_l; [apply (step_begin _ 1 (sample_log "a1")); reflexivity|].
      eapply rtc_l; [apply (step_begin _ 2 (sample_log "a2")); reflexivity|].
      eapply rtc_l; [apply (step_no_row _ 1 (sample_log "a1")); reflexivity|].
      eapply rtc_l; [apply (step_no_row _ 2 (sample_log "a2")); reflexivity|].
      eapply rtc_l; [eapply (step_upsert _ 1 (sample_log "a1")); [reflexivity|left; reflexivity|reflexivity]|].
      eapply rtc_l; [apply (step_link _ 1 (sample_log "a1") 1 GenesisHash); reflexivity|].
      eapply rtc_l; [eapply (step_insert _ 1 (sample_log "a1") 1 GenesisHash row);
        [reflexivity|exact Hrow|reflexivity]|].
      eapply rtc_l; [apply (step_commit _ 1 row); reflexivity|].
      apply rtc_refl.
    + reflexivity.
  - split; [exact H1|]. split; [exact H2|].
    exact (proj1 (writers_keep_chain _ _ H1 chains_wf_empty eq_refl)).
Defined.
