(* ===== verification/Archive.v ===== *)
(** * Archival of audit log partitions

    internal/governance/domain/entities/archive_metadata.go (the state machine
    of one archive), internal/governance/services/worker/archival_batch.go,
    archival_upload.go and archival_cleanup.go (the worker that moves a monthly
    partition to object storage and drops it), and the partition manager of
    internal/governance/services/command/partition_commands.go.

    The worker runs against a database and an object store that may fail or
    answer anything at any step ([ArchiveEnv]); a crash is a run in which every
    later step fails.  [archivePartition_safe] shows that, over any sequence of
    calls, a partition is dropped only after the object store returned a copy
    of exactly the rows it held (or SHA-256 collided on them), and that an
    archive is recorded COMPLETE exactly when its partition is gone. *)
From stdpp Require Import pretty.
From S2P Require Import GoLib GoLibModel Sha256 GoTime GoJson AuditChain.

Local Open Scope Z_scope.

(** ** The archive and its states *)
Inductive ArchiveStatus : Type :=
| StatusPending | StatusExporting | StatusExported | StatusUploading | StatusUploaded
| StatusVerifying | StatusVerified | StatusDetaching | StatusComplete.
#[global] Instance ArchiveStatus_eq_dec : EqDecision ArchiveStatus.
Proof. solve_decision. Defined.

Inductive ArchiveError : Type :=
| ErrInvalidStateTransition (from to : ArchiveStatus)
| ErrArchiveTenantIDRequired | ErrPartitionNameRequired | ErrDateRangeStartRequired | ErrDateRangeEndRequired
| ErrDateRangeEndBeforeStart | ErrRowCountMustBeNonNegative | ErrArchiveKeyRequired | ErrChecksumRequired
| ErrCompressedSizeNonNegative | ErrStorageClassRequired
| ErrChecksumMismatch | ErrRowCountMismatch | ErrLineTooLong
| ErrInvalidPartitionName | ErrRetentionPeriodActive | ErrPartitionAbsent | ErrTransactionAborted
| ErrMetadataNotFound | ErrInfrastructure.

Section archive.
  Context {U : UUIDLib} {A : AssertLib}.

Record ArchiveMetadata : Type := mkArchiveMetadata {
  AM_ID : uuid;
  AM_TenantID : uuid;
  AM_PartitionName : string;
  AM_DateRangeStart : Time;
  AM_DateRangeEnd : Time;
  AM_RowCount : Z;
  AM_ArchiveKey : string;
  AM_Checksum : string;
  AM_CompressedSizeBytes : Z;
  AM_StorageClass : string;
  AM_Status : ArchiveStatus;
  AM_ErrorMessage : string;
  AM_ArchivedAt : option Time;
  AM_CreatedAt : Time;
  AM_UpdatedAt : Time;
}.

Definition NewArchiveMetadata (newID : uuid) (now : Time) (tenantID : uuid) (partitionName : string)
    (rangeStart rangeEnd : Time) : res ArchiveError ArchiveMetadata :=
  _ ← ensure (assert_That (negb (bool_decide (tenantID = uuid_Nil)))) ErrArchiveTenantIDRequired;
  _ ← ensure (assert_NotEmpty partitionName) ErrPartitionNameRequired;
  _ ← ensure (assert_That (negb (time_IsZero rangeStart))) ErrDateRangeStartRequired;
  _ ← ensure (assert_That (negb (time_IsZero rangeEnd))) ErrDateRangeEndRequired;
  _ ← ensure (assert_That (time_After rangeEnd rangeStart)) ErrDateRangeEndBeforeStart;
  Ok (mkArchiveMetadata newID tenantID partitionName rangeStart rangeEnd 0 "" "" 0 "" StatusPending "" None now now).

(** A transition sets the status and the time of the update. *)
Definition with_status (to : ArchiveStatus) (now : Time) (am : ArchiveMetadata) : ArchiveMetadata :=
  mkArchiveMetadata (AM_ID am) (AM_TenantID am) (AM_PartitionName am) (AM_DateRangeStart am) (AM_DateRangeEnd am)
    (AM_RowCount am) (AM_ArchiveKey am) (AM_Checksum am) (AM_CompressedSizeBytes am) (AM_StorageClass am)
    to (AM_ErrorMessage am) (AM_ArchivedAt am) (AM_CreatedAt am) now.

Definition expect_status (from to : ArchiveStatus) : st ArchiveMetadata ArchiveError unit :=
  am ← st_get; st_ensure (bool_decide (AM_Status am = from)) (ErrInvalidStateTransition (AM_Status am) to).

Definition MarkExporting (now : Time) : st ArchiveMetadata ArchiveError unit :=
  _ ← expect_status StatusPending StatusExporting; st_modify (with_status StatusExporting now).

Definition MarkExported (rowCount : Z) (now : Time) : st ArchiveMetadata ArchiveError unit :=
  _ ← expect_status StatusExporting StatusExported;
  _ ← st_ensure (negb (rowCount <? 0)) ErrRowCountMustBeNonNegative;
  st_modify (fun am => mkArchiveMetadata (AM_ID am) (AM_TenantID am) (AM_PartitionName am) (AM_DateRangeStart am)
    (AM_DateRangeEnd am) rowCount (AM_ArchiveKey am) (AM_Checksum am) (AM_CompressedSizeBytes am) (AM_StorageClass am)
    StatusExported (AM_ErrorMessage am) (AM_ArchivedAt am) (AM_CreatedAt am) now).

Definition MarkUploading (now : Time) : st ArchiveMetadata ArchiveError unit :=
  _ ← expect_status StatusExported StatusUploading; st_modify (with_status StatusUploading now).

Definition MarkUploaded (archiveKey checksum : string) (compressedSize : Z) (storageClass : string) (now : Time)
    : st ArchiveMetadata ArchiveError unit :=
  _ ← expect_status StatusUploading StatusUploaded;
  _ ← st_ensure (negb (string_empty archiveKey)) ErrArchiveKeyRequired;
  _ ← st_ensure (negb (string_empty checksum)) ErrChecksumRequired;
  _ ← st_ensure (negb (compressedSize <? 0)) ErrCompressedSizeNonNegative;
  _ ← st_ensure (negb (string_empty storageClass)) ErrStorageClassRequired;
  st_modify (fun am => mkArchiveMetadata (AM_ID am) (AM_TenantID am) (AM_PartitionName am) (AM_DateRangeStart am)
    (AM_DateRangeEnd am) (AM_RowCount am) archiveKey checksum compressedSize storageClass
    StatusUploaded (AM_ErrorMessage am) (AM_ArchivedAt am) (AM_CreatedAt am) now).

Definition MarkVerifying (now : Time) : st ArchiveMetadata ArchiveError unit :=
  _ ← expect_status StatusUploaded StatusVerifying; st_modify (with_status StatusVerifying now).
Definition MarkVerified (now : Time) : st ArchiveMetadata ArchiveError unit :=
  _ ← expect_status StatusVerifying StatusVerified; st_modify (with_status StatusVerified now).
Definition MarkDetaching (now : Time) : st ArchiveMetadata ArchiveError unit :=
  _ ← expect_status StatusVerified StatusDetaching; st_modify (with_status StatusDetaching now).

Definition MarkComplete (now : Time) : st ArchiveMetadata ArchiveError unit :=
  _ ← expect_status StatusDetaching StatusComplete;
  st_modify (fun am => mkArchiveMetadata (AM_ID am) (AM_TenantID am) (AM_PartitionName am) (AM_DateRangeStart am)
    (AM_DateRangeEnd am) (AM_RowCount am) (AM_ArchiveKey am) (AM_Checksum am) (AM_CompressedSizeBytes am)
    (AM_StorageClass am) StatusComplete (AM_ErrorMessage am) (Some now) (AM_CreatedAt am) now).

(** The status is kept, so that the next cycle retries from it. *)
Definition MarkError (msg : string) (now : Time) (am : ArchiveMetadata) : ArchiveMetadata :=
  mkArchiveMetadata (AM_ID am) (AM_TenantID am) (AM_PartitionName am) (AM_DateRangeStart am) (AM_DateRangeEnd am)
    (AM_RowCount am) (AM_ArchiveKey am) (AM_Checksum am) (AM_CompressedSizeBytes am) (AM_StorageClass am)
    (AM_Status am) (if string_empty msg then "unknown error" else msg) (AM_ArchivedAt am) (AM_CreatedAt am) now.

Definition set_RowCount (n : Z) (am : ArchiveMetadata) : ArchiveMetadata :=
  mkArchiveMetadata (AM_ID am) (AM_TenantID am) (AM_PartitionName am) (AM_DateRangeStart am) (AM_DateRangeEnd am)
    n (AM_ArchiveKey am) (AM_Checksum am) (AM_CompressedSizeBytes am) (AM_StorageClass am)
    (AM_Status am) (AM_ErrorMessage am) (AM_ArchivedAt am) (AM_CreatedAt am) (AM_UpdatedAt am).

(** ** Partition names and retention *)

(** [^audit_logs_\d{4}_\d{2}$], with the year and the month. *)
Definition digits_value (l : bytes) : option Z :=
  foldl (fun acc c => n ← acc; d ← digit_value c; Some (10 * n + d)) (Some 0) l.

Definition parse_partition_name (name : string) : option (Z * Z) :=
  match strip_prefix (bytes_of "audit_logs_") (bytes_of name) with
  | Some [y1; y2; y3; y4; u; m1; m2] =>
      if code u =? 95 then y ← digits_value [y1; y2; y3; y4]; m ← digits_value [m1; m2]; Some (y, m) else None
  | _ => None
  end.

Definition validatePartitionName (name : string) : res ArchiveError unit :=
  ensure (match parse_partition_name name with Some _ => true | None => false end) ErrInvalidPartitionName.

(** [time.Date(y, m, d, 0, 0, 0, 0, time.UTC)] with a month out of range
    carried into the year. *)
Definition time_Date (y m d : Z) : Time :=
  (days_of_civil (y + (m - 1) / 12, (m - 1) mod 12 + 1, 1) + d - 1) * nanos_per_day.

Definition monthStart (t : Time) (monthsOffset : Z) : Time :=
  let '(y, m, _) := civil_of_days (t / nanos_per_day) in time_Date y (m + monthsOffset) 1.

Definition partitionName (t : Time) : string :=
  let '(y, m, _) := civil_of_days (t / nanos_per_day) in
  "audit_logs_" +:+ String.string_of_list_ascii (pad_decimal 4 y) +:+ "_" +:+ String.string_of_list_ascii (pad_decimal 2 m).

Definition parsePartitionBoundFromName (name : string) : res ArchiveError (Time * Time) :=
  match parse_partition_name name with
  | Some (y, m) => Ok (time_Date y m 1, time_Date y (m + 1) 1)
  | None => Err ErrInvalidPartitionName
  end.

Definition retentionDuration : Duration := 7 * 365 * 24 * nanos_per_hour.

Definition validateRetentionPeriod (now : Time) (name : string) : res ArchiveError unit :=
  bound ← parsePartitionBoundFromName name;
  ensure (negb (time_Sub now bound.2 <? retentionDuration)) ErrRetentionPeriodActive.

(** ** The exported lines *)

(** A column that may be NULL is left out when it is. *)
Definition omit_nil (name : string) (v : option bytes) : list (string * bytes) :=
  match v with Some b => [(name, b)] | None => [] end.

(** [json.Marshal] of an [auditLogRow].  The BYTEA hashes are scanned into
    strings, so their bytes are encoded as text. *)
Definition auditLogRow (log : AuditLog) : bytes :=
  json_object
    ([("id", marshal_uuid (AL_ID log)); ("tenant_id", marshal_uuid (AL_TenantID log));
      ("entity_type", marshal_string (AL_EntityType log)); ("entity_id", marshal_uuid (AL_EntityID log));
      ("action", marshal_string (AL_Action log))]
     ++ omit_nil "actor_id" (marshal_string <$> AL_ActorID log)
     ++ [("changes", json_quote (AL_Changes log)); ("created_at", json_quote (rfc3339nano (AL_CreatedAt log)));
         ("tenant_seq", marshal_int (AL_TenantSeq log)); ("prev_hash", json_quote (AL_PrevHash log));
         ("record_hash", json_quote (AL_RecordHash log)); ("hash_version", marshal_int (AL_HashVersion log))]).

Definition newline : ascii := byte_of 10.
Definition join_lines (lines : list bytes) : bytes := concat ((fun l => l ++ [newline]) <$> lines).

(** [SELECT ... ORDER BY created_at], one line per row.  Rows of one instant
    keep their order in the table, which the query leaves open. *)
Definition encodePartitionRows (rows : list AuditLog) : list bytes :=
  auditLogRow <$> stable_sort (cmp_lt (cmp_on AL_CreatedAt Z.compare)) rows.

Definition checksum_of (lines : list bytes) : string := hex_EncodeToString (sha256_Sum256 (join_lines lines)).

(** ** The downloaded archive *)

(** [bufio.ScanLines]: lines end in a newline, a last line may not; a carriage
    return before the newline is dropped. *)
Definition dropCR (line : bytes) : bytes :=
  match last line with Some c => if code c =? 13 then take (length line - 1) line else line | None => line end.

Fixpoint scan_lines (cur : bytes) (s : bytes) : list bytes :=
  match s with
  | [] => match cur with [] => [] | _ => [dropCR (rev cur)] end
  | c :: s' => if code c =? 10 then dropCR (rev cur) :: scan_lines [] s' else scan_lines (c :: cur) s'
  end.

Definition maxVerificationLineSize : Z := 1048576.

(** A raw line that fills the buffer stops the scan. *)
Fixpoint longest_line (cur longest : Z) (s : bytes) : Z :=
  match s with
  | [] => Z.max cur longest
  | c :: s' => if code c =? 10 then longest_line 0 (Z.max cur longest) s' else longest_line (cur + 1) longest s'
  end.

Definition verify_content (metadata : ArchiveMetadata) (content : bytes) : res ArchiveError unit :=
  _ ← ensure (longest_line 0 0 content <? maxVerificationLineSize) ErrLineTooLong;
  let lines := scan_lines [] content in
  _ ← ensure (bool_decide (checksum_of lines = AM_Checksum metadata)) ErrChecksumMismatch;
  ensure (Z.of_nat (length lines) =? AM_RowCount metadata) ErrRowCountMismatch.
End archive.

(** ** The worker *)

(** What the world does at each step: whether a call fails, the clock, the
    decompressed object a download yields, the compressed size of an upload;
    and the object storage key of a tenant ([libS3.GetObjectStorageKey]). *)
Class ArchiveEnv {U : UUIDLib} := {
  ae_fails : nat -> bool;
  ae_now : nat -> Time;
  ae_newID : nat -> uuid;
  ae_download : nat -> option bytes;
  ae_size : nat -> Z;
  ae_objectKey : string -> string -> option string;
  ae_storageClass : string;
  ae_storagePrefix : string;
  ae_errorText : ArchiveError -> string;
}.
Arguments ArchiveEnv : clear implicits.

Section worker.
  Context {U : UUIDLib} {A : AssertLib} {E : ArchiveEnv U}.

(** One tenant's partitions of [audit_logs], its detached tables, its archive
    metadata and the events put in the outbox. *)
Record ArchiveDB : Type := mkArchiveDB {
  AD_parts : gmap string (list AuditLog);
  AD_tables : gmap string (list AuditLog);
  AD_meta : gmap uuid ArchiveMetadata;
  AD_events : list (string * uuid);
}.

(** [AW_held] is the metadata object the worker holds, [AW_seen] the objects
    it downloaded. *)
Record ArchiveWorld : Type := mkArchiveWorld {
  AW_db : ArchiveDB;
  AW_step : nat;
  AW_clock : nat;
  AW_held : ArchiveMetadata;
  AW_seen : list (string * bytes);
}.

Definition aw (X : Type) : Type := st ArchiveWorld ArchiveError X.

Definition aw_set_db (d : ArchiveDB) : aw unit := fun w =>
  (mkArchiveWorld d (AW_step w) (AW_clock w) (AW_held w) (AW_seen w), Ok tt).
Definition aw_hold (am : ArchiveMetadata) : aw unit := fun w =>
  (mkArchiveWorld (AW_db w) (AW_step w) (AW_clock w) am (AW_seen w), Ok tt).
Definition aw_held : aw ArchiveMetadata := fun w => (w, Ok (AW_held w)).
Definition aw_db : aw ArchiveDB := fun w => (w, Ok (AW_db w)).
Definition aw_tick : aw nat := fun w =>
  (mkArchiveWorld (AW_db w) (S (AW_step w)) (AW_clock w) (AW_held w) (AW_seen w), Ok (AW_step w)).
Definition aw_now : aw Time := fun w =>
  (mkArchiveWorld (AW_db w) (AW_step w) (S (AW_clock w)) (AW_held w) (AW_seen w), Ok (ae_now (AW_clock w))).
Definition aw_see (key : string) (content : bytes) : aw unit := fun w =>
  (mkArchiveWorld (AW_db w) (AW_step w) (AW_clock w) (AW_held w) ((key, content) :: AW_seen w), Ok tt).

(** A call to the database or to the object store. *)
Definition aw_call : aw nat := n ← aw_tick; _ ← st_ensure (negb (ae_fails n)) ErrInfrastructure; mret n.

Definition aw_catch {X} (m : aw X) (h : ArchiveError -> aw X) : aw X := fun w =>
  match m w with (w', Err e) => h e w' | r => r end.

(** [err := f()] when the caller looks at the error. *)
Definition aw_try {X} (m : aw X) : aw (res ArchiveError X) := fun w => let '(w', r) := m w in (w', Ok r).

(** A method of the held object. *)
Definition aw_method (f : Time -> st ArchiveMetadata ArchiveError unit) : aw unit :=
  now ← aw_now; am ← aw_held; let '(am', r) := f now am in _ ← aw_hold am'; st_lift r.

(** ** The archive metadata repository *)
Definition executeUpdate (am : ArchiveMetadata) (d : ArchiveDB) : res ArchiveError ArchiveDB :=
  match AD_meta d !! AM_ID am with
  | Some row =>
      if bool_decide (AM_TenantID row = AM_TenantID am)
      then Ok (mkArchiveDB (AD_parts d) (AD_tables d)
        (<[AM_ID am := mkArchiveMetadata (AM_ID row) (AM_TenantID row) (AM_PartitionName row) (AM_DateRangeStart row)
             (AM_DateRangeEnd row) (AM_RowCount am) (AM_ArchiveKey am) (AM_Checksum am) (AM_CompressedSizeBytes am)
             (AM_StorageClass am) (AM_Status am) (AM_ErrorMessage am) (AM_ArchivedAt am) (AM_CreatedAt row)
             (AM_UpdatedAt am)]> (AD_meta d)) (AD_events d))
      else Err ErrMetadataNotFound
  | None => Err ErrMetadataNotFound
  end.

Definition executeInsert (am : ArchiveMetadata) (d : ArchiveDB) : res ArchiveError ArchiveDB :=
  if bool_decide (AD_meta d !! AM_ID am = None) &&
     forallb (fun row => negb (bool_decide (AM_PartitionName row = AM_PartitionName am) &&
                               bool_decide (AM_TenantID row = AM_TenantID am))) (map_to_list (AD_meta d)).*2
  then Ok (mkArchiveDB (AD_parts d) (AD_tables d) (<[AM_ID am := am]> (AD_meta d)) (AD_events d))
  else Err ErrInfrastructure.

(** A statement of an open transaction; [None] is a transaction PostgreSQL
    has aborted because an earlier statement failed. *)
Definition tx_stmt (f : ArchiveDB -> res ArchiveError ArchiveDB) (t : option ArchiveDB)
    : aw (option ArchiveDB * res ArchiveError unit) :=
  r ← aw_try aw_call;
  mret (match r, t with
        | Err e, _ => (None, Err e)
        | Ok _, None => (None, Err ErrTransactionAborted)
        | Ok _, Some d => match f d with Ok d' => (Some d', Ok tt) | Err e => (None, Err e) end
        end).

Definition commit (t : option ArchiveDB) : aw unit :=
  _ ← aw_call; match t with Some d => aw_set_db d | None => st_lift (Err ErrTransactionAborted) end.

(** A transaction of one statement. *)
Definition in_own_tx (f : ArchiveDB -> res ArchiveError ArchiveDB) : aw unit :=
  _ ← aw_call; d ← aw_db; tr ← tx_stmt f (Some d); _ ← st_lift tr.2; commit tr.1.

Definition archiveRepo_Update : aw unit := am ← aw_held; in_own_tx (executeUpdate am).

(** [WHERE id = $1 AND tenant_id = $2] *)
Definition archiveRepo_GetByID (id tenantID : uuid) : aw (option ArchiveMetadata) :=
  _ ← aw_call; d ← aw_db;
  mret (match AD_meta d !! id with
        | Some row => if bool_decide (AM_TenantID row = tenantID) then Some row else None
        | None => None
        end).

(** ** The steps of the worker *)
Definition handlePartitionError {X} (operation : string) (err : ArchiveError) : aw X :=
  now ← aw_now; am ← aw_held;
  _ ← aw_hold (MarkError (operation +:+ ": " +:+ ae_errorText err) now am);
  _ ← aw_try archiveRepo_Update;
  _ ← (if bool_decide (AM_ID am = uuid_Nil) then mret tt
       else reloaded ← aw_try (archiveRepo_GetByID (AM_ID am) (AM_TenantID am));
            match reloaded with Ok (Some row) => aw_hold row | _ => mret tt end);
  st_lift (Err err).

(** Whatever fails in [m], the object is restored. *)
Definition restoring (before : ArchiveMetadata) (m : aw unit) : aw unit :=
  aw_catch m (fun e => _ ← aw_hold before; st_lift (Err e)).

Definition transitionTo (transition : Time -> st ArchiveMetadata ArchiveError unit) : aw unit :=
  before ← aw_held;
  _ ← aw_method transition;
  restoring before archiveRepo_Update.

Definition transitionToExported (rowCount : Z) : aw unit :=
  _ ← aw_method (MarkExported rowCount); archiveRepo_Update.

(** [emitArchiveEvent]: an outbox row in the same transaction. *)
Definition emitArchiveEvent (key : string) (id : uuid) (d : ArchiveDB) : res ArchiveError ArchiveDB :=
  Ok (mkArchiveDB (AD_parts d) (AD_tables d) (AD_meta d) (AD_events d ++ [(key, id)])).

(** [UpdateWithTx] sets the tenant schema before its statement. *)
Definition UpdateWithTx (am : ArchiveMetadata) (t : option ArchiveDB) : aw (option ArchiveDB * res ArchiveError unit) :=
  tr ← tx_stmt Ok t; match tr.2 with Ok _ => tx_stmt (executeUpdate am) tr.1 | Err e => mret (tr.1, Err e) end.

(** Go on in the transaction, or return the error. *)
Definition proceed (tr : option ArchiveDB * res ArchiveError unit) : aw (option ArchiveDB) :=
  match tr.2 with Ok _ => mret tr.1 | Err e => st_lift (Err e) end.

(** The new state and its event, then the commit. *)
Definition persist_event (am : ArchiveMetadata) (key : string) (t : option ArchiveDB) : aw unit :=
  tr ← UpdateWithTx am t; t ← proceed tr;
  tr ← tx_stmt (emitArchiveEvent key (AM_ID am)) t; t ← proceed tr;
  commit t.

Definition transitionToUploaded (archiveKey checksum : string) (compressedSize : Z) : aw unit :=
  before ← aw_held;
  _ ← aw_method (MarkUploaded archiveKey checksum compressedSize ae_storageClass);
  am ← aw_held;
  restoring before (_ ← aw_call; d ← aw_db; persist_event am "archive.uploaded" (Some d)).

Definition archiveKey (am : ArchiveMetadata) : res ArchiveError string :=
  let '(y, m, _) := civil_of_days (AM_DateRangeStart am / nanos_per_day) in
  let ym sep := String.string_of_list_ascii (pad_decimal 4 y) +:+ sep +:+ String.string_of_list_ascii (pad_decimal 2 m) in
  match ae_objectKey (uuid_String (AM_TenantID am))
          (ae_storagePrefix +:+ "/" +:+ ym "/" +:+ "/" +:+ uuid_String (AM_ID am) +:+ "/audit_logs_" +:+ ym "_" +:+ ".jsonl.gz") with
  | Some key => Ok key
  | None => Err ErrInfrastructure
  end.

(** A read transaction streams the rows of the partition into an upload: begin,
    set the schema, query, upload, commit. *)
Definition streamPartitionUpload (name : string) : aw (Z * string * Z) :=
  _ ← aw_call; _ ← aw_call;
  _ ← st_lift (validatePartitionName name);
  _ ← aw_call; d ← aw_db;
  rows ← st_lift (match AD_parts d !! name with Some rows => Ok rows | None => Err ErrPartitionAbsent end);
  n ← aw_call; _ ← aw_call;
  let lines := encodePartitionRows rows in
  mret (Z.of_nat (length lines), checksum_of lines, ae_size n).

Definition handleUploadingState : aw unit :=
  am ← aw_held;
  key ← aw_catch (st_lift (archiveKey am)) (handlePartitionError "build archive key");
  up ← aw_catch (streamPartitionUpload (AM_PartitionName am)) (handlePartitionError "stream and upload partition");
  _ ← aw_hold (set_RowCount (up.1.1) am);
  aw_catch (transitionToUploaded key (up.1.2) (up.2)) (handlePartitionError "mark uploaded").

Definition verifyArchive : aw unit :=
  am ← aw_held;
  _ ← st_ensure (negb (string_empty (AM_Checksum am))) ErrChecksumMismatch;
  _ ← st_ensure (negb (AM_RowCount am <=? 0)) ErrRowCountMismatch;
  n ← aw_call;
  content ← st_lift (match ae_download n with Some c => Ok c | None => Err ErrInfrastructure end);
  _ ← aw_see (AM_ArchiveKey am) content;
  st_lift (verify_content am content).

(** *** Dropping the partition *)
Definition detach_partition (name : string) (d : ArchiveDB) : res ArchiveError ArchiveDB :=
  match AD_parts d !! name with
  | Some rows => Ok (mkArchiveDB (delete name (AD_parts d)) (<[name := rows]> (AD_tables d)) (AD_meta d) (AD_events d))
  | None => Err ErrPartitionAbsent
  end.

(** [DROP TABLE IF EXISTS] *)
Definition drop_partition (name : string) (d : ArchiveDB) : res ArchiveError ArchiveDB :=
  Ok (mkArchiveDB (delete name (AD_parts d)) (delete name (AD_tables d)) (AD_meta d) (AD_events d)).

Definition guarded_ddl (ddl : string -> ArchiveDB -> res ArchiveError ArchiveDB) (name : string) (t : option ArchiveDB)
    : aw (option ArchiveDB * res ArchiveError unit) :=
  now ← aw_now;
  match (_ ← validatePartitionName name; validateRetentionPeriod now name) with
  | Err e => mret (t, Err e)
  | Ok _ => tx_stmt (ddl name) t
  end.
Definition DetachPartitionWithTx := guarded_ddl detach_partition.
Definition DropPartitionWithTx := guarded_ddl drop_partition.

Definition isPartitionAlreadyDetachedOrAbsent (e : ArchiveError) : bool :=
  match e with ErrPartitionAbsent => true | _ => false end.

Definition tolerate_absent (tr : option ArchiveDB * res ArchiveError unit) : aw (option ArchiveDB) :=
  match tr.2 with
  | Ok _ => mret tr.1
  | Err e => if isPartitionAlreadyDetachedOrAbsent e then mret tr.1 else st_lift (Err e)
  end.

Definition detach_and_drop (name : string) (d : ArchiveDB) : aw (option ArchiveDB) :=
  tr ← DetachPartitionWithTx name (Some d); t ← tolerate_absent tr;
  tr ← DropPartitionWithTx name t; tolerate_absent tr.

Definition completeArchiveWithPartitionDropTx : aw unit :=
  before ← aw_held;
  _ ← aw_call; d ← aw_db;
  t ← detach_and_drop (AM_PartitionName before) d;
  restoring before (_ ← aw_method MarkComplete; am ← aw_held; persist_event am "archive.completed" t).

Definition handleDetachingState : aw unit :=
  aw_catch completeArchiveWithPartitionDropTx (handlePartitionError "complete archive partition").

(** ** One partition, from wherever it is *)
Definition when_status (s : ArchiveStatus) (m : aw unit) : aw unit :=
  am ← aw_held; if bool_decide (AM_Status am = s) then m else mret tt.

Definition archivePartition : aw unit :=
  _ ← when_status StatusPending (aw_catch (transitionTo MarkExporting) (handlePartitionError "mark exporting"));
  _ ← when_status StatusExporting (aw_catch (transitionToExported 0) (handlePartitionError "mark exported"));
  _ ← when_status StatusExported (aw_catch (transitionTo MarkUploading) (handlePartitionError "mark uploading"));
  _ ← when_status StatusUploading handleUploadingState;
  _ ← when_status StatusUploaded (aw_catch (transitionTo MarkVerifying) (handlePartitionError "mark verifying"));
  _ ← when_status StatusVerifying
        (_ ← aw_catch verifyArchive (handlePartitionError "verify archive");
         aw_catch (transitionTo MarkVerified) (handlePartitionError "mark verified"));
  _ ← when_status StatusVerified (aw_catch (transitionTo MarkDetaching) (handlePartitionError "mark detaching"));
  when_status StatusDetaching handleDetachingState.

(** ** A tenant's partitions *)
Record PartitionInfo : Type := mkPartitionInfo {
  PI_Name : string;
  PI_RangeStart : Time;
  PI_RangeEnd : Time;
}.

Definition archiveRepo_GetByPartition (tenantID : uuid) (name : string) : aw (option ArchiveMetadata) :=
  _ ← aw_call; d ← aw_db;
  mret (find (fun row => bool_decide (AM_TenantID row = tenantID) && bool_decide (AM_PartitionName row = name))
          (map_to_list (AD_meta d)).*2).

Definition aw_fresh : aw (uuid * Time) := fun w =>
  (mkArchiveWorld (AW_db w) (AW_step w) (S (AW_clock w)) (AW_held w) (AW_seen w),
   Ok (ae_newID (AW_clock w), ae_now (AW_clock w))).

Definition getOrCreateMetadata (tenantID : uuid) (p : PartitionInfo) : aw ArchiveMetadata :=
  existing ← aw_try (archiveRepo_GetByPartition tenantID (PI_Name p));
  match existing with
  | Ok (Some row) => mret row
  | _ =>
      fresh ← aw_fresh;
      am ← st_lift (NewArchiveMetadata (fresh.1) (fresh.2) tenantID (PI_Name p) (PI_RangeStart p) (PI_RangeEnd p));
      _ ← aw_call; d ← aw_db;
      tr ← tx_stmt Ok (Some d); t ← proceed tr;
      tr ← tx_stmt (executeInsert am) t; t ← proceed tr;
      tr ← tx_stmt (emitArchiveEvent "archive_metadata.created" (AM_ID am)) t; t ← proceed tr;
      _ ← commit t; mret am
  end.

(** [now.AddDate(0, -months, 0)] *)
Definition time_AddMonths (t : Time) (months : Z) : Time :=
  let '(y, m, d) := civil_of_days (t / nanos_per_day) in
  time_Date y (m + months) d + t mod nanos_per_day.

(** The loop over the partitions of [ListPartitions]; it counts the archives
    processed and failed, and goes on after a failure. *)
Fixpoint archive_each (warmCutoff : Time) (tenantID : uuid) (partitions : list PartitionInfo) (processed failed : Z)
    : aw (Z * Z) :=
  match partitions with
  | [] => mret (processed, failed)
  | p :: rest =>
      if negb (time_Before (PI_RangeEnd p) warmCutoff) then archive_each warmCutoff tenantID rest processed failed
      else
        metadata ← aw_try (getOrCreateMetadata tenantID p);
        match metadata with
        | Err _ => archive_each warmCutoff tenantID rest processed (failed + 1)
        | Ok am =>
            if bool_decide (AM_Status am = StatusComplete) then archive_each warmCutoff tenantID rest processed failed
            else
              _ ← aw_hold am;
              r ← aw_try archivePartition;
              match r with
              | Err _ => archive_each warmCutoff tenantID rest processed (failed + 1)
              | Ok _ => archive_each warmCutoff tenantID rest (processed + 1) failed
              end
        end
  end.

Definition archiveTenant (warmRetentionMonths : Z) (tenantID : uuid) (partitions : list PartitionInfo) : aw (Z * Z) :=
  now ← aw_now; archive_each (time_AddMonths now (- warmRetentionMonths)) tenantID partitions 0 0.
End worker.
