(* ===== verification/ArchiveSafe.v ===== *)
(** * The archival worker never loses audit records

    Safety of [archivePartition] over any sequence of calls and any behaviour
    of the database, the clock and the object store, its progress when nothing
    fails, and the partitions it cannot finish.  The partitions of one tenant
    and one worker are considered: a Redis lock keeps other workers out. *)
From S2P Require Import GoLib GoLibModel Sha256 GoTime GoJson AuditChain Archive.

Local Open Scope Z_scope.

Section safety.
  Context {U : UUIDLib} {A : AssertLib} {E : ArchiveEnv U}.

(** ** Calls and transactions *)

(** Only counters moved. *)
Definition same (w w' : ArchiveWorld) : Prop :=
  AW_db w' = AW_db w /\ AW_held w' = AW_held w /\ AW_seen w' = AW_seen w.

Lemma same_refl w : same w w.
Proof. done. Qed.
Lemma same_trans w1 w2 w3 : same w1 w2 -> same w2 w3 -> same w1 w3.
Proof. unfold same. naive_solver congruence. Qed.

Lemma aw_call_same w : same w (aw_call w).1.
Proof. unfold aw_call, mbind, st_bind, aw_tick, st_ensure, st_lift. by destruct (ae_fails _). Qed.

Lemma aw_call_error w : match aw_call w with (_, Err e) => e = ErrInfrastructure | _ => True end.
Proof. unfold aw_call, mbind, st_bind, aw_tick, st_ensure, st_lift. by destruct (ae_fails _). Qed.

(** A bind whose first part only moves counters. *)
Lemma aw_call_bind {X} (k : nat -> aw X) w (P : ArchiveWorld * res ArchiveError X -> Prop) :
  (forall w' e, same w w' -> P (w', Err e)) -> (forall w' n, same w w' -> P (k n w')) -> P ((aw_call ≫= k) w).
Proof.
  intros He Hk. pose proof (aw_call_same w) as Hs. unfold mbind, st_bind at 1.
  destruct (aw_call w) as [w' [n|e]]; auto.
Qed.

Lemma tx_stmt_spec f t w :
  exists w' t' r, tx_stmt f t w = (w', Ok (t', r)) /\ same w w' /\
    (r = Ok tt -> exists d d', t = Some d /\ f d = Ok d' /\ t' = Some d').
Proof.
  unfold tx_stmt, mbind, st_bind, aw_try. pose proof (aw_call_same w) as Hs. destruct (aw_call w) as [w' [n|e]].
  - destruct t as [d|]; [destruct (f d) as [d'|e] eqn:Hf|]; eexists _, _, _; split_and!; try done; eauto.
  - eexists _, _, _; split_and!; try done.
Qed.

Lemma UpdateWithTx_spec am t w :
  exists w' t' r, UpdateWithTx am t w = (w', Ok (t', r)) /\ same w w' /\
    (r = Ok tt -> exists d d', t = Some d /\ executeUpdate am d = Ok d' /\ t' = Some d').
Proof.
  unfold UpdateWithTx, mbind, st_bind at 1. destruct (tx_stmt_spec Ok t w) as (w1 & t1 & r1 & -> & Hs1 & Hr1). cbn.
  destruct r1 as [[]|e].
  - destruct (Hr1 eq_refl) as (d & d1 & -> & [= <-] & ->).
    destruct (tx_stmt_spec (executeUpdate am) (Some d) w1) as (w2 & t2 & r2 & -> & Hs2 & Hr2).
    eexists _, _, _; split_and!; eauto using same_trans.
  - eexists _, _, _; split_and!; eauto. done.
Qed.

Lemma commit_spec t w :
  match commit t w with
  | (w', Ok _) => AW_held w' = AW_held w /\ AW_seen w' = AW_seen w /\ t = Some (AW_db w')
  | (w', Err _) => same w w'
  end.
Proof.
  unfold commit. apply (aw_call_bind (fun _ => _)); [by intros|]. intros w' n (H1 & H2 & H3).
  by destruct t.
Qed.

(** [archiveRepo_Update] writes the held object or changes nothing. *)
Lemma archiveRepo_Update_spec w :
  match archiveRepo_Update w with
  | (w', Ok _) => AW_held w' = AW_held w /\ AW_seen w' = AW_seen w /\
                  executeUpdate (AW_held w) (AW_db w) = Ok (AW_db w')
  | (w', Err _) => same w w'
  end.
Proof.
  unfold archiveRepo_Update, in_own_tx. unfold mbind at 1, st_bind at 1. cbn [aw_held].
  apply (aw_call_bind (fun _ => _)); [by intros|]. intros w1 n Hs1. unfold mbind, st_bind. cbn.
  destruct (tx_stmt_spec (executeUpdate (AW_held w)) (Some (AW_db w1)) w1) as (w2 & t2 & r2 & Ht & Hs2 & Hr2).
  unfold mbind, st_bind in Ht. rewrite Ht. cbn. destruct r2 as [[]|e]; cbn; [|by eapply same_trans].
  destruct (Hr2 eq_refl) as (d & d' & [= <-] & Hf & ->).
  pose proof (commit_spec (Some d') w2) as Hc. destruct (commit (Some d') w2) as [w3 [x|e]].
  - destruct Hc as (H1 & H2 & [= ->]), Hs1 as (D1 & L1 & S1), Hs2 as (D2 & L2 & S2).
    rewrite D1 in Hf. split_and!; congruence.
  - eauto using same_trans.
Qed.

(** ** The invariant *)

(** The partitions before any archival. *)
Context (parts0 : gmap string (list AuditLog)).

Definition rank (s : ArchiveStatus) : nat :=
  match s with
  | StatusPending => 0 | StatusExporting => 1 | StatusExported => 2 | StatusUploading => 3 | StatusUploaded => 4
  | StatusVerifying => 5 | StatusVerified => 6 | StatusDetaching => 7 | StatusComplete => 8
  end.

(** From UPLOADED on, the archive describes the rows of its partition; from
    VERIFIED on, a download of its object passed the verification; a dropped
    partition was past its retention period. *)
Definition uploaded_ok (am : ArchiveMetadata) : Prop :=
  exists rows, parts0 !! AM_PartitionName am = Some rows /\
    AM_Checksum am = checksum_of (encodePartitionRows rows) /\
    AM_RowCount am = Z.of_nat (length (encodePartitionRows rows)).
Definition verified_ok (seen : list (string * bytes)) (am : ArchiveMetadata) : Prop :=
  0 < AM_RowCount am /\ exists content, (AM_ArchiveKey am, content) ∈ seen /\ verify_content am content = Ok tt.

Definition retention_passed (name : string) : Prop := exists n, validateRetentionPeriod (ae_now n) name = Ok tt.

Record meta_ok (parts : gmap string (list AuditLog)) (seen : list (string * bytes)) (am : ArchiveMetadata) : Prop := {
  mo_uploaded : (4 <= rank (AM_Status am))%nat -> uploaded_ok am;
  mo_verified : (6 <= rank (AM_Status am))%nat -> verified_ok seen am;
  mo_gone : AM_Status am = StatusComplete ->
    parts !! AM_PartitionName am = None /\ retention_passed (AM_PartitionName am);
}.

Record db_ok (d : ArchiveDB) (seen : list (string * bytes)) : Prop := {
  do_rows : forall id am, AD_meta d !! id = Some am -> AM_ID am = id /\ meta_ok (AD_parts d) seen am;
  do_parts : forall name rows, AD_parts d !! name = Some rows -> parts0 !! name = Some rows;
  do_gone : forall name rows, parts0 !! name = Some rows -> AD_parts d !! name = None ->
    exists id am, AD_meta d !! id = Some am /\ AM_PartitionName am = name /\ AM_Status am = StatusComplete;
}.

(** The held object is not behind its row. *)
Record held_ok (d : ArchiveDB) (seen : list (string * bytes)) (am : ArchiveMetadata) : Prop := {
  ho_meta : meta_ok (AD_parts d) seen am;
  ho_row : forall row, AD_meta d !! AM_ID am = Some row ->
    AM_PartitionName row = AM_PartitionName am /\ (AM_Status row = StatusComplete -> AM_Status am = StatusComplete);
}.

Record inv (w : ArchiveWorld) : Prop := {
  inv_db : db_ok (AW_db w) (AW_seen w);
  inv_held : held_ok (AW_db w) (AW_seen w) (AW_held w);
}.

Lemma inv_same w w' : same w w' -> inv w -> inv w'.
Proof. intros (H1 & H2 & H3) [Hd Hh]. split; congruence. Qed.

(** Writing the held object. *)
Lemma executeUpdate_ok am d d' seen :
  db_ok d seen -> held_ok d seen am -> executeUpdate am d = Ok d' -> db_ok d' seen /\ held_ok d' seen am.
Proof.
  intros [Hr Hp Hg] [Hm Hrow] Hu. unfold executeUpdate in Hu.
  destruct (AD_meta d !! AM_ID am) as [row|] eqn:El; [|done]. case_bool_decide; [|done]. injection Hu as <-.
  destruct (Hrow _ eq_refl) as [Hname Hcomp]. destruct (Hr _ _ El) as [Hid _].
  assert (Hm' : forall x, AM_PartitionName x = AM_PartitionName am -> AM_Status x = AM_Status am ->
    AM_Checksum x = AM_Checksum am -> AM_RowCount x = AM_RowCount am -> AM_ArchiveKey x = AM_ArchiveKey am ->
    meta_ok (AD_parts d) seen x).
  { intros x H1 H2 H3 H4 H5. destruct Hm as [Mu Mv Mg].
    split; rewrite H2; unfold uploaded_ok, verified_ok, verify_content; rewrite ?H1, ?H3, ?H4, ?H5; auto. }
  split; split.
  - intros id x Hx. cbn in Hx. apply lookup_insert_Some in Hx as [[<- <-]|[Hne Hx]]; [|by apply Hr].
    split; [done|]. apply Hm'; done.
  - apply Hp.
  - intros name rows H0 Hn. destruct (Hg _ _ H0 Hn) as (id & x & Hx & Hxn & Hxc).
    destruct (decide (id = AM_ID am)) as [->|Hne].
    + rewrite El in Hx. injection Hx as ->. eexists _, _. split; [cbn; apply lookup_insert_eq|]. cbn. auto.
    + exists id, x. split; [cbn; by rewrite lookup_insert_ne|done].
  - done.
  - intros x Hx. cbn in Hx. rewrite lookup_insert_eq in Hx. injection Hx as <-. cbn. done.
Qed.

Lemma archiveRepo_Update_inv w : inv w -> inv (archiveRepo_Update w).1.
Proof.
  intros [Hd Hh]. pose proof (archiveRepo_Update_spec w) as Hu. destruct (archiveRepo_Update w) as [w' [x|e]]; cbn.
  - destruct Hu as (H1 & H2 & Hu). destruct (executeUpdate_ok _ _ _ _ Hd Hh Hu). split; congruence.
  - by apply (inv_same w).
Qed.

(** ** Triples: [triple P m Q] — from [P], the invariant holds at the end and,
    on success, [Q] *)
Definition triple {X} (P : ArchiveWorld -> Prop) (m : aw X) (Q : X -> ArchiveWorld -> Prop) : Prop :=
  forall w, P w -> let '(w', r) := m w in inv w' /\ match r with Ok x => Q x w' | Err _ => True end.

Lemma triple_bind {X Y} P (m : aw X) (f : X -> aw Y) Q R :
  triple P m Q -> (forall x, triple (Q x) (f x) R) -> triple P (m ≫= f) R.
Proof.
  intros Hm Hf w Hw. specialize (Hm w Hw). unfold mbind, st_bind. destruct (m w) as [w' [x|e]]; [|done].
  apply Hf. apply Hm.
Qed.

Lemma triple_weaken {X} P P' (m : aw X) Q Q' :
  triple P m Q -> (forall w, P' w -> P w) -> (forall x w, Q x w -> Q' x w) -> triple P' m Q'.
Proof.
  intros Hm HP HQ w Hw. specialize (Hm w (HP w Hw)). destruct (m w) as [w' [x|e]]; [|done]. naive_solver.
Qed.

Lemma handlePartitionError_inv {X} op e w : inv w ->
  exists w', handlePartitionError (X:=X) op e w = (w', Err e) /\ inv w'.
Proof.
  intros [Hd Hh]. unfold handlePartitionError, mbind, st_bind. cbn.
  match goal with |- context [aw_try archiveRepo_Update ?w0] => set (w1 := w0); assert (inv w1) as H1 end.
  { split; [done|]. destruct Hh as [[Mu Mv Mg] Hr]. by split. }
  pose proof (archiveRepo_Update_inv w1 H1) as H2. pose proof (archiveRepo_Update_spec w1) as Hs.
  unfold aw_try. destruct (archiveRepo_Update w1) as [w2 r2]. cbn in H2 |- *.
  case_bool_decide; [by eexists|].
  unfold archiveRepo_GetByID, mbind, st_bind. pose proof (aw_call_same w2) as Hc.
  destruct (aw_call w2) as [w3 [n|e3]]; cbn in Hc |- *; [|eexists; split; [done|by apply (inv_same w2)]].
  assert (inv w3) as H3 by (by apply (inv_same w2)).
  destruct (AD_meta (AW_db w3) !! AM_ID (AW_held w)) as [row|] eqn:El; [case_bool_decide|]; cbn; eexists; split; try done.
  destruct H3 as [[Hr Hp Hg] _]. split; [done|]. cbn. destruct (Hr _ _ El) as [Hid Hm]. split; [done|].
  rewrite Hid, El. intros x [= <-]. done.
Qed.

Lemma triple_catch {X} P (m : aw X) Q op : triple P m Q -> triple P (aw_catch m (handlePartitionError op)) Q.
Proof.
  intros Hm w Hw. specialize (Hm w Hw). unfold aw_catch. destruct (m w) as [w' [x|e]]; [done|].
  destruct (handlePartitionError_inv (X:=X) op e w' (proj1 Hm)) as (w'' & -> & H). done.
Qed.

(** ** The transitions *)
Lemma held_ok_status d seen am to now :
  held_ok d seen am -> AM_Status am <> StatusComplete -> to <> StatusComplete ->
  ((4 <= rank to)%nat -> uploaded_ok am) -> ((6 <= rank to)%nat -> verified_ok seen am) ->
  held_ok d seen (with_status to now am).
Proof.
  intros [Hm Hr] Hne Hto H4 H6. split; [by split|]. intros row Hrow. destruct (Hr row Hrow) as [Hn Hc].
  split; [done|]. intros H. by destruct (Hne (Hc H)).
Qed.

(** A method that fails leaves the object alone; one that succeeds keeps it
    well-formed. *)
Definition good_transition (P : ArchiveWorld -> Prop) (tr : Time -> st ArchiveMetadata ArchiveError unit) : Prop :=
  forall w now, P w -> inv w /\
    match tr now (AW_held w) with
    | (am, Ok _) => held_ok (AW_db w) (AW_seen w) am
    | (am, Err _) => am = AW_held w
    end.

Lemma good_status P from to tr :
  (forall now, tr now = (_ ← expect_status from to; st_modify (with_status to now))) ->
  from <> StatusComplete -> to <> StatusComplete ->
  (forall w, P w -> inv w /\ ((4 <= rank to)%nat -> AM_Status (AW_held w) = from -> uploaded_ok (AW_held w)) /\
    ((6 <= rank to)%nat -> AM_Status (AW_held w) = from -> verified_ok (AW_seen w) (AW_held w))) ->
  good_transition P tr.
Proof.
  intros Htr Hf Ht HP w now Hw. rewrite Htr. destruct (HP w Hw) as (Hi & H4 & H6). split; [done|].
  unfold expect_status, st_ensure, st_lift, st_get, st_modify, mbind, st_bind. cbn. case_bool_decide as Hs; cbn; [|done].
  apply held_ok_status; [apply Hi|congruence|done|auto|auto].
Qed.

(** Running such a method, with its continuation. *)
Lemma method_run P tr w :
  good_transition P tr -> P w ->
  let '(w1, r) := aw_method tr w in
  AW_db w1 = AW_db w /\ AW_seen w1 = AW_seen w /\
  match r with Ok _ => inv w1 /\ exists now, tr now (AW_held w) = (AW_held w1, Ok tt) | Err _ => same w w1 end.
Proof.
  intros Hg Hw. unfold aw_method, mbind, st_bind. cbn. destruct (Hg w (ae_now (AW_clock w)) Hw) as [Hi Hm].
  destruct (tr (ae_now (AW_clock w)) (AW_held w)) as [am r] eqn:Etr. cbn. split_and!; [done|done|].
  destruct r as [[]|e]; [|by subst]. split; [|by eexists]. destruct Hi as [Hd _]. by split.
Qed.

Lemma restoring_inv w w1 m :
  inv w -> AW_db w1 = AW_db w -> AW_seen w1 = AW_seen w ->
  (let '(w2, r) := m w1 in match r with Ok _ => inv w2 | Err _ => AW_db w2 = AW_db w1 /\ AW_seen w2 = AW_seen w1 end) ->
  let '(w2, r) := restoring (AW_held w) m w1 in inv w2.
Proof.
  intros [Hd Hh] H1 H2 Hm. unfold restoring, aw_catch. destruct (m w1) as [w2 [x|e]]; [done|].
  unfold mbind, st_bind. cbn. destruct Hm as [H3 H4]. split; cbn; congruence.
Qed.

Lemma transitionTo_triple P tr : good_transition P tr -> triple P (transitionTo tr) (fun _ => inv).
Proof.
  intros Hg w Hw. unfold transitionTo, mbind, st_bind. cbn [aw_held]. pose proof (method_run P tr w Hg Hw) as Hr.
  destruct (Hg w 0 Hw) as [Hi _]. destruct (aw_method tr w) as [w1 [x|e]]; destruct Hr as (H1 & H2 & Hr).
  - pose proof (restoring_inv w w1 archiveRepo_Update Hi H1 H2) as HR.
    pose proof (archiveRepo_Update_inv w1 (proj1 Hr)) as HU. pose proof (archiveRepo_Update_spec w1) as HS.
    destruct (archiveRepo_Update w1) as [w2 r2]. cbn in HU.
    destruct (restoring (AW_held w) archiveRepo_Update w1) as [w3 r3]. split; [|destruct r3; auto].
    + apply HR. destruct r2; [done|]. by destruct HS as (? & ? & ?).
    + apply HR. destruct r2; [done|]. by destruct HS as (? & ? & ?).
  - split; [by apply (inv_same w)|done].
Qed.

Lemma transitionToExported_triple P : (forall w, P w -> inv w) -> triple P (transitionToExported 0) (fun _ => inv).
Proof.
  intros HP. assert (good_transition P (MarkExported 0)) as Hg.
  { intros w now Hw. split; [auto|]. unfold MarkExported, expect_status, st_ensure, st_lift, st_get, st_modify, mbind, st_bind.
    cbn. case_bool_decide as Hs; cbn; [|done]. destruct (HP w Hw) as [_ [Hm Hr]]. split; [by split; cbn; [lia|lia|]|].
    intros row Hrow. destruct (Hr row Hrow) as [Hn Hc]. split; [done|]. intros H. cbn. specialize (Hc H). congruence. }
  intros w Hw. unfold transitionToExported, mbind, st_bind. pose proof (method_run _ _ _ Hg Hw) as Hr.
  destruct (aw_method (MarkExported 0) w) as [w1 [x|e]]; destruct Hr as (H1 & H2 & Hr).
  - pose proof (archiveRepo_Update_inv w1 (proj1 Hr)) as HU. destruct (archiveRepo_Update w1) as [w2 r2]. by destruct r2.
  - split; [apply (inv_same w); auto|done].
Qed.

(** ** State changes with an event, in one transaction *)
Lemma persist_event_spec am key t w :
  let '(w', r) := persist_event am key t w in
  AW_held w' = AW_held w /\ AW_seen w' = AW_seen w /\
  match r with
  | Ok _ => exists d d', t = Some d /\ executeUpdate am d = Ok d' /\
              AD_parts (AW_db w') = AD_parts d' /\ AD_meta (AW_db w') = AD_meta d'
  | Err _ => AW_db w' = AW_db w
  end.
Proof.
  unfold persist_event, mbind, st_bind. destruct (UpdateWithTx_spec am t w) as (w1 & t1 & r1 & -> & (D1 & L1 & S1) & Hr1).
  cbn. destruct r1 as [[]|e]; cbn; [|done]. destruct (Hr1 eq_refl) as (d & d' & -> & Hu & ->).
  destruct (tx_stmt_spec (emitArchiveEvent key (AM_ID am)) (Some d') w1) as (w2 & t2 & r2 & Ht & (D2 & L2 & S2) & Hr2).
  unfold mbind, st_bind in Ht. rewrite Ht. cbn. destruct r2 as [[]|e]; cbn; [|split_and!; congruence].
  destruct (Hr2 eq_refl) as (x & d2 & [= <-] & [= <-] & ->).
  pose proof (commit_spec (Some (mkArchiveDB (AD_parts d') (AD_tables d') (AD_meta d') (AD_events d' ++ [(key, AM_ID am)]))) w2) as Hc.
  destruct (commit _ w2) as [w3 [y|e]]; [|destruct Hc as (? & ? & ?); split_and!; congruence].
  destruct Hc as (H1 & H2 & [= Hdb]). split_and!; [congruence|congruence|]. exists d, d'. by rewrite <-Hdb.
Qed.

(** The invariant reads the partitions and the metadata only. *)
Lemma db_ok_ext d d' seen :
  AD_parts d' = AD_parts d -> AD_meta d' = AD_meta d -> db_ok d seen -> db_ok d' seen.
Proof. intros H1 H2 [Hr Hp Hg]. split; rewrite ?H1, ?H2; done. Qed.
Lemma held_ok_ext d d' seen am :
  AD_parts d' = AD_parts d -> AD_meta d' = AD_meta d -> held_ok d seen am -> held_ok d' seen am.
Proof. intros H1 H2 [Hm Hr]. split; rewrite ?H1, ?H2; done. Qed.

(** ** Uploading *)
Lemma streamPartitionUpload_spec name w :
  let '(w', r) := streamPartitionUpload name w in
  same w w' /\
  match r with
  | Ok (n, checksum, _) => exists rows, AD_parts (AW_db w) !! name = Some rows /\
      n = Z.of_nat (length (encodePartitionRows rows)) /\ checksum = checksum_of (encodePartitionRows rows)
  | Err _ => True
  end.
Proof.
  unfold streamPartitionUpload.
  apply (aw_call_bind (fun _ => _)); [by intros|]. intros w1 n1 H1.
  apply (aw_call_bind (fun _ => _)); [intros; eauto using same_trans|]. intros w2 n2 H2.
  unfold mbind at 1, st_bind at 1. cbn. destruct (validatePartitionName name) as [[]|]; [|split; [|done]; eauto using same_trans].
  apply (aw_call_bind (fun _ => _)); [intros; eauto 10 using same_trans|]. intros w3 n3 H3.
  assert (same w w3) as Hw3 by eauto using same_trans.
  unfold mbind at 1, st_bind at 1. unfold mbind at 1, st_bind at 1. cbn.
  destruct (AD_parts (AW_db w3) !! name) as [rows|] eqn:El; [|done].
  apply (aw_call_bind (fun _ => _)); [intros; eauto using same_trans|]. intros w4 n4 H4.
  apply (aw_call_bind (fun _ => _)); [intros; eauto using same_trans|]. intros w5 n5 H5. cbn.
  split; [eauto using same_trans|]. exists rows. destruct Hw3 as (<- & _). done.
Qed.

Lemma good_uploaded rows key size w now :
  inv w -> parts0 !! AM_PartitionName (AW_held w) = Some rows ->
  AM_RowCount (AW_held w) = Z.of_nat (length (encodePartitionRows rows)) ->
  match MarkUploaded key (checksum_of (encodePartitionRows rows)) size ae_storageClass now (AW_held w) with
  | (am, Ok _) => held_ok (AW_db w) (AW_seen w) am
  | (am, Err _) => am = AW_held w
  end.
Proof.
  intros [_ [Hm Hr]] Hrows Hn.
  unfold MarkUploaded, expect_status, st_ensure, st_lift, st_get, st_modify, mbind, st_bind. cbn.
  case_bool_decide as Hs; cbn; [|done]. repeat (destruct (negb _); cbn; [|done]).
  split; [split; cbn; [|lia|done]|].
  - intros _. by exists rows.
  - intros row Hrow. destruct (Hr row Hrow) as [H1 H2]. split; [done|]. intros H. specialize (H2 H). congruence.
Qed.

Lemma transitionToUploaded_triple rows key size :
  triple (fun w => inv w /\ parts0 !! AM_PartitionName (AW_held w) = Some rows /\
                   AM_RowCount (AW_held w) = Z.of_nat (length (encodePartitionRows rows)))
    (transitionToUploaded key (checksum_of (encodePartitionRows rows)) size) (fun _ => inv).
Proof.
  intros w (Hi & Hrows & Hn).
  assert (good_transition (fun w' => w' = w) (MarkUploaded key (checksum_of (encodePartitionRows rows)) size ae_storageClass)) as Hg.
  { intros w' now ->. split; [done|]. by apply good_uploaded. }
  unfold transitionToUploaded, mbind at 1, st_bind at 1. cbn [aw_held]. unfold mbind at 1, st_bind at 1.
  pose proof (method_run _ _ w Hg eq_refl) as Hr.
  destruct (aw_method _ w) as [w1 [x|e]]; destruct Hr as (H1 & H2 & Hr); [|split; [by apply (inv_same w)|done]].
  unfold mbind at 1, st_bind at 1. cbn [aw_held]. destruct Hr as [Hi1 _].
  match goal with |- context [restoring (AW_held w) ?m w1] =>
    pose proof (restoring_inv w w1 m Hi H1 H2) as HR;
    assert (let '(w2, r) := m w1 in match r with Ok _ => inv w2
      | Err _ => AW_db w2 = AW_db w1 /\ AW_seen w2 = AW_seen w1 end) as Hm end.
  { apply (aw_call_bind (fun _ => _)); [by intros w2 e (? & ? & ?)|]. intros w2 n (D2 & L2 & S2).
    unfold mbind at 1, st_bind at 1. cbn [aw_db].
    pose proof (persist_event_spec (AW_held w1) "archive.uploaded" (Some (AW_db w2)) w2) as Hp.
    destruct (persist_event _ _ _ w2) as [w3 [y|e]]; destruct Hp as (L3 & S3 & Hp).
    - destruct Hp as (d & d' & [= <-] & Hu & P3 & M3). rewrite D2 in Hu. destruct Hi1 as [Hd1 Hh1].
      destruct (executeUpdate_ok _ _ _ _ Hd1 Hh1 Hu) as [Hd' Hh']. rewrite S2 in S3. split; rewrite S3.
      + by eapply db_ok_ext.
      + rewrite L3, L2. by eapply held_ok_ext.
    - split; congruence. }
  specialize (HR Hm). destruct (restoring _ _ w1) as [w2 r]. by destruct r.
Qed.

Lemma handleUploadingState_triple :
  triple (fun w => inv w /\ AM_Status (AW_held w) = StatusUploading) handleUploadingState (fun _ => inv).
Proof.
  intros w [Hi Hs]. unfold handleUploadingState, mbind at 1, st_bind at 1. cbn [aw_held].
  unfold mbind at 1, st_bind at 1, aw_catch at 1, st_lift at 1. destruct (archiveKey (AW_held w)) as [key|e].
  2:{ destruct (handlePartitionError_inv (X:=string) "build archive key" e w Hi) as (w' & -> & H). done. }
  unfold mbind at 1, st_bind at 1, aw_catch at 1.
  pose proof (streamPartitionUpload_spec (AM_PartitionName (AW_held w)) w) as Hu.
  destruct (streamPartitionUpload _ w) as [w1 [[[n cs] size]|e]]; destruct Hu as [H1 Hu].
  2:{ destruct (handlePartitionError_inv (X:=Z * string * Z) "stream and upload partition" e w1) as (w' & -> & H); [|done].
      by apply (inv_same w). }
  destruct Hu as (rows & Hrows & -> & ->). unfold mbind at 1, st_bind at 1. cbn [aw_hold fst snd].
  match goal with |- let '(_, _) := ?m ?w0 in _ => set (w2 := w0) end.
  assert (inv w1) as Hi1 by (by apply (inv_same w)). destruct H1 as (D1 & L1 & S1).
  assert (inv w2) as Hi2.
  { destruct Hi1 as [Hd [[M4 M6 M8] Hr]]. rewrite L1 in M4, M6, M8, Hr. split; [done|]. subst w2. cbn.
    split; [split; cbn; rewrite Hs; cbn; [lia|lia|done]|done]. }
  apply (triple_catch _ _ _ _ (transitionToUploaded_triple rows key size) w2). split; [done|]. cbn.
  split; [|done]. by eapply (do_parts _ _ (inv_db _ Hi)).
Qed.

(** ** Verification *)
Lemma verifyArchive_triple :
  triple inv verifyArchive (fun _ w => inv w /\ verified_ok (AW_seen w) (AW_held w)).
Proof.
  intros w Hi. unfold verifyArchive, mbind at 1, st_bind at 1. cbn [aw_held].
  unfold mbind at 1, st_bind at 1, st_ensure at 1, st_lift at 1, ensure at 1.
  destruct (negb (string_empty _)); [|done]. unfold mbind at 1, st_bind at 1, st_ensure at 1, st_lift at 1, ensure at 1.
  destruct (negb (_ <=? 0)) eqn:Hpos; [|done]. apply negb_true_iff, Z.leb_gt in Hpos.
  apply (aw_call_bind (fun _ => _)); [intros w' e Hs; split; [by apply (inv_same w)|done]|]. intros w1 n Hs.
  assert (inv w1) as Hi1 by (by apply (inv_same w)). unfold mbind at 1, st_bind at 1. cbn.
  destruct (ae_download n) as [content|]; cbn; [|done]. destruct Hs as (D1 & L1 & S1).
  assert (Hmono : forall am, verified_ok (AW_seen w1) am -> verified_ok ((AM_ArchiveKey (AW_held w), content) :: AW_seen w1) am).
  { intros am (Hn & c & Hc & Hv). split; [done|]. exists c. split; [by right|done]. }
  split.
  - destruct Hi1 as [[Hr Hp Hg] [Hm Hrow]]. split; cbn; split; try done.
    + intros id am Ham. destruct (Hr id am Ham) as [Hid [M4 M6 M8]]. split; [done|]. split; auto.
    + destruct Hm as [M4 M6 M8]. split; auto.
  - destruct (verify_content (AW_held w) content) as [[]|] eqn:Hv; [|done]. split.
    + destruct Hi1 as [[Hr Hp Hg] [Hm Hrow]]. split; cbn; split; try done.
      * intros id am Ham. destruct (Hr id am Ham) as [Hid [M4 M6 M8]]. split; [done|]. split; auto.
      * destruct Hm as [M4 M6 M8]. split; auto.
    + cbn. rewrite L1. split; [done|]. exists content. split; [by left|done].
Qed.

(** ** Dropping the partition *)
Lemma guarded_ddl_spec ddl name t w :
  exists w' t' r, guarded_ddl ddl name t w = (w', Ok (t', r)) /\ same w w' /\
    (r = Ok tt -> retention_passed name /\ exists d d', t = Some d /\ ddl name d = Ok d' /\ t' = Some d') /\
    (r = Err ErrPartitionAbsent -> t' = None /\ exists d, t = Some d /\ ddl name d = Err ErrPartitionAbsent).
Proof.
  unfold guarded_ddl. unfold mbind at 1, st_bind at 1. unfold aw_now at 1.
  match goal with |- context [match ?c with Ok _ => _ | Err _ => _ end] => destruct c as [[]|e] eqn:Hv end.
  - match goal with |- context [tx_stmt ?f t ?w0] => destruct (tx_stmt_spec f t w0) as (w' & t' & r & Ht & Hs & Hr);
      assert (r = Err ErrPartitionAbsent -> t' = None /\ exists d, t = Some d /\ ddl name d = Err ErrPartitionAbsent) as Ha end.
    { intros ->. unfold tx_stmt, mbind, st_bind, aw_try in Ht.
      match type of Ht with context [aw_call ?w0] => pose proof (aw_call_error w0) as He; destruct (aw_call w0) as [w1 [n|e]] end;
        cbn in Ht; [destruct t as [d|]; [destruct (ddl name d) eqn:Ed|]|]; cbv [mret st_ret] in Ht; simplify_eq; try done; by eauto. }
    exists w', t', r. split_and!; try done. intros Hok. split; [|by apply Hr].
    exists (AW_clock w). by destruct (validatePartitionName name).
  - eexists _, _, _. split_and!; [done|done|done|]. intros [= ->]. exfalso. clear -Hv.
    unfold validatePartitionName, validateRetentionPeriod, parsePartitionBoundFromName, ensure in Hv.
    cbv [mbind res_bind] in Hv. repeat case_match; simplify_eq.
Qed.

(** The store after the commit: the partition is gone and its archive is
    COMPLETE. *)
Lemma complete_ok d d2 d3 seen before now :
  db_ok d seen -> held_ok d seen before -> AM_Status before = StatusDetaching ->
  AD_parts d2 = delete (AM_PartitionName before) (AD_parts d) -> AD_meta d2 = AD_meta d ->
  retention_passed (AM_PartitionName before) ->
  let am := (MarkComplete now before).1 in
  executeUpdate am d2 = Ok d3 -> db_ok d3 seen /\ held_ok d3 seen am.
Proof.
  intros [Hr Hp Hg] [Hm Hrow] Hs H2 M2 Hret. unfold MarkComplete, expect_status, st_ensure, st_lift, st_get, st_modify, mbind, st_bind.
  cbn. rewrite bool_decide_eq_true_2 by done. cbn. unfold executeUpdate. cbn. rewrite M2.
  destruct (AD_meta d !! AM_ID before) as [row|] eqn:El; [|done]. destruct (bool_decide _); [|done]. intros [= <-].
  destruct (Hrow _ eq_refl) as [Hname Hcomp]. destruct (Hr _ _ El) as [Hid _].
  destruct Hm as [M4 M6 _]. rewrite Hs in M4, M6. cbn in M4, M6.
  specialize (M4 ltac:(lia)). specialize (M6 ltac:(lia)).
  assert (Hnone : forall x, AD_parts d !! x = None -> delete (AM_PartitionName before) (AD_parts d) !! x = None).
  { intros x Hx. apply lookup_delete_None. by right. }
  split; split; cbn; rewrite ?H2.
  - intros id x Hx. apply lookup_insert_Some in Hx as [[<- <-]|[Hne Hx]].
    + split; [done|]. split; cbn; [intros _; unfold uploaded_ok; cbn; by rewrite Hname|intros _; exact M6|intros _].
      rewrite Hname. split; [apply lookup_delete_eq|done].
    + destruct (Hr _ _ Hx) as [Hidx [X4 X6 X8]]. split; [done|]. split; [done|done|]. intros Hc.
      destruct (X8 Hc). auto.
  - intros name rows Hl. apply lookup_delete_Some in Hl as [_ Hl]. by apply Hp.
  - intros name rows H0 Hn. destruct (decide (name = AM_PartitionName before)) as [->|Hne].
    + eexists _, _. split; [apply lookup_insert_eq|]. cbn. done.
    + rewrite lookup_delete_ne in Hn by done. destruct (Hg _ _ H0 Hn) as (id & x & Hx & Hxn & Hxc).
      exists id, x. split; [|done]. rewrite lookup_insert_ne; [done|]. intros <-. rewrite El in Hx. injection Hx as ->.
      rewrite Hcomp in Hs by done. done.
  - split; cbn; [intros _; exact M4|intros _; exact M6|intros _; split; [apply lookup_delete_eq|done]].
  - intros x Hx. rewrite lookup_insert_eq in Hx. injection Hx as <-. done.
Qed.

(** Detaching and dropping in one transaction: either both happened to an
    attached partition, or the transaction cannot commit. *)
Lemma detach_drop_spec name d w :
  let '(w', r) := detach_and_drop name d w in same w w' /\
  match r with
  | Ok t => retention_passed name /\ exists rows d2, AD_parts d !! name = Some rows /\ t = Some d2 /\
              AD_parts d2 = delete name (AD_parts d) /\ AD_meta d2 = AD_meta d
  | Err _ => True
  end.
Proof.
  unfold detach_and_drop, DetachPartitionWithTx, DropPartitionWithTx. unfold mbind at 1, st_bind at 1.
  destruct (guarded_ddl_spec detach_partition name (Some d) w) as (w1 & t1 & r1 & -> & Hs1 & Hr1 & Ha1).
  unfold mbind at 1, st_bind at 1, tolerate_absent at 1. cbn [snd fst].
  assert (Hdrop : forall t, (match t with Some d1 => exists rows, AD_parts d !! name = Some rows /\
      AD_parts d1 = delete name (AD_parts d) /\ AD_meta d1 = AD_meta d | None => True end) ->
    let '(w', r) := (tr ← guarded_ddl drop_partition name t; tolerate_absent tr) w1 in same w w' /\
      match r with Ok t => retention_passed name /\ exists rows d2, AD_parts d !! name = Some rows /\ t = Some d2 /\
        AD_parts d2 = delete name (AD_parts d) /\ AD_meta d2 = AD_meta d | Err _ => True end).
  { intros t Ht. unfold mbind, st_bind.
    destruct (guarded_ddl_spec drop_partition name t w1) as (w2 & t2 & r2 & -> & Hs2 & Hr2 & Ha2). cbn.
    assert (same w w2) as Hs by eauto using same_trans. destruct r2 as [[]|e]; cbn.
    - destruct (Hr2 eq_refl) as (Hret & d1 & d2 & -> & [= <-] & ->). split; [done|]. destruct Ht as (rows & H1 & H2 & H3).
      split; [done|]. exists rows. eexists. split_and!; [done|done| |done]. cbn. rewrite H2. apply delete_delete_eq.
    - destruct e; cbn; try done. destruct (Ha2 eq_refl) as (_ & d1 & -> & H). done. }
  destruct r1 as [[]|e].
  - apply Hdrop. destruct (Hr1 eq_refl) as (_ & d0 & d1 & [= <-] & Hd & ->). unfold detach_partition in Hd.
    destruct (AD_parts d !! name) as [rows|] eqn:El; [|done]. injection Hd as <-. by exists rows.
  - destruct e; try done. destruct (Ha1 eq_refl) as [-> _]. by apply Hdrop.
Qed.

Lemma completeArchive_triple :
  triple (fun w => inv w /\ AM_Status (AW_held w) = StatusDetaching) completeArchiveWithPartitionDropTx (fun _ => inv).
Proof.
  intros w [Hi Hs]. unfold completeArchiveWithPartitionDropTx, mbind at 1, st_bind at 1. cbn [aw_held].
  apply (aw_call_bind (fun _ => _)); [intros w' e H; split; [by apply (inv_same w)|done]|]. intros w1 n H1.
  unfold mbind at 1, st_bind at 1. cbn [aw_db].
  unfold mbind at 1, st_bind at 1. pose proof (detach_drop_spec (AM_PartitionName (AW_held w)) (AW_db w1) w1) as Hdd.
  destruct (detach_and_drop _ _ w1) as [w2 [t|e]]; destruct Hdd as [H2 Hdd];
    [|split; [apply (inv_same w); eauto using same_trans|done]].
  destruct Hdd as (Hret & rows & d2 & Hrows & -> & P2 & M2). assert (same w w2) as Hs2 by eauto using same_trans.
  destruct H1 as (D1 & L1 & S1), Hs2 as (D2 & L2 & S2). rewrite D1 in P2, M2.
  match goal with |- context [restoring (AW_held w) ?m w2] =>
    pose proof (restoring_inv w w2 m Hi D2 S2) as HR; set (body := m) in * end.
  assert (let '(w3, r) := body w2 in match r with Ok _ => inv w3
    | Err _ => AW_db w3 = AW_db w2 /\ AW_seen w3 = AW_seen w2 end) as Hm.
  { subst body. unfold mbind at 1, st_bind at 1. unfold aw_method, mbind at 1, st_bind at 1. cbn [aw_now].
    unfold mbind at 1, st_bind at 1. cbn [aw_held AW_held]. rewrite L2.
    set (now := ae_now (AW_clock w2)). pose proof (complete_ok (AW_db w) d2) as Hc.
    destruct (MarkComplete now (AW_held w)) as [am r] eqn:Em.
    assert (r = Ok tt) as ->.
    { unfold MarkComplete, expect_status, st_ensure, st_lift, st_get, st_modify, mbind, st_bind in Em. cbn in Em.
      rewrite bool_decide_eq_true_2 in Em by done. cbn in Em. congruence. }
    unfold mbind at 1, st_bind at 1. unfold aw_hold, st_lift. unfold mbind at 1, st_bind at 1. cbn [aw_held AW_held].
    match goal with |- context [persist_event am ?k ?t ?w0] => pose proof (persist_event_spec am k t w0) as Hp;
      destruct (persist_event am k t w0) as [w3 [y|e]] end; cbn in Hp; destruct Hp as (L3 & S3 & Hp); [|by split].
    destruct Hp as (d0 & d3 & [= <-] & Hu & P3 & M3).
    destruct (Hc d3 (AW_seen w) (AW_held w) now (inv_db _ Hi) (inv_held _ Hi) Hs P2 M2 Hret) as [Hd3 Hh3]; [by rewrite Em|].
    rewrite Em in Hh3. rewrite S2 in S3. split; rewrite S3; [by eapply db_ok_ext|]. rewrite L3. by eapply held_ok_ext. }
  specialize (HR Hm). destruct (restoring _ body w2) as [w3 r]. by destruct r.
Qed.

(** ** One archive *)
Lemma when_status_triple st0 m :
  triple (fun w => inv w /\ AM_Status (AW_held w) = st0) m (fun _ => inv) -> triple inv (when_status st0 m) (fun _ => inv).
Proof.
  intros Hm w Hi. unfold when_status, mbind, st_bind. cbn. case_bool_decide; [by apply Hm|done].
Qed.

Lemma archivePartition_triple : triple inv archivePartition (fun _ => inv).
Proof.
  unfold archivePartition.
  repeat (eapply triple_bind; [apply when_status_triple|intros []]); try apply when_status_triple;
    try (apply triple_catch, transitionTo_triple; eapply good_status; [done|done|done|]).
  - intros w [Hi _]. split; [done|]. cbn. split; lia.
  - apply triple_catch, transitionToExported_triple. by intros w [Hi _].
  - intros w [Hi _]. split; [done|]. cbn. split; lia.
  - apply handleUploadingState_triple.
  - intros w [Hi _]. split; [done|]. split; [|cbn; lia]. intros _ Hs. apply Hi. rewrite Hs. cbn. lia.
  - eapply (triple_bind _ _ _ (fun _ w => inv w /\ verified_ok (AW_seen w) (AW_held w))).
    + apply triple_catch. eapply triple_weaken; [apply verifyArchive_triple|by intros w [Hi _]|done].
    + intros []. apply triple_catch, transitionTo_triple. eapply good_status; [done|done|done|].
      intros w [Hi Hv]. split; [done|]. split; [|done]. intros _ Hs. apply Hi. rewrite Hs. cbn. lia.
  - intros w [Hi _]. split; [done|]. split; intros _ Hs; apply Hi; rewrite Hs; cbn; lia.
  - apply triple_catch, completeArchive_triple.
Qed.

(** A row of the table can be held. *)
Lemma hold_row w id am : inv w -> AD_meta (AW_db w) !! id = Some am -> inv (aw_hold am w).1.
Proof.
  intros [[Hr Hp Hg] _] Ham. destruct (Hr _ _ Ham) as [Hid Hm]. split; [done|]. cbn. split; [done|].
  intros row Hrow. rewrite Hid, Ham in Hrow. injection Hrow as <-. done.
Qed.

Lemma hold_stored w am : db_ok (AW_db w) (AW_seen w) -> AD_meta (AW_db w) !! AM_ID am = Some am -> inv (aw_hold am w).1.
Proof.
  intros Hd Ham. split; [done|]. cbn. split; [by apply (do_rows _ _ Hd _ _ Ham)|].
  intros row Hrow. rewrite Ham in Hrow. injection Hrow as <-. done.
Qed.

(** ** A tenant *)
Lemma executeInsert_ok am d d' seen :
  db_ok d seen -> AM_Status am = StatusPending -> executeInsert am d = Ok d' ->
  db_ok d' seen /\ AD_meta d' !! AM_ID am = Some am.
Proof.
  intros [Hr Hp Hg] Hs Hins. unfold executeInsert in Hins. destruct (_ && _) eqn:Hb; [|done]. injection Hins as <-.
  apply andb_true_iff in Hb as [Hb _]. apply bool_decide_eq_true in Hb. split; [split|]; cbn.
  - intros id x Hx. apply lookup_insert_Some in Hx as [[<- <-]|[Hne Hx]]; [|by apply Hr].
    split; [done|]. split; rewrite Hs; cbn; [lia|lia|done].
  - done.
  - intros name rows H0 Hn. destruct (Hg _ _ H0 Hn) as (id & x & Hx & Hxn).
    exists id, x. split; [|done]. rewrite lookup_insert_ne; [done|]. intros <-. congruence.
  - apply lookup_insert_eq.
Qed.

Lemma proceed_run t (r : res ArchiveError unit) w (k : option ArchiveDB -> aw ArchiveMetadata) P :
  (forall e, P (w, Err e)) -> (r = Ok tt -> P (k t w)) -> P ((proceed (t, r) ≫= k) w).
Proof. intros He Hk. unfold proceed, mbind, st_bind. cbn. destruct r as [[]|e]; cbn; auto. Qed.

Definition stored_meta (w : ArchiveWorld) (r : res ArchiveError ArchiveMetadata) : Prop :=
  db_ok (AW_db w) (AW_seen w) /\ match r with Ok am => AD_meta (AW_db w) !! AM_ID am = Some am | Err _ => True end.

Lemma getByPartition_stored tenantID name w :
  db_ok (AW_db w) (AW_seen w) ->
  let '(w', r) := aw_try (archiveRepo_GetByPartition tenantID name) w in
  same w w' /\ match r with Ok (Ok (Some row)) => AD_meta (AW_db w') !! AM_ID row = Some row | _ => True end.
Proof.
  intros Hd. unfold aw_try, archiveRepo_GetByPartition, mbind, st_bind. pose proof (aw_call_same w) as Hs.
  destruct (aw_call w) as [w1 [n|e]]; cbn in Hs |- *; [|done]. split; [done|]. destruct (find _ _) as [row|] eqn:Ef; [|done].
  apply find_some in Ef as [Ef _]. apply list_elem_of_In, list_elem_of_fmap in Ef as ([id x] & -> & Hx).
  apply elem_of_map_to_list in Hx. destruct Hs as (Hs & _). rewrite Hs in *. cbn. by destruct (do_rows _ _ Hd _ _ Hx) as [-> _].
Qed.

Lemma NewArchiveMetadata_pending id now t n a b am :
  NewArchiveMetadata id now t n a b = Ok am -> AM_Status am = StatusPending.
Proof. unfold NewArchiveMetadata. intros H. res_inv. done. Qed.

Lemma insert_event_run am key w :
  db_ok (AW_db w) (AW_seen w) -> AM_Status am = StatusPending ->
  let '(w', r) := (tr ← tx_stmt Ok (Some (AW_db w)); t ← proceed tr; tr ← tx_stmt (executeInsert am) t; t ← proceed tr;
     tr ← tx_stmt (emitArchiveEvent key (AM_ID am)) t; t ← proceed tr; _ ← commit t; mret am) w in stored_meta w' r.
Proof.
  intros Hd Hp. unfold mbind at 1, st_bind at 1.
  destruct (tx_stmt_spec Ok (Some (AW_db w)) w) as (w1 & t1 & r1 & -> & H1 & Hr1).
  apply proceed_run; [intros e; split; [by destruct H1 as (-> & _ & ->)|done]|]. intros ->.
  destruct (Hr1 eq_refl) as (d0 & d1 & [= <-] & [= <-] & ->). unfold mbind at 1, st_bind at 1.
  destruct (tx_stmt_spec (executeInsert am) (Some (AW_db w)) w1) as (w2 & t2 & r2 & -> & H2 & Hr2).
  assert (same w w2) as S2 by eauto using same_trans.
  apply proceed_run; [intros e; split; [by destruct S2 as (-> & _ & ->)|done]|]. intros ->.
  destruct (Hr2 eq_refl) as (d0 & d2 & [= <-] & Hins & ->). unfold mbind at 1, st_bind at 1.
  destruct (executeInsert_ok _ _ _ _ Hd Hp Hins) as [Hd2 Hl2].
  destruct (tx_stmt_spec (emitArchiveEvent key (AM_ID am)) (Some d2) w2) as (w3 & t3 & r3 & -> & H3 & Hr3).
  assert (same w w3) as S3 by eauto using same_trans.
  apply proceed_run; [intros e; split; [by destruct S3 as (-> & _ & ->)|done]|]. intros ->.
  destruct (Hr3 eq_refl) as (d0 & d3 & [= <-] & [= <-] & ->). unfold mbind at 1, st_bind at 1.
  match goal with |- context [commit ?t w3] => pose proof (commit_spec t w3) as Hc; destruct (commit t w3) as [w4 [x|e]] end.
  - destruct Hc as (_ & H4 & [= Hdb]). destruct S3 as (_ & _ & S3). split; cbn; rewrite <-Hdb; [|done].
    rewrite H4, S3. by apply (db_ok_ext d2).
  - assert (same w w4) as (H4 & _ & H5) by eauto using same_trans. unfold stored_meta. by rewrite H4, H5.
Qed.

Lemma getOrCreateMetadata_stored tenantID p w :
  db_ok (AW_db w) (AW_seen w) -> let '(w', r) := getOrCreateMetadata tenantID p w in stored_meta w' r.
Proof.
  intros Hd. unfold getOrCreateMetadata, mbind at 1, st_bind at 1.
  pose proof (getByPartition_stored tenantID (PI_Name p) w Hd) as Hg.
  destruct (aw_try _ w) as [w1 [ex|e]]; destruct Hg as [(D1 & L1 & S1) Hg]; [|by rewrite <-D1, <-S1 in Hd; split].
  assert (db_ok (AW_db w1) (AW_seen w1)) as Hd1 by (by rewrite D1, S1).
  assert (Hnew : let '(w', r) := (fresh ← aw_fresh;
      am ← st_lift (NewArchiveMetadata (fresh.1) (fresh.2) tenantID (PI_Name p) (PI_RangeStart p) (PI_RangeEnd p));
      _ ← aw_call; d ← aw_db; tr ← tx_stmt Ok (Some d); t ← proceed tr;
      tr ← tx_stmt (executeInsert am) t; t ← proceed tr;
      tr ← tx_stmt (emitArchiveEvent "archive_metadata.created" (AM_ID am)) t; t ← proceed tr;
      _ ← commit t; mret am) w1 in stored_meta w' r).
  { unfold mbind at 1, st_bind at 1. cbn [aw_fresh]. unfold mbind at 1, st_bind at 1, st_lift at 1.
    destruct (NewArchiveMetadata _ _ _ _ _ _) as [am|e] eqn:Hn; [|done].
    apply (aw_call_bind (fun _ => _)); [intros w2 e (D2 & _ & S2); unfold stored_meta; cbn in D2, S2; by rewrite D2, S2|]. intros w2 n (D2 & _ & S2).
    unfold mbind at 1, st_bind at 1. cbn [aw_db]. cbn in D2, S2.
    apply insert_event_run; [by rewrite D2, S2|by eapply NewArchiveMetadata_pending]. }
  destruct ex as [[row|]|e]; [|exact Hnew|exact Hnew]. by split.
Qed.

Lemma archive_each_ok cutoff tenantID ps processed failed w :
  db_ok (AW_db w) (AW_seen w) ->
  let '(w', _) := archive_each cutoff tenantID ps processed failed w in db_ok (AW_db w') (AW_seen w').
Proof.
  revert processed failed w. induction ps as [|p ps IH]; intros processed failed w Hd; cbn [archive_each]; [done|].
  destruct (negb _); [by apply IH|]. unfold mbind at 1, st_bind at 1, aw_try at 1.
  pose proof (getOrCreateMetadata_stored tenantID p w Hd) as Hg.
  destruct (getOrCreateMetadata tenantID p w) as [w1 [am|e]]; destruct Hg as [Hd1 Ham]; [|by apply IH].
  case_bool_decide; [by apply IH|]. unfold mbind at 1, st_bind at 1, aw_hold at 1.
  unfold mbind at 1, st_bind at 1, aw_try at 1.
  pose proof (archivePartition_triple _ (hold_stored w1 am Hd1 Ham)) as Ht. unfold aw_hold, fst in Ht.
  destruct (archivePartition _) as [w2 r]. destruct Ht as [[Hd2 _] _]. destruct r; by apply IH.
Qed.

(** What the worker does in its cycles: a pass over a tenant's partitions, or
    the resumption of an archive as it is stored. *)
Inductive worker_call : ArchiveWorld -> ArchiveWorld -> Prop :=
| call_tenant w months tenantID ps : worker_call w (archiveTenant months tenantID ps w).1
| call_resume w am : AD_meta (AW_db w) !! AM_ID am = Some am ->
    worker_call w ((_ ← aw_hold am; archivePartition) w).1.

Lemma worker_call_ok w w' : worker_call w w' -> db_ok (AW_db w) (AW_seen w) -> db_ok (AW_db w') (AW_seen w').
Proof.
  intros [w0 months tenantID ps|w0 am Ham] Hd.
  - unfold archiveTenant, mbind, st_bind. cbn [aw_now].
    match goal with |- context [archive_each ?c ?t ?l ?a ?b ?x] => pose proof (archive_each_ok c t l a b x Hd) as H;
      destruct (archive_each c t l a b x) as [w1 r] end. done.
  - unfold mbind, st_bind. pose proof (archivePartition_triple _ (hold_stored w0 am Hd Ham)) as Ht.
    unfold aw_hold, fst in *. destruct (archivePartition _) as [w1 r]. by destruct Ht as [[? _] _].
Qed.

(** ** The archive holds the rows *)
Lemma hex_digit_inj a b : 0 <= a < 16 -> 0 <= b < 16 -> hex_digit a = hex_digit b -> a = b.
Proof. intros Ha Hb H. by rewrite <-(hex_value_digit a Ha), H, hex_value_digit. Qed.

Lemma hex_EncodeToString_inj l k : hex_EncodeToString l = hex_EncodeToString k -> l = k.
Proof.
  unfold hex_EncodeToString. intros H. apply (f_equal String.list_ascii_of_string) in H.
  rewrite !String.list_ascii_of_string_of_list_ascii in H. revert k H.
  induction l as [|c l IH]; intros [|d k] H; try done. cbn -[hex_digit Z.shiftr Z.land] in H. injection H as H1 H2 H3.
  destruct (nibbles c) as (A1 & A2 & A3), (nibbles d) as (B1 & B2 & B3).
  apply hex_digit_inj in H1; [|done|done]. apply hex_digit_inj in H2; [|done|done].
  f_equal; [apply code_inj; lia|]. by apply IH.
Qed.

(** The content a download yields, after the scanner split it into lines, is
    the export of [rows]; or the two are a collision of SHA-256. *)
Definition holds_rows (content : bytes) (rows : list AuditLog) : Prop :=
  let got := join_lines (scan_lines [] content) in let want := join_lines (encodePartitionRows rows) in
  got = want \/ got <> want /\ sha256_Sum256 got = sha256_Sum256 want.

Lemma verified_holds am content rows :
  verify_content am content = Ok tt -> AM_Checksum am = checksum_of (encodePartitionRows rows) -> holds_rows content rows.
Proof.
  unfold verify_content, holds_rows, checksum_of. intros H Hc. res_inv. bool_inv. rewrite Hc in Hx0.
  apply hex_EncodeToString_inj in Hx0. destruct (decide (join_lines (scan_lines [] content) = join_lines (encodePartitionRows rows))); auto.
Qed.

Lemma reachable_ok w0 w :
  rtc worker_call w0 w -> AD_parts (AW_db w0) = parts0 -> AD_meta (AW_db w0) = ∅ -> db_ok (AW_db w) (AW_seen w).
Proof.
  intros Hr Hp Hm. assert (db_ok (AW_db w0) (AW_seen w0)) as Hd.
  { split; rewrite ?Hm, ?Hp; [by intros id am; rewrite lookup_empty|done|congruence]. }
  clear Hp Hm. induction Hr; eauto using worker_call_ok.
Qed.

(** C3: archival never loses audit records.  Start with the partitions
    [parts0] and no archive recorded, and let the worker make any sequence of
    passes and resumptions, while statements, downloads and commits fail at
    will.  Whenever a partition is gone, its archive is COMPLETE, was verified
    by a download, and what was downloaded is exactly the export of the rows
    the partition had (or a SHA-256 collision with it), and the partition was
    past its retention period.  Conversely an archive
    recorded COMPLETE has its partition dropped, and every partition still
    there has all its rows. *)
Theorem archivePartition_safe w0 w :
  rtc worker_call w0 w -> AD_parts (AW_db w0) = parts0 -> AD_meta (AW_db w0) = ∅ ->
  (forall name rows, parts0 !! name = Some rows -> AD_parts (AW_db w) !! name = None ->
     exists id am content, AD_meta (AW_db w) !! id = Some am /\ AM_PartitionName am = name /\
       AM_Status am = StatusComplete /\ (AM_ArchiveKey am, content) ∈ AW_seen w /\ holds_rows content rows /\
       retention_passed name) /\
  (forall id am, AD_meta (AW_db w) !! id = Some am -> AM_Status am = StatusComplete ->
     AD_parts (AW_db w) !! AM_PartitionName am = None) /\
  (forall name rows, AD_parts (AW_db w) !! name = Some rows -> parts0 !! name = Some rows).
Proof.
  intros Hr Hp Hm. destruct (reachable_ok _ _ Hr Hp Hm) as [Dr Dp Dg].
  split_and!; [|intros id am Ham; by apply (Dr id am Ham)|done].
  intros name rows H0 Hn. destruct (Dg _ _ H0 Hn) as (id & am & Ham & <- & Hs).
  destruct (Dr _ _ Ham) as [_ [M4 M6 M8]]. destruct (M8 Hs) as [_ Hret]. rewrite Hs in M4, M6. cbn in M4, M6.
  destruct (M4 ltac:(lia)) as (rows' & Hr' & Hc & _). destruct (M6 ltac:(lia)) as (_ & content & Hin & Hv).
  rewrite H0 in Hr'. injection Hr' as <-. exists id, am, content. split_and!; try done. by eapply verified_holds.
Qed.

(** C27: partitions the worker cannot finish.  Whatever it does, a partition
    without rows, or one whose retention period has not passed at any time the
    worker looks, is never dropped and its archive is never COMPLETE: the
    first fails every verification (a row count of zero is an error), the
    second every attempt to detach. *)
Theorem archivePartition_stuck w0 w name rows :
  rtc worker_call w0 w -> AD_parts (AW_db w0) = parts0 -> AD_meta (AW_db w0) = ∅ ->
  parts0 !! name = Some rows -> rows = [] \/ (forall n, validateRetentionPeriod (ae_now n) name <> Ok tt) ->
  AD_parts (AW_db w) !! name = Some rows /\
  forall id am, AD_meta (AW_db w) !! id = Some am -> AM_PartitionName am = name -> AM_Status am <> StatusComplete.
Proof.
  intros Hr Hp Hm H0 Hstuck. destruct (reachable_ok _ _ Hr Hp Hm) as [Dr Dp Dg].
  assert (Hno : forall id am, AD_meta (AW_db w) !! id = Some am -> AM_PartitionName am = name -> AM_Status am <> StatusComplete).
  { intros id am Ham Hn Hs. destruct (Dr _ _ Ham) as [_ [M4 M6 M8]]. destruct (M8 Hs) as [_ [n Hret]].
    rewrite Hs in M4, M6. cbn in M4, M6. destruct (M4 ltac:(lia)) as (rows' & Hr' & _ & Hk).
    destruct (M6 ltac:(lia)) as (Hpos & _). rewrite Hn in *. rewrite H0 in Hr'. injection Hr' as <-.
    destruct Hstuck as [->|Hn']; [cbn in Hk; lia|by apply (Hn' n)]. }
  split; [|done]. destruct (AD_parts (AW_db w) !! name) as [rows'|] eqn:El.
  - rewrite (Dp _ _ El) in H0. congruence.
  - destruct (Dg _ _ H0 El) as (id & am & Ham & Hn & Hs). by destruct (Hno id am Ham Hn).
Qed.
End safety.
