(* ===== verification/ArchiveLive.v ===== *)
(** * Progress of the archival worker, and the partitions it cannot finish

    When nothing fails and the partition is past its retention period,
    [archivePartition] takes an archive from any state to COMPLETE in one call
    ([archivePartition_completes]).  Two kinds of partition never finish: an
    empty one and one inside the seven-year retention period
    ([archivePartition_stuck]).  [auditLogRow_loses_hashes]: the exported lines
    do not determine the hashes of the rows. *)
From stdpp Require Import pretty.
From S2P Require Import GoLib GoLibModel Sha256 GoTime GoJson AuditChain Archive ArchiveSafe.

Local Open Scope Z_scope.

(** ** Exported lines hold no control characters *)
Definition printable (l : bytes) : Prop := Forall (fun c => 32 <= code c) l.

Lemma printable_digit z : 0 <= z < 16 -> 32 <= code (hex_digit z).
Proof. intros H. rewrite code_hex_digit by done. case_match; code_facts; lia. Qed.

Lemma printable_u00 c : printable (u00 c).
Proof.
  destruct (nibbles c) as (H1 & H2 & _). apply Forall_app; split; [by repeat constructor|].
  repeat constructor; by apply printable_digit.
Qed.

Lemma printable_quote_byte c : printable (quote_byte c).
Proof.
  unfold quote_byte. destruct ((code c =? 92) || (code c =? 34)) eqn:E.
  - apply orb_true_iff in E. rewrite !Z.eqb_eq in E. repeat constructor; [done|lia].
  - repeat (case_match; [by repeat constructor|]). destruct ((code c <? 32) || json_html c) eqn:E'.
    + apply printable_u00.
    + apply orb_false_iff in E' as [E' _]. apply Z.ltb_ge in E'. by repeat constructor.
Qed.

Lemma printable_quote_rune s w : utf8_width s = Some w -> printable (quote_rune (take w s)).
Proof.
  intros H. destruct (utf8_width_spec _ _ H) as [(-> & c & s' & -> & Hc)|[Hw Hl]]; [apply printable_quote_byte|].
  assert (printable (take w s)) as Hp by (eapply Forall_impl; [exact Hl|cbn; lia]).
  destruct (take w s) as [|c [|c1 [|c2 [|c3 l]]]]; cbn [quote_rune]; try exact Hp; [apply printable_quote_byte|].
  destruct (is_line_sep c c1 c2) eqn:E; [|exact Hp]. apply Forall_app; split; [by repeat constructor|].
  unfold is_line_sep in E. rewrite !andb_true_iff, orb_true_iff, !Z.eqb_eq in E.
  repeat constructor. destruct E as [_ [E|E]]; rewrite E; done.
Qed.

Lemma printable_quote_body n s : printable (quote_body n s).
Proof.
  revert s. induction n as [|n IH]; intros [|c s]; cbn [quote_body]; try constructor.
  destruct (utf8_width (c :: s)) as [w|] eqn:E.
  - apply Forall_app; split; [by apply printable_quote_rune|apply IH].
  - apply Forall_app; split; [by repeat constructor|]. apply Forall_app; split; [by repeat constructor|apply IH].
Qed.

Lemma printable_quote s : printable (json_quote s).
Proof. constructor; [done|]. apply Forall_app; split; [apply printable_quote_body|by repeat constructor]. Qed.

Lemma printable_pretty (x : N) s : printable (bytes_of s) -> printable (bytes_of (pretty_N_go x s)).
Proof.
  revert s. induction (N.lt_wf_0 x) as [x _ IH]. intros s Hs. destruct (decide (0 < x)%N) as [Hx|Hx].
  - rewrite pretty_N_go_step by done. apply IH; [by apply N.div_lt|]. constructor; [|done].
    rewrite pretty_N_char_code by (by apply N.mod_lt). generalize (x `mod` 10)%N. lia.
  - assert (x = 0%N) as -> by lia. by rewrite pretty_N_go_0.
Qed.

Lemma printable_int n : printable (marshal_int n).
Proof.
  unfold marshal_int, strconv_Itoa. destruct n as [|p|p]; [by repeat constructor| |].
  - apply (printable_pretty (N.pos p) ""). constructor.
  - constructor; [done|]. apply (printable_pretty (N.pos p) ""). constructor.
Qed.

Lemma printable_fields fs : Forall printable fs.*2 -> printable (json_fields fs).
Proof.
  induction fs as [|[x v] [|f fs] IH]; intros H; [constructor| |]; apply Forall_cons in H as [Hv H].
  - apply Forall_app; split; [apply printable_quote|by constructor].
  - apply Forall_app; split; [apply Forall_app; split; [apply printable_quote|by constructor]|].
    constructor; [done|]. by apply IH.
Qed.

Lemma printable_row {U : UUIDLib} log : printable (auditLogRow log).
Proof.
  constructor; [done|]. apply Forall_app; split; [|by repeat constructor]. apply printable_fields.
  rewrite !fmap_app, !Forall_app. cbn [fmap list_fmap snd]. split_and!.
  - rewrite !Forall_cons. split_and!; [apply printable_quote..|constructor].
  - destruct (AL_ActorID log); [|constructor]. apply Forall_cons. split; [apply printable_quote|constructor].
  - rewrite !Forall_cons. split_and!; first [apply printable_quote|apply printable_int|constructor].
Qed.

(** ** Reading the lines back *)
Lemma scan_lines_line cur l s :
  printable l -> scan_lines cur (l ++ newline :: s) = dropCR (rev cur ++ l) :: scan_lines [] s.
Proof.
  intros H. revert cur. induction H as [|c l Hc _ IH]; intros cur; cbn [app scan_lines].
  - change (code newline =? 10) with true. by rewrite app_nil_r.
  - rewrite (proj2 (Z.eqb_neq (code c) 10)) by lia. rewrite IH. cbn [rev]. by rewrite <-app_assoc.
Qed.

Lemma dropCR_printable l : printable l -> dropCR l = l.
Proof.
  intros H. unfold dropCR. destruct (last l) as [c|] eqn:E; [|done]. apply last_Some in E as [l' ->].
  apply Forall_app in H as [_ [H _]%Forall_cons]. by rewrite (proj2 (Z.eqb_neq (code c) 13)) by lia.
Qed.

Lemma scan_lines_join lines : Forall printable lines -> scan_lines [] (join_lines lines) = lines.
Proof.
  induction 1 as [|l lines Hl _ IH]; [done|]. unfold join_lines in *. cbn [fmap list_fmap concat].
  rewrite <-app_assoc. cbn [app]. rewrite scan_lines_line by done. cbn [rev app]. by rewrite dropCR_printable, IH.
Qed.

Lemma longest_line_line cur m l s :
  printable l -> longest_line cur m (l ++ newline :: s) = longest_line 0 (Z.max (cur + Z.of_nat (length l)) m) s.
Proof.
  intros H. revert cur. induction H as [|c l Hc _ IH]; intros cur; cbn [app longest_line length].
  - change (code newline =? 10) with true. by rewrite Z.add_0_r.
  - rewrite (proj2 (Z.eqb_neq (code c) 10)) by lia. rewrite IH. do 2 f_equal. lia.
Qed.

Lemma longest_line_join m lines :
  0 <= m < maxVerificationLineSize -> Forall (fun l => printable l /\ Z.of_nat (length l) < maxVerificationLineSize) lines ->
  longest_line 0 m (join_lines lines) < maxVerificationLineSize.
Proof.
  intros Hm H. revert m Hm. induction H as [|l lines [Hl Hn] _ IH]; intros m Hm; [cbn; lia|].
  unfold join_lines in *. cbn [fmap list_fmap concat]. rewrite <-app_assoc. cbn [app].
  rewrite longest_line_line by done. apply IH. lia.
Qed.

(** ** When nothing fails *)
Section live.
  Context {U : UUIDLib} {A : AssertLib} {E : ArchiveEnv U} (name : string) (rows : list AuditLog).

(** No call fails, the object store returns what was uploaded, and the
    partition [name] is past the retention period. *)
Record all_well : Prop := {
  aw_quiet : forall n, ae_fails n = false;
  aw_key : forall tenant key, exists k, ae_objectKey tenant key = Some k /\ k <> "";
  aw_class : ae_storageClass <> "";
  aw_size : forall n, 0 <= ae_size n;
  aw_retention : forall n, validateRetentionPeriod (ae_now n) name = Ok tt;
  aw_content : forall n, ae_download n = Some (join_lines (encodePartitionRows rows));
  aw_rows : rows <> [];
  aw_lines : Forall (fun log => Z.of_nat (length (auditLogRow log)) < maxVerificationLineSize) rows;
}.

(** The archive of [name] is held in state [s] and stored; the partition is
    attached until it is COMPLETE. *)
Record at_status (s : ArchiveStatus) (w : ArchiveWorld) : Prop := {
  as_status : AM_Status (AW_held w) = s;
  as_name : AM_PartitionName (AW_held w) = name;
  as_row : exists row, AD_meta (AW_db w) !! AM_ID (AW_held w) = Some row /\ AM_TenantID row = AM_TenantID (AW_held w);
  as_part : AD_parts (AW_db w) !! name = if decide (s = StatusComplete) then None else Some rows;
  as_upload : (4 <= rank s < 8)%nat -> AM_Checksum (AW_held w) = checksum_of (encodePartitionRows rows) /\
    AM_RowCount (AW_held w) = Z.of_nat (length (encodePartitionRows rows));
}.

Hypothesis Hwell : all_well.

Lemma quiet_call w :
  aw_call w = (mkArchiveWorld (AW_db w) (S (AW_step w)) (AW_clock w) (AW_held w) (AW_seen w), Ok (AW_step w)).
Proof.
  unfold aw_call, mbind, st_bind, aw_tick, st_ensure, st_lift. cbn. by rewrite (aw_quiet Hwell).
Qed.

Lemma quiet_stmt f d d' w : f d = Ok d' ->
  exists w', tx_stmt f (Some d) w = (w', Ok (Some d', Ok tt)) /\ same w w'.
Proof.
  intros Hf. unfold tx_stmt, mbind, st_bind, aw_try. rewrite quiet_call. cbn. rewrite Hf. eexists. split; [reflexivity|done].
Qed.

Lemma quiet_commit d w : exists w', commit (Some d) w = (w', Ok tt) /\
  AW_db w' = d /\ AW_held w' = AW_held w /\ AW_seen w' = AW_seen w.
Proof. unfold commit, mbind, st_bind. rewrite quiet_call. cbn. eexists. by split. Qed.

(** A row of the same archive can be updated. *)
Definition updatable (am : ArchiveMetadata) (d : ArchiveDB) : Prop :=
  exists row, AD_meta d !! AM_ID am = Some row /\ AM_TenantID row = AM_TenantID am.

Lemma updatable_update am d : updatable am d ->
  exists d', executeUpdate am d = Ok d' /\ AD_parts d' = AD_parts d /\ updatable am d'.
Proof.
  intros (row & Hrow & Ht). unfold executeUpdate. rewrite Hrow, bool_decide_eq_true_2 by done.
  eexists. split_and!; [done|done|]. eexists. cbn. rewrite lookup_insert_eq. by split.
Qed.

Lemma quiet_update w : updatable (AW_held w) (AW_db w) ->
  exists w', archiveRepo_Update w = (w', Ok tt) /\ AW_held w' = AW_held w /\ AW_seen w' = AW_seen w /\
    AD_parts (AW_db w') = AD_parts (AW_db w) /\ updatable (AW_held w) (AW_db w').
Proof.
  intros Hu. destruct (updatable_update _ _ Hu) as (d' & Hd & Hp & Hu').
  unfold archiveRepo_Update, in_own_tx. unfold mbind at 1, st_bind at 1. cbn [aw_held].
  unfold mbind at 1, st_bind at 1. rewrite quiet_call. unfold mbind at 1, st_bind at 1. cbn [aw_db AW_db].
  unfold mbind at 1, st_bind at 1.
  match goal with |- context [tx_stmt ?f ?t ?w0] => destruct (quiet_stmt f (AW_db w) d' w0 Hd) as (w1 & -> & H1) end.
  unfold mbind at 1, st_bind at 1. cbn [fst snd st_lift].
  destruct (quiet_commit d' w1) as (w2 & -> & D2 & L2 & S2). exists w2. destruct H1 as (_ & L1 & S1). cbn in L1, S1.
  rewrite D2. split_and!; [done|congruence|congruence|done|done].
Qed.

Lemma quiet_event am key d w : updatable am d ->
  exists w', persist_event am key (Some d) w = (w', Ok tt) /\ AW_held w' = AW_held w /\ AW_seen w' = AW_seen w /\
    AD_parts (AW_db w') = AD_parts d /\ updatable am (AW_db w').
Proof.
  intros Hu. destruct (updatable_update _ _ Hu) as (d' & Hd & Hp & Hu').
  unfold persist_event. unfold mbind at 1, st_bind at 1. unfold UpdateWithTx. unfold mbind at 1, st_bind at 1.
  destruct (quiet_stmt Ok d d w eq_refl) as (w1 & -> & H1). cbn [snd fst].
  destruct (quiet_stmt (executeUpdate am) d d' w1 Hd) as (w2 & -> & H2).
  unfold mbind at 1, st_bind at 1. unfold proceed at 1. cbn [snd fst]. unfold mret at 1, st_ret at 1.
  unfold mbind at 1, st_bind at 1.
  destruct (quiet_stmt (emitArchiveEvent key (AM_ID am)) d' _ w2 eq_refl) as (w3 & -> & H3).
  unfold mbind at 1, st_bind at 1. unfold proceed at 1. cbn [snd fst]. unfold mret at 1, st_ret at 1.
  match goal with |- context [commit (Some ?x) w3] => destruct (quiet_commit x w3) as (w4 & -> & D4 & L4 & S4) end.
  exists w4. assert (same w w3) as (_ & L3 & S3) by eauto using same_trans.
  split_and!; [done|congruence|congruence|by rewrite D4|by rewrite D4].
Qed.

(** A method that succeeds moves the object to [am]. *)
Lemma quiet_method tr w am :
  tr (ae_now (AW_clock w)) (AW_held w) = (am, Ok tt) ->
  exists w', aw_method tr w = (w', Ok tt) /\ AW_held w' = am /\ AW_db w' = AW_db w /\ AW_seen w' = AW_seen w.
Proof. intros H. unfold aw_method, mbind, st_bind. cbn. rewrite H. cbn. eexists. by split. Qed.

Lemma status_method from to now am :
  AM_Status am = from -> (_ ← expect_status from to; st_modify (with_status to now)) am = (with_status to now am, Ok tt).
Proof.
  intros H. unfold expect_status, st_ensure, st_lift, st_get, st_modify, mbind, st_bind. cbn.
  by rewrite bool_decide_eq_true_2.
Qed.

(** One status change, persisted. *)
Lemma quiet_transition tr from to w :
  (forall now, tr now = (_ ← expect_status from to; st_modify (with_status to now))) ->
  (rank to < 4)%nat \/ (4 <= rank from < 8)%nat -> from <> StatusComplete -> to <> StatusComplete ->
  at_status from w -> exists w', transitionTo tr w = (w', Ok tt) /\ at_status to w'.
Proof.
  intros Htr Hrank Hf Ht [Hs Hn Hr Hp Hup]. unfold transitionTo. unfold mbind at 1, st_bind at 1. cbn [aw_held].
  destruct (quiet_method tr w (with_status to (ae_now (AW_clock w)) (AW_held w))) as (w1 & E1 & L1 & D1 & S1).
  { rewrite Htr. by apply status_method. }
  unfold mbind at 1, st_bind at 1. rewrite E1. unfold restoring, aw_catch.
  destruct (quiet_update w1) as (w2 & -> & L2 & S2 & P2 & U2). { rewrite L1, D1. exact Hr. }
  exists w2. split; [done|]. rewrite L1 in L2, U2. split; rewrite ?L2; cbn; try done.
  - rewrite P2, D1, Hp. by repeat case_decide.
  - intros H. apply Hup. lia.
Qed.

Lemma quiet_exported w : at_status StatusExporting w ->
  exists w', transitionToExported 0 w = (w', Ok tt) /\ at_status StatusExported w'.
Proof.
  intros [Hs Hn Hr Hp Hup]. unfold transitionToExported. unfold mbind at 1, st_bind at 1.
  edestruct (quiet_method (MarkExported 0) w) as (w1 & -> & L1 & D1 & S1).
  { unfold MarkExported, expect_status, st_ensure, st_lift, st_get, st_modify, mbind, st_bind. cbn.
    rewrite bool_decide_eq_true_2 by done. reflexivity. }
  destruct (quiet_update w1) as (w2 & -> & L2 & S2 & P2 & U2). { rewrite L1, D1. exact Hr. }
  exists w2. split; [done|]. rewrite L1 in L2, U2. split; rewrite ?L2; cbn; try done; [by rewrite P2, D1, Hp|lia].
Qed.

Lemma quiet_stream w : AD_parts (AW_db w) !! name = Some rows ->
  exists w' size, streamPartitionUpload name w =
    (w', Ok (Z.of_nat (length (encodePartitionRows rows)), checksum_of (encodePartitionRows rows), size)) /\
    same w w' /\ 0 <= size.
Proof.
  intros Hp. pose proof (aw_retention Hwell 0) as Hv. unfold validateRetentionPeriod, parsePartitionBoundFromName in Hv.
  unfold streamPartitionUpload, validatePartitionName.
  destruct (parse_partition_name name) as [[y m]|]; [|done].
  do 2 (unfold mbind at 1, st_bind at 1; rewrite quiet_call). unfold mbind at 1, st_bind at 1. cbn [st_lift ensure].
  unfold mbind at 1, st_bind at 1. rewrite quiet_call. unfold mbind at 1, st_bind at 1. cbn [aw_db AW_db].
  rewrite Hp. unfold mbind at 1, st_bind at 1. cbn [st_lift].
  do 2 (unfold mbind at 1, st_bind at 1; rewrite quiet_call).
  eexists _, _. split_and!; [reflexivity|done..|]. apply (aw_size Hwell).
Qed.

Lemma checksum_nonempty lines : string_empty (checksum_of lines) = false.
Proof. apply bool_decide_eq_false. unfold checksum_of, hex_EncodeToString. done. Qed.

Lemma quiet_uploaded w : at_status StatusUploading w ->
  exists w', handleUploadingState w = (w', Ok tt) /\ at_status StatusUploaded w'.
Proof.
  intros [Hs Hn Hr Hp Hup]. unfold handleUploadingState. unfold mbind at 1, st_bind at 1. cbn [aw_held].
  unfold mbind at 1, st_bind at 1, aw_catch at 1, st_lift at 1.
  assert (exists key, archiveKey (AW_held w) = Ok key /\ key <> "") as (key & -> & Hkey).
  { unfold archiveKey. destruct (civil_of_days _) as [[y m] d].
    match goal with |- context [ae_objectKey ?a ?b] => destruct (aw_key Hwell a b) as (k & -> & Hk) end. eauto. }
  unfold mbind at 1, st_bind at 1, aw_catch at 1. rewrite Hn.
  destruct (quiet_stream w) as (w1 & size & -> & (D1 & L1 & S1) & Hsize); [by rewrite Hp|].
  unfold mbind at 1, st_bind at 1. cbn [aw_hold fst snd].
  match goal with |- context [aw_catch _ _ ?w0] => set (w2 := w0) end.
  unfold aw_catch, transitionToUploaded. unfold mbind at 1, st_bind at 1. cbn [aw_held].
  edestruct (quiet_method (MarkUploaded key (checksum_of (encodePartitionRows rows)) size ae_storageClass) w2)
    as (w3 & E3 & L3 & D3 & S3).
  { unfold MarkUploaded, expect_status, st_ensure, st_lift, st_get, st_modify, mbind, st_bind. cbn -[checksum_of].
    rewrite bool_decide_eq_true_2 by done. cbn -[checksum_of]. rewrite checksum_nonempty.
    unfold string_empty. rewrite !bool_decide_eq_false_2 by (done || apply Hwell). cbn -[checksum_of].
    rewrite (proj2 (Z.ltb_ge size 0)) by done. reflexivity. }
  unfold mbind at 1, st_bind at 1. rewrite E3. unfold mbind at 1, st_bind at 1. cbn [aw_held].
  unfold restoring, aw_catch. unfold mbind at 1, st_bind at 1. rewrite quiet_call.
  unfold mbind at 1, st_bind at 1. cbn [aw_db AW_db].
  match goal with |- context [persist_event ?am ?k (Some ?d) ?w0] =>
    destruct (quiet_event am k d w0) as (w4 & -> & L4 & S4 & P4 & U4) end.
  { rewrite L3, D3. cbn. rewrite D1. exact Hr. }
  exists w4. split; [done|]. cbn in L4. rewrite L3 in L4, U4. split; rewrite ?L4; cbn; try done.
  rewrite P4, D3. cbn. by rewrite D1, Hp.
Qed.

Lemma quiet_verified w : at_status StatusVerifying w ->
  exists w', verifyArchive w = (w', Ok tt) /\ at_status StatusVerifying w'.
Proof.
  intros [Hs Hn Hr Hp Hup]. destruct Hup as [Hc Hk]; [cbn; lia|].
  unfold verifyArchive. unfold mbind at 1, st_bind at 1. cbn [aw_held]. unfold mbind at 1, st_bind at 1, st_ensure at 1, st_lift at 1, ensure at 1.
  rewrite Hc, checksum_nonempty. cbn [negb]. unfold mbind at 1, st_bind at 1, st_ensure at 1, st_lift at 1, ensure at 1.
  assert (0 < Z.of_nat (length (encodePartitionRows rows))) as Hpos.
  { unfold encodePartitionRows. rewrite length_fmap, stable_sort_length. pose proof (aw_rows Hwell). destruct rows; [done|cbn; lia]. }
  rewrite Hk, (proj2 (Z.leb_gt _ _)) by done. cbn [negb]. unfold mbind at 1, st_bind at 1. rewrite quiet_call.
  rewrite (aw_content Hwell). unfold mbind at 1, st_bind at 1. cbn [st_lift]. unfold mbind at 1, st_bind at 1. cbn [aw_see].
  assert (verify_content (AW_held w) (join_lines (encodePartitionRows rows)) = Ok tt) as ->; [|eexists; split; [done|by split]].
  assert (Forall printable (encodePartitionRows rows)) as Hpr.
  { apply Forall_fmap, Forall_true. intros log. apply printable_row. }
  unfold verify_content. rewrite scan_lines_join by done.
  rewrite (proj2 (Z.ltb_lt _ _)).
  - cbn -[checksum_of encodePartitionRows]. rewrite bool_decide_eq_true_2 by done. cbn -[encodePartitionRows].
    by rewrite Hk, Z.eqb_refl.
  - apply longest_line_join; [done|]. unfold encodePartitionRows. apply Forall_fmap. rewrite Forall_forall.
    intros log Hlog. apply stable_sort_elem_of in Hlog. split; [apply printable_row|].
    pose proof (aw_lines Hwell) as Hl. rewrite Forall_forall in Hl. by apply Hl.
Qed.

Lemma quiet_ddl ddl d d' w : ddl name d = Ok d' ->
  exists w', guarded_ddl ddl name (Some d) w = (w', Ok (Some d', Ok tt)) /\ same w w'.
Proof.
  intros Hd. unfold guarded_ddl. unfold mbind at 1, st_bind at 1, aw_now at 1.
  rewrite (aw_retention Hwell). assert (validatePartitionName name = Ok tt) as ->.
  { pose proof (aw_retention Hwell 0) as Hv. unfold validateRetentionPeriod, parsePartitionBoundFromName in Hv.
    unfold validatePartitionName. by destruct (parse_partition_name name) as [[]|]. }
  cbn [mbind res_bind].
  match goal with |- context [tx_stmt ?f ?t ?w0] => destruct (quiet_stmt f d d' w0 Hd) as (w1 & -> & H1) end.
  exists w1. by split.
Qed.

Lemma quiet_complete w : at_status StatusDetaching w ->
  exists w', handleDetachingState w = (w', Ok tt) /\ at_status StatusComplete w'.
Proof.
  intros [Hs Hn Hr Hp Hup]. unfold handleDetachingState, aw_catch, completeArchiveWithPartitionDropTx.
  unfold mbind at 1, st_bind at 1. cbn [aw_held]. unfold mbind at 1, st_bind at 1. rewrite quiet_call.
  unfold mbind at 1, st_bind at 1. cbn [aw_db AW_db]. rewrite Hn.
  unfold detach_and_drop, DetachPartitionWithTx, DropPartitionWithTx. unfold mbind at 1, st_bind at 1. unfold mbind at 1, st_bind at 1.
  match goal with |- context [guarded_ddl detach_partition name (Some ?d) ?w0] =>
    edestruct (quiet_ddl detach_partition d) as (w1 & -> & D1 & L1 & S1) end.
  { unfold detach_partition. rewrite Hp. reflexivity. }
  unfold mbind at 1, st_bind at 1. unfold tolerate_absent at 1. cbn [snd fst]. unfold mret at 1, st_ret at 1.
  unfold mbind at 1, st_bind at 1.
  edestruct (quiet_ddl drop_partition) as (w2 & -> & D2 & L2 & S2); [reflexivity|].
  unfold tolerate_absent at 1. cbn [snd fst]. unfold mret at 1, st_ret at 1. cbn [AW_db AW_held AW_seen] in *.
  unfold restoring, aw_catch. unfold mbind at 1, st_bind at 1.
  edestruct (quiet_method MarkComplete w2) as (w3 & -> & L3 & D3 & S3).
  { unfold MarkComplete, expect_status, st_ensure, st_lift, st_get, st_modify, mbind, st_bind. cbn.
    rewrite bool_decide_eq_true_2 by congruence. reflexivity. }
  unfold mbind at 1, st_bind at 1. cbn [aw_held].
  match goal with |- context [persist_event ?am ?k (Some ?d) ?w0] =>
    destruct (quiet_event am k d w0) as (w4 & -> & L4 & S4 & P4 & U4) end.
  { rewrite L3. cbn. rewrite L2, L1. exact Hr. }
  exists w4. split; [done|]. rewrite L3 in L4, U4. split; rewrite ?L4; cbn; try done.
  - congruence.
  - rewrite P4. cbn. by rewrite delete_delete_eq, lookup_delete_eq.
  - lia.
Qed.

(** Each step of [archivePartition] moves the archive on, or is not its turn. *)
Definition past (k : nat) (w : ArchiveWorld) : Prop := exists s, (k <= rank s)%nat /\ at_status s w.

Lemma step_past k s0 (m : aw unit) w :
  rank s0 = k -> (forall w, at_status s0 w -> exists w', m w = (w', Ok tt) /\ past (S k) w') ->
  past k w -> exists w', when_status s0 m w = (w', Ok tt) /\ past (S k) w'.
Proof.
  intros Hk Hm (s1 & Hs1 & Hat). unfold when_status, mbind, st_bind. cbn. rewrite (as_status _ _ Hat).
  case_bool_decide as Hd; [subst; by apply Hm|]. exists w. split; [done|]. exists s1. split; [|done].
  assert (rank s1 <> k) by (intros He; apply Hd; destruct s1, s0; cbn in *; congruence). lia.
Qed.

Lemma bind_run {X} (m : aw unit) (k : unit -> aw X) w w' : m w = (w', Ok tt) -> (m ≫= k) w = k tt w'.
Proof. intros H. unfold mbind, st_bind. by rewrite H. Qed.

Lemma catch_run (m : aw unit) h w w' : m w = (w', Ok tt) -> aw_catch m h w = (w', Ok tt).
Proof. intros H. unfold aw_catch. by rewrite H. Qed.

Lemma past_intro (s : ArchiveStatus) w : at_status s w -> past (rank s) w.
Proof. intros H. by exists s. Qed.

(** The next step of the sequence, given what it does in its state. *)
Ltac live_step Hp tac :=
  lazymatch goal with
  | |- context [(when_status ?s ?m ≫= ?k) ?w] =>
      let w' := fresh "w" in let Hw := fresh "Hw" in
      destruct (step_past (rank s) s m w eq_refl) as (w' & Hw & Hp'); [tac|exact Hp|];
      rewrite (bind_run _ _ _ _ Hw); clear Hp Hw; rename Hp' into Hp
  end.
Ltac live_turn lemma :=
  intros ? Hat; destruct (lemma _ Hat) as (? & Hrun & Hat'); eexists; split;
  [first [exact Hrun|exact (catch_run _ _ _ _ Hrun)]|exact (past_intro _ _ Hat')].

(** C24: progress.  If no call fails, the object store returns what was
    uploaded, and the partition is past its retention period, non-empty and
    without lines of a mebibyte, then one call of [archivePartition] on its
    stored archive, from whatever state an earlier failure left it in, returns
    without error, leaves the archive COMPLETE and the partition dropped. *)
Theorem archivePartition_completes s w :
  at_status s w ->
  exists w', archivePartition w = (w', Ok tt) /\ AM_Status (AW_held w') = StatusComplete /\
    AD_parts (AW_db w') !! name = None.
Proof.
  intros Hat. assert (past 0 w) as Hp by (exists s; split; [lia|done]). clear Hat. unfold archivePartition.
  live_step Hp ltac:(live_turn (fun w => quiet_transition MarkExporting StatusPending StatusExporting w
    (fun _ => eq_refl) ltac:(cbn; lia) ltac:(done) ltac:(done))).
  live_step Hp ltac:(live_turn quiet_exported).
  live_step Hp ltac:(live_turn (fun w => quiet_transition MarkUploading StatusExported StatusUploading w
    (fun _ => eq_refl) ltac:(cbn; lia) ltac:(done) ltac:(done))).
  live_step Hp ltac:(live_turn quiet_uploaded).
  live_step Hp ltac:(live_turn (fun w => quiet_transition MarkVerifying StatusUploaded StatusVerifying w
    (fun _ => eq_refl) ltac:(cbn; lia) ltac:(done) ltac:(done))).
  live_step Hp ltac:(intros ? Hat; destruct (quiet_verified _ Hat) as (? & Hrun & Hat1);
    rewrite (bind_run _ _ _ _ (catch_run _ _ _ _ Hrun));
    destruct (quiet_transition MarkVerified StatusVerifying StatusVerified _ (fun _ => eq_refl) ltac:(cbn; lia)
      ltac:(done) ltac:(done) Hat1) as (? & Hrun2 & Hat2);
    eexists; split; [exact (catch_run _ _ _ _ Hrun2)|exact (past_intro _ _ Hat2)]).
  live_step Hp ltac:(live_turn (fun w => quiet_transition MarkDetaching StatusVerified StatusDetaching w
    (fun _ => eq_refl) ltac:(cbn; lia) ltac:(done) ltac:(done))).
  destruct (step_past 7 StatusDetaching handleDetachingState w6 eq_refl) as (w' & -> & s' & Hs & Hat);
    [live_turn quiet_complete|exact Hp|].
  exists w'. split; [done|]. assert (s' = StatusComplete) as -> by (destruct s'; cbn in Hs; (lia || done)).
  split; [apply Hat|]. by rewrite (as_part _ _ Hat).
Qed.
End live.

(** ** What the exported lines lose *)
Definition continuation (c : ascii) : Prop := 128 <= code c <= 191.

Lemma utf8_width_continuation c s : continuation c -> utf8_width (c :: s) = None.
Proof.
  intros Hc. unfold continuation in Hc. unfold utf8_width, between.
  rewrite (proj2 (Z.ltb_ge (code c) 128)) by lia.
  rewrite (proj2 (Z.leb_gt 194 (code c))), (proj2 (Z.leb_gt 225 (code c))), (proj2 (Z.leb_gt 238 (code c))),
    (proj2 (Z.leb_gt 241 (code c))), (proj2 (Z.eqb_neq (code c) 224)), (proj2 (Z.eqb_neq (code c) 237)),
    (proj2 (Z.eqb_neq (code c) 240)), (proj2 (Z.eqb_neq (code c) 244)) by lia.
  cbn [andb orb]. destruct s as [|c1 [|c2 [|c3 s]]]; try done; by rewrite ?andb_false_r.
Qed.

Lemma quote_body_continuation n s : Forall continuation s -> (length s <= n)%nat ->
  quote_body n s = concat (replicate (length s) (bytes_of "\u" ++ bytes_of "fffd")).
Proof.
  intros H. revert n. induction H as [|c s Hc _ IH]; intros n Hn; [by destruct n|].
  destruct n as [|n]; cbn in Hn; [lia|]. cbn [quote_body length replicate concat].
  rewrite utf8_width_continuation by done. rewrite IH by lia. by rewrite app_assoc.
Qed.

Definition with_record_hash {U : UUIDLib} (h : bytes) (log : AuditLog) : AuditLog :=
  mkAuditLog (AL_ID log) (AL_TenantID log) (AL_EntityType log) (AL_EntityID log) (AL_Action log) (AL_ActorID log)
    (AL_Changes log) (AL_CreatedAt log) (AL_TenantSeq log) (AL_PrevHash log) h (AL_HashVersion log).

(** C37: the archive does not keep the hash chain.  The record hash, 32
    arbitrary bytes, is exported as a JSON string, and bytes that are not
    UTF-8 are all replaced by the same escape.  So rows with different hashes
    have the same line, here for any two hashes made of bytes 0x80 to 0xBF:
    after the partition is dropped the hash cannot be recovered. *)
Theorem auditLogRow_loses_hashes {U : UUIDLib} log h1 h2 :
  length h1 = length h2 -> Forall continuation h1 -> Forall continuation h2 ->
  auditLogRow (with_record_hash h1 log) = auditLogRow (with_record_hash h2 log).
Proof.
  intros Hl H1 H2. assert (json_quote h1 = json_quote h2) as Hq.
  { unfold json_quote. by rewrite !quote_body_continuation, Hl by (done || lia). }
  unfold auditLogRow, with_record_hash, AL_RecordHash at 1. by rewrite Hq.
Qed.

Lemma auditLogRow_loses_hashes_witness :
  let log := mkAuditLog (U:=model_uuid) "a1" "t1" "adjustment" "e1" "CREATE" None (bytes_of "{}") 0 1 GenesisHash [] HashVersion in
  let h1 := replicate 32 (byte_of 128) in let h2 := replicate 32 (byte_of 129) in
  h1 <> h2 /\ auditLogRow (with_record_hash h1 log) = auditLogRow (with_record_hash h2 log).
Proof.
  intros log h1 h2. split; [discriminate|].
  apply auditLogRow_loses_hashes; [reflexivity| |]; apply Forall_replicate; vm_compute; split; discriminate.
Defined.

(** ** A partition archived in one pass *)
Definition sample_rows : list (AuditLog (U:=model_uuid)) :=
  [mkAuditLog (U:=model_uuid) "a1" "t1" "adjustment" "e1" "CREATE" None (bytes_of "{}") 1325376000000000000 1
     GenesisHash GenesisHash HashVersion].
Definition archive_env (rows : list (AuditLog (U:=model_uuid))) : ArchiveEnv model_uuid := {|
  ae_fails _ := false;
  ae_now _ := 2208988800000000000;
  ae_newID n := "m1";
  ae_download _ := Some (join_lines (encodePartitionRows rows));
  ae_size _ := 100;
  ae_objectKey tenant key := Some (tenant +:+ "/" +:+ key);
  ae_storageClass := "GLACIER";
  ae_storagePrefix := "audit";
  ae_errorText _ := "error";
|}.
Definition sample_parts (rows : list (AuditLog (U:=model_uuid))) : gmap string (list AuditLog) :=
  {["audit_logs_2012_01" := rows]}.
Definition sample_meta : ArchiveMetadata (U:=model_uuid) :=
  mkArchiveMetadata (U:=model_uuid) "m1" "t1" "audit_logs_2012_01" 1325376000000000000 1328054400000000000 0 "" "" 0 ""
    StatusPending "" None 0 0.
Definition sample_archive_world (rows : list (AuditLog (U:=model_uuid))) : ArchiveWorld :=
  mkArchiveWorld (mkArchiveDB (sample_parts rows) ∅ ∅ []) 0 0 sample_meta [].
Definition sample_partition : PartitionInfo :=
  mkPartitionInfo "audit_logs_2012_01" 1325376000000000000 1328054400000000000.
Definition sample_pass (rows : list (AuditLog (U:=model_uuid))) :=
  archiveTenant (A:=model_assert) (E:=archive_env rows) 24 ("t1" : @uuid model_uuid) [sample_partition] (sample_archive_world rows).

Lemma sample_pass_result :
  AD_parts (AW_db (sample_pass sample_rows).1) !! "audit_logs_2012_01" = None /\
  (sample_pass sample_rows).2 = Ok (1, 0) /\ (sample_pass []).2 = Ok (0, 1).
Proof. by vm_compute. Qed.

Lemma sample_pass_reachable rows :
  rtc (worker_call (A:=model_assert) (E:=archive_env rows)) (sample_archive_world rows) (sample_pass rows).1.
Proof.
  apply rtc_once. unfold sample_pass.
  exact (call_tenant (A:=model_assert) (E:=archive_env rows) (sample_archive_world rows) 24 ("t1" : @uuid model_uuid) [sample_partition]).
Qed.

Lemma archivePartition_safe_witness :
  exists id am content, AD_meta (AW_db (sample_pass sample_rows).1) !! id = Some am /\
    AM_PartitionName am = "audit_logs_2012_01" /\ AM_Status am = StatusComplete /\
    (AM_ArchiveKey am, content) ∈ AW_seen (sample_pass sample_rows).1 /\ holds_rows content sample_rows.
Proof.
  destruct (archivePartition_safe (A:=model_assert) (E:=archive_env sample_rows) (sample_parts sample_rows)
    (sample_archive_world sample_rows) _ (sample_pass_reachable sample_rows) eq_refl eq_refl) as [H _].
  destruct (H "audit_logs_2012_01" sample_rows eq_refl (proj1 sample_pass_result))
    as (id & am & content & H1 & H2 & H3 & H4 & H5 & _).
  exists id, am, content. split; [exact H1|]. split; [exact H2|]. split; [exact H3|]. split; [exact H4|exact H5].
Defined.

Lemma archivePartition_stuck_witness :
  AD_parts (AW_db (sample_pass []).1) !! "audit_logs_2012_01" = Some [].
Proof.
  apply (archivePartition_stuck (A:=model_assert) (E:=archive_env []) (sample_parts []) (sample_archive_world [])
    _ "audit_logs_2012_01" [] (sample_pass_reachable []) eq_refl eq_refl eq_refl (or_introl eq_refl)).
Defined.

Definition sample_stored : ArchiveWorld :=
  mkArchiveWorld (mkArchiveDB (sample_parts sample_rows) ∅ {["m1" := sample_meta]} []) 0 0 sample_meta [].

Lemma archivePartition_completes_witness :
  exists w', archivePartition (E:=archive_env sample_rows) sample_stored = (w', Ok tt) /\
    AM_Status (AW_held w') = StatusComplete /\ AD_parts (AW_db w') !! "audit_logs_2012_01" = None.
Proof.
  apply (archivePartition_completes (E:=archive_env sample_rows) "audit_logs_2012_01" sample_rows) with (s := StatusPending).
  - split; cbn [ae_fails ae_objectKey ae_storageClass ae_size ae_now ae_download archive_env]; try reflexivity; try discriminate.
    + intros tenant key. eexists. split; [reflexivity|]. by destruct tenant.
    + constructor; [by vm_compute|constructor].
  - split; [reflexivity|reflexivity|eexists; split; reflexivity|reflexivity|]. intros H. cbn in H. lia.
Defined.
