(* ===== verification/FeeFindings.v ===== *)
(** * Fee findings of a commit

    Models the fee verification that runs while a match run commits
    (internal/matching/services/command/match_group_persistence.go, lines 192
    to 524, with the types of match_group_commands.go): for each item of a
    confirmed group, the schedule of its side, the fee its metadata reports,
    the fee the schedule expects, and the variance or exception that follows. *)
From S2P Require Import GoLib GoLibModel FeeStructure FeeSchedule FeeRules MatchTypes Evaluators.
From S2P Require Import Confidence Allocate Engine MatchEntities Transaction RuleDecode RunPrepare.
From S2P Require Import RunExecute Events Severity Store.

Definition ReasonFeeVariance : string := "FEE_VARIANCE".
Definition ReasonFeeDataMissing : string := "FEE_DATA_MISSING".
Definition ReasonFeeCurrencyMismatch : string := "FEE_CURRENCY_MISMATCH".

Definition VarianceType_string (t : VarianceType) : string :=
  match t with
  | VarianceMatch => "MATCH"
  | VarianceUndercharge => "UNDERCHARGE"
  | VarianceOvercharge => "OVERCHARGE"
  end.

Section findings.
  Context {U : UUIDLib} {D : DecimalLib} {A : AssertLib} {N : UnicodeLib} {F : FmtLib} {V : Env U}.

Record feeVerificationInput : Type := mkFeeVerificationInput {
  FI_ctxInfo : option ReconciliationContextInfo;
  FI_txByID : gmap uuid Transaction;
  FI_sourceTypeByID : gmap uuid string;
  FI_leftSourceIDs : gset uuid;
  FI_rightSourceIDs : gset uuid;
  FI_leftRules : list (option FeeRule);
  FI_rightRules : list (option FeeRule);
  FI_allSchedules : gmap uuid (option FeeSchedule);
}.

Definition normalizationMode (input : option feeVerificationInput) : NormalizationMode :=
  match input with
  | Some input =>
      match FI_ctxInfo input with
      | Some info => default NormalizationModeNone (RCI_FeeNormalization info)
      | None => NormalizationModeNone
      end
  | None => NormalizationModeNone
  end.

Record feeFindings : Type := mkFeeFindings {
  FF_variances : list FeeVariance;
  FF_exceptionInputs : list ExceptionTransactionInput;
  FF_skippedNoSchedule : nat;
}.

Record feeItemResult : Type := mkFeeItemResult {
  FR_variance : option FeeVariance;
  FR_exceptionInput : option ExceptionTransactionInput;
}.

Definition resolveScheduleForTransaction (transactionID : uuid) (feeInput : feeVerificationInput)
    : option FeeSchedule :=
  match FI_txByID feeInput !! transactionID with
  | None => None
  | Some txn =>
      if bool_decide (TX_SourceID txn ∈ FI_leftSourceIDs feeInput)
      then ResolveFeeSchedule (TX_Metadata txn) (FI_leftRules feeInput) (FI_allSchedules feeInput)
      else if bool_decide (TX_SourceID txn ∈ FI_rightSourceIDs feeInput)
      then ResolveFeeSchedule (TX_Metadata txn) (FI_rightRules feeInput) (FI_allSchedules feeInput)
      else None
  end.

(** The error is the reason the exception will carry.  Metadata is decoded
    JSON: of the integer kinds only [int] and [int64] are told apart there. *)
Definition parseAmount (amountRaw : any) : res string decimal :=
  match amountRaw with
  | AnyString s => match dec_NewFromString s with
                   | Some d => Ok d
                   | None => Err ReasonFeeDataMissing
                   end
  | AnyFloat 64 f => Ok (dec_NewFromFloat f)
  | AnyInt n => Ok (dec_NewFromInt n)
  | _ => Err ReasonFeeDataMissing
  end.

Fixpoint any_lookup (key : string) (m : list (string * any)) : option any :=
  match m with
  | [] => None
  | (k, v) :: m' => if bool_decide (k = key) then Some v else any_lookup key m'
  end.

Definition extractActualFee (txn : Transaction) (expectedCurrency : string) : res string Money :=
  match TX_Metadata txn with
  | None => Err ReasonFeeDataMissing
  | Some metadata =>
      match metadata !! "fee" with
      | Some (AnyMap feeMap) =>
          match any_lookup "amount" feeMap with
          | None => Err ReasonFeeDataMissing
          | Some amountRaw =>
              amount ← parseAmount amountRaw;
              let currency :=
                match any_lookup "currency" feeMap with
                | Some (AnyString s) => if string_empty (strings_TrimSpace s) then expectedCurrency
                                        else strings_ToUpper (strings_TrimSpace s)
                | _ => expectedCurrency
                end in
              if negb (bool_decide (currency = expectedCurrency)) then Err ReasonFeeCurrencyMismatch
              else Ok (mkMoney amount currency)
          end
      | _ => Err ReasonFeeDataMissing
      end
  end.

Definition expectedFeeForTransaction (txn : Transaction) (schedule : FeeSchedule) (mode : NormalizationMode)
    : res FeeError Money :=
  let amount := mkMoney (dec_Abs (TX_Amount txn)) (TX_Currency txn) in
  if bool_decide (mode = NormalizationModeGross) then
    r ← CalculateGrossFromNet amount (Some schedule); Ok (TotalFee r.2)
  else breakdown ← CalculateSchedule amount (Some schedule); Ok (TotalFee breakdown).

(** What the fees of one transaction amount to, before a variance is built. *)
Inductive fee_check : Type :=
| FeeAgrees
| FeeException (reason : string)
| FeeFatal (e : FeeError)
| FeeDiffers (actual expected : Money) (result : VarianceResult).

Definition checkFee (txn : Transaction) (schedule : FeeSchedule) (mode : NormalizationMode) (tolerance : Tolerance)
    : fee_check :=
  match extractActualFee txn (Schedule_Currency schedule) with
  | Err reason => FeeException reason
  | Ok actualFee =>
      match expectedFeeForTransaction txn schedule mode with
      | Err e => if bool_decide (e = ErrCurrencyMismatch) then FeeException ReasonFeeCurrencyMismatch else FeeFatal e
      | Ok expectedFee =>
          match VerifyFee actualFee expectedFee tolerance with
          | Err e => if bool_decide (e = ErrCurrencyMismatch) then FeeException ReasonFeeCurrencyMismatch
                     else FeeFatal e
          | Ok result => if bool_decide (VR_Type result = VarianceMatch) then FeeAgrees
                         else FeeDiffers actualFee expectedFee result
          end
      end
  end.

Definition noFeeResult : feeItemResult := mkFeeItemResult None None.

Definition processFeeForItem (item : MatchItem) (group : MatchGroup) (createdRun : MatchRun)
    (feeInput : feeVerificationInput) (schedule : FeeSchedule) (tolerance : Tolerance) : io feeItemResult :=
  match FI_txByID feeInput !! MI_TransactionID item with
  | None => mret noFeeResult
  | Some txn =>
      match checkFee txn schedule (normalizationMode (Some feeInput)) tolerance with
      | FeeAgrees => mret noFeeResult
      | FeeException reason =>
          mret (mkFeeItemResult None (Some (buildExceptionInputFromTx txn (FI_sourceTypeByID feeInput) reason)))
      | FeeFatal _ => io_fail (ErrFee "calculate or verify fee")
      | FeeDiffers actual expected result =>
          id ← io_fresh;
          fv ← st_lift (map_err ErrMatch (NewFeeVariance id.1 id.2 (MR_ContextID createdRun) (MR_ID createdRun)
                 (MG_ID group) (MI_TransactionID item) (Schedule_ID schedule) (Schedule_Name schedule)
                 (Schedule_Currency schedule) (Money_Amount expected) (Money_Amount actual) (Tolerance_Abs tolerance)
                 (Tolerance_Percent tolerance) (VarianceType_string (VR_Type result))));
          mret (mkFeeItemResult (Some fv)
                  (Some (buildExceptionInputFromTx txn (FI_sourceTypeByID feeInput) ReasonFeeVariance)))
      end
  end.

Definition addFinding (findings : feeFindings) (result : feeItemResult) : feeFindings :=
  mkFeeFindings (FF_variances findings ++ option_list (FR_variance result))
    (FF_exceptionInputs findings ++ option_list (FR_exceptionInput result)) (FF_skippedNoSchedule findings).

Fixpoint collectItems (group : MatchGroup) (createdRun : MatchRun) (feeInput : feeVerificationInput)
    (tolerance : Tolerance) (findings : feeFindings) (items : list MatchItem) : io feeFindings :=
  match items with
  | [] => mret findings
  | item :: items' =>
      match resolveScheduleForTransaction (MI_TransactionID item) feeInput with
      | None => collectItems group createdRun feeInput tolerance
                  (mkFeeFindings (FF_variances findings) (FF_exceptionInputs findings)
                     (S (FF_skippedNoSchedule findings))) items'
      | Some schedule =>
          result ← processFeeForItem item group createdRun feeInput schedule tolerance;
          collectItems group createdRun feeInput tolerance (addFinding findings result) items'
      end
  end.

Fixpoint collectGroups (createdRun : MatchRun) (feeInput : feeVerificationInput) (tolerance : Tolerance)
    (findings : feeFindings) (groups : list MatchGroup) : io feeFindings :=
  match groups with
  | [] => mret findings
  | group :: groups' =>
      if bool_decide (MG_Status group = MatchGroupStatusConfirmed) then
        findings ← collectItems group createdRun feeInput tolerance findings (MG_Items group);
        collectGroups createdRun feeInput tolerance findings groups'
      else collectGroups createdRun feeInput tolerance findings groups'
  end.

Definition collectFeeFindings (groups : list MatchGroup) (createdRun : MatchRun) (feeInput : feeVerificationInput)
    (tolerance : Tolerance) : io feeFindings :=
  collectGroups createdRun feeInput tolerance (mkFeeFindings [] [] 0) groups.

Definition persistFeeFindings (findings : feeFindings) : io unit :=
  _ ← (if bool_decide (FF_variances findings = []) then mret []
       else feeVarianceRepo_CreateBatchWithTx (FF_variances findings));
  if bool_decide (FF_exceptionInputs findings = []) then mret tt
  else CreateExceptionsWithTx (FF_exceptionInputs findings) [].

Definition performFeeVerification (createdRun : MatchRun) (groups : list MatchGroup)
    (feeInput : option feeVerificationInput) : io (list FeeVariance) :=
  match feeInput with
  | None => mret []
  | Some feeInput =>
      match FI_ctxInfo feeInput with
      | None => mret []
      | Some info =>
          if is_nil (FI_leftRules feeInput) && is_nil (FI_rightRules feeInput) then mret []
          else
            let tolerance := mkTolerance (RCI_FeeToleranceAbs info) (RCI_FeeTolerancePct info) in
            findings ← collectFeeFindings groups createdRun feeInput tolerance;
            _ ← persistFeeFindings findings;
            mret (FF_variances findings)
      end
  end.
End findings.

(** ** Results *)
Section results.
  Context {U : UUIDLib} {D : DecimalLib} {L : DecimalLaws D} {A : AssertLib} {AL : AssertLaws A} {N : UnicodeLib}
    {F : FmtLib} {V : Env U}.
  Local Open Scope Q_scope.

(** What one item of a confirmed group contributes. *)
Definition item_findings (run : MatchRun) (feeInput : feeVerificationInput) (tolerance : Tolerance)
    (at_ : MatchGroup * MatchItem) (found : list FeeVariance * list ExceptionTransactionInput) : Prop :=
  match resolveScheduleForTransaction (MI_TransactionID at_.2) feeInput, FI_txByID feeInput !! MI_TransactionID at_.2 with
  | Some schedule, Some txn =>
      match checkFee txn schedule (normalizationMode (Some feeInput)) tolerance with
      | FeeAgrees => found = ([], [])
      | FeeException reason => found = ([], [buildExceptionInputFromTx txn (FI_sourceTypeByID feeInput) reason])
      | FeeFatal _ => False
      | FeeDiffers actual expected result => exists id now fv,
          NewFeeVariance id now (MR_ContextID run) (MR_ID run) (MG_ID at_.1) (MI_TransactionID at_.2)
            (Schedule_ID schedule) (Schedule_Name schedule) (Schedule_Currency schedule) (Money_Amount expected)
            (Money_Amount actual) (Tolerance_Abs tolerance) (Tolerance_Percent tolerance)
            (VarianceType_string (VR_Type result)) = Ok fv /\
          found = ([fv], [buildExceptionInputFromTx txn (FI_sourceTypeByID feeInput) ReasonFeeVariance])
      end
  | _, _ => found = ([], [])
  end.

(** The items of the confirmed groups, each with its group. *)
Definition confirmed_items (groups : list MatchGroup) : list (MatchGroup * MatchItem) :=
  concat ((fun g => if bool_decide (MG_Status g = MatchGroupStatusConfirmed) then (g,.) <$> MG_Items g else []) <$> groups).

Definition findings_from run feeInput tolerance (at_ : list (MatchGroup * MatchItem)) (f f' : feeFindings) : Prop :=
  exists found, Forall2 (item_findings run feeInput tolerance) at_ found /\
    FF_variances f' = FF_variances f ++ concat found.*1 /\
    FF_exceptionInputs f' = FF_exceptionInputs f ++ concat found.*2.

Lemma findings_from_nil run feeInput tolerance f : findings_from run feeInput tolerance [] f f.
Proof. exists []. split_and!; [constructor|cbn; by rewrite app_nil_r..]. Qed.

Lemma findings_from_app run feeInput tolerance l1 l2 f1 f2 f3 :
  findings_from run feeInput tolerance l1 f1 f2 -> findings_from run feeInput tolerance l2 f2 f3 ->
  findings_from run feeInput tolerance (l1 ++ l2) f1 f3.
Proof.
  intros (r1 & H1 & V1 & E1) (r2 & H2 & V2 & E2). exists (r1 ++ r2). split_and!; [by apply Forall2_app|..];
    by rewrite ?V2, ?V1, ?E2, ?E1, fmap_app, concat_app, app_assoc.
Qed.

Lemma processFeeForItem_spec item group run feeInput schedule tolerance :
  resolveScheduleForTransaction (MI_TransactionID item) feeInput = Some schedule ->
  tx_spec (processFeeForItem item group run feeInput schedule tolerance) (fun d d' r =>
    d' = d /\ item_findings run feeInput tolerance (group, item)
                (option_list (FR_variance r), option_list (FR_exceptionInput r))).
Proof.
  intros Hs. unfold processFeeForItem, item_findings. cbn [fst snd]. rewrite Hs.
  destruct (FI_txByID feeInput !! MI_TransactionID item) as [txn|].
  2: { eapply tx_weaken; [apply tx_ret|]. intros d d' x [-> ->]. done. }
  destruct (checkFee _ _ _ _) as [|reason|e|actual expected result]; [| |by apply tx_fail|].
  - eapply tx_weaken; [apply tx_ret|]. intros d d' x [-> ->]. done.
  - eapply tx_weaken; [apply tx_ret|]. intros d d' x [-> ->]. done.
  - eapply tx_weaken; [tx_bind; tx_bind; apply tx_ret|].
    intros d d' x (d1 & id & -> & d2 & fv & [-> Hfv] & -> & ->). split; [done|].
    apply map_err_Ok in Hfv. cbn. by exists id.1, id.2, fv.
Qed.

Lemma collectItems_spec group run feeInput tolerance items findings :
  tx_spec (collectItems group run feeInput tolerance findings items) (fun d d' f =>
    d' = d /\ findings_from run feeInput tolerance ((group,.) <$> items) findings f).
Proof.
  revert findings. induction items as [|item items IH]; intros findings; cbn [collectItems].
  { eapply tx_weaken; [apply tx_ret|]. intros d d' x [-> ->]. split; [done|apply findings_from_nil]. }
  destruct (resolveScheduleForTransaction _ _) as [schedule|] eqn:Hs.
  - eapply tx_weaken; [eapply tx_bind; [by apply processFeeForItem_spec|intros r; apply IH]|].
    intros d d' f (d1 & r & [-> Hr] & -> & Hf). split; [done|].
    apply (findings_from_app _ _ _ [(group, item)] _ _ (addFinding findings r)); [|exact Hf].
    exists [(option_list (FR_variance r), option_list (FR_exceptionInput r))].
    split_and!; [by constructor|cbn; by rewrite app_nil_r..].
  - eapply tx_weaken; [apply IH|]. intros d d' f [-> (found & H1 & H2 & H3)]. split; [done|].
    exists (([], []) :: found). split_and!; [|done..]. constructor; [|done].
    unfold item_findings. cbn [fst snd]. by rewrite Hs.
Qed.

Lemma collectFeeFindings_spec groups run feeInput tolerance :
  tx_spec (collectFeeFindings groups run feeInput tolerance) (fun d d' f =>
    d' = d /\ findings_from run feeInput tolerance (confirmed_items groups) (mkFeeFindings [] [] 0) f).
Proof.
  unfold collectFeeFindings. generalize (mkFeeFindings [] [] 0) as findings.
  induction groups as [|g groups IH]; intros findings; cbn [collectGroups].
  { eapply tx_weaken; [apply tx_ret|]. intros d d' x [-> ->]. split; [done|apply findings_from_nil]. }
  unfold confirmed_items. cbn [fmap list_fmap concat]. case_bool_decide.
  - eapply tx_weaken; [eapply tx_bind; [apply collectItems_spec|intros f; apply IH]|].
    intros d d' f (d1 & f1 & [-> H1] & -> & H2). split; [done|]. by eapply findings_from_app.
  - apply IH.
Qed.

(** The fees of an item compared: reported [a], expected [e], tolerated [t]. *)
Definition fees_compared (feeInput : feeVerificationInput) (tolerance : Tolerance) (item : MatchItem) (a e t : Q)
    : Prop :=
  exists txn schedule actual expected,
    FI_txByID feeInput !! MI_TransactionID item = Some txn /\
    resolveScheduleForTransaction (MI_TransactionID item) feeInput = Some schedule /\
    extractActualFee txn (Schedule_Currency schedule) = Ok actual /\
    expectedFeeForTransaction txn schedule (normalizationMode (Some feeInput)) = Ok expected /\
    Money_Currency actual = Money_Currency expected /\
    a = dec_Rat (Money_Amount actual) /\ e = dec_Rat (Money_Amount expected) /\
    t = fee_threshold a e (dec_Rat (Tolerance_Abs tolerance)) (dec_Rat (Tolerance_Percent tolerance)).

Lemma item_findings_compared run feeInput tolerance g item found a e t :
  0 <= dec_Rat (Tolerance_Abs tolerance) -> 0 <= dec_Rat (Tolerance_Percent tolerance) ->
  fees_compared feeInput tolerance item a e t -> item_findings run feeInput tolerance (g, item) found ->
  (Qabs (a - e) <= t /\ found = ([], [])) \/
  (t < Qabs (a - e) /\ exists fv input, found = ([fv], [input]) /\ FV_TransactionID fv = MI_TransactionID item /\
     FV_MatchGroupID fv = MG_ID g /\ FV_RunID fv = MR_ID run /\ dec_Rat (FV_Delta fv) == Qabs (a - e) /\
     FV_VarianceType fv = (if Qlt_le_dec a e then "UNDERCHARGE" else "OVERCHARGE") /\
     ETI_Reason input = ReasonFeeVariance).
Proof.
  intros Ha Hp (txn & schedule & actual & expected & Htx & Hs & Hact & Hexp & Hcur & -> & -> & ->) Hf.
  unfold item_findings in Hf. cbn [fst snd] in Hf. rewrite Htx, Hs in Hf. unfold checkFee in Hf.
  rewrite Hact, Hexp in Hf.
  destruct (VerifyFee_spec actual expected tolerance Hcur Ha Hp) as (r & Hr & _ & _ & Hc). rewrite Hr in Hf.
  case_bool_decide as Hm; [rewrite Hm in Hc; by left|]. right.
  destruct Hf as (id & now & fv & Hfv & ->). unfold NewFeeVariance in Hfv. res_inv.
  assert (Hd : dec_Rat (dec_Abs (dec_Sub (Money_Amount expected) (Money_Amount actual))) ==
               Qabs (dec_Rat (Money_Amount actual) - dec_Rat (Money_Amount expected))).
  { rewrite dec_Rat_Abs, dec_Rat_Sub, Qabs_Qminus. reflexivity. }
  assert (Ht : 0 <= fee_threshold (dec_Rat (Money_Amount actual)) (dec_Rat (Money_Amount expected))
                      (dec_Rat (Tolerance_Abs tolerance)) (dec_Rat (Tolerance_Percent tolerance))).
  { unfold fee_threshold. eapply Qle_trans; [exact Ha|apply Q.le_max_l]. }
  set (t := fee_threshold _ _ _ _) in *. clearbody t.
  clear Hx Hx0 Hx1 Hx2 Hx3 Hx4 Hx5 Hx6 Hx7 Hx8.
  set (a := dec_Rat (Money_Amount actual)) in *. set (e := dec_Rat (Money_Amount expected)) in *. clearbody a e.
  pose proof (Qle_Qabs (a - e)) as Hae. pose proof (Qle_Qabs (e - a)) as Hea. rewrite Qabs_Qminus in Hea.
  set (m := Qabs (a - e)) in *. clearbody m.
  destruct (VR_Type r); [done|..]; (split; [lra|]); do 2 eexists;
    (split_and!; [done..|exact Hd| |done]); destruct (Qlt_le_dec _ _); try done; lra.
Qed.

(** A recorded variance comes from a comparison that exceeds the tolerance. *)
Lemma item_findings_variance run feeInput tolerance g item found fv :
  item_findings run feeInput tolerance (g, item) found -> fv ∈ found.1 ->
  exists a e t, fees_compared feeInput tolerance item a e t.
Proof.
  unfold item_findings, checkFee. cbn [fst snd]. intros Hf Hin.
  destruct (resolveScheduleForTransaction _ _) as [schedule|] eqn:Hs; [|subst; set_solver].
  destruct (FI_txByID _ !! _) as [txn|] eqn:Htx; [|subst; set_solver].
  destruct (extractActualFee _ _) as [actual|] eqn:Hact; [|subst; set_solver].
  destruct (expectedFeeForTransaction _ _ _) as [expected|] eqn:Hexp; [|case_bool_decide; subst; set_solver].
  destruct (VerifyFee _ _ _) as [r|] eqn:Hr; [|case_bool_decide; subst; set_solver].
  assert (Hcur : Money_Currency actual = Money_Currency expected).
  { unfold VerifyFee in Hr. destruct (decide (Money_Currency actual = Money_Currency expected)) as [|Hn]; [done|].
    by rewrite bool_decide_eq_false_2 in Hr. }
  exists (dec_Rat (Money_Amount actual)), (dec_Rat (Money_Amount expected)). eexists.
  exists txn, schedule, actual, expected. split_and!; done || reflexivity.
Qed.

(** C29: when a run commits, its fee findings are exactly the fee differences
    beyond tolerance on confirmed matches: every variance recorded names an
    item of a confirmed group, its run and group, and the absolute difference
    between the fee the transaction reports and the one its schedule expects,
    which exceeds the tolerance; and every item of a confirmed group whose two
    fees differ by more than the tolerance gets a variance and a FEE_VARIANCE
    exception, while one within tolerance gets neither. *)
Theorem collectFeeFindings_exact groups run feeInput tolerance w d w' f :
  0 <= dec_Rat (Tolerance_Abs tolerance) -> 0 <= dec_Rat (Tolerance_Percent tolerance) ->
  keyed (FI_txByID feeInput) -> W_tx w = Some d ->
  collectFeeFindings groups run feeInput tolerance w = (w', Ok f) ->
  (forall fv, fv ∈ FF_variances f -> exists g item a e t, (g, item) ∈ confirmed_items groups /\
     FV_TransactionID fv = MI_TransactionID item /\ FV_MatchGroupID fv = MG_ID g /\ FV_RunID fv = MR_ID run /\
     fees_compared feeInput tolerance item a e t /\ t < Qabs (a - e) /\ dec_Rat (FV_Delta fv) == Qabs (a - e)) /\
  (forall g item a e t, (g, item) ∈ confirmed_items groups -> fees_compared feeInput tolerance item a e t ->
     t < Qabs (a - e) -> exists fv input, fv ∈ FF_variances f /\ input ∈ FF_exceptionInputs f /\
       FV_TransactionID fv = MI_TransactionID item /\ FV_MatchGroupID fv = MG_ID g /\
       ETI_TransactionID input = MI_TransactionID item /\ ETI_Reason input = ReasonFeeVariance).
Proof.
  intros Ha Hp Hk Hw Hrun. pose proof (collectFeeFindings_spec groups run feeInput tolerance w d Hw) as Hspec.
  rewrite Hrun in Hspec. destruct Hspec as (_ & _ & d' & _ & _ & found & H2 & Hvs & Hes).
  cbn in Hvs, Hes. split.
  - intros fv Hfv. rewrite Hvs in Hfv. apply elem_of_concat_fmap in Hfv as (r & Hr & Hfv).
    destruct (Forall2_elem_of_r _ _ _ _ H2 Hr) as ([g item] & Hgi & Hf).
    destruct (item_findings_variance _ _ _ _ _ _ _ Hf Hfv) as (a & e & t & Hc).
    destruct (item_findings_compared _ _ _ _ _ _ _ _ _ Ha Hp Hc Hf) as [[_ ->]|(Hlt & fv' & input & -> & H)];
      [set_solver|].
    apply list_elem_of_singleton in Hfv as ->. destruct H as (? & ? & ? & ? & _). exists g, item, a, e, t. by split_and!.
  - intros g item a e t Hgi Hc Hlt. destruct (Forall2_elem_of_l _ _ _ _ H2 Hgi) as (r & Hr & Hf).
    destruct (item_findings_compared _ _ _ _ _ _ _ _ _ Ha Hp Hc Hf) as [[? _]|(_ & fv & input & -> & H)]; [lra|].
    destruct H as (H1 & H3 & _ & _ & _ & H4). exists fv, input. rewrite Hvs, Hes.
    split_and!; try done; [apply elem_of_concat_fmap; eexists; split; [exact Hr|]; set_solver..|].
    unfold item_findings in Hf. cbn [fst snd] in Hf.
    destruct (resolveScheduleForTransaction _ _) as [schedule|]; [|done].
    destruct (FI_txByID _ !! _) as [txn|] eqn:Htx; [|done].
    destruct (checkFee _ _ _ _); try done. destruct Hf as (? & ? & ? & _ & [= _ ->]). cbn. by apply Hk in Htx.
Qed.
End results.

(** ** A concrete verification: the schedule asks for 10, the metadata reports
    [amount], the context tolerates 1. *)
Definition sample_fee_txn (amount : Z) : @Transaction model_uuid model_decimal :=
  mkTransaction (U:=model_uuid) (D:=model_decimal) "t1" "job" "bank" "ext" (100 # 1)%Q "USD" None None None None None
    "COMPLETE" "UNMATCHED" 0%Z "" (Some {["fee" := AnyMap [("amount", AnyInt amount)]]}) 0%Z 0%Z.
Definition sample_fee_schedule : @FeeSchedule model_uuid model_decimal :=
  mkFeeSchedule (U:=model_uuid) (D:=model_decimal) "s1" "tenant" "flat" "USD" ApplicationOrderParallel 2 "HALF_UP"
    [mkFeeScheduleItem (U:=model_uuid) (D:=model_decimal) "i" "flat" 1
       (Some (FlatFee (D:=model_decimal) (10 # 1)%Q)) 0 0] 0 0.
Definition sample_fee_input (amount : Z) : @feeVerificationInput model_uuid model_decimal :=
  mkFeeVerificationInput (U:=model_uuid) (D:=model_decimal) None {["t1" := sample_fee_txn amount]} ∅ {["bank"]} ∅
    [Some (sample_rule 1 "s1" [])] [] {["s1" := Some sample_fee_schedule]}.
Definition sample_fee_group : @MatchGroup model_uuid model_decimal :=
  mkMatchGroup (U:=model_uuid) (D:=model_decimal) "g1" "ctx" "run" "rule" (mkConfidenceScore 95)
    MatchGroupStatusConfirmed
    [mkMatchItem (U:=model_uuid) (D:=model_decimal) "i1" "g1" "t1" (100 # 1)%Q "USD" (100 # 1)%Q false 0%Z 0%Z]
    0%Z 0%Z None (Some 0%Z).
Definition sample_fee_run : @MatchRun model_uuid :=
  mkMatchRun (U:=model_uuid) "run" "ctx" MatchRunModeCommit MatchRunStatusProcessing 0%Z None ∅ None 0%Z 0%Z.
Definition sample_findings (amount : Z) :=
  collectFeeFindings (A:=model_assert) (N:=model_unicode) (F:=model_fmt) [sample_fee_group] sample_fee_run
    (sample_fee_input amount) (mkTolerance (D:=model_decimal) (1 # 1)%Q 0%Q) (in_transaction emptyDB).

Lemma sample_findings_12 :
  (match sample_findings 12 with
   | (_, Ok f) => Some (FV_VarianceType <$> FF_variances f, ETI_Reason <$> FF_exceptionInputs f)
   | _ => None
   end) = Some (["OVERCHARGE"], [ReasonFeeVariance]).
Proof. vm_compute. reflexivity. Qed.

Lemma collectFeeFindings_exact_witness :
  exists w' f, sample_findings 12 = (w', Ok f) /\
    exists fv g item a e t, fv ∈ FF_variances f /\ (g, item) ∈ confirmed_items [sample_fee_group] /\
      fees_compared (N:=model_unicode) (F:=model_fmt) (sample_fee_input 12)
        (mkTolerance (D:=model_decimal) (1 # 1)%Q 0%Q) item a e t /\ (t < Qabs (a - e))%Q.
Proof.
  pose proof sample_findings_12 as Hs. destruct (sample_findings 12) as [w' [f|]] eqn:E; [|discriminate Hs].
  exists w', f. split; [reflexivity|]. unfold sample_findings in E. injection Hs as Hv _.
  destruct (FF_variances f) as [|fv vs] eqn:Ef; [discriminate Hv|].
  destruct (proj1 (collectFeeFindings_exact (L:=model_decimal_laws) (AL:=model_assert_laws) [sample_fee_group]
    sample_fee_run (sample_fee_input 12) (mkTolerance (D:=model_decimal) (1 # 1)%Q 0%Q) (in_transaction emptyDB)
    emptyDB w' f ltac:(done) ltac:(done) ltac:(by apply map_Forall_singleton) eq_refl E) fv)
    as (g & item & a & e & t & H1 & _ & _ & _ & H2 & H3 & _); [rewrite Ef; left|].
  exists fv, g, item, a, e, t. split; [left|]. split; [exact H1|]. split; [exact H2|exact H3].
Defined.
