(* ===== verification/RunMatch.v ===== *)
(** * Running a match

    Models the orchestration of a match run,
    internal/matching/services/command/match_group_run_commands.go
    ([RunMatch] and its phases), match_group_lock_commands.go
    ([ensureLockFresh], [finalizeRunFailure]), match_group_run_support.go
    ([completeEmptyRun]), match_group_persistence.go ([commitMatchResults],
    [completeDryRun], [persistMatchArtifacts]) and match_group_outbox_events.go,
    over the database of [Store.v].

    What the configuration providers and the lock manager reply is an
    argument; streaming events, metrics and traces are left out. *)
From S2P Require Import GoLib GoLibModel FeeStructure FeeSchedule FeeRules MatchTypes Evaluators.
From S2P Require Import Confidence Allocate Engine MatchEntities Transaction RuleDecode RunPrepare.
From S2P Require Import RunExecute Events Severity Store FeeFindings.

Definition maxCandidateSet : Z := 100000.

(** lib-commons: the payload cap and the acceptance check of an outbox event. *)
Class OutboxLib {U : UUIDLib} := {
  outbox_DefaultMaxPayloadBytes : Z;
  outbox_accepts : OutboxEvent -> bool;
}.
Arguments OutboxLib : clear implicits.

Definition matchEventEnvelopeHeadroomBytes : Z := 4 * 1024.

Section runmatch.
  Context {U : UUIDLib} {D : DecimalLib} {A : AssertLib} {N : UnicodeLib} {F : FmtLib} {V : Env U}
    {T : ErrorText} {O : OutboxLib U}.

Record RunMatchInput : Type := mkRunMatchInput {
  IN_TenantID : uuid;
  IN_ContextID : uuid;
  IN_Mode : MatchRunMode;
  IN_StartDate : option Time;
  IN_EndDate : option Time;
}.

(** What the collaborators of the use case reply, and its settings. *)
Record Collaborators : Type := mkCollaborators {
  UC_tenant : string;
  UC_tenantSlug : string;
  UC_defaultTenant : string;
  UC_findContext : uuid -> uuid -> res CmdError (option ReconciliationContextInfo);
  UC_findSources : uuid -> res CmdError (list (option SourceInfo));
  UC_findFeeRules : uuid -> res CmdError (list (option FeeRule));
  UC_getSchedules : list uuid -> gmap uuid (option FeeSchedule);
  UC_listRules : uuid -> res string (list (option MatchRule));
  UC_acquireLock : uuid -> res CmdError unit;
  UC_maxLockBatchSize : Z;
}.

Variable uc : Collaborators.

Definition validateAndEnrichTenant (input : RunMatchInput) : res CmdError RunMatchInput :=
  let ctxTenantID := if string_empty (UC_tenant uc) then UC_defaultTenant uc else UC_tenant uc in
  _ ← ensure (negb (string_empty (UC_tenant uc) && string_empty (strings_TrimSpace (UC_defaultTenant uc))))
        ErrTenantIDRequired;
  match uuid_Parse ctxTenantID with
  | None => Err ErrTenantIDRequired
  | Some tenant =>
      let tenantID := if bool_decide (IN_TenantID input = uuid_Nil) then tenant else IN_TenantID input in
      _ ← ensure (bool_decide (tenantID = tenant)) ErrTenantIDMismatch;
      Ok (mkRunMatchInput tenantID (IN_ContextID input) (IN_Mode input) (IN_StartDate input) (IN_EndDate input))
  end.

(** ** Locks and failures *)

(** The flag the refresh watcher sets, then a refresh of the lock. *)
Definition ensureLockFresh : io unit :=
  _ ← io_check env_lockLost ErrLockRefreshFailed;
  io_check env_lockLost ErrLockRefreshFailed.

(** The update is detached from the request. *)
Definition finalizeRunFailure {X} (cause : CmdError) : io X := fun w =>
  match io_run (fun now => MatchRun_Fail (err_Error cause) now) w with
  | (w, Err (ErrMatch e)) => (w, Err (ErrMarkRunFailed e))
  | (w, Err e) => (w, Err e)
  | (w, Ok run) =>
      match matchRunRepo_Update true run w with
      | (w, Err updateErr) => (w, Err (ErrUpdateRunFailed updateErr cause))
      | (w, Ok _) => (w, Err cause)
      end
  end.

Definition onFailure {X} (m : io X) : io X := fun w =>
  match m w with
  | (w', Err cause) => finalizeRunFailure cause w'
  | (w', Ok x) => (w', Ok x)
  end.

(** ** Loading *)
Definition loadCandidates (input : RunMatchInput) : io (list (option Transaction)) :=
  let candidateLimit := if (0 <? UC_maxLockBatchSize uc)%Z then UC_maxLockBatchSize uc else maxCandidateSet in
  candidates ← ListUnmatchedByContext (IN_ContextID input) (IN_StartDate input) (IN_EndDate input) candidateLimit 0;
  mret (Some <$> candidates).

(** The checks of [prepareMatchRun] that precede each read, then the whole of
    it; the context is checked before the sources are read, whatever these are. *)
Definition loadMatchRun (input : RunMatchInput) : io matchRunContext :=
  input ← st_lift (validateAndEnrichTenant input);
  _ ← st_ensure (negb (bool_decide (IN_ContextID input = uuid_Nil))) (ErrRun ErrRunMatchContextIDRequired);
  _ ← st_ensure (MatchRunMode_IsValid (IN_Mode input)) (ErrRun ErrMatchRunModeRequired);
  ctxInfo ← st_lift (UC_findContext uc (IN_TenantID input) (IN_ContextID input));
  _ ← st_lift (map_err ErrRun (loadContextAndSources ctxInfo [None]));
  sources ← st_lift (UC_findSources uc (IN_ContextID input));
  cs ← st_lift (map_err ErrRun (loadContextAndSources ctxInfo sources));
  _ ← st_lift (map_err ErrRun (classifySources (RCI_Type cs.1) cs.2));
  candidates ← loadCandidates input;
  rules ← st_lift (UC_findFeeRules uc (IN_ContextID input));
  st_lift (map_err ErrRun (prepareMatchRun (IN_ContextID input) (IN_Mode input) ctxInfo sources candidates rules
                             (UC_getSchedules uc))).

(** ** [completeEmptyRun] *)
Definition emptyRunStats (mrc : matchRunContext) : gmap string Z :=
  <["proposed_right" := 0%Z]> (<["proposed_left" := 0%Z]>
  (<["pending_review_right" := 0%Z]> (<["pending_review_left" := 0%Z]>
  (<["auto_matched_right" := 0%Z]> (<["auto_matched_left" := 0%Z]>
  (<["unmatched_external" := count (MRC_unmatchedIDs mrc)]>
  (<["unmatched_right" := count (MRC_rightCandidates mrc)]>
  (<["unmatched_left" := count (MRC_leftCandidates mrc)]>
  (<["matches" := 0%Z]> (MRC_stats mrc)))))))))).

Definition emptyRunBody (input : RunMatchInput) (mrc : matchRunContext) (run : MatchRun) : io MatchRun :=
  let txByID := mergeTransactionMaps [indexTransactions (MRC_leftCandidates mrc);
                  indexTransactions (MRC_rightCandidates mrc); MRC_externalTxByID mrc] in
  created ← matchRunRepo_CreateWithTx run;
  _ ← io_hold created;
  completed ← io_run (MatchRun_Complete (Some (emptyRunStats mrc)));
  updated ← matchRunRepo_UpdateWithTx completed;
  _ ← (if bool_decide (IN_Mode input = MatchRunModeCommit) then
         let unmatchedIDs := collectUnmatched (MRC_leftCandidates mrc) ∅ ++
                             collectUnmatched (MRC_rightCandidates mrc) ∅ ++ MRC_unmatchedIDs mrc in
         CreateExceptionsWithTx (buildExceptionInputs unmatchedIDs txByID (MRC_sourceTypeByID mrc) ∅) []
       else mret tt);
  mret updated.

Definition completeEmptyRun (input : RunMatchInput) (mrc : matchRunContext) : io (MatchRun * list MatchGroup) :=
  id ← io_fresh;
  run ← st_lift (map_err ErrMatch (NewMatchRun id.1 id.2 (IN_ContextID input) (IN_Mode input)));
  updated ← WithTx false (emptyRunBody input mrc run);
  mret (updated, []).

(** ** Committing *)
Definition groupOutboxEvent (group : MatchGroup) (tenantUUID : uuid) (now : Time) : res CmdError OutboxEvent :=
  event ← map_err ErrEvent (NewMatchConfirmedEvent tenantUUID (UC_tenantSlug uc) (Some group) now);
  let '(truncatedIDs, originalCount) :=
    TruncateIDListIfTooLarge (CE_TransactionIDs event)
      (outbox_DefaultMaxPayloadBytes - matchEventEnvelopeHeadroomBytes) in
  let event :=
    if negb (length truncatedIDs =? originalCount)%nat
    then mkMatchConfirmedEvent (CE_EventType event) (CE_TenantID event) (CE_TenantSlug event) (CE_ContextID event)
           (CE_RunID event) (CE_MatchID event) (CE_RuleID event) truncatedIDs originalCount (CE_Confidence event)
           (CE_ConfirmedAt event) (CE_Timestamp event)
    else event in
  let outboxEvent := mkOutboxEvent (CE_EventType event) (CE_MatchID event) (PayloadConfirmed event) in
  _ ← ensure (outbox_accepts outboxEvent) ErrOutboxRejected;
  Ok outboxEvent.

Definition enqueueGroupEvent (group : MatchGroup) (tenantUUID : uuid) : io unit :=
  if negb (bool_decide (MG_Status group = MatchGroupStatusConfirmed)) then mret tt
  else
    now ← io_now;
    outboxEvent ← st_lift (groupOutboxEvent group tenantUUID now);
    outboxRepo_CreateWithTx outboxEvent.

Fixpoint enqueueGroupEvents (groups : list MatchGroup) (tenantUUID : uuid) : io unit :=
  match groups with
  | [] => mret tt
  | group :: groups' => _ ← enqueueGroupEvent group tenantUUID; enqueueGroupEvents groups' tenantUUID
  end.

Definition enqueueMatchConfirmedEvents (groups : list MatchGroup) : io unit :=
  let tenantIDStr := if string_empty (UC_tenant uc) then UC_defaultTenant uc else UC_tenant uc in
  match uuid_Parse tenantIDStr with
  | None => io_fail ErrTenantIDRequired
  | Some tenantUUID => enqueueGroupEvents groups tenantUUID
  end.

Definition persistMatchArtifacts (createdRun : MatchRun) (r : matchExecutionResult)
    (feeInput : option feeVerificationInput) : io (list FeeVariance) :=
  _ ← (if bool_decide (MER_groups r = []) then mret tt
       else _ ← matchGroupRepo_CreateBatchWithTx (MER_groups r);
            _ ← matchItemRepo_CreateBatchWithTx (MER_items r); mret tt);
  _ ← (if bool_decide (MER_autoMatchedIDs r = []) then mret tt
       else MarkMatchedWithTx (MR_ContextID createdRun) (MER_autoMatchedIDs r));
  _ ← (if bool_decide (MER_pendingReviewIDs r = []) then mret tt
       else MarkPendingReviewWithTx (MR_ContextID createdRun) (MER_pendingReviewIDs r));
  let txByID := default ∅ (FI_txByID <$> feeInput) in
  let sourceTypeByID := default ∅ (FI_sourceTypeByID <$> feeInput) in
  _ ← CreateExceptionsWithTx (buildExceptionInputs (MER_unmatchedIDs r) txByID sourceTypeByID
                                (MER_unmatchedReasons r)) [];
  feeVariances ← performFeeVerification createdRun (MER_groups r) feeInput;
  _ ← enqueueMatchConfirmedEvents (MER_groups r);
  mret feeVariances.

Definition commitBody (createdRun : MatchRun) (r : matchExecutionResult) (feeInput : option feeVerificationInput)
    : io MatchRun :=
  _ ← io_check env_lockLost ErrLockRefreshFailed;
  _ ← persistMatchArtifacts createdRun r feeInput;
  completed ← io_run (MatchRun_Complete (Some (MER_stats r)));
  matchRunRepo_UpdateWithTx completed.

Definition commitMatchResults (createdRun : MatchRun) (r : matchExecutionResult)
    (feeInput : option feeVerificationInput) : io MatchRun :=
  _ ← onFailure (io_check env_lockLost ErrLockRefreshFailed);
  onFailure (WithTx false (commitBody createdRun r feeInput)).

Definition completeDryRun (r : matchExecutionResult) : io (MatchRun * list MatchGroup) :=
  _ ← onFailure (io_check env_lockLost ErrLockRefreshFailed);
  completed ← io_run (MatchRun_Complete (Some (MER_stats r)));
  updatedRun ← matchRunRepo_Update false completed;
  mret (updatedRun, MER_groups r).

(** ** [RunMatch] *)

(** The checks of the request before each proposal are observations of their
    own, [env_execDone]. *)
Definition executeRun (mrc : matchRunContext) (createdRun : MatchRun) : io matchExecutionResult :=
  _ ← io_check env_ctxDone (ErrContextCancelled "before rule execution");
  r ← st_lift (map_err ErrRun (executeMatchRules env_execID env_execNow env_execDone (UC_listRules uc) mrc
                 (MR_ID createdRun)));
  _ ← io_check env_ctxDone (ErrContextCancelled "after rule execution");
  mret r.

Definition feeInputOf (mrc : matchRunContext) (r : matchExecutionResult) : feeVerificationInput :=
  mkFeeVerificationInput (Some (MRC_ctxInfo mrc)) (MER_allTxByID r) (MRC_sourceTypeByID mrc) (MRC_leftSourceIDs mrc)
    (MRC_rightSourceIDs mrc) (MRC_leftRules mrc) (MRC_rightRules mrc) (MRC_allSchedules mrc).

Definition runCandidates (input : RunMatchInput) (mrc : matchRunContext) : io (MatchRun * list MatchGroup) :=
  _ ← ensureLockFresh;
  id ← io_fresh;
  run ← st_lift (map_err ErrMatch (NewMatchRun id.1 id.2 (IN_ContextID input) (IN_Mode input)));
  createdRun ← matchRunRepo_Create run;
  _ ← io_hold createdRun;
  r ← onFailure (executeRun mrc createdRun);
  if bool_decide (IN_Mode input = MatchRunModeDryRun) then completeDryRun r
  else
    _ ← onFailure ensureLockFresh;
    updatedRun ← commitMatchResults createdRun r (Some (feeInputOf mrc r));
    mret (updatedRun, MER_groups r).

Definition RunMatch (input : RunMatchInput) : io (MatchRun * list MatchGroup) :=
  input ← st_lift (validateAndEnrichTenant input);
  _ ← st_ensure (negb (bool_decide (IN_ContextID input = uuid_Nil))) (ErrRun ErrRunMatchContextIDRequired);
  _ ← st_ensure (MatchRunMode_IsValid (IN_Mode input)) (ErrRun ErrMatchRunModeRequired);
  _ ← st_lift (UC_acquireLock uc (IN_ContextID input));
  mrc ← loadMatchRun input;
  _ ← io_check env_ctxDone (ErrContextCancelled "after prepare");
  if is_nil (MRC_leftCandidates mrc) || is_nil (MRC_rightCandidates mrc)
  then _ ← ensureLockFresh; completeEmptyRun input mrc
  else runCandidates input mrc.
End runmatch.

(** ** What a commit persists *)
Section persisted.
  Context {U : UUIDLib} {D : DecimalLib} {A : AssertLib} {N : UnicodeLib} {F : FmtLib} {V : Env U}
    {T : ErrorText} {O : OutboxLib U}.
  Variable uc : Collaborators.

(** The fee findings of a commit; none if fees are not verified. *)
Definition findings_of (run : MatchRun) (groups : list MatchGroup) (feeInput : option feeVerificationInput)
    (f : feeFindings) : Prop :=
  (FF_variances f = [] /\ FF_exceptionInputs f = []) \/
  exists input info, feeInput = Some input /\ FI_ctxInfo input = Some info /\
    findings_from run input (mkTolerance (RCI_FeeToleranceAbs info) (RCI_FeeTolerancePct info))
      (confirmed_items groups) (mkFeeFindings [] [] 0) f.

Lemma set_variances_nil (d : DB) : set_variances (fun l => l ++ []) d = d.
Proof. destruct d. unfold set_variances. cbn. by rewrite app_nil_r. Qed.

Lemma set_exceptions_same (d : DB) : set_exceptions (fun _ => DB_exceptions d) d = d.
Proof. by destruct d. Qed.

Lemma persistFeeFindings_spec f :
  tx_spec (persistFeeFindings f) (fun d d' _ => exists new now,
    d' = set_exceptions (fun _ => new) (set_variances (fun l => l ++ FF_variances f) d) /\
    exceptions_grown (FF_exceptionInputs f) now (DefaultSeverityRules []) (DB_exceptions d) new).
Proof.
  assert (Hv : tx_spec (if bool_decide (FF_variances f = []) then mret []
                        else feeVarianceRepo_CreateBatchWithTx (FF_variances f))
                 (fun d d' _ => d' = set_variances (fun l => l ++ FF_variances f) d)).
  { case_bool_decide as E; [|apply feeVarianceRepo_CreateBatchWithTx_spec].
    eapply tx_weaken; [apply tx_ret|]. intros d d' x [-> _]. rewrite E. by rewrite set_variances_nil. }
  assert (He : tx_spec (if bool_decide (FF_exceptionInputs f = []) then mret tt
                        else CreateExceptionsWithTx (FF_exceptionInputs f) [])
                 (fun d d' _ => exists new now, d' = set_exceptions (fun _ => new) d /\
                    exceptions_grown (FF_exceptionInputs f) now (DefaultSeverityRules []) (DB_exceptions d) new)).
  { clear Hv. case_bool_decide as E; [|apply CreateExceptionsWithTx_spec].
    eapply tx_weaken; [apply tx_ret|]. intros d d' x [-> _]. exists (DB_exceptions d), 0%Z. rewrite E.
    split; [by rewrite set_exceptions_same|apply exceptions_grown_nil]. }
  eapply tx_weaken; [eapply tx_bind; [exact Hv|intros ?; exact He]|].
  intros d d' x (d1 & _ & -> & new & now & -> & Hg). by exists new, now.
Qed.

Lemma performFeeVerification_spec run groups feeInput :
  tx_spec (performFeeVerification run groups feeInput) (fun d d' _ => exists f new now,
    findings_of run groups feeInput f /\
    d' = set_exceptions (fun _ => new) (set_variances (fun l => l ++ FF_variances f) d) /\
    exceptions_grown (FF_exceptionInputs f) now (DefaultSeverityRules []) (DB_exceptions d) new).
Proof.
  assert (Hnone : tx_spec (mret ([] : list FeeVariance)) (fun d d' _ => exists f new now,
    findings_of run groups feeInput f /\
    d' = set_exceptions (fun _ => new) (set_variances (fun l => l ++ FF_variances f) d) /\
    exceptions_grown (FF_exceptionInputs f) now (DefaultSeverityRules []) (DB_exceptions d) new)).
  { eapply tx_weaken; [apply tx_ret|]. intros d d' x [-> _]. exists (mkFeeFindings [] [] 0), (DB_exceptions d), 0%Z.
    cbn. rewrite set_variances_nil, set_exceptions_same. split_and!; [by left|done|apply exceptions_grown_nil]. }
  unfold performFeeVerification. destruct feeInput as [input|]; [|done].
  destruct (FI_ctxInfo input) as [info|] eqn:Ei; [|done]. destruct (_ && _); [done|].
  eapply tx_weaken.
  - eapply tx_bind; [apply collectFeeFindings_spec|intros f].
    eapply tx_bind; [apply persistFeeFindings_spec|intros ?; apply tx_ret].
  - intros d d' x (d1 & f & [-> Hf] & d2 & _ & (new & now & -> & Hg) & -> & _).
    exists f, new, now. split_and!; [right|done..]. by exists input, info.
Qed.

(** The outbox entry of a confirmed group: its transactions in sorted order,
    cut to the payload budget, with the original count when cut. *)
Definition confirmed_entry (group : MatchGroup) (entry : OutboxEvent) : Prop :=
  OE_EventType entry = EventTypeMatchConfirmed /\ OE_AggregateID entry = MG_ID group /\
  exists event, OE_Payload entry = PayloadConfirmed event /\ CE_MatchID event = MG_ID group /\
    CE_RunID event = MG_RunID group /\ Some (CE_ConfirmedAt event) = MG_ConfirmedAt group /\
    (exists dropped, collectTransactionIDsSorted (MG_Items group) = CE_TransactionIDs event ++ dropped /\
       CE_TruncatedIDCount event = if bool_decide (dropped = []) then 0%nat
                                   else length (collectTransactionIDsSorted (MG_Items group))).

Lemma NewMatchConfirmedEvent_fields tenant slug group now event :
  NewMatchConfirmedEvent tenant slug (Some group) now = Ok event ->
  CE_EventType event = EventTypeMatchConfirmed /\ CE_MatchID event = MG_ID group /\ CE_RunID event = MG_RunID group /\
  Some (CE_ConfirmedAt event) = MG_ConfirmedAt group /\
  CE_TransactionIDs event = collectTransactionIDsSorted (MG_Items group) /\ CE_TruncatedIDCount event = 0%nat.
Proof.
  unfold NewMatchConfirmedEvent. intros H. res_inv. destruct (MG_ConfirmedAt group); [|done]. by res_inv.
Qed.

Lemma groupOutboxEvent_entry group tenant now entry :
  groupOutboxEvent uc group tenant now = Ok entry -> confirmed_entry group entry.
Proof.
  unfold groupOutboxEvent. intros H. apply res_bind_Ok in H as (event & Hev & H).
  apply map_err_Ok, NewMatchConfirmedEvent_fields in Hev as (Ht & Hm & Hr & Hc & Hids & Hn).
  pose proof (TruncateIDListIfTooLarge_prefix (CE_TransactionIDs event)
    (outbox_DefaultMaxPayloadBytes - matchEventEnvelopeHeadroomBytes)) as Hp.
  destruct (TruncateIDListIfTooLarge _ _) as [ids n]. destruct Hp as (-> & dropped & Hd). res_inv.
  rewrite Hids in *. unfold confirmed_entry. rewrite Hd, length_app in *.
  destruct (Nat.eqb_spec (length ids) (length ids + length dropped)) as [El|El]; cbn [negb].
  - assert (dropped = []) as -> by (apply nil_length_inv; lia). rewrite app_nil_r in *. cbn.
    split_and!; try done. exists event. split_and!; try done. exists []. rewrite bool_decide_eq_true_2 by done.
    by rewrite Hids, app_nil_r.
  - cbn. split_and!; try done. eexists. split_and!; try done. cbn. exists dropped.
    rewrite bool_decide_eq_false_2; [done|]. intros ->. cbn in El. lia.
Qed.

Lemma set_outbox_nil (d : DB) : set_outbox (fun l => l ++ []) d = d.
Proof. destruct d. unfold set_outbox. cbn. by rewrite app_nil_r. Qed.

Lemma enqueueGroupEvent_spec group tenant :
  tx_spec (enqueueGroupEvent uc group tenant) (fun d d' _ => exists entries,
    d' = set_outbox (fun l => l ++ entries) d /\
    Forall2 confirmed_entry (filter (fun g => MG_Status g = MatchGroupStatusConfirmed) [group]) entries).
Proof.
  unfold enqueueGroupEvent. rewrite filter_cons, filter_nil. case_bool_decide as E; cbn [negb].
  - rewrite decide_True by done.
    eapply tx_weaken; [tx_bind; tx_bind; apply outboxRepo_CreateWithTx_spec|].
    intros d d' x (d1 & now & -> & d2 & entry & [-> He%groupOutboxEvent_entry] & ->).
    exists [entry]. split; [done|by constructor; [|constructor]].
  - rewrite decide_False by done. eapply tx_weaken; [apply tx_ret|]. intros d d' x [-> _]. exists [].
    by rewrite set_outbox_nil.
Qed.

Lemma enqueueGroupEvents_spec groups tenant :
  tx_spec (enqueueGroupEvents uc groups tenant) (fun d d' _ => exists entries,
    d' = set_outbox (fun l => l ++ entries) d /\
    Forall2 confirmed_entry (filter (fun g => MG_Status g = MatchGroupStatusConfirmed) groups) entries).
Proof.
  induction groups as [|g groups IH]; cbn [enqueueGroupEvents].
  - eapply tx_weaken; [apply tx_ret|]. intros d d' x [-> _]. exists []. by rewrite set_outbox_nil.
  - eapply tx_weaken; [eapply tx_bind; [apply enqueueGroupEvent_spec|intros ?; apply IH]|].
    intros d d' x (d1 & _ & (e1 & -> & H1) & e2 & -> & H2). exists (e1 ++ e2). split.
    + unfold set_outbox. cbn. by rewrite app_assoc.
    + change (g :: groups) with ([g] ++ groups). rewrite filter_app. by apply Forall2_app.
Qed.

Lemma enqueueMatchConfirmedEvents_spec groups :
  tx_spec (enqueueMatchConfirmedEvents uc groups) (fun d d' _ => exists entries,
    d' = set_outbox (fun l => l ++ entries) d /\
    Forall2 confirmed_entry (filter (fun g => MG_Status g = MatchGroupStatusConfirmed) groups) entries).
Proof. unfold enqueueMatchConfirmedEvents. destruct (uuid_Parse _); [apply enqueueGroupEvents_spec|apply tx_fail]. Qed.

(** The tables after a commit, in terms of the tables before and of the result
    of the execution. *)
Record artifacts (run : MatchRun) (r : matchExecutionResult) (feeInput : option feeVerificationInput) (d d' : DB)
    : Prop := {
  art_runs : DB_runs d' = DB_runs d;
  art_groups : DB_groups d' = add_groups (MER_groups r) (DB_groups d);
  art_groups_new : NoDup (MG_ID <$> MER_groups r) /\ Forall (fun g => DB_groups d !! MG_ID g = None) (MER_groups r);
  art_items : DB_items d' = DB_items d ++ if bool_decide (MER_groups r = []) then [] else MER_items r;
  art_txs : exists now1 now2, DB_txs d' =
    mark_txs d (MR_ContextID run) (MER_pendingReviewIDs r) "PENDING_REVIEW" now2
      (mark_txs d (MR_ContextID run) (MER_autoMatchedIDs r) "MATCHED" now1 (DB_txs d));
  art_sources : DB_sourceContext d' = DB_sourceContext d /\ DB_jobContext d' = DB_jobContext d;
  art_findings : exists f mid now1 now2, findings_of run (MER_groups r) feeInput f /\
    DB_variances d' = DB_variances d ++ FF_variances f /\
    exceptions_grown (buildExceptionInputs (MER_unmatchedIDs r) (default ∅ (FI_txByID <$> feeInput))
      (default ∅ (FI_sourceTypeByID <$> feeInput)) (MER_unmatchedReasons r)) now1 (DefaultSeverityRules [])
      (DB_exceptions d) mid /\
    exceptions_grown (FF_exceptionInputs f) now2 (DefaultSeverityRules []) mid (DB_exceptions d');
  art_outbox : exists entries, DB_outbox d' = DB_outbox d ++ entries /\
    Forall2 confirmed_entry (filter (fun g => MG_Status g = MatchGroupStatusConfirmed) (MER_groups r)) entries;
}.

Lemma persistGroups_spec (groups : list MatchGroup) (items : list MatchItem) :
  tx_spec (if bool_decide (groups = []) then mret tt
           else _ ← matchGroupRepo_CreateBatchWithTx groups; _ ← matchItemRepo_CreateBatchWithTx items; mret tt)
    (fun d d' _ => d' = set_items (fun l => l ++ if bool_decide (groups = []) then [] else items)
                          (set_groups (add_groups groups) d) /\
       NoDup (MG_ID <$> groups) /\ Forall (fun g => DB_groups d !! MG_ID g = None) groups).
Proof.
  case_bool_decide as E.
  - eapply tx_weaken; [apply tx_ret|]. intros d d' x [-> _]. rewrite E.
    split_and!; [destruct d; unfold set_items; cbn; by rewrite app_nil_r|constructor..].
  - eapply tx_weaken; [eapply tx_bind; [apply matchGroupRepo_CreateBatchWithTx_spec|intros ?];
      eapply tx_bind; [apply matchItemRepo_CreateBatchWithTx_spec|intros ?; apply tx_ret]|].
    by intros d d' x (d1 & _ & (-> & ? & ?) & d2 & _ & -> & -> & _).
Qed.

Lemma persistMark_spec contextID ids status :
  tx_spec (if bool_decide (ids = []) then mret tt else executeMark contextID ids status)
    (fun d d' _ => exists now, d' = set_txs (mark_txs d contextID ids status now) d).
Proof.
  case_bool_decide as E; [|apply executeMark_spec].
  eapply tx_weaken; [apply tx_ret|]. intros d d' x [-> _]. exists 0%Z. rewrite E. by rewrite mark_txs_nil.
Qed.

Lemma persistMatchArtifacts_spec run r feeInput :
  tx_spec (persistMatchArtifacts uc run r feeInput) (fun d d' _ => artifacts run r feeInput d d').
Proof.
  unfold persistMatchArtifacts, MarkMatchedWithTx, MarkPendingReviewWithTx. eapply tx_weaken.
  - eapply tx_bind; [apply persistGroups_spec|intros ?]. eapply tx_bind; [apply persistMark_spec|intros ?].
    eapply tx_bind; [apply persistMark_spec|intros ?]. eapply tx_bind; [apply CreateExceptionsWithTx_spec|intros ?].
    eapply tx_bind; [apply performFeeVerification_spec|intros fvs].
    eapply tx_bind; [apply enqueueMatchConfirmedEvents_spec|intros ?; apply tx_ret].
  - intros d d' x (d1 & _ & (-> & Hn & Hf) & d2 & _ & (now1 & ->) & d3 & _ & (now2 & ->) & d4 & _ &
      (mid & now3 & -> & Hg) & d5 & _ & (f & new & now4 & Hff & -> & Hg') & d6 & _ & (entries & -> & He) & -> & _).
    split; cbn; eauto. exists f, mid, now3, now4. by split_and!.
Qed.
End persisted.
