(* ===== verification/RunOutcome.v ===== *)
(** * What a match run leaves behind

    The guarantees of [RunMatch] (RunMatch.v) on the database, whatever the
    environment does: which rows a call may change, how every candidate ends,
    and how the run it creates ends; and when a commit leaves it unfinished. *)
From S2P Require Import GoLib GoLibModel FeeStructure FeeSchedule FeeRules MatchTypes Evaluators.
From S2P Require Import Confidence Allocate Engine MatchEntities Transaction RuleDecode RunPrepare.
From S2P Require Import RunExecute Events Severity Store FeeFindings RunMatch.

Section outcome.
  Context {U : UUIDLib} {D : DecimalLib} {A : AssertLib} {AL : AssertLaws A} {N : UnicodeLib} {F : FmtLib} {V : Env U}
    {T : ErrorText} {TL : ErrorTextLaws T} {O : OutboxLib U}.
  Variable uc : Collaborators.

(** ** Steps that only read *)
Definition ro_spec {X} (m : io X) (P : DB -> X -> Prop) : Prop :=
  forall w, let '(w', r) := m w in
  framed w w' /\ W_tx w' = W_tx w /\ match r with Ok x => P (W_db w) x | Err _ => True end.

Lemma ro_weaken {X} (m : io X) (P Q : DB -> X -> Prop) :
  ro_spec m P -> (forall d x, P d x -> Q d x) -> ro_spec m Q.
Proof. intros H HPQ w. specialize (H w). destruct (m w) as [w' [x|e]]; naive_solver. Qed.

Lemma ro_ret {X} (x : X) : ro_spec (mret x) (fun _ y => y = x).
Proof. intros w. cbn. eauto using framed_refl. Qed.

Lemma ro_lift {X} (m : res CmdError X) : ro_spec (st_lift m) (fun _ x => m = Ok x).
Proof. intros w. cbn. destruct m; eauto using framed_refl. Qed.

Lemma ro_bind {X Y} (m : io X) (f : X -> io Y) P Q :
  ro_spec m P -> (forall x, ro_spec (f x) (Q x)) -> ro_spec (m ≫= f) (fun d y => exists x, P d x /\ Q x d y).
Proof.
  intros Hm Hf w. specialize (Hm w). unfold mbind, st_bind. destruct (m w) as [w1 [x|e]]; [|done].
  destruct Hm as (H1 & H2 & HP). specialize (Hf x w1). destruct (f x w1) as [w2 [y|e]]; destruct Hf as (H3 & H4 & H5);
    (split_and!; [by eapply framed_trans|congruence|]); [|done].
  destruct H1 as (E & _). rewrite E in H5. eauto.
Qed.

Lemma ro_step : ro_spec io_step (fun _ _ => True).
Proof. intros w. cbn. split; [split_and!; [done..|cbn; lia]|done]. Qed.

Lemma ro_check lost e : ro_spec (io_check lost e) (fun _ _ => True).
Proof. eapply ro_weaken; [eapply ro_bind; [apply ro_step|intros ?; apply ro_lift]|done]. Qed.

Lemma ro_roundtrip detached : ro_spec (io_roundtrip detached) (fun _ _ => True).
Proof. eapply ro_weaken; [eapply ro_bind; [apply ro_step|intros ?; apply ro_lift]|done]. Qed.

Lemma ro_sql_read {X} (f : DB -> res CmdError X) : ro_spec (sql_read f) (fun d x => f d = Ok x).
Proof.
  eapply ro_weaken; [eapply (ro_bind _ _ _ (fun _ d x => f d = Ok x)); [apply ro_roundtrip|intros _]|naive_solver].
  intros w. unfold mbind, st_bind, st_get, st_lift. cbn. destruct (f (W_db w)); eauto using framed_refl.
Qed.

Lemma ro_ensureLockFresh : ro_spec ensureLockFresh (fun _ _ => True).
Proof. eapply ro_weaken; [eapply ro_bind; [apply ro_check|intros ?; apply ro_check]|done]. Qed.

(** Everything a run reads before it is created. *)
Definition candidateLimit : nat :=
  Z.to_nat (if (0 <? UC_maxLockBatchSize uc)%Z then UC_maxLockBatchSize uc else maxCandidateSet).
Definition run_candidates (input : RunMatchInput) (d : DB) : list Transaction :=
  buildUnmatchedByContextQuery (IN_ContextID input) (IN_StartDate input) (IN_EndDate input) candidateLimit 0 d.

Definition loaded (input : RunMatchInput) (d : DB) (mrc : matchRunContext) : Prop :=
  exists ctxInfo sources rules,
    prepareMatchRun (IN_ContextID input) (IN_Mode input) ctxInfo sources (Some <$> run_candidates input d) rules
      (UC_getSchedules uc) = Ok mrc.

Lemma validateAndEnrichTenant_input input input' :
  validateAndEnrichTenant uc input = Ok input' ->
  IN_ContextID input' = IN_ContextID input /\ IN_Mode input' = IN_Mode input /\
  IN_StartDate input' = IN_StartDate input /\ IN_EndDate input' = IN_EndDate input.
Proof. unfold validateAndEnrichTenant. intros H. res_inv. destruct (uuid_Parse _); [|done]. by res_inv. Qed.

Lemma loadCandidates_spec input :
  ro_spec (loadCandidates uc input) (fun d x => x = Some <$> run_candidates input d).
Proof.
  unfold loadCandidates, ListUnmatchedByContext. eapply ro_weaken.
  - eapply ro_bind; [eapply ro_bind; [apply ro_lift|intros ?; apply ro_sql_read]|intros ?; apply ro_ret].
  - intros d x (y & (u & _ & [= <-]) & ->). done.
Qed.

Lemma loadMatchRun_spec input : ro_spec (loadMatchRun uc input) (loaded input).
Proof.
  unfold loadMatchRun. eapply ro_weaken.
  - eapply ro_bind; [apply ro_lift|intros input']. eapply ro_bind; [apply ro_lift|intros ?].
    eapply ro_bind; [apply ro_lift|intros ?]. eapply ro_bind; [apply ro_lift|intros ctxInfo].
    eapply ro_bind; [apply ro_lift|intros ?]. eapply ro_bind; [apply ro_lift|intros sources].
    eapply ro_bind; [apply ro_lift|intros cs]. eapply ro_bind; [apply ro_lift|intros ?].
    eapply ro_bind; [apply loadCandidates_spec|intros candidates]. eapply ro_bind; [apply ro_lift|intros rules].
    apply ro_lift.
  - cbn. intros d mrc (input' & Hin & _ & _ & _ & _ & ctxInfo & _ & _ & _ & sources & _ & cs & _ & _ & _ & cands & -> &
      rules & _ & H%map_err_Ok).
    apply validateAndEnrichTenant_input in Hin as (E1 & E2 & E3 & E4).
    exists ctxInfo, sources, rules. rewrite <- E1, <- E2. unfold run_candidates in *. by rewrite <- E1, <- E3, <- E4.
Qed.

(** ** The run a call creates *)
Definition completed_run (run : MatchRun) (stats : gmap string Z) (now : Time) : MatchRun :=
  mkMatchRun (MR_ID run) (MR_ContextID run) (MR_Mode run) MatchRunStatusCompleted (MR_StartedAt run) (Some now) stats
    None (MR_CreatedAt run) now.
Definition failed_run (run : MatchRun) (reason : string) (now : Time) : MatchRun :=
  mkMatchRun (MR_ID run) (MR_ContextID run) (MR_Mode run) MatchRunStatusFailed (MR_StartedAt run) (Some now)
    (MR_Stats run) (Some reason) (MR_CreatedAt run) now.

Definition processing (run : MatchRun) : Prop :=
  MR_Status run = MatchRunStatusProcessing /\ MatchRunMode_IsValid (MR_Mode run) = true.

Lemma io_run_Complete stats run w :
  W_run w = Some run -> processing run ->
  let c := completed_run run stats (env_now (W_next w)) in
  io_run (MatchRun_Complete (Some stats)) w = (mkWorld (W_db w) (W_tx w) (S (W_next w)) (W_step w) (Some c), Ok c).
Proof.
  intros Hw [Hs _]. unfold io_run, MatchRun_Complete, st_ensure, st_get, mbind, st_bind, st_lift.
  rewrite Hw, assert_NotNil_Some. cbn. by rewrite bool_decide_eq_true_2.
Qed.

Lemma io_run_Fail reason run w :
  W_run w = Some run -> reason <> "" ->
  io_run (MatchRun_Fail reason) w =
    if bool_decide (MR_Status run = MatchRunStatusProcessing)
    then let f := failed_run run reason (env_now (W_next w)) in
         (mkWorld (W_db w) (W_tx w) (S (W_next w)) (W_step w) (Some f), Ok f)
    else (mkWorld (W_db w) (W_tx w) (S (W_next w)) (W_step w) (Some run),
          Err (ErrMatch ErrMatchRunMustBeProcessingToFail)).
Proof.
  intros Hw Hr. unfold io_run, MatchRun_Fail, st_ensure, st_get, mbind, st_bind, st_lift.
  rewrite Hw, assert_NotNil_Some. cbn. case_bool_decide; cbn; [|done].
  apply string_empty_false in Hr. by rewrite Hr.
Qed.

Lemma set_runs_twice id a b (d : DB) : set_runs <[id := b]> (set_runs <[id := a]> d) = set_runs <[id := b]> d.
Proof. unfold set_runs. cbn. by rewrite insert_insert_eq. Qed.

(** The held run is the one row added to [d0], still processing. *)
Record started (run : MatchRun) (d0 : DB) (w : World) : Prop := {
  st_tx : W_tx w = None;
  st_run_held : W_run w = Some run;
  st_db : W_db w = set_runs <[MR_ID run := run]> d0;
  st_processing : processing run;
}.

Lemma started_row run d0 w : started run d0 w -> DB_runs (W_db w) !! MR_ID run = Some run.
Proof. intros []. rewrite st_db0. cbn. by rewrite lookup_insert_eq. Qed.

Lemma started_framed run d0 w w' : started run d0 w -> framed w w' -> W_tx w' = W_tx w -> started run d0 w'.
Proof. intros [] (? & ? & _) ?. split; congruence || done. Qed.

(** How the call ends when it fails after the run was created: the row says
    FAILED, or the database failed, or the request was cancelled once the run
    object had been completed. *)
Definition held_completed (w : World) : Prop := exists c, W_run w = Some c /\ MR_Status c = MatchRunStatusCompleted.
Definition window (w w' : World) (p : nat -> bool) : Prop := exists n, (W_step w <= n < W_step w')%nat /\ p n = true.

Inductive run_err (run : MatchRun) (d0 : DB) (w w' : World) : Prop :=
| run_err_failed reason now :
    reason <> "" -> W_db w' = set_runs <[MR_ID run := failed_run run reason now]> d0 -> run_err run d0 w w'
| run_err_database :
    W_db w' = set_runs <[MR_ID run := run]> d0 -> window w w' env_dbFails -> run_err run d0 w w'
| run_err_cancelled :
    W_db w' = set_runs <[MR_ID run := run]> d0 -> held_completed w' -> window w w' env_ctxDone -> run_err run d0 w w'.

Lemma window_mono w1 w2 w1' w2' p :
  (W_step w1' <= W_step w1)%nat -> (W_step w2 <= W_step w2')%nat -> window w1 w2 p -> window w1' w2' p.
Proof. intros ? ? (n & ? & ?). exists n. split; [lia|done]. Qed.

Lemma run_err_mono run d0 w1 w2 w' : (W_step w1 <= W_step w2)%nat -> run_err run d0 w2 w' -> run_err run d0 w1 w'.
Proof.
  intros Hle [?|?|?]; [by eapply run_err_failed|eapply run_err_database|eapply run_err_cancelled]; try done;
    (eapply window_mono; [| |done]; lia).
Qed.

Lemma finalizeRunFailure_started {X} cause run d0 w :
  started run d0 w ->
  let '(w', r) := finalizeRunFailure (X:=X) cause w in
  W_tx w' = None /\ (W_step w <= W_step w')%nat /\ is_Ok r = false /\ run_err run d0 w w'.
Proof.
  intros Hst. pose proof (started_row _ _ _ Hst) as Hrow. destruct Hst as [H1 H2 H3 [H4 H5]].
  unfold finalizeRunFailure.
  rewrite (io_run_Fail _ run w H2 (err_Error_nonempty cause)), bool_decide_eq_true_2 by done. cbn zeta iota.
  set (f := failed_run run (err_Error cause) (env_now (W_next w))). set (w1 := mkWorld _ _ _ _ _).
  assert (Hf : updated_run f run = f) by done.
  pose proof (matchRunRepo_Update_total true f run w1 H1 Hrow eq_refl) as H. rewrite Hf in H.
  destruct (matchRunRepo_Update true f w1) as [w2 r]. destruct H as (G1 & G2 & G3 & G4); [by split|].
  cbn in G3. destruct G4 as [[-> G4]|([e ->] & G4 & n & ? & Hn)]; (split_and!; [done..|]).
  - eapply run_err_failed; [apply (err_Error_nonempty cause)|]. rewrite G4. cbn. rewrite H3. apply set_runs_twice.
  - eapply run_err_database; [cbn in G4; congruence|]. exists n. destruct Hn as [?|[? _]]; [|done]. cbn in *. split; [lia|done].
Qed.

Lemma finalizeRunFailure_completed {X} cause w :
  held_completed w ->
  let '(w', r) := finalizeRunFailure (X:=X) cause w in
  W_tx w' = W_tx w /\ W_db w' = W_db w /\ W_step w' = W_step w /\ is_Ok r = false /\ held_completed w'.
Proof.
  intros (c & Hc & Hs). unfold finalizeRunFailure.
  rewrite (io_run_Fail _ c w Hc (err_Error_nonempty cause)), bool_decide_eq_false_2 by (rewrite Hs; done).
  cbn. split_and!; try done. by exists c.
Qed.

Lemma onFailure_spec {X} (m : io X) run d0 w (Q : World -> X -> Prop) :
  (let '(w1, r1) := m w in (W_step w <= W_step w1)%nat /\
   match r1 with
   | Ok x => Q w1 x
   | Err _ => started run d0 w1 \/
       (W_tx w1 = None /\ W_db w1 = set_runs <[MR_ID run := run]> d0 /\ held_completed w1 /\
        faulty false (W_step w) (W_step w1))
   end) ->
  let '(w', r) := onFailure m w in (W_step w <= W_step w')%nat /\
  match r with Ok x => Q w' x | Err _ => W_tx w' = None /\ run_err run d0 w w' end.
Proof.
  unfold onFailure. destruct (m w) as [w1 [x|cause]]; [done|]. intros [Hle [Hst|(H1 & H2 & H3 & n & Hn & Hf)]].
  - pose proof (finalizeRunFailure_started (X:=X) cause run d0 w1 Hst) as H.
    destruct (finalizeRunFailure cause w1) as [w' [x|e]]; destruct H as (G1 & G2 & G3 & G4); [done|].
    split_and!; [lia|done|]. by eapply run_err_mono.
  - pose proof (finalizeRunFailure_completed (X:=X) cause w1 H3) as H.
    destruct (finalizeRunFailure cause w1) as [w' [x|e]]; destruct H as (G1 & G2 & G3 & G4 & G5); [done|].
    split_and!; [lia|congruence|].
    destruct Hf as [Hf|[_ Hf]]; [eapply run_err_database|eapply run_err_cancelled]; try congruence; try done;
      (exists n; split; [lia|done]).
Qed.

Lemma onFailure_ro {X} (m : io X) P run d0 w :
  ro_spec m P -> started run d0 w ->
  let '(w', r) := onFailure m w in (W_step w <= W_step w')%nat /\
  match r with
  | Ok x => started run d0 w' /\ P (W_db w) x
  | Err _ => W_tx w' = None /\ run_err run d0 w w'
  end.
Proof.
  intros Hm Hst. apply (onFailure_spec m run d0 w (fun w' x => started run d0 w' /\ P (W_db w) x)).
  specialize (Hm w). destruct (m w) as [w1 [x|e]]; destruct Hm as (Hf & Ht & HP);
    (split; [apply Hf|]); [split; [|done]|left]; by eapply started_framed.
Qed.

(** ** Committing and completing *)
Lemma updated_completed run stats now : updated_run (completed_run run stats now) run = completed_run run stats now.
Proof. done. Qed.

Lemma completed_valid run stats now : processing run -> run_row_valid (completed_run run stats now).
Proof. by intros [_ ?]. Qed.

Lemma commitBody_outcome run er fee w d :
  W_tx w = Some d -> W_run w = Some run -> processing run -> DB_runs d !! MR_ID run = Some run ->
  let '(w', r) := commitBody uc run er fee w in
  W_db w' = W_db w /\ (W_step w <= W_step w')%nat /\
  match r with
  | Ok x => exists now d1, x = completed_run run (MER_stats er) now /\ W_run w' = Some x /\
      artifacts run er fee d d1 /\ W_tx w' = Some (set_runs <[MR_ID run := x]> d1)
  | Err _ => W_run w' = Some run \/ (held_completed w' /\ faulty false (W_step w) (W_step w'))
  end.
Proof.
  intros Hw Hr Hp Hrow. unfold commitBody.
  change (_ ← ?a; _ ← ?b; ?c) with (a ≫= fun _ => b ≫= fun _ => c).
  assert (Hpre : tx_spec (_ ← io_check env_lockLost ErrLockRefreshFailed; persistMatchArtifacts uc run er fee)
                   (fun d d' _ => artifacts run er fee d d')).
  { eapply tx_weaken; [tx_bind; apply persistMatchArtifacts_spec|]. by intros d0 d' x (d1 & _ & -> & ?). }
  specialize (Hpre w d Hw). unfold mbind, st_bind in *.
  destruct (io_check env_lockLost ErrLockRefreshFailed w) as [w0 [[]|e0]].
  2: { destruct Hpre as ((H1 & H2 & H3) & _). split_and!; try done. left. congruence. }
  destruct (persistMatchArtifacts uc run er fee w0) as [w1 [fvs|e1]]; destruct Hpre as ((H1 & H2 & H3) & _ & Hd).
  2: { split_and!; try done. left. congruence. }
  destruct Hd as (d1 & Hd1 & Hart). rewrite Hr in H2. rewrite (io_run_Complete _ run w1 H2 Hp).
  set (c := completed_run run (MER_stats er) (env_now (W_next w1))). set (w2 := mkWorld _ _ _ _ _).
  assert (Hrow1 : DB_runs d1 !! MR_ID run = Some run) by (rewrite (art_runs _ _ _ _ _ Hart); done).
  pose proof (matchRunRepo_UpdateWithTx_total c run w2 d1 Hd1 Hrow1 eq_refl (completed_valid _ _ _ Hp)) as Hu.
  destruct (matchRunRepo_UpdateWithTx c w2) as [w3 r].
  destruct Hu as ((G1 & G2 & G3) & G4). cbn in G1, G2, G3. split_and!; [congruence|lia|].
  destruct G4 as [[-> G4]|([e ->] & Hf)].
  - eexists _, d1. split_and!; try done.
  - right. split; [by exists c|]. eapply faulty_mono; [..|exact Hf]; cbn; lia.
Qed.

Definition committed (run : MatchRun) er fee (d0 : DB) (w' : World) (x : MatchRun) : Prop :=
  exists now d1, x = completed_run run (MER_stats er) now /\ artifacts run er fee d0 d1 /\
    W_tx w' = None /\ W_db w' = set_runs <[MR_ID run := x]> d1.

(** The added run row does not matter to what is persisted. *)
Lemma artifacts_set_runs run er fee f d d1 :
  artifacts run er fee (set_runs f d) d1 -> artifacts run er fee d (set_runs (fun _ => DB_runs d) d1).
Proof. intros []. split; cbn; try done. Qed.

Lemma set_runs_const (f : gmap uuid MatchRun -> gmap uuid MatchRun) m (d : DB) :
  set_runs f (set_runs (fun _ => m) d) = set_runs (fun _ => f m) d.
Proof. done. Qed.

Lemma commitMatchResults_outcome run er fee d0 w :
  started run d0 w ->
  let '(w', r) := commitMatchResults uc run er fee w in
  (W_step w <= W_step w')%nat /\
  match r with Ok x => committed run er fee d0 w' x | Err _ => W_tx w' = None /\ run_err run d0 w w' end.
Proof.
  intros Hst. unfold commitMatchResults, mbind, st_bind.
  pose proof (onFailure_ro (io_check env_lockLost ErrLockRefreshFailed) _ run d0 w (ro_check _ _) Hst) as H0.
  destruct (onFailure _ w) as [w0 [[]|e0]]; [|done]. destruct H0 as (Hle & Hst0 & _).
  pose proof (onFailure_spec (WithTx false (commitBody uc run er fee)) run d0 w0 (committed run er fee d0)) as H.
  destruct (onFailure (WithTx _ _) w0) as [w' r]. destruct H as [Hle' Hr].
  2: { split; [lia|]. destruct r; [done|]. destruct Hr as [? ?]. split; [done|]. by eapply run_err_mono. }
  pose proof (WithTx_cases false (commitBody uc run er fee) w0) as Hc.
  destruct (WithTx false _ w0) as [w1 r1]. destruct Hc as [([e ->] & -> & _)|(w2 & r2 & E & Hc)].
  { split; [cbn; lia|]. left. destruct Hst0. by split. }
  pose proof (commitBody_outcome run er fee (begin_tx (tick w0)) (W_db w0) eq_refl (st_run_held _ _ _ Hst0)
    (st_processing _ _ _ Hst0) (started_row _ _ _ Hst0)) as Hb. rewrite E in Hb.
  destruct Hb as (B1 & B2 & B3). cbn in B1, B2. pose proof (st_db _ _ _ Hst0) as Hdb.
  destruct Hc as [(e & -> & -> & ->)|[(x & -> & -> & ->)|(x & e & -> & -> & -> & Hf)]]; (split; [cbn; lia|]).
  - destruct B3 as [Hrun|[Hh Hf]]; [left; destruct Hst0; split; cbn; congruence|right].
    split_and!; try done; [cbn; congruence|]. eapply faulty_mono; [..|exact Hf]; cbn; lia.
  - destruct B3 as (now & d1 & -> & Hrun & Hart & Htx). rewrite Hdb in Hart.
    exists now, (set_runs (fun _ => DB_runs d0) d1). split_and!; try done; [by eapply artifacts_set_runs|].
    cbn. rewrite Htx. cbn. rewrite set_runs_const. unfold set_runs. f_equal.
    rewrite (art_runs _ _ _ _ _ Hart). cbn. by rewrite insert_insert_eq.
  - right. destruct B3 as (now & d1 & -> & Hrun & _). split_and!; [done|cbn; congruence|by eexists|].
    exists (W_step w2). cbn. split; [lia|done].
Qed.

Lemma completeDryRun_outcome run er d0 w :
  started run d0 w ->
  let '(w', r) := completeDryRun er w in
  (W_step w <= W_step w')%nat /\ W_tx w' = None /\
  match r with
  | Ok (x, groups) => groups = MER_groups er /\ exists now, x = completed_run run (MER_stats er) now /\
      W_db w' = set_runs <[MR_ID run := x]> d0
  | Err _ => run_err run d0 w w'
  end.
Proof.
  intros Hst. unfold completeDryRun, mbind, st_bind.
  pose proof (onFailure_ro (io_check env_lockLost ErrLockRefreshFailed) _ run d0 w (ro_check _ _) Hst) as H0.
  destruct (onFailure _ w) as [w0 [[]|e0]]; [|naive_solver]. destruct H0 as (Hle & Hst0 & _).
  pose proof (started_row _ _ _ Hst0) as Hrow. destruct Hst0 as [H1 H2 H3 H4].
  rewrite (io_run_Complete _ run w0 H2 H4).
  set (c := completed_run run (MER_stats er) (env_now (W_next w0))). set (w2 := mkWorld _ _ _ _ _).
  pose proof (matchRunRepo_Update_total false c run w2 H1 Hrow eq_refl (completed_valid _ _ _ H4)) as Hu.
  destruct (matchRunRepo_Update false c w2) as [w3 r]. destruct Hu as (G1 & G2 & G3 & G4). cbn in G3.
  destruct G4 as [[-> G4]|([e ->] & G4 & n & Hn & Hf)]; (split; [lia|]; split; [done|]).
  - split; [done|]. eexists. split; [done|]. rewrite G4. cbn. rewrite H3. apply set_runs_twice.
  - cbn in G4, Hn. destruct Hf as [Hf|[_ Hf]]; [eapply run_err_database|eapply run_err_cancelled].
    + congruence.
    + exists n. split; [lia|done].
    + congruence.
    + by exists c.
    + exists n. split; [lia|done].
Qed.

(** ** Whole calls *)
Definition executed (mrc : matchRunContext) (run : MatchRun) (er : matchExecutionResult) : Prop :=
  exists cancelled, executeMatchRules env_execID env_execNow cancelled (UC_listRules uc) mrc (MR_ID run) = Ok er.

Lemma executeRun_spec mrc run : ro_spec (executeRun uc mrc run) (fun _ er => executed mrc run er).
Proof.
  unfold executeRun. eapply ro_weaken.
  - eapply ro_bind; [apply ro_check|intros ?].
    eapply ro_bind; [apply ro_lift|intros er]. eapply ro_bind; [apply ro_check|intros ?; apply ro_ret].
  - cbn. intros d er (_ & _ & er' & H%map_err_Ok & _ & _ & ->). by eexists.
Qed.

(** The run is new and for the requested context and mode. *)
Definition new_run (input : RunMatchInput) (d0 : DB) (run : MatchRun) : Prop :=
  processing run /\ MR_ContextID run = IN_ContextID input /\ MR_Mode run = IN_Mode input /\
  MR_Stats run = ∅ /\ DB_runs d0 !! MR_ID run = None.

Lemma NewMatchRun_new input d0 id now run :
  NewMatchRun id now (IN_ContextID input) (IN_Mode input) = Ok run -> DB_runs d0 !! MR_ID run = None ->
  new_run input d0 run.
Proof. unfold NewMatchRun. intros H ?. res_inv. assert_inv. by split_and!. Qed.

Definition empty_exceptions (mrc : matchRunContext) : list ExceptionTransactionInput :=
  buildExceptionInputs (collectUnmatched (MRC_leftCandidates mrc) ∅ ++ collectUnmatched (MRC_rightCandidates mrc) ∅ ++
      MRC_unmatchedIDs mrc)
    (mergeTransactionMaps [indexTransactions (MRC_leftCandidates mrc); indexTransactions (MRC_rightCandidates mrc);
      MRC_externalTxByID mrc]) (MRC_sourceTypeByID mrc) ∅.

(** The ways a call succeeds. *)
Inductive run_ok (input : RunMatchInput) (mrc : matchRunContext) (d0 : DB) (w' : World)
    : MatchRun -> list MatchGroup -> Prop :=
| run_ok_dry run er now :
    new_run input d0 run -> IN_Mode input = MatchRunModeDryRun -> executed mrc run er ->
    W_db w' = set_runs <[MR_ID run := completed_run run (MER_stats er) now]> d0 ->
    run_ok input mrc d0 w' (completed_run run (MER_stats er) now) (MER_groups er)
| run_ok_commit run er x :
    new_run input d0 run -> IN_Mode input <> MatchRunModeDryRun -> executed mrc run er ->
    committed run er (Some (feeInputOf mrc er)) d0 w' x ->
    run_ok input mrc d0 w' x (MER_groups er)
| run_ok_empty run now new :
    new_run input d0 run ->
    (is_nil (MRC_leftCandidates mrc) || is_nil (MRC_rightCandidates mrc) = true)%bool ->
    W_db w' = set_exceptions (fun _ => new)
      (set_runs <[MR_ID run := completed_run run (emptyRunStats mrc) now]> d0) ->
    (IN_Mode input = MatchRunModeCommit -> exists now',
       exceptions_grown (empty_exceptions mrc) now' (DefaultSeverityRules []) (DB_exceptions d0) new) ->
    (IN_Mode input <> MatchRunModeCommit -> new = DB_exceptions d0) ->
    run_ok input mrc d0 w' (completed_run run (emptyRunStats mrc) now) [].

Definition call_err (input : RunMatchInput) (w w' : World) : Prop :=
  W_db w' = W_db w \/ exists run, new_run input (W_db w) run /\ run_err run (W_db w) w w'.

Lemma createRun_outcome input id w run :
  W_tx w = None -> NewMatchRun id.1 id.2 (IN_ContextID input) (IN_Mode input) = Ok run ->
  let '(w', r) := (created ← matchRunRepo_Create run; _ ← io_hold created; mret created) w in
  (W_step w <= W_step w')%nat /\ W_tx w' = None /\
  match r with
  | Ok x => x = run /\ new_run input (W_db w) run /\ started run (W_db w) w'
  | Err _ => W_db w' = W_db w
  end.
Proof.
  intros Htx Hn. unfold mbind, st_bind.
  pose proof (WithTx_spec false _ _ w (matchRunRepo_create_spec false run) Htx) as H.
  unfold matchRunRepo_Create. destruct (WithTx false _ w) as [w1 [x|e]]; destruct H as (H1 & H2 & H3 & H4); [|done].
  destruct H4 as (Hfresh & Hdb & ->). cbn. pose proof (NewMatchRun_new _ _ _ _ _ Hn Hfresh) as Hnew.
  split_and!; try done. split; try done. apply Hnew.
Qed.

Lemma runCandidates_outcome input mrc w :
  W_tx w = None ->
  let '(w', r) := runCandidates uc input mrc w in
  (W_step w <= W_step w')%nat /\ W_tx w' = None /\
  match r with Ok (x, groups) => run_ok input mrc (W_db w) w' x groups | Err _ => call_err input w w' end.
Proof.
  intros Htx. unfold runCandidates, mbind, st_bind.
  pose proof (ro_ensureLockFresh w) as H0. destruct (ensureLockFresh w) as [w0 [[]|e0]];
    destruct H0 as ((E0 & _ & L0) & T0 & _); [|split_and!; [done|congruence|by left]].
  cbn [io_fresh]. set (w1 := mkWorld _ _ _ _ _). unfold st_lift.
  destruct (map_err ErrMatch (NewMatchRun _ _ _ _)) as [run|e1] eqn:Hnew; cbn beta iota;
    [|split_and!; [done|cbn; congruence|by left]].
  apply map_err_Ok in Hnew.
  pose proof (createRun_outcome input (env_newID (W_next w0), env_now (W_next w0)) w1 run ltac:(cbn; congruence) Hnew) as Hc.
  unfold mbind, st_bind in Hc. cbn [W_db W_step w1] in Hc. rewrite E0 in Hc. clearbody w1.
  destruct (matchRunRepo_Create run w1) as [w2 [x2|e2]];
    [|destruct Hc as (C1 & C2 & C3); split_and!; [lia|done|by left]].
  destruct (io_hold x2 w2) as [w3 r3] eqn:Eh. injection Eh as Ew3 <-. cbn in Hc.
  destruct Hc as (C1 & C2 & -> & Hnr & Hst). subst w3. set (w3 := mkWorld _ _ _ _ _) in *. cbn in C1.
  assert (Herr : forall w4 w5, (W_step w2 <= W_step w4)%nat -> run_err run (W_db w) w4 w5 -> call_err input w w5).
  { intros w4 w5 ? ?. right. exists run. split; [done|]. eapply run_err_mono; [|done]. lia. }
  pose proof (onFailure_ro _ _ run (W_db w) w3 (executeRun_spec mrc run) Hst) as He.
  destruct (onFailure (executeRun uc mrc run) w3) as [w4 [er|e4]]; destruct He as (L4 & He); cbn in L4.
  2: { destruct He as [? He]. split_and!; [lia|done|]. eapply (Herr w3); [cbn; lia|done]. }
  destruct He as [Hst4 Hex]. case_bool_decide as Hmode.
  - pose proof (completeDryRun_outcome run er (W_db w) w4 Hst4) as H. destruct (completeDryRun er w4) as [w5 r5].
    destruct H as (L5 & T5 & H5). split_and!; [lia|done|]. destruct r5 as [[x groups]|e]; [|by eapply (Herr w4)].
    destruct H5 as (-> & now & -> & ?). by eapply run_ok_dry.
  - pose proof (onFailure_ro _ _ run (W_db w) w4 ro_ensureLockFresh Hst4) as H.
    destruct (onFailure ensureLockFresh w4) as [w5 [[]|e5]]; destruct H as (L5 & H5).
    2: { destruct H5 as [? H5]. split_and!; [lia|done|]. by eapply (Herr w4). }
    destruct H5 as [Hst5 _].
    pose proof (commitMatchResults_outcome run er (Some (feeInputOf mrc er)) (W_db w) w5 Hst5) as H.
    destruct (commitMatchResults uc run er _ w5) as [w6 [x|e]]; destruct H as (L6 & H6); cbn.
    + split_and!; [lia|by destruct H6 as (? & ? & ? & ? & ? & ?)|by eapply run_ok_commit].
    + destruct H6 as [? H6]. split_and!; [lia|done|]. eapply (Herr w5); [lia|done].
Qed.

Lemma emptyRunBody_outcome input mrc id now run w d :
  W_tx w = Some d -> NewMatchRun id now (IN_ContextID input) (IN_Mode input) = Ok run ->
  let '(w', r) := emptyRunBody input mrc run w in
  W_db w' = W_db w /\ (W_step w <= W_step w')%nat /\
  match r with
  | Ok x => exists now new, x = completed_run run (emptyRunStats mrc) now /\ new_run input d run /\
      W_tx w' = Some (set_exceptions (fun _ => new) (set_runs <[MR_ID run := x]> d)) /\
      (IN_Mode input = MatchRunModeCommit -> exists now',
         exceptions_grown (empty_exceptions mrc) now' (DefaultSeverityRules []) (DB_exceptions d) new) /\
      (IN_Mode input <> MatchRunModeCommit -> new = DB_exceptions d)
  | Err _ => True
  end.
Proof.
  intros Hw Hn. unfold emptyRunBody, mbind, st_bind.
  pose proof (tx_existing _ _ (matchRunRepo_create_spec false run) w d Hw) as H1.
  unfold matchRunRepo_CreateWithTx. destruct (ExistingTx (matchRunRepo_create false run) w) as [w1 [x1|e1]]; destruct H1 as ((E1 & _ & L1) & _ & H1); [|done].
  destruct H1 as (d1 & T1 & Hfresh & -> & ->). pose proof (NewMatchRun_new _ _ _ _ _ Hn Hfresh) as Hnew.
  unfold io_hold. rewrite (io_run_Complete _ run (mkWorld _ _ _ _ (Some run)) eq_refl (proj1 Hnew)).
  cbn [W_db W_tx W_next W_step].
  set (c := completed_run _ _ _). set (w2 := mkWorld _ _ _ _ _).
  assert (T2 : W_tx w2 = W_tx w1) by done. rewrite T1 in T2.
  pose proof (tx_existing _ _ (matchRunRepo_update_spec false c) w2 _ T2) as H3. unfold matchRunRepo_UpdateWithTx.
  destruct (ExistingTx (matchRunRepo_update false c) w2) as [w3 [x3|e3]]; destruct H3 as ((E3 & _ & L3) & _ & H3);
    cbn in E3, L3; [|split_and!; [congruence|lia|done]].
  destruct H3 as (d3 & T3 & row & Hrow & -> & ->). cbn in Hrow. rewrite lookup_insert_eq in Hrow. injection Hrow as <-.
  rewrite set_runs_twice in T3.
  assert (Hex : tx_spec (if bool_decide (IN_Mode input = MatchRunModeCommit)
                         then CreateExceptionsWithTx (empty_exceptions mrc) [] else mret tt)
    (fun d d' _ => exists new, d' = set_exceptions (fun _ => new) d /\
      (IN_Mode input = MatchRunModeCommit -> exists now',
         exceptions_grown (empty_exceptions mrc) now' (DefaultSeverityRules []) (DB_exceptions d) new) /\
      (IN_Mode input <> MatchRunModeCommit -> new = DB_exceptions d))).
  { case_bool_decide.
    - eapply tx_weaken; [apply CreateExceptionsWithTx_spec|]. intros d0 d' x (new & now' & -> & Hg).
      exists new. split_and!; [done|by exists now'|done].
    - eapply tx_weaken; [apply tx_ret|]. intros d0 d' x [-> _]. exists (DB_exceptions d0).
      by rewrite set_exceptions_same. }
  specialize (Hex w3 _ T3). unfold empty_exceptions at 1 in Hex.
  match type of Hex with context [match ?m w3 with _ => _ end] => destruct (m w3) as [w4 [[]|e4]] end; destruct Hex as ((E4 & _ & L4) & _ & H4);
    (split_and!; [congruence|lia|]); [|done].
  destruct H4 as (d4 & T4 & new & -> & Hg & Hng). eexists _, new. by split_and!.
Qed.

Lemma completeEmptyRun_outcome input mrc w :
  W_tx w = None -> (is_nil (MRC_leftCandidates mrc) || is_nil (MRC_rightCandidates mrc) = true)%bool ->
  let '(w', r) := completeEmptyRun input mrc w in
  (W_step w <= W_step w')%nat /\ W_tx w' = None /\
  match r with Ok (x, groups) => run_ok input mrc (W_db w) w' x groups | Err _ => W_db w' = W_db w end.
Proof.
  intros Htx Hnil. unfold completeEmptyRun, mbind, st_bind. cbn [io_fresh]. set (w1 := mkWorld _ _ _ _ _).
  unfold st_lift. destruct (map_err ErrMatch (NewMatchRun _ _ _ _)) as [run|e1] eqn:Hnew; cbn beta iota; [|done].
  apply map_err_Ok in Hnew. pose proof (WithTx_cases false (emptyRunBody input mrc run) w1) as Hc.
  destruct (WithTx false _ w1) as [w2 r2]. destruct Hc as [([e ->] & -> & _)|(w3 & r3 & E & Hc)].
  { cbn. split_and!; try done. lia. }
  pose proof (emptyRunBody_outcome input mrc _ _ run (begin_tx (tick w1)) (W_db w) eq_refl Hnew) as H.
  rewrite E in H. destruct H as (H1 & H2 & H3). cbn in H1, H2.
  destruct Hc as [(e & -> & -> & ->)|[(x & -> & -> & ->)|(x & e & -> & -> & -> & _)]]; cbn.
  - split_and!; try done. lia.
  - destruct H3 as (now & new & -> & Hnr & Ht & Hg & Hng). split_and!; try done; [lia|].
    eapply run_ok_empty; try done. cbn. by rewrite Ht.
  - split_and!; try done. lia.
Qed.

Lemma call_err_mono input w1 w2 w' :
  W_db w2 = W_db w1 -> (W_step w1 <= W_step w2)%nat -> call_err input w2 w' -> call_err input w1 w'.
Proof.
  intros E L [H|(run & H1 & H2)]; [left; congruence|right]. rewrite E in *. exists run. split; [done|].
  by eapply run_err_mono.
Qed.

(** Everything that can come of a call. *)
Definition call_outcome (input : RunMatchInput) (w : World) (out : World * res CmdError (MatchRun * list MatchGroup))
    : Prop :=
  let '(w', r) := out in
  (W_step w <= W_step w')%nat /\ W_tx w' = None /\
  match r with
  | Ok (x, groups) => exists mrc, loaded input (W_db w) mrc /\ run_ok input mrc (W_db w) w' x groups
  | Err _ => call_err input w w'
  end.

Lemma call_outcome_mono input w1 w2 out : framed w1 w2 -> call_outcome input w2 out -> call_outcome input w1 out.
Proof.
  intros (E & _ & L). destruct out as [w' r]. intros (H1 & H2 & H3). split_and!; [lia|done|].
  rewrite <- E. destruct r as [[x groups]|e]; [done|]. by eapply call_err_mono.
Qed.

Lemma call_ro_bind {X} input (m : io X) f P w :
  W_tx w = None -> ro_spec m P ->
  (forall x w1, W_tx w1 = None -> W_db w1 = W_db w -> P (W_db w) x -> call_outcome input w1 (f x w1)) ->
  call_outcome input w ((m ≫= f) w).
Proof.
  intros Htx Hm Hf. unfold mbind, st_bind. specialize (Hm w).
  destruct (m w) as [w1 [x|e]]; destruct Hm as (Hfr & Ht & HP).
  - eapply call_outcome_mono; [exact Hfr|]. apply Hf; [congruence|apply Hfr|done].
  - destruct Hfr as (E & _ & L). split_and!; [done|congruence|by left].
Qed.

Lemma RunMatch_outcome input w : W_tx w = None -> call_outcome input w (RunMatch uc input w).
Proof.
  intros Htx. unfold RunMatch. eapply call_ro_bind; [done|apply ro_lift|]. intros input' w1 T1 D1 Hin.
  apply validateAndEnrichTenant_input in Hin as (E1 & E2 & E3 & E4).
  assert (Hnr : forall d run, new_run input' d run -> new_run input d run).
  { unfold new_run. intros d run. by rewrite E1, E2. }
  assert (Hce : forall w w', call_err input' w w' -> call_err input w w').
  { intros ? ? [?|(run & ? & ?)]; [by left|right]. exists run. eauto. }
  assert (Hok : forall mrc d w' x groups, run_ok input' mrc d w' x groups -> run_ok input mrc d w' x groups).
  { intros ? ? ? ? ? []; rewrite ?E2 in *;
      [eapply run_ok_dry|eapply run_ok_commit|eapply run_ok_empty]; eauto. }
  eapply call_ro_bind; [done|apply ro_lift|intros _ w2 T2 D2 _].
  eapply call_ro_bind; [done|apply ro_lift|intros _ w3 T3 D3 _].
  eapply call_ro_bind; [done|apply ro_lift|intros _ w4 T4 D4 _].
  eapply call_ro_bind; [done|apply loadMatchRun_spec|intros mrc w5 T5 D5 Hload].
  assert (Hl : loaded input (W_db w5) mrc).
  { rewrite D5. unfold loaded, run_candidates in *. by rewrite E1, E2, E3, E4 in Hload. }
  eapply call_ro_bind; [done|apply ro_check|intros _ w6 T6 D6 _]. rewrite <- D6 in Hl.
  destruct (is_nil _ || is_nil _) eqn:Hnil.
  - eapply call_ro_bind; [done|apply ro_ensureLockFresh|intros _ w7 T7 D7 _]. rewrite <- D7 in Hl.
    pose proof (completeEmptyRun_outcome input' mrc w7 T7 Hnil) as H. destruct (completeEmptyRun _ _ w7) as [w8 r].
    destruct H as (? & ? & H). split_and!; [done..|]. destruct r as [[x groups]|e]; [eauto|by left].
  - pose proof (runCandidates_outcome input' mrc w6 T6) as H. destruct (runCandidates _ _ _ w6) as [w8 r].
    destruct H as (? & ? & H). split_and!; [done..|]. destruct r as [[x groups]|e]; eauto.
Qed.

(** ** Guarantees of a call *)

(** The row of a failed call. *)
(** ** The commit of a run whose results are stored

    Four round trips separate the results from the end of the commit: setting
    the tenant schema, the update of the run, its read back, and the commit. *)
Definition disturbed (n : nat) : bool := env_dbFails n || env_ctxDone n.

Lemma disturbed_fault n : fault false n <-> disturbed n = true.
Proof. unfold fault, disturbed. rewrite orb_true_iff. naive_solver. Qed.

Lemma io_roundtrip_answer w :
  io_roundtrip false w = (tick w, if disturbed (W_step w) then Err (ErrDatabase "statement") else Ok tt).
Proof. unfold io_roundtrip, io_step, st_ensure, st_lift, mbind, st_bind, disturbed. cbn. by destruct (_ || _). Qed.

Lemma sql_answer {X} (f : DB -> res CmdError (DB * X)) w d d' x : W_tx w = Some d -> f d = Ok (d', x) ->
  sql false f w = if disturbed (W_step w) then (tick w, Err (ErrDatabase "statement"))
                  else (mkWorld (W_db w) (Some d') (W_next w) (S (W_step w)) (W_run w), Ok x).
Proof.
  intros Hw Hf. unfold sql, mbind, st_bind. rewrite io_roundtrip_answer. destruct (disturbed _); [done|].
  unfold in_tx. cbn. by rewrite Hw, Hf.
Qed.

Lemma faulty_three n :
  faulty false n (3 + n) <-> disturbed n = true \/ disturbed (S n) = true \/ disturbed (S (S n)) = true.
Proof.
  rewrite <-!disturbed_fault. split.
  - intros (m & Hm & Hf). assert (m = n \/ m = S n \/ m = S (S n)) as [-> |[-> | ->]] by lia; auto.
  - intros [Hf|[Hf|Hf]]; eexists; (split; [|exact Hf]); lia.
Qed.

Lemma UpdateWithTx_window run row w d :
  W_tx w = Some d -> DB_runs d !! MR_ID run = Some row -> MR_ContextID row = MR_ContextID run ->
  run_row_valid (updated_run run row) ->
  let '(w', r) := matchRunRepo_UpdateWithTx run w in
  W_db w' = W_db w /\ W_run w' = W_run w /\
  match r with
  | Ok x => x = updated_run run row /\ W_tx w' = Some (set_runs <[MR_ID run := x]> d) /\ W_step w' = (3 + W_step w)%nat /\
      ~ faulty false (W_step w) (3 + W_step w)
  | Err _ => faulty false (W_step w) (3 + W_step w)
  end.
Proof.
  intros Hw Hrow Hctx Hv. set (d1 := set_runs <[MR_ID run := updated_run run row]> d).
  assert (H1 : update_match_run run d = Ok (d1, tt)) by (unfold update_match_run; by rewrite Hrow, bool_decide_eq_true_2).
  assert (H2 : select_match_run (MR_ContextID run) (MR_ID run) d1 = Ok (d1, updated_run run row)).
  { unfold select_match_run. cbn. rewrite lookup_insert_eq. cbn. rewrite bool_decide_eq_true_2 by done.
    by rewrite MatchRun_ToEntity_valid. }
  unfold matchRunRepo_UpdateWithTx, ExistingTx, matchRunRepo_update, mbind, st_bind. rewrite io_roundtrip_answer.
  pose proof (faulty_three (W_step w)) as Hiff. destruct (disturbed (W_step w)) eqn:F1; [split_and!; tauto|].
  rewrite (sql_answer _ (tick w) d d1 tt Hw H1). cbn [tick W_step]. destruct (disturbed (S _)) eqn:F2; [split_and!; tauto|].
  rewrite (sql_answer _ _ d1 d1 (updated_run run row)) by done. cbn [W_step].
  destruct (disturbed (S (S _))) eqn:F3; [split_and!; tauto|]. split_and!; try done. rewrite Hiff. by intros [?|[?|?]].
Qed.

(** The run object is completed before its row is. *)
Lemma commitBody_completed run er fee w d wp fvs :
  W_tx w = Some d -> W_run w = Some run -> processing run -> DB_runs d !! MR_ID run = Some run ->
  (_ ← io_check env_lockLost ErrLockRefreshFailed; persistMatchArtifacts uc run er fee) w = (wp, Ok fvs) ->
  let '(w', r) := commitBody uc run er fee w in
  W_db w' = W_db w /\ held_completed w' /\
  match r with
  | Ok x => W_step w' = (3 + W_step wp)%nat /\ ~ faulty false (W_step wp) (3 + W_step wp)
  | Err _ => faulty false (W_step wp) (3 + W_step wp)
  end.
Proof.
  intros Hw Hr Hp Hrow Hpre.
  assert (Hart : tx_spec (_ ← io_check env_lockLost ErrLockRefreshFailed; persistMatchArtifacts uc run er fee)
                   (fun d d' _ => artifacts run er fee d d')).
  { eapply tx_weaken; [tx_bind; apply persistMatchArtifacts_spec|]. by intros d0 d' x (d1 & _ & -> & ?). }
  specialize (Hart w d Hw). rewrite Hpre in Hart. destruct Hart as ((H1 & H2 & _) & _ & d1 & Hd1 & Hart).
  unfold commitBody, mbind, st_bind in *. destruct (io_check _ _ w) as [w0 [[]|e0]]; [|discriminate Hpre].
  rewrite Hpre, io_run_Complete with (run := run) by congruence.
  set (c := completed_run run (MER_stats er) (env_now (W_next wp))). set (w2 := mkWorld _ _ _ _ _).
  assert (Hrow1 : DB_runs d1 !! MR_ID run = Some run) by (by rewrite (art_runs _ _ _ _ _ Hart)).
  pose proof (UpdateWithTx_window c run w2 d1 Hd1 Hrow1 eq_refl (completed_valid _ _ _ Hp)) as Hu.
  destruct (matchRunRepo_UpdateWithTx c w2) as [w3 r]. destruct Hu as (G1 & G2 & G3). cbn in G1, G2.
  split_and!; [congruence|by exists c|]. destruct r; naive_solver.
Qed.

Lemma finalizeRunFailure_stuck {X} cause w :
  held_completed w ->
  exists w', finalizeRunFailure (X:=X) cause w = (w', Err (ErrMarkRunFailed ErrMatchRunMustBeProcessingToFail)) /\ W_db w' = W_db w.
Proof.
  intros (c & Hc & Hs). unfold finalizeRunFailure.
  rewrite (io_run_Fail _ c w Hc (err_Error_nonempty cause)), bool_decide_eq_false_2 by (rewrite Hs; done). by eexists.
Qed.

Lemma io_check_passes lost e w : lost (W_step w) = false -> io_check lost e w = (tick w, Ok tt).
Proof. intros H. unfold io_check, io_step, st_ensure, st_lift, mbind, st_bind. cbn. by rewrite H. Qed.

Lemma faulty_four n : faulty false n (4 + n) <-> faulty false n (3 + n) \/ disturbed (3 + n) = true.
Proof.
  rewrite <-disturbed_fault. split.
  - intros (m & Hm & Hf). destruct (decide (m = (3 + n)%nat)) as [->|]; [by right|left]. exists m. split; [lia|done].
  - intros [Hf|Hf]; [eapply faulty_mono; [..|exact Hf]; lia|]. eexists. split; [|exact Hf]. lia.
Qed.

(** The transaction of a commit whose results are stored fails exactly when
    one of the four round trips does, with the run object completed. *)
Lemma commit_window run er fee d0 w wp fvs :
  started run d0 w -> disturbed (W_step w) = false ->
  (_ ← io_check env_lockLost ErrLockRefreshFailed; persistMatchArtifacts uc run er fee) (begin_tx (tick w)) = (wp, Ok fvs) ->
  let '(w', r) := WithTx false (commitBody uc run er fee) w in
  match r with
  | Ok _ => ~ faulty false (W_step wp) (4 + W_step wp)
  | Err _ => faulty false (W_step wp) (4 + W_step wp) /\ held_completed w' /\ W_db w' = W_db w
  end.
Proof.
  intros Hst Hb Hpre. pose proof (commitBody_completed run er fee (begin_tx (tick w)) (W_db w) wp fvs eq_refl
    (st_run_held _ _ _ Hst) (st_processing _ _ _ Hst) (started_row _ _ _ Hst) Hpre) as H.
  unfold WithTx, mbind, st_bind. rewrite io_roundtrip_answer, Hb. unfold tx_scope.
  pose proof (faulty_four (W_step wp)) as Hiff.
  destruct (commitBody uc run er fee _) as [w1 [x|e]]; destruct H as (H1 & H2 & H3); [|split_and!; [tauto|done..]].
  destruct H3 as [H3 H4]. rewrite io_roundtrip_answer, H3. destruct (disturbed (3 + _)) eqn:E; [split_and!; [tauto|done..]|].
  rewrite Hiff. by intros [?|?].
Qed.

(** C36: A commit that is disturbed late leaves its run PROCESSING for good.
    Suppose a commit holds the lock, begins its transaction and stores the
    results of the run.  It then fails exactly when the database fails or the
    request is cancelled at one of the four round trips that are left: the
    tenant schema, the update of the run, its read back and the commit.  In
    that case it rolls everything back and the recovery, which should mark the
    run as FAILED, is refused because the run object already says COMPLETED:
    its refusal is returned in place of the cause, no table has changed and the
    row of the run still says PROCESSING.  Otherwise the run is committed. *)
Theorem commitMatchResults_stuck run er fee d0 w wp fvs :
  started run d0 w -> env_lockLost (W_step w) = false -> disturbed (S (W_step w)) = false ->
  (_ ← io_check env_lockLost ErrLockRefreshFailed; persistMatchArtifacts uc run er fee) (begin_tx (tick (tick w))) =
    (wp, Ok fvs) ->
  let '(w', r) := commitMatchResults uc run er fee w in
  match r with
  | Ok x => ~ faulty false (W_step wp) (4 + W_step wp) /\ committed run er fee d0 w' x
  | Err e => faulty false (W_step wp) (4 + W_step wp) /\ e = ErrMarkRunFailed ErrMatchRunMustBeProcessingToFail /\
      W_db w' = W_db w /\ DB_runs (W_db w') !! MR_ID run = Some run /\ MR_Status run = MatchRunStatusProcessing
  end.
Proof.
  intros Hst Hl Hb Hpre. pose proof (commitMatchResults_outcome run er fee d0 w Hst) as Hout.
  assert (Hst1 : started run d0 (tick w)) by (by destruct Hst; split).
  pose proof (commit_window run er fee d0 (tick w) wp fvs Hst1 Hb Hpre) as Hw. revert Hout.
  unfold commitMatchResults, mbind, st_bind, onFailure. rewrite io_check_passes by done.
  destruct (WithTx false _ (tick w)) as [w1 [x|cause]]; [by intros [_ ?]|]. intros _. destruct Hw as (Hf & Hh & Hd).
  destruct (finalizeRunFailure_stuck (X:=MatchRun) cause w1 Hh) as (w' & -> & ->). rewrite Hd. cbn [tick W_db].
  pose proof (started_row _ _ _ Hst). destruct (st_processing _ _ _ Hst). by split_and!.
Qed.

Lemma run_err_row input run d0 w w' :
  new_run input d0 run -> run_err run d0 w w' ->
  exists row, W_db w' = set_runs <[MR_ID run := row]> d0 /\ MR_ID row = MR_ID run /\
    MR_ContextID row = MR_ContextID run /\ MR_Mode row = MR_Mode run.
Proof. intros _ [? ? _ E|E _|E _ _]; rewrite E; by eexists. Qed.

(** C4: a call that fails, and a dry run, change nothing but the row of the run
    itself: every other table is as before, and the runs table is as before or
    has one new row, for the requested context and mode. *)
Theorem RunMatch_atomic input w w' r :
  W_tx w = None -> RunMatch uc input w = (w', r) ->
  is_Ok r = false \/ IN_Mode input = MatchRunModeDryRun ->
  W_tx w' = None /\
  (W_db w' = W_db w \/
   exists run, DB_runs (W_db w) !! MR_ID run = None /\ MR_ContextID run = IN_ContextID input /\
     MR_Mode run = IN_Mode input /\ W_db w' = set_runs <[MR_ID run := run]> (W_db w)).
Proof.
  intros Htx E Hcase. pose proof (RunMatch_outcome input w Htx) as H. rewrite E in H.
  destruct H as (_ & Ht & H). split; [done|].
  destruct r as [[x groups]|e].
  - destruct Hcase as [?|Hm]; [done|]. right. destruct H as (mrc & _ & Hok).
    destruct Hok as [run er now Hn _ _ Hdb|run er x Hn Hd|run now new Hn _ Hdb _ Hne]; [|done|].
    + destruct Hn as (_ & E1 & E2 & _ & E3). exists (completed_run run (MER_stats er) now). by split_and!.
    + destruct Hn as (_ & E1 & E2 & _ & E3). rewrite Hdb, Hne by (rewrite Hm; done).
      exists (completed_run run (emptyRunStats mrc) now). by split_and!.
  - destruct H as [H|(run & Hn & Hr)]; [by left|right].
    destruct (run_err_row input _ _ _ _ Hn Hr) as (row & Hdb & E1 & E2 & E3).
    destruct Hn as (_ & E4 & E5 & _ & E6). exists row. rewrite Hdb, E1, E2, E3. by split_and!.
Qed.

(** C2: a run that was started ends.  Whatever the rules, the locks and the
    request do, a run row created by a call in which no database round trip
    fails says COMPLETED when the call succeeds, and FAILED with a reason when
    it does not; the one exception is a request cancelled after the run object
    was completed and before that was committed, which leaves the row
    PROCESSING. *)
Theorem RunMatch_run_ends input w w' r id row :
  W_tx w = None -> RunMatch uc input w = (w', r) ->
  (forall n, (W_step w <= n < W_step w')%nat -> env_dbFails n = false) ->
  DB_runs (W_db w) !! id = None -> DB_runs (W_db w') !! id = Some row ->
  (MR_Status row = MatchRunStatusCompleted /\ is_Ok r = true /\ is_Some (MR_CompletedAt row)) \/
  (MR_Status row = MatchRunStatusFailed /\ is_Ok r = false /\ is_Some (MR_CompletedAt row) /\
     exists reason, MR_FailureReason row = Some reason /\ reason <> "") \/
  (MR_Status row = MatchRunStatusProcessing /\ is_Ok r = false /\ held_completed w' /\ window w w' env_ctxDone).
Proof.
  intros Htx E Hdbok Hold Hnew. pose proof (RunMatch_outcome input w Htx) as H. rewrite E in H.
  destruct H as (_ & _ & H).
  assert (Hins : forall run (m : gmap uuid MatchRun), <[MR_ID run := run]> m !! id = Some row -> m !! id = None -> row = run).
  { intros run m Hi Hn. destruct (decide (MR_ID run = id)) as [<-|Hne]; [rewrite lookup_insert_eq in Hi; congruence|].
    rewrite lookup_insert_ne in Hi by done. congruence. }
  destruct r as [[x groups]|e].
  - left. destruct H as (mrc & _ & Hok).
    destruct Hok as [run er now _ _ _ Hdb|run er x _ _ _ Hc|run now new _ _ Hdb _ _].
    + rewrite Hdb in Hnew. cbn in Hnew. eapply (Hins (completed_run _ _ _)) in Hnew as ->; [|done]. cbn. eauto.
    + destruct Hc as (now & d1 & -> & Hart & _ & Hdb). rewrite Hdb in Hnew. cbn in Hnew.
      eapply (Hins (completed_run _ _ _)) in Hnew as ->; [cbn; eauto|]. by rewrite (art_runs _ _ _ _ _ Hart).
    + rewrite Hdb in Hnew. cbn in Hnew. eapply (Hins (completed_run _ _ _)) in Hnew as ->; [|done]. cbn. eauto.
  - destruct H as [H|(run & ([Hp _] & _) & [reason now Hr Hdb|Hdb (n & Hn & Hf)|Hdb Hh Hwin])]; [congruence|..].
    + rewrite Hdb in Hnew. cbn in Hnew. eapply (Hins (failed_run _ _ _)) in Hnew as ->; [|done]. cbn. right. left. eauto 10.
    + rewrite (Hdbok n Hn) in Hf. done.
    + rewrite Hdb in Hnew. cbn in Hnew. eapply Hins in Hnew as ->; [|done]. right. right. done.
Qed.
End outcome.

(** ** A concrete database: in context [ctx], [l1] of the bank pairs with [r1]
    of the ledger and [l2] stays unmatched. *)
#[export] Instance model_error_text : ErrorText := {| err_Error _ := "failure" |}.
#[export] Instance model_error_text_laws : ErrorTextLaws model_error_text.
Proof. by split. Qed.
#[export] Instance model_outbox : OutboxLib model_uuid := {|
  outbox_DefaultMaxPayloadBytes := 1048576;
  outbox_accepts _ := true;
|}.

Definition sample_db : @DB model_uuid model_decimal :=
  mkDB (U:=model_uuid) (D:=model_decimal) ∅ ∅ []
    (<["l1" := sample_txn "l1" "bank" 100]> (<["l2" := sample_txn "l2" "bank" 70]>
      (<["r1" := sample_txn "r1" "ledger" 100]> ∅)))
    (<["bank" := "ctx"]> (<["ledger" := "ctx"]> ∅)) ∅ ∅ [] [] ∅ [] ∅ ∅ ∅.
Definition sample_uc : @Collaborators model_uuid model_decimal :=
  mkCollaborators (U:=model_uuid) (D:=model_decimal) "tenant" "slug" "tenant"
    (fun _ _ => Ok (Some (mkReconciliationContextInfo (U:=model_uuid) (D:=model_decimal) "ctx" ContextTypeOneToOne true
                            0%Q 0%Q None)))
    (fun _ => Ok [Some (sample_source "bank" MatchingSideLeft); Some (sample_source "ledger" MatchingSideRight)])
    (fun _ => Ok []) (fun _ => ∅) sample_load (fun _ => Ok tt) 0.
Definition sample_input (mode : MatchRunMode) : @RunMatchInput model_uuid :=
  mkRunMatchInput (U:=model_uuid) "tenant" "ctx" mode None None.
Definition sample_world : @World model_uuid model_decimal :=
  mkWorld (U:=model_uuid) (D:=model_decimal) sample_db None 0 0 None.

(** The call with the request cancelled from step [k] on. *)
Definition cancelled_env (k : nat) : Env model_uuid := model_env never (fun n => k <=? n)%nat never.
Definition sample_call (env : Env model_uuid) (mode : MatchRunMode) :=
  RunMatch (A:=model_assert) (N:=model_unicode) (F:=model_fmt) (V:=env) (T:=model_error_text) (O:=model_outbox)
    sample_uc (sample_input mode) sample_world.

Definition call_summary (out : @World model_uuid model_decimal *
    res CmdError (@MatchRun model_uuid * list (@MatchGroup model_uuid model_decimal))) :=
  (MR_Status <$> (map_to_list (DB_runs (W_db out.1))).*2, is_Ok out.2,
   (fun t => (TX_ID t, TX_Status t)) <$> (map_to_list (DB_txs (W_db out.1))).*2).

Lemma sample_call_dry :
  call_summary (sample_call quiet_env MatchRunModeDryRun) =
  (["COMPLETED"], true, [("r1", "UNMATCHED"); ("l1", "UNMATCHED"); ("l2", "UNMATCHED")]).
Proof. vm_compute. reflexivity. Qed.

Lemma RunMatch_atomic_witness :
  exists w' r, sample_call quiet_env MatchRunModeDryRun = (w', r) /\ is_Ok r = true /\
    exists run, MR_Mode run = MatchRunModeDryRun /\ W_db w' = set_runs <[MR_ID run := run]> sample_db.
Proof.
  pose proof sample_call_dry as Hs.
  destruct (sample_call quiet_env MatchRunModeDryRun) as [w' r] eqn:E. unfold sample_call in E. injection Hs as Hruns Hok _.
  exists w', r. split; [reflexivity|]. split; [exact Hok|].
  destruct (RunMatch_atomic (A:=model_assert) (AL:=model_assert_laws) (N:=model_unicode) (F:=model_fmt) (V:=quiet_env)
    (TL:=model_error_text_laws) sample_uc (sample_input MatchRunModeDryRun) sample_world w' r eq_refl E
    (or_intror eq_refl)) as (_ & [H|(run & _ & _ & Hm & H)]).
  - cbn in Hruns. rewrite H in Hruns. vm_compute in Hruns. discriminate Hruns.
  - exists run. split; [exact Hm|exact H].
Defined.

(** The whole call, cancelled from a step on: before the run object is
    completed, after it, and after the commit. *)
Example sample_call_cancelled :
  call_summary (sample_call (cancelled_env 24) MatchRunModeCommit) =
    (["FAILED"], false, [("r1", "UNMATCHED"); ("l1", "UNMATCHED"); ("l2", "UNMATCHED")]) /\
  call_summary (sample_call (cancelled_env 25) MatchRunModeCommit) =
    (["PROCESSING"], false, [("r1", "UNMATCHED"); ("l1", "UNMATCHED"); ("l2", "UNMATCHED")]) /\
  call_summary (sample_call (cancelled_env 29) MatchRunModeCommit) =
    (["COMPLETED"], true, [("r1", "MATCHED"); ("l1", "MATCHED"); ("l2", "UNMATCHED")]).
Proof. vm_compute. auto. Qed.

(** With the lock lost from step 14 on, inside the commit. *)
Definition unlocked_env : Env model_uuid := model_env never never (fun n => 14 <=? n)%nat.

Lemma sample_call_unlocked :
  MR_Status <$> DB_runs (W_db (sample_call unlocked_env MatchRunModeCommit).1) !! "id0" = Some "FAILED".
Proof. vm_compute. reflexivity. Qed.

Lemma RunMatch_run_ends_witness :
  exists w' r row, sample_call unlocked_env MatchRunModeCommit = (w', r) /\
    DB_runs (W_db w') !! "id0" = Some row /\ MR_Status row = "FAILED" /\ is_Ok r = false /\
    exists reason, MR_FailureReason row = Some reason /\ reason <> "".
Proof.
  pose proof sample_call_unlocked as Hs.
  destruct (sample_call unlocked_env MatchRunModeCommit) as [w' r] eqn:E. unfold sample_call in E. cbn [fst] in Hs.
  apply fmap_Some in Hs as (row & Er & Hst). symmetry in Hst.
  exists w', r, row. split; [reflexivity|]. split; [exact Er|]. split; [exact Hst|].
  destruct (RunMatch_run_ends (A:=model_assert) (AL:=model_assert_laws) (N:=model_unicode) (F:=model_fmt)
    (V:=unlocked_env) (TL:=model_error_text_laws) sample_uc (sample_input MatchRunModeCommit) sample_world w' r "id0" row
    eq_refl E ltac:(done) eq_refl Er) as [(H & _)|[(_ & H1 & _ & H2)|(H & _)]];
    [rewrite Hst in H; discriminate H|split; [exact H1|exact H2]|rewrite Hst in H; discriminate H].
Defined.
(** A commit of [l1] with [r1], begun by a started run. *)
Definition started_sample : @MatchRun model_uuid :=
  mkMatchRun (U:=model_uuid) "run" "ctx" MatchRunModeCommit MatchRunStatusProcessing 0 None ∅ None 0 0.
Definition started_world : @World model_uuid model_decimal :=
  mkWorld (U:=model_uuid) (D:=model_decimal) (set_runs <["run" := started_sample]> sample_db) None 1 0 (Some started_sample).
Definition sample_result : @matchExecutionResult model_uuid model_decimal :=
  mkMatchExecutionResult (U:=model_uuid) (D:=model_decimal) [] [] ["l1"; "r1"] [] ["l2"] ∅ ∅ ∅.

Lemma started_world_ok : started started_sample sample_db started_world.
Proof. by split. Qed.

Definition sample_stored (env : Env model_uuid) :=
  (_ ← io_check env_lockLost ErrLockRefreshFailed;
   persistMatchArtifacts (A:=model_assert) (N:=model_unicode) (F:=model_fmt) (V:=env) (O:=model_outbox) sample_uc
     started_sample sample_result None) (begin_tx (tick (tick started_world))).

Lemma sample_stored_steps : (is_Ok (sample_stored (cancelled_env 7)).2, W_step (sample_stored (cancelled_env 7)).1) = (true, 6%nat).
Proof. vm_compute. reflexivity. Qed.

(** The request is cancelled when the run is updated. *)
Lemma commitMatchResults_stuck_witness :
  exists w', commitMatchResults (A:=model_assert) (N:=model_unicode) (F:=model_fmt) (V:=cancelled_env 7)
      (T:=model_error_text) (O:=model_outbox) sample_uc started_sample sample_result None started_world =
      (w', Err (ErrMarkRunFailed ErrMatchRunMustBeProcessingToFail)) /\
    W_db w' = W_db started_world /\ DB_runs (W_db w') !! "run" = Some started_sample.
Proof.
  pose proof sample_stored_steps as Hs. destruct (sample_stored (cancelled_env 7)) as [wp [fvs|e]] eqn:E; [|discriminate Hs].
  injection Hs as Hs. unfold sample_stored in E.
  pose proof (commitMatchResults_stuck (A:=model_assert) (AL:=model_assert_laws) (N:=model_unicode) (F:=model_fmt)
    (V:=cancelled_env 7) (TL:=model_error_text_laws) sample_uc started_sample sample_result None sample_db started_world wp fvs
    started_world_ok eq_refl eq_refl E) as H.
  destruct (commitMatchResults _ _ _ _ started_world) as [w' [x|e]].
  - destruct H as [H _]. exfalso. apply H. exists 7%nat. rewrite Hs. split; [lia|]. by right.
  - destruct H as (_ & -> & H1 & H2 & _). exists w'. split; [reflexivity|]. split; [exact H1|exact H2].
Defined.
