(* ===== verification/RunSettles.v ===== *)
(** * How a committed run settles its candidates

    The composition of the whole matching pipeline on the database: the
    listing of candidates (Store.v), preparation (RunPrepare.v), the engine
    and the processing of its proposals (RunExecute.v), and the commit
    (RunMatch.v, RunOutcome.v). *)
From S2P Require Import GoLib GoLibModel FeeStructure FeeSchedule FeeRules MatchTypes Evaluators.
From S2P Require Import Confidence Allocate Engine MatchEntities Transaction RuleDecode RunPrepare.
From S2P Require Import RunExecute Events Severity Store FeeFindings RunMatch RunOutcome.

Section settles.
  Context {U : UUIDLib} {D : DecimalLib} {L : DecimalLaws D} {A : AssertLib} {AL : AssertLaws A} {N : UnicodeLib}
    {F : FmtLib} {V : Env U} {T : ErrorText} {TL : ErrorTextLaws T} {O : OutboxLib U}.
  Variable uc : Collaborators.

(** Rows are keyed by their identifier, which is never nil. *)
Record db_wf (d : DB) : Prop := {
  dw_keyed : keyed (DB_txs d);
  dw_nil : DB_txs d !! uuid_Nil = None;
}.

(** ** The candidates *)
Lemma keyed_ids (m : gmap uuid Transaction) : keyed m -> TX_ID <$> (map_to_list m).*2 = (map_to_list m).*1.
Proof.
  intros Hk. rewrite <- list_fmap_compose. apply list_fmap_ext. intros i [id t] Hi. cbn. apply (Hk id t).
  apply elem_of_map_to_list. eapply list_elem_of_lookup_2, Hi.
Qed.

Lemma run_candidates_row input d t :
  keyed (DB_txs d) -> t ∈ run_candidates uc input d ->
  DB_txs d !! TX_ID t = Some t /\ source_in_context d (IN_ContextID input) t = true.
Proof.
  unfold run_candidates, buildUnmatchedByContextQuery. intros Hk Ht%elem_of_take.
  destruct Ht as (i & Ht & _). apply list_elem_of_lookup_2 in Ht. rewrite drop_0, stable_sort_elem_of in Ht.
  apply list_elem_of_filter in Ht as [Hrow Ht]. apply list_elem_of_fmap in Ht as ([id t'] & -> & Ht).
  apply elem_of_map_to_list in Ht. cbn in *. rewrite (Hk id t' Ht). split; [done|].
  unfold unmatched_row in Hrow. rewrite !andb_true_iff in Hrow. tauto.
Qed.

Lemma run_candidates_NoDup input d : keyed (DB_txs d) -> NoDup (TX_ID <$> run_candidates uc input d).
Proof.
  intros Hk. unfold run_candidates, buildUnmatchedByContextQuery. rewrite drop_0.
  eapply sublist_NoDup; [|apply fmap_sublist, sublist_take]. rewrite stable_sort_perm.
  eapply sublist_NoDup; [|apply fmap_sublist, sublist_filter]. rewrite keyed_ids by done. apply NoDup_fst_map_to_list.
Qed.

Lemma loaded_candidates input d mrc :
  loaded uc input d mrc ->
  MRC_contextID mrc = IN_ContextID input /\ keyed (MRC_externalTxByID mrc) /\
  TX_ID <$> run_candidates uc input d ≡ₚ
    MRC_unmatchedIDs mrc ++ tx_ids (MRC_leftCandidates mrc) ++ tx_ids (MRC_rightCandidates mrc).
Proof.
  intros (ctxInfo & sources & rules & H). apply prepareMatchRun_split in H as (Hc & Hk & ext & Hp & Hu).
  split_and!; [done..|]. rewrite Hu. unfold tx_ids. rewrite <- !fmap_app.
  assert (Hid : omap id (Some <$> run_candidates uc input d) = run_candidates uc input d).
  { generalize (run_candidates uc input d) as l. induction l as [|t l IH]; [done|]. cbn. by f_equal. }
  rewrite Hid in Hp. rewrite Hp. apply fmap_Permutation. solve_Permutation.
Qed.

(** ** The commit *)
Inductive candidate_settled (groups : list MatchGroup) (d' : DB) (t : Transaction) : Prop :=
| settled_unmatched :
    DB_txs d' !! TX_ID t = Some t -> is_Some (DB_exceptions d' !! TX_ID t) ->
    Forall (fun g => TX_ID t ∉ group_ids g) groups -> candidate_settled groups d' t
| settled_matched now g :
    DB_txs d' !! TX_ID t = Some (set_status "MATCHED" now t) ->
    g ∈ groups -> MG_Status g = MatchGroupStatusConfirmed -> TX_ID t ∈ group_ids g ->
    Forall (fun g => MG_Status g = MatchGroupStatusProposed -> TX_ID t ∉ group_ids g) groups ->
    candidate_settled groups d' t
| settled_pending now g :
    DB_txs d' !! TX_ID t = Some (set_status "PENDING_REVIEW" now t) ->
    g ∈ groups -> MG_Status g = MatchGroupStatusProposed -> TX_ID t ∈ group_ids g ->
    candidate_settled groups d' t.

Lemma group_ids_elem groups id :
  id ∈ item_ids (concat (MG_Items <$> groups)) <-> exists g, g ∈ groups /\ id ∈ group_ids g.
Proof.
  unfold item_ids, group_ids. rewrite list_elem_of_fmap. setoid_rewrite elem_of_concat_fmap.
  setoid_rewrite list_elem_of_fmap. naive_solver.
Qed.

Lemma auto_ids_elem groups id :
  Forall (fun g => MG_Status g = auto_status g) groups ->
  id ∈ auto_ids groups <-> exists g, g ∈ groups /\ MG_Status g = MatchGroupStatusConfirmed /\ id ∈ group_ids g.
Proof.
  intros Hst. unfold auto_ids. rewrite elem_of_concat_fmap. setoid_rewrite list_elem_of_filter.
  split; intros (g & H); exists g; rewrite Forall_forall in Hst; destruct H as (H1 & H2);
    [destruct H1 as [H1 H3]|destruct H2 as [H2 H3]]; specialize (Hst g ltac:(done)); unfold auto_status in Hst;
    destruct (CanAutoConfirm (Some g)); try done; rewrite Hst in H2; discriminate H2.
Qed.

Lemma pending_ids_elem groups id :
  Forall (fun g => MG_Status g = auto_status g) groups ->
  id ∈ pending_ids groups <-> exists g, g ∈ groups /\ MG_Status g = MatchGroupStatusProposed /\ id ∈ group_ids g.
Proof.
  intros Hst. unfold pending_ids. rewrite elem_of_concat_fmap. setoid_rewrite list_elem_of_filter.
  split; intros (g & H); exists g; rewrite Forall_forall in Hst; destruct H as (H1 & H2);
    [destruct H1 as [H1 H3]|destruct H2 as [H2 H3]]; specialize (Hst g ltac:(done)); unfold auto_status in Hst;
    destruct (CanAutoConfirm (Some g)); try done; rewrite Hst in H2; discriminate H2.
Qed.

(** The status of a row after the two updates of a commit. *)
Lemma art_txs_lookup run r fee d d' id t :
  artifacts run r fee d d' -> DB_txs d !! id = Some t -> source_in_context d (MR_ContextID run) t = true ->
  exists now, DB_txs d' !! id = Some
    (if bool_decide (id ∈ MER_pendingReviewIDs r) then set_status "PENDING_REVIEW" now t
     else if bool_decide (id ∈ MER_autoMatchedIDs r) then set_status "MATCHED" now t else t).
Proof.
  intros Hart Ht Hs. destruct (art_txs _ _ _ _ _ Hart) as (now1 & now2 & ->).
  rewrite !mark_txs_lookup, Ht. cbn. rewrite Hs, !andb_true_r.
  destruct (bool_decide (id ∈ MER_autoMatchedIDs r)); cbn.
  - change (source_in_context d (MR_ContextID run) (set_status "MATCHED" now1 t))
      with (source_in_context d (MR_ContextID run) t). rewrite Hs, andb_true_r.
    case_bool_decide; [by exists now2|by exists now1].
  - rewrite Hs, andb_true_r. case_bool_decide; by exists now2.
Qed.

Lemma art_txs_other run r fee d d' id :
  artifacts run r fee d d' -> id ∉ MER_pendingReviewIDs r -> id ∉ MER_autoMatchedIDs r ->
  DB_txs d' !! id = DB_txs d !! id.
Proof.
  intros Hart Hp Ha. destruct (art_txs _ _ _ _ _ Hart) as (now1 & now2 & ->). rewrite !mark_txs_lookup.
  rewrite !bool_decide_eq_false_2 by done. cbn. by destruct (DB_txs d !! id).
Qed.

Lemma exceptions_grown_row inputs now rules old new id :
  exceptions_grown inputs now rules old new -> id ∈ (ETI_TransactionID <$> inputs) -> id <> uuid_Nil ->
  is_Some (new !! id).
Proof.
  intros [_ Ha _ _] (input & -> & Hin)%list_elem_of_fmap Hn. rewrite Forall_forall in Ha.
  destruct (Ha input Hin Hn) as (row & -> & _). done.
Qed.

Lemma add_groups_lookup groups m id :
  NoDup (MG_ID <$> groups) ->
  (forall g, g ∈ groups -> add_groups groups m !! MG_ID g = Some (group_row g)) /\
  (id ∉ (MG_ID <$> groups) -> add_groups groups m !! id = m !! id).
Proof.
  unfold add_groups. induction groups as [|g groups IH] using rev_ind; intros Hnd.
  { split; [set_solver|done]. }
  rewrite fmap_app in Hnd. apply NoDup_app in Hnd as (Hnd & Hd & _). destruct (IH Hnd) as [IH1 IH2]. split.
  - intros g' [Hin|Hin]%elem_of_app; rewrite foldl_snoc.
    + rewrite lookup_insert_ne; [by apply IH1|]. intros E. apply (Hd (MG_ID g')); [apply list_elem_of_fmap; eauto|].
      cbn. rewrite E. left.
    + apply list_elem_of_singleton in Hin as ->. by rewrite lookup_insert_eq.
  - rewrite fmap_app, elem_of_app. cbn. rewrite list_elem_of_singleton. intros Hn. rewrite foldl_snoc, lookup_insert_ne.
    + apply IH2. tauto.
    + intros E. apply Hn. by right.
Qed.

(** What a committed run guarantees of the tables. *)
Record run_settled (input : RunMatchInput) (run : MatchRun) (groups : list MatchGroup) (d d' : DB) : Prop := {
  rs_status : MR_Status run = MatchRunStatusCompleted;
  rs_run : DB_runs d !! MR_ID run = None /\ DB_runs d' = <[MR_ID run := run]> (DB_runs d);
  rs_candidates : Forall (candidate_settled groups d') (run_candidates uc input d);
  rs_txs : forall id, id ∉ (TX_ID <$> run_candidates uc input d) -> DB_txs d' !! id = DB_txs d !! id;
  rs_members : forall g id, g ∈ groups -> id ∈ group_ids g -> id ∈ (TX_ID <$> run_candidates uc input d);
  rs_groups : forall g, g ∈ groups -> DB_groups d !! MG_ID g = None /\ DB_groups d' !! MG_ID g = Some (group_row g);
  rs_groups_other : forall id, id ∉ (MG_ID <$> groups) -> DB_groups d' !! id = DB_groups d !! id;
  rs_items : DB_items d' = DB_items d ++ concat (MG_Items <$> groups);
  rs_outbox : exists entries, DB_outbox d' = DB_outbox d ++ entries /\
    Forall2 confirmed_entry (filter (fun g => MG_Status g = MatchGroupStatusConfirmed) groups) entries;
}.

Lemma commit_settles input mrc run er d d' :
  db_wf d -> loaded uc input d mrc -> MR_ContextID run = IN_ContextID input ->
  executed uc mrc run er -> artifacts run er (Some (feeInputOf mrc er)) d d' ->
  Forall (candidate_settled (MER_groups er) d') (run_candidates uc input d) /\
  (forall id, id ∉ (TX_ID <$> run_candidates uc input d) -> DB_txs d' !! id = DB_txs d !! id) /\
  (forall g id, g ∈ MER_groups er -> id ∈ group_ids g -> id ∈ (TX_ID <$> run_candidates uc input d)).
Proof.
  intros [Hk Hnil] Hload Hctx (cancelled & Hex) Hart.
  destruct (loaded_candidates _ _ _ Hload) as (_ & Hke & Hperm). pose proof (run_candidates_NoDup input d Hk) as Hnd.
  rewrite Hperm in Hnd. apply executeMatchRules_run in Hex as (result & kept & out & _ & _ & Hx & Hall & _).
  assert (Hst : Forall (fun g => MG_Status g = auto_status g) (MER_groups er)).
  { apply Forall_forall. intros g (p & _ & [])%(Forall2_elem_of_r _ _ _ _ (ex_from _ _ _ _ Hx)). done. }
  assert (Hcand : forall id, id ∈ item_ids (MER_items er) -> id ∈ (TX_ID <$> run_candidates uc input d)).
  { intros id Hid. rewrite Hperm, !elem_of_app. right. by apply (item_ids_candidates _ _ _ _ Hx). }
  assert (Hitems : forall id, id ∈ item_ids (MER_items er) <-> id ∈ MER_autoMatchedIDs er \/ id ∈ MER_pendingReviewIDs er).
  { intros id. rewrite (ex_items _ _ _ _ Hx), <- auto_pending_perm, elem_of_app.
    by rewrite (ex_auto _ _ _ _ Hx), (ex_pending _ _ _ _ Hx). }
  split_and!.
  - apply Forall_forall. intros t Ht. destruct (run_candidates_row _ _ _ Hk Ht) as [Hrow Hsrc].
    rewrite <- Hctx in Hsrc. destruct (art_txs_lookup _ _ _ _ _ _ _ Hart Hrow Hsrc) as (now & Hnew).
    case_bool_decide as Hp; [|case_bool_decide as Ha].
    + rewrite (ex_pending _ _ _ _ Hx) in Hp. apply pending_ids_elem in Hp as (g & ? & ? & ?); [|done].
      by eapply settled_pending.
    + rewrite (ex_auto _ _ _ _ Hx) in Ha. apply auto_ids_elem in Ha as (g & ? & ? & ?); [|done].
      eapply settled_matched; try done. apply Forall_forall. intros g' Hg' Hs' Hin. apply Hp.
      rewrite (ex_pending _ _ _ _ Hx). apply pending_ids_elem; [done|eauto].
    + assert (Hni : TX_ID t ∉ item_ids (MER_items er)) by (rewrite Hitems; tauto).
      apply settled_unmatched; [done| |].
      * destruct (art_findings _ _ _ _ _ Hart) as (f & mid & now1 & now2 & _ & _ & Hg1 & Hg2).
        assert (Hun : TX_ID t ∈ MER_unmatchedIDs er).
        { rewrite (unmatched_elem _ _ _ _ Hx Hnd). assert (Hin : TX_ID t ∈ (TX_ID <$> run_candidates uc input d))
            by (apply list_elem_of_fmap; eauto). rewrite Hperm, !elem_of_app in Hin. tauto. }
        destruct (exceptions_grown_row _ _ _ _ _ (TX_ID t) Hg1) as [row Hr].
        -- unfold buildExceptionInputs. rewrite buildExceptionInputs_loop_ids; [done| | |set_solver].
           ++ cbn. rewrite Hall. apply mergeTransactionMaps_keyed.
              repeat constructor; try apply indexTransactions_keyed; done.
           ++ by apply (unmatched_NoDup _ _ _ _ Hx).
        -- intros E. rewrite E in Hrow. congruence.
        -- destruct (eg_kept _ _ _ _ _ Hg2 _ _ Hr) as (row' & -> & _). done.
      * apply Forall_forall. intros g Hg Hin. apply Hni. rewrite (ex_items _ _ _ _ Hx). apply group_ids_elem. eauto.
  - intros id Hid. eapply art_txs_other; [exact Hart|..]; intros Hin; apply Hid, Hcand, Hitems; tauto.
  - intros g id Hg Hin. apply Hcand. rewrite (ex_items _ _ _ _ Hx). apply group_ids_elem. eauto.
Qed.

Lemma empty_settles input mrc d d' new now :
  db_wf d -> loaded uc input d mrc -> DB_txs d' = DB_txs d -> DB_exceptions d' = new ->
  exceptions_grown (empty_exceptions mrc) now (DefaultSeverityRules []) (DB_exceptions d) new ->
  Forall (candidate_settled [] d') (run_candidates uc input d).
Proof.
  intros [Hk Hnil] Hload Htx <- Hg. destruct (loaded_candidates _ _ _ Hload) as (_ & Hke & Hperm).
  pose proof (run_candidates_NoDup input d Hk) as Hnd. rewrite Hperm in Hnd.
  apply Forall_forall. intros t Ht. destruct (run_candidates_row _ _ _ Hk Ht) as [Hrow _].
  apply settled_unmatched; [by rewrite Htx| |constructor]. eapply exceptions_grown_row; [exact Hg| |].
  - assert (Hfil : forall txs, collectUnmatched txs ∅ = tx_ids txs).
    { intros txs. rewrite collectUnmatched_filter. induction (tx_ids txs) as [|x l IH]; [done|].
      rewrite filter_cons_True by apply not_elem_of_empty. by f_equal. }
    unfold empty_exceptions, buildExceptionInputs. rewrite !Hfil, buildExceptionInputs_loop_ids; [| | |set_solver].
    + assert (Hin : TX_ID t ∈ (TX_ID <$> run_candidates uc input d)) by (apply list_elem_of_fmap; eauto).
      rewrite Hperm in Hin. set_solver.
    + apply mergeTransactionMaps_keyed. repeat constructor; try apply indexTransactions_keyed; done.
    + rewrite app_assoc, Permutation_app_comm. done.
  - intros E. rewrite E in Hrow. congruence.
Qed.

(** C1: a committed run settles every candidate exactly one way: it is in a
    confirmed group and marked MATCHED, or in a proposed group and marked
    PENDING_REVIEW, or in no group, unchanged, and on record as an exception.
    No other transaction changes, groups hold candidates only, the groups and
    items returned are the rows added, each confirmed group has one outbox
    event, and the run's row says COMPLETED. *)
Theorem RunMatch_settles input w w' run groups :
  W_tx w = None -> db_wf (W_db w) -> IN_Mode input = MatchRunModeCommit ->
  RunMatch uc input w = (w', Ok (run, groups)) ->
  run_settled input run groups (W_db w) (W_db w').
Proof.
  intros Htx Hwf Hm E. pose proof (RunMatch_outcome uc input w Htx) as H. rewrite E in H.
  destruct H as (_ & _ & mrc & Hload & Hok).
  destruct Hok as [r er now _ Hd|r er x Hn _ Hex Hc|r now new Hn _ Hdb Hg _];
    [rewrite Hm in Hd; discriminate Hd|..].
  - destruct Hn as (_ & Hctx & _ & _ & Hfresh). destruct Hc as (now & d1 & -> & Hart & _ & Hdb).
    destruct (commit_settles input mrc r er _ d1 Hwf Hload Hctx Hex Hart) as (H1 & H2 & H3).
    destruct (art_groups_new _ _ _ _ _ Hart) as [Hnd Hnew]. rewrite Hdb. split; cbn; try done.
    + by rewrite (art_runs _ _ _ _ _ Hart).
    + eapply Forall_impl; [exact H1|]. intros t []; [by eapply settled_unmatched|by eapply settled_matched|
        by eapply settled_pending].
    + intros g Hg. rewrite Forall_forall in Hnew. split; [by apply Hnew|]. rewrite (art_groups _ _ _ _ _ Hart).
      by apply (add_groups_lookup _ _ uuid_Nil Hnd).
    + intros id Hid. rewrite (art_groups _ _ _ _ _ Hart). by apply add_groups_lookup.
    + destruct Hex as (cancelled & (_ & kept & out & _ & _ & Hx & _)%executeMatchRules_run).
      rewrite (art_items _ _ _ _ _ Hart), (ex_items _ _ _ _ Hx). case_bool_decide as Enil; [by rewrite Enil|done].
    + apply Hart.
  - destruct Hn as (_ & _ & _ & _ & Hfresh). destruct (Hg Hm) as (now' & Hgrown).
    rewrite Hdb. split; cbn; try done; [by eapply empty_settles|set_solver|set_solver|by rewrite app_nil_r|].
    exists []. split; [by rewrite app_nil_r|constructor].
Qed.
End settles.

Lemma sample_call_commit :
  call_summary (sample_call quiet_env MatchRunModeCommit) =
  (["COMPLETED"], true, [("r1", "MATCHED"); ("l1", "MATCHED"); ("l2", "UNMATCHED")]).
Proof. vm_compute. reflexivity. Qed.

Lemma sample_db_wf : db_wf sample_db.
Proof.
  split; [|vm_compute; reflexivity]. unfold keyed, sample_db. cbn.
  repeat (apply map_Forall_insert_2; [reflexivity|]). apply map_Forall_empty.
Qed.

Lemma RunMatch_settles_witness :
  exists w' run groups, sample_call quiet_env MatchRunModeCommit = (w', Ok (run, groups)) /\
    Forall (candidate_settled groups (W_db w'))
      (run_candidates sample_uc (sample_input MatchRunModeCommit) sample_db) /\
    MR_Status run = MatchRunStatusCompleted.
Proof.
  pose proof sample_call_commit as Hs.
  destruct (sample_call quiet_env MatchRunModeCommit) as [w' [[run groups]|e]] eqn:E; [|discriminate Hs].
  unfold sample_call in E. exists w', run, groups. split; [reflexivity|].
  destruct (RunMatch_settles (L:=model_decimal_laws) (A:=model_assert) (AL:=model_assert_laws) (N:=model_unicode)
    (F:=model_fmt) (V:=quiet_env) (TL:=model_error_text_laws) sample_uc (sample_input MatchRunModeCommit) sample_world
    w' run groups eq_refl sample_db_wf eq_refl E) as [Hst _ Hc _ _ _ _ _ _].
  split; [exact Hc|exact Hst].
Defined.
