(* ===== verification/ManualMatch.v ===== *)
(** * Matching by hand and undoing a match

    Models internal/matching/services/command/match_group_manual_commands.go
    ([ManualMatch]) and match_group_unmatch_commands.go ([Unmatch]) over the
    database of Store.v.  [ManualMatch] is its two phases: the checks and
    reads, outside any transaction, and the transaction that writes; the
    phases of concurrent calls may interleave.  Metrics, traces and streaming
    events are left out. *)
From S2P Require Import GoLib GoLibModel FeeStructure FeeSchedule FeeRules MatchTypes Evaluators.
From S2P Require Import Confidence Allocate Engine MatchEntities Transaction RuleDecode RunPrepare.
From S2P Require Import RunExecute Events Severity Store FeeFindings RunMatch RunOutcome RunSettles.

Definition minManualMatchTransactions : nat := 2.
Definition manualMatchConfidence : Z := 100.

Section manual.
  Context {U : UUIDLib} {D : DecimalLib} {A : AssertLib} {N : UnicodeLib} {F : FmtLib} {V : Env U} {O : OutboxLib U}.

Record ManualMatchInput : Type := mkManualMatchInput {
  MM_TenantID : uuid;
  MM_ContextID : uuid;
  MM_TransactionIDs : list uuid;
  MM_Notes : string;
}.

Record UnmatchInput : Type := mkUnmatchInput {
  UM_TenantID : uuid;
  UM_ContextID : uuid;
  UM_MatchGroupID : uuid;
  UM_Reason : string;
}.

Variable uc : Collaborators.

(** ** Checks *)
Fixpoint no_duplicates (seen : gset uuid) (ids : list uuid) : bool :=
  match ids with
  | [] => true
  | id :: ids' => negb (bool_decide (id ∈ seen)) && no_duplicates ({[id]} ∪ seen) ids'
  end.

Definition validateManualMatchInput (input : ManualMatchInput) : res CmdError unit :=
  _ ← ensure (negb (bool_decide (MM_TenantID input = uuid_Nil))) ErrTenantIDRequired;
  _ ← ensure (negb (bool_decide (MM_ContextID input = uuid_Nil))) (ErrRun ErrRunMatchContextIDRequired);
  _ ← ensure (negb (length (MM_TransactionIDs input) <? minManualMatchTransactions)%nat) ErrMinimumTransactionsRequired;
  ensure (no_duplicates ∅ (MM_TransactionIDs input)) ErrDuplicateTransactionIDs.

(** [rawTenantID] is the tenant in the request's context, when there is one. *)
Definition validateTenantFromContext (rawTenantID : option string) (tenantID : uuid) : res CmdError unit :=
  _ ← ensure (negb (bool_decide (tenantID = uuid_Nil))) ErrTenantIDRequired;
  let ctxTenantID := strings_TrimSpace (default "" rawTenantID) in
  if string_empty ctxTenantID then Ok tt
  else match uuid_Parse ctxTenantID with
       | None => Err ErrTenantIDRequired
       | Some ctxTenant => ensure (bool_decide (tenantID = ctxTenant)) ErrTenantIDMismatch
       end.

Definition validateTenantFromContextStrict (tenantID : uuid) : res CmdError unit :=
  _ ← ensure (negb (bool_decide (tenantID = uuid_Nil))) ErrTenantIDRequired;
  let ctxTenantID := strings_TrimSpace (UC_tenant uc) in
  let ctxTenantID := if string_empty ctxTenantID then strings_TrimSpace (UC_defaultTenant uc) else ctxTenantID in
  _ ← ensure (negb (string_empty ctxTenantID)) ErrTenantIDRequired;
  match uuid_Parse ctxTenantID with
  | None => Err ErrTenantIDRequired
  | Some ctxTenant => ensure (bool_decide (tenantID = ctxTenant)) ErrTenantIDMismatch
  end.

(** ** [ManualMatch]: the reads *)
Definition checkManualTransactions (input : ManualMatchInput) (transactions : list Transaction) : res CmdError unit :=
  _ ← ensure (length transactions =? length (MM_TransactionIDs input))%nat ErrTransactionNotFound;
  _ ← ensure (forallb (fun t => bool_decide (TX_Status t = "UNMATCHED")) transactions) ErrTransactionNotUnmatched;
  let uniqueSources := list_to_set (C:=gset uuid) (TX_SourceID <$> transactions) in
  ensure (negb (size uniqueSources <? minManualMatchTransactions)%nat) ErrManualMatchSourcesNotDiverse.

Definition manualMatchRead (rawTenantID : option string) (input : ManualMatchInput) : io (list Transaction) :=
  _ ← st_lift (validateManualMatchInput input);
  _ ← st_lift (validateTenantFromContext rawTenantID (MM_TenantID input));
  ctxInfo ← st_lift (map_err (fun _ => ErrCmdContextNotFound) (UC_findContext uc (MM_TenantID input) (MM_ContextID input)));
  _ ← st_lift (match ctxInfo with
               | None => Err ErrCmdContextNotFound
               | Some info => ensure (RCI_Active info) ErrCmdContextNotActive
               end);
  transactions ← FindByContextAndIDs (MM_ContextID input) (MM_TransactionIDs input);
  _ ← st_lift (checkManualTransactions input transactions);
  mret transactions.

(** ** [ManualMatch]: the transaction *)
Definition manualAmount (t : Transaction) : decimal :=
  match TX_AmountBase t with
  | Some base => if dec_IsZero base then TX_Amount t else base
  | None => TX_Amount t
  end.
Definition manualCurrency (t : Transaction) : string :=
  match TX_BaseCurrency t with
  | Some currency => if string_empty currency then TX_Currency t else currency
  | None => TX_Currency t
  end.

Fixpoint manualItems (transactions : list Transaction) : io (list MatchItem) :=
  match transactions with
  | [] => mret []
  | t :: rest =>
      id ← io_fresh;
      item ← st_lift (map_err ErrMatch
        (NewMatchItem id.1 id.2 (TX_ID t) (manualAmount t) (manualCurrency t) (manualAmount t)));
      items ← manualItems rest;
      mret (item :: items)
  end.

(** A method call on an object only the command holds. *)
Definition io_method {S} (method : Time -> st S MatchError unit) (s : S) : io S :=
  now ← io_now;
  match method now s with
  | (s', Ok _) => mret s'
  | (_, Err e) => io_fail (ErrMatch e)
  end.

(** The group takes over the items: it writes its identifier into them. *)
Definition manualGroup (contextID runID : uuid) (items : list MatchItem) : io MatchGroup :=
  confidence ← st_lift (map_err (fun _ => ErrConfidenceScore) (ParseConfidenceScore manualMatchConfidence));
  id ← io_fresh;
  group ← st_lift (map_err ErrMatch (NewMatchGroup id.1 id.2 contextID runID uuid_Nil confidence (Some <$> items)));
  io_method MatchGroup_Confirm group.

Definition with_items (items : list MatchItem) (g : MatchGroup) : MatchGroup :=
  mkMatchGroup (MG_ID g) (MG_ContextID g) (MG_RunID g) (MG_RuleID g) (MG_Confidence g) (MG_Status g) items
    (MG_CreatedAt g) (MG_UpdatedAt g) (MG_RejectedReason g) (MG_ConfirmedAt g).

Definition persistManualGroup (group : MatchGroup) : io MatchGroup :=
  createdGroups ← matchGroupRepo_CreateBatchWithTx [group];
  match createdGroups with
  | [] => io_fail ErrManualMatchNoGroupCreated
  | created :: _ => mret (with_items (MG_Items group) created)
  end.

Definition manualStats (input : ManualMatchInput) : gmap string Z :=
  <["match_groups" := 1%Z]> (<["matched_transactions" := count (MM_TransactionIDs input)]> ∅).

Definition manualMatchBody (input : ManualMatchInput) (transactions : list Transaction) (run : MatchRun) : io MatchGroup :=
  createdRun ← matchRunRepo_CreateWithTx run;
  items ← manualItems transactions;
  newGroup ← manualGroup (MM_ContextID input) (MR_ID createdRun) items;
  createdGroup ← persistManualGroup newGroup;
  _ ← matchItemRepo_CreateBatchWithTx (MG_Items createdGroup);
  _ ← MarkMatchedWithTx (MM_ContextID input) (MM_TransactionIDs input);
  completed ← io_method (MatchRun_Complete (Some (manualStats input))) createdRun;
  _ ← matchRunRepo_UpdateWithTx completed;
  _ ← enqueueMatchConfirmedEvents uc [createdGroup];
  mret createdGroup.

Definition manualMatchWrite (input : ManualMatchInput) (transactions : list Transaction) : io MatchGroup :=
  id ← io_fresh;
  run ← st_lift (map_err ErrMatch (NewMatchRun id.1 id.2 (MM_ContextID input) MatchRunModeCommit));
  WithTx false (manualMatchBody input transactions run).

Definition ManualMatch (rawTenantID : option string) (input : ManualMatchInput) : io MatchGroup :=
  transactions ← manualMatchRead rawTenantID input;
  manualMatchWrite input transactions.

(** ** [Unmatch] *)
Definition validateUnmatchInput (input : UnmatchInput) : res CmdError unit :=
  _ ← ensure (negb (bool_decide (UM_TenantID input = uuid_Nil))) ErrTenantIDRequired;
  _ ← ensure (negb (bool_decide (UM_ContextID input = uuid_Nil))) ErrUnmatchContextIDRequired;
  _ ← ensure (negb (bool_decide (UM_MatchGroupID input = uuid_Nil))) ErrUnmatchMatchGroupIDRequired;
  ensure (negb (string_empty (UM_Reason input))) ErrUnmatchReasonRequired.

Definition loadMatchGroup (contextID matchGroupID : uuid) : io MatchGroup := fun w =>
  match matchGroupRepo_FindByID contextID matchGroupID w with
  | (w', Err ErrNoRows) => (w', Err ErrMatchGroupNotFound)
  | out => out
  end.

Definition rejectOrRevokeGroup (group : MatchGroup) (reason : string) (wasConfirmed : bool) : io MatchGroup :=
  changed ← io_method (if wasConfirmed then MatchGroup_Revoke reason else MatchGroup_Reject reason) group;
  matchGroupRepo_UpdateWithTx changed.

Definition revertTransactionStatuses (contextID matchGroupID : uuid) : io unit :=
  items ← matchItemRepo_ListByMatchGroupID matchGroupID;
  if bool_decide (items = []) then mret tt
  else MarkUnmatchedWithTx contextID (MI_TransactionID <$> items).

Definition unmatchOutboxEvent (group : MatchGroup) (reason : string) : res CmdError OutboxEvent :=
  let tenantIDStr := if string_empty (UC_tenant uc) then UC_defaultTenant uc else UC_tenant uc in
  match uuid_Parse tenantIDStr with
  | None => Err ErrTenantIDRequired
  | Some tenantUUID =>
      event ← map_err ErrEvent
        (NewMatchUnmatchedEvent tenantUUID (UC_tenantSlug uc) (Some group) reason (MG_UpdatedAt group));
      let '(truncatedIDs, originalCount) :=
        TruncateIDListIfTooLarge (UE_TransactionIDs event)
          (outbox_DefaultMaxPayloadBytes - matchEventEnvelopeHeadroomBytes) in
      let event :=
        if negb (length truncatedIDs =? originalCount)%nat
        then mkMatchUnmatchedEvent (UE_EventType event) (UE_TenantID event) (UE_TenantSlug event) (UE_ContextID event)
               (UE_RunID event) (UE_MatchID event) (UE_RuleID event) truncatedIDs originalCount (UE_Reason event)
               (UE_Timestamp event)
        else event in
      let outboxEvent := mkOutboxEvent (UE_EventType event) (UE_MatchID event) (PayloadUnmatched event) in
      _ ← ensure (outbox_accepts outboxEvent) ErrOutboxRejected;
      Ok outboxEvent
  end.

Definition enqueueUnmatchEvent (group : MatchGroup) (reason : string) : io unit :=
  group ← (if bool_decide (MG_Items group = [])
           then items ← matchItemRepo_ListByMatchGroupID (MG_ID group); mret (with_items items group)
           else mret group);
  outboxEvent ← st_lift (unmatchOutboxEvent group reason);
  outboxRepo_CreateWithTx outboxEvent.

Definition unmatchBody (input : UnmatchInput) (group : MatchGroup) : io unit :=
  let wasConfirmed := bool_decide (MG_Status group = MatchGroupStatusConfirmed) in
  updatedGroup ← rejectOrRevokeGroup group (UM_Reason input) wasConfirmed;
  _ ← revertTransactionStatuses (UM_ContextID input) (UM_MatchGroupID input);
  if wasConfirmed then enqueueUnmatchEvent updatedGroup (UM_Reason input) else mret tt.

Definition Unmatch (input : UnmatchInput) : io unit :=
  _ ← st_lift (validateUnmatchInput input);
  _ ← st_lift (validateTenantFromContextStrict (UM_TenantID input));
  group ← loadMatchGroup (UM_ContextID input) (UM_MatchGroupID input);
  WithTx false (unmatchBody input group).
End manual.

(** ** What the transactions do *)
Section specs.
  Context {U : UUIDLib} {D : DecimalLib} {A : AssertLib} {AL : AssertLaws A} {N : UnicodeLib} {F : FmtLib} {V : Env U}
    {O : OutboxLib U}.
  Variable uc : Collaborators.

Lemma no_duplicates_spec seen ids :
  no_duplicates seen ids = true <-> NoDup ids /\ (forall id, id ∈ ids -> id ∉ seen).
Proof.
  revert seen. induction ids as [|id ids IH]; intros seen; cbn.
  - split; [split; [constructor|set_solver]|done].
  - rewrite andb_true_iff, negb_true_iff, bool_decide_eq_false, IH, NoDup_cons. set_solver.
Qed.

Lemma tx_method {S} (method : Time -> st S MatchError unit) (s : S) :
  tx_spec (io_method method s) (fun d d' s' => d' = d /\ exists now, method now s = (s', Ok tt)).
Proof.
  unfold io_method. eapply tx_weaken.
  - tx_bind. instantiate (1 := fun now d d' s' => d' = d /\ method now s = (s', Ok tt)). cbn beta.
    destruct (method x s) as [s' [[]|e]]; [|apply tx_fail].
    eapply tx_weaken; [apply tx_ret|]. by intros d d' y [-> ->].
  - intros d d' y (d1 & now & -> & -> & H). eauto.
Qed.

(** An item of a manual group holds the whole amount of its transaction. *)
Definition item_of (t : Transaction) (i : MatchItem) : Prop :=
  MI_TransactionID i = TX_ID t /\ MI_AllocatedAmount i = manualAmount t /\ MI_ExpectedAmount i = manualAmount t /\
  MI_AllocatedCurrency i = manualCurrency t.

Lemma manualItems_spec ts : tx_spec (manualItems ts) (fun d d' items => d' = d /\ Forall2 item_of ts items).
Proof.
  induction ts as [|t ts IH]; cbn [manualItems].
  - eapply tx_weaken; [apply tx_ret|]. intros d d' x [-> ->]. split; [done|constructor].
  - eapply tx_weaken.
    { tx_bind. tx_bind. eapply tx_bind; [exact IH|intros items; apply tx_ret]. }
    intros d d' x (d1 & id & -> & d2 & i & [-> Hi%map_err_Ok] & d3 & is_ & [-> His] & -> & ->).
    split; [done|]. constructor; [|done]. unfold NewMatchItem, newMatchItem in Hi. by res_inv.
Qed.

Definition manual_group (contextID runID : uuid) (items : list MatchItem) (g : MatchGroup) : Prop :=
  MG_ContextID g = contextID /\ MG_RunID g = runID /\ MG_Status g = MatchGroupStatusConfirmed /\
  MG_Confidence g = mkConfidenceScore manualMatchConfidence /\ is_Some (MG_ConfirmedAt g) /\
  MG_Items g = setMatchGroupID (MG_ID g) <$> items.

Lemma set_items_group newID (items items' : list MatchItem) :
  res_mapM (fun item => match item with
    | Some i => _ ← ensure (assert_NotNil (Some i)) (ErrAssert "match group item"); Ok (setMatchGroupID newID i)
    | None => _ ← ensure (assert_NotNil (@None MatchItem)) (ErrAssert "match group item"); Err (ErrAssert "match group item")
    end) (Some <$> items) = Ok items' -> items' = setMatchGroupID newID <$> items.
Proof.
  revert items'. induction items as [|i items IH]; intros items'; cbn; [by intros [= <-]|].
  intros H. apply res_bind_Ok in H as (y & Hy & H). apply res_bind_Ok in H as (ys & Hys & [= <-]).
  res_inv. f_equal. by apply IH.
Qed.

Lemma manualGroup_spec contextID runID items :
  tx_spec (manualGroup contextID runID items) (fun d d' g => d' = d /\ manual_group contextID runID items g).
Proof.
  unfold manualGroup. eapply tx_weaken.
  { tx_bind. tx_bind. tx_bind. apply tx_method. }
  intros d d' g (d1 & c & [-> Hc%map_err_Ok] & d2 & id & -> & d3 & g0 & [-> Hg%map_err_Ok] & -> & now & Hm).
  split; [done|]. unfold ParseConfidenceScore in Hc. cbn in Hc. injection Hc as <-.
  unfold NewMatchGroup in Hg. res_inv. apply set_items_group in Hx5 as ->.
  unfold MatchGroup_Confirm, st_ensure, st_get, st_modify, st_lift, mbind, st_bind in Hm.
  rewrite assert_NotNil_Some in Hm. cbn in Hm. injection Hm as <-. by split_and!.
Qed.

Lemma MatchGroup_ToEntity_id row g : MatchGroup_ToEntity row = Ok g -> g = with_items [] row.
Proof.
  unfold MatchGroup_ToEntity. intros H. apply res_bind_Ok in H as (c & Hc%map_err_Ok & H). res_inv.
  unfold ParseConfidenceScore in Hc. destruct (_ || _); [done|]. injection Hc as <-.
  by destruct row as [? ? ? ? [?]].
Qed.

Lemma persistManualGroup_spec group :
  tx_spec (persistManualGroup group) (fun d d' g => g = group /\ DB_groups d !! MG_ID group = None /\
    d' = set_groups <[MG_ID group := group_row group]> d).
Proof.
  unfold persistManualGroup, matchGroupRepo_CreateBatchWithTx. rewrite bool_decide_eq_false_2 by done.
  eapply tx_weaken.
  { eapply tx_bind; [apply tx_existing; eapply tx_bind; [apply insertBatch_spec|intros ?; apply tx_sql]|intros groups].
    instantiate (1 := fun groups d d' g => d' = d /\ exists rest g0, groups = g0 :: rest /\ g = with_items (MG_Items group) g0).
    destruct groups; [apply tx_fail|]. eapply tx_weaken; [apply tx_ret|]. intros d d' x [-> ->]. eauto. }
  intros d d' g (d1 & groups & (d2 & _ & (-> & _ & Hn) & Hf) & -> & rest & g0 & -> & ->).
  apply Forall_cons in Hn as [Hn _]. unfold fetchBatch in Hf.
  replace (remove_dups (MG_ID <$> [group])) with [MG_ID group] in Hf
    by (unfold remove_dups; cbn; case_decide as E; [by apply not_elem_of_nil in E|done]).
  unfold add_groups in Hf. cbn in Hf. rewrite lookup_insert_eq in Hf.
  apply res_bind_Ok in Hf as (l & Hl & [= <- ->]). cbn in Hl. res_inv. apply MatchGroup_ToEntity_id in Hx as ->.
  split_and!; [by destruct group|done..].
Qed.

(** The tables after a manual match: one completed run, one confirmed group with
    an item per transaction, the transactions marked, one event. *)
Record manual_matched (input : ManualMatchInput) (ts : list Transaction) (d d' : DB) (g : MatchGroup) : Prop := {
  mm_group : MG_ContextID g = MM_ContextID input /\ MG_Status g = MatchGroupStatusConfirmed;
  mm_groups : DB_groups d !! MG_ID g = None /\ DB_groups d' = <[MG_ID g := group_row g]> (DB_groups d);
  mm_items : DB_items d' = DB_items d ++ MG_Items g /\ Forall2 item_of ts (MG_Items g) /\
    Forall (fun i => MI_MatchGroupID i = MG_ID g) (MG_Items g);
  mm_txs : exists now, DB_txs d' = mark_txs d (MM_ContextID input) (MM_TransactionIDs input) "MATCHED" now (DB_txs d);
  mm_run : exists run, MR_ID run = MG_RunID g /\ MR_Status run = MatchRunStatusCompleted /\
    DB_runs d !! MR_ID run = None /\ DB_runs d' = <[MR_ID run := run]> (DB_runs d);
  mm_outbox : exists entry, DB_outbox d' = DB_outbox d ++ [entry] /\ confirmed_entry g entry;
  mm_rest : (DB_sourceContext d', DB_jobContext d', DB_exceptions d', DB_variances d', DB_adjustments d',
      DB_auditLogs d', DB_chainState d') =
    (DB_sourceContext d, DB_jobContext d, DB_exceptions d, DB_variances d, DB_adjustments d, DB_auditLogs d,
      DB_chainState d);
}.

Lemma MatchRun_Complete_Ok stats now run run' :
  MatchRun_Complete stats now run = (run', Ok tt) ->
  MR_ID run' = MR_ID run /\ MR_Status run' = MatchRunStatusCompleted.
Proof.
  unfold MatchRun_Complete, st_ensure, st_get, st_modify, st_lift, mbind, st_bind. rewrite assert_NotNil_Some. cbn.
  case_bool_decide; cbn; [|done]. by intros [= <-].
Qed.

Lemma manual_group_items contextID runID ts items g :
  Forall2 item_of ts items -> manual_group contextID runID items g ->
  Forall2 item_of ts (MG_Items g) /\ Forall (fun i => MI_MatchGroupID i = MG_ID g) (MG_Items g).
Proof.
  intros Hi (_ & _ & _ & _ & _ & ->). split.
  - apply Forall2_fmap_r. eapply Forall2_impl; [exact Hi|]. by intros t [].
  - apply Forall_fmap, Forall_forall. by intros [] _.
Qed.

Lemma manualMatchBody_spec input ts run :
  tx_spec (manualMatchBody uc input ts run) (manual_matched input ts).
Proof.
  unfold manualMatchBody, MarkMatchedWithTx, matchRunRepo_CreateWithTx, matchRunRepo_UpdateWithTx. eapply tx_weaken.
  { eapply tx_bind; [apply tx_existing, matchRunRepo_create_spec|intros created].
    eapply tx_bind; [apply manualItems_spec|intros items].
    eapply tx_bind; [apply manualGroup_spec|intros group].
    eapply tx_bind; [apply persistManualGroup_spec|intros g].
    eapply tx_bind; [apply matchItemRepo_CreateBatchWithTx_spec|intros ?].
    eapply tx_bind; [apply executeMark_spec|intros ?].
    eapply tx_bind; [apply tx_method|intros completed].
    eapply tx_bind; [apply tx_existing, matchRunRepo_update_spec|intros ?].
    eapply tx_bind; [apply enqueueMatchConfirmedEvents_spec|intros ?]. apply tx_ret. }
  intros d d' g (d1 & ? & (Hr & -> & ->) & d2 & items & [-> Hi] & d3 & g0 & [-> Hg] & d4 & g1 & (-> & Hgn & ->) &
    d5 & ? & -> & d6 & _ & [now ->] & d7 & c & [-> (cnow & [Hcid Hcs]%MatchRun_Complete_Ok)] & d8 & ? &
    (row & Hrow & -> & ->) & d9 & _ & (entries & -> & He) & -> & ->).
  cbn in Hrow, Hgn. rewrite Hcid, lookup_insert_eq in Hrow. injection Hrow as <-.
  pose proof (manual_group_items _ _ _ _ _ Hi Hg) as [Hi1 Hi2].
  destruct Hg as (G1 & G2 & G3 & G4 & G5 & G6).
  rewrite filter_cons_True, filter_nil in He by done.
  apply Forall2_cons_inv_l in He as (entry & ? & Hentry & ->%Forall2_nil_inv_l & ->).
  split; cbn; try done.
  - by exists now.
  - exists (updated_run c run). cbn. rewrite Hcid, insert_insert_eq. split_and!; congruence || done.
  - by exists entry.
Qed.
(** ** The selection a manual match starts from *)
Record manual_selection (input : ManualMatchInput) (d : DB) (ts : list Transaction) : Prop := {
  ms_distinct : NoDup (MM_TransactionIDs input) /\ (2 <= length (MM_TransactionIDs input))%nat;
  ms_ids : TX_ID <$> ts ≡ₚ MM_TransactionIDs input;
  ms_rows : Forall (fun t => DB_txs d !! TX_ID t = Some t /\
    DB_jobContext d !! TX_IngestionJobID t = Some (MM_ContextID input) /\ TX_Status t = "UNMATCHED") ts;
  ms_sources : exists t1 t2, t1 ∈ ts /\ t2 ∈ ts /\ TX_SourceID t1 <> TX_SourceID t2;
}.

Lemma two_sources (l : list uuid) : (2 <= size (list_to_set (C:=gset uuid) l))%nat -> exists a b, a ∈ l /\ b ∈ l /\ a <> b.
Proof.
  intros H. destruct l as [|a l]; [rewrite list_to_set_nil, size_empty in H; lia|].
  destruct (decide (Forall (fun b => b = a) l)) as [Hf|(b & Hb & Hn)%not_Forall_Exists%Exists_exists];
    [|exists a, b; set_solver|apply _].
  exfalso. replace (list_to_set (a :: l) : gset uuid) with ({[a]} : gset uuid) in H; [rewrite size_singleton in H; lia|].
  rewrite Forall_forall in Hf. set_solver.
Qed.

Lemma found_ids contextID ids d ts :
  keyed (DB_txs d) -> NoDup ids -> (length ids <= length ts)%nat ->
  ts = filter (fun t => TX_ID t ∈ ids /\ DB_jobContext d !! TX_IngestionJobID t = Some contextID) (map_to_list (DB_txs d)).*2 ->
  TX_ID <$> ts ≡ₚ ids.
Proof.
  intros Hk Hnd Hl ->. apply submseteq_length_Permutation; [|by rewrite length_fmap].
  apply NoDup_submseteq.
  - eapply sublist_NoDup; [|apply fmap_sublist, sublist_filter]. rewrite keyed_ids by done. apply NoDup_fst_map_to_list.
  - intros id (t & -> & Ht)%list_elem_of_fmap. apply list_elem_of_filter in Ht. tauto.
Qed.

Lemma FindByContextAndIDs_spec contextID ids :
  ro_spec (FindByContextAndIDs contextID ids) (fun d ts => ts =
    filter (fun t => TX_ID t ∈ ids /\ DB_jobContext d !! TX_IngestionJobID t = Some contextID) (map_to_list (DB_txs d)).*2).
Proof.
  unfold FindByContextAndIDs. eapply ro_weaken.
  - eapply ro_bind; [apply ro_lift|intros ?]. instantiate (1 := fun _ d ts => ts =
    filter (fun t => TX_ID t ∈ ids /\ DB_jobContext d !! TX_IngestionJobID t = Some contextID) (map_to_list (DB_txs d)).*2).
    cbn beta. case_bool_decide as E.
    + eapply ro_weaken; [apply ro_ret|]. intros d ts ->. rewrite E. symmetry.
      induction ((map_to_list (DB_txs d)).*2) as [|t l IH]; [done|]. rewrite filter_cons_False; [done|].
      intros [Ht _]. by apply not_elem_of_nil in Ht.
    + eapply ro_weaken; [apply ro_sql_read|]. by intros d ts [= <-].
  - by intros d ts (_ & _ & ?).
Qed.

Lemma manualMatchRead_spec raw input :
  ro_spec (manualMatchRead uc raw input) (fun d ts => keyed (DB_txs d) -> manual_selection input d ts).
Proof.
  unfold manualMatchRead. eapply ro_weaken.
  - eapply ro_bind; [apply ro_lift|intros ?]. eapply ro_bind; [apply ro_lift|intros ?].
    eapply ro_bind; [apply ro_lift|intros ctxInfo]. eapply ro_bind; [apply ro_lift|intros ?].
    eapply ro_bind; [apply FindByContextAndIDs_spec|intros ts; eapply ro_bind; [apply ro_lift|intros ?; apply ro_ret]].
  - cbn beta. intros d ts ([] & Hin & _ & _ & _ & _ & _ & _ & ts' & Hts & u & Hchk & ->) Hk.
    unfold validateManualMatchInput in Hin. unfold checkManualTransactions in Hchk. res_inv.
    bool_inv. apply no_duplicates_spec in Hin as [Hnd _]. apply Nat.eqb_eq in Hx. apply Nat.ltb_ge in Hx3, Hchk.
    assert (TX_ID <$> ts' ≡ₚ MM_TransactionIDs input) as Hp by (eapply found_ids; [done|done|lia|done]). split; [by split|done| |].
    + apply Forall_forall. intros t Ht. assert (Ht' := Ht). rewrite Hts in Ht'.
      apply list_elem_of_filter in Ht' as [[_ Hj] Ht']. apply list_elem_of_fmap in Ht' as ([id t0] & -> & Hm).
      apply elem_of_map_to_list in Hm. cbn in *. rewrite (Hk id t0 Hm). split_and!; [done..|].
      rewrite forallb_forall in Hx0. apply list_elem_of_In, Hx0 in Ht. by bool_inv.
    + apply two_sources in Hchk as (a & b & (t1 & -> & H1)%list_elem_of_fmap & (t2 & -> & H2)%list_elem_of_fmap & Hn).
      eauto.
Qed.

(** The job and the source of a transaction belong to the same context. *)
Definition contexts_agree (d : DB) : Prop := forall id t c,
  DB_txs d !! id = Some t -> DB_jobContext d !! TX_IngestionJobID t = Some c -> DB_sourceContext d !! TX_SourceID t = Some c.

Lemma manual_matched_txs input ts d d' g :
  contexts_agree d -> manual_selection input d ts -> manual_matched input ts d d' g ->
  (forall t, t ∈ ts -> exists now, DB_txs d' !! TX_ID t = Some (set_status "MATCHED" now t)) /\
  (forall id, id ∉ MM_TransactionIDs input -> DB_txs d' !! id = DB_txs d !! id).
Proof.
  intros Hc Hs Hm. destruct (mm_txs _ _ _ _ _ Hm) as [now ->]. split.
  - intros t Ht. exists now. pose proof (ms_rows _ _ _ Hs) as Hr. rewrite Forall_forall in Hr.
    destruct (Hr t Ht) as (Hrow & Hj & _). rewrite mark_txs_lookup, Hrow. cbn.
    rewrite bool_decide_eq_true_2 by (rewrite <- (ms_ids _ _ _ Hs); apply list_elem_of_fmap; eauto).
    unfold source_in_context. by rewrite (Hc _ _ _ Hrow Hj), bool_decide_eq_true_2.
  - intros id Hid. rewrite mark_txs_lookup, bool_decide_eq_false_2 by done. cbn. by destruct (_ !! id).
Qed.

Lemma manualMatchWrite_spec input ts w :
  W_tx w = None ->
  let '(w', r) := manualMatchWrite uc input ts w in
  W_tx w' = None /\
  match r with Ok g => manual_matched input ts (W_db w) (W_db w') g | Err _ => W_db w' = W_db w end.
Proof.
  intros Hw. unfold manualMatchWrite, mbind, st_bind, st_lift. cbn [io_fresh].
  destruct (map_err _ _) as [run|e]; [|done]. set (w1 := mkWorld _ _ _ _ _).
  pose proof (WithTx_spec false _ _ w1 (manualMatchBody_spec input ts run) Hw) as H.
  destruct (WithTx _ _ w1) as [w' [g|e]]; destruct H as (H1 & _ & _ & H2); by split.
Qed.

Lemma ManualMatch_spec raw input w :
  W_tx w = None -> keyed (DB_txs (W_db w)) ->
  let '(w', r) := ManualMatch uc raw input w in
  W_tx w' = None /\
  match r with
  | Ok g => exists ts, manual_selection input (W_db w) ts /\ manual_matched input ts (W_db w) (W_db w') g
  | Err _ => W_db w' = W_db w
  end.
Proof.
  intros Hw Hk. unfold ManualMatch, mbind, st_bind. pose proof (manualMatchRead_spec raw input w) as Hr.
  destruct (manualMatchRead uc raw input w) as [w1 [ts|e]]; destruct Hr as ((Hdb & _ & _) & Htx & Hsel);
    [|split; [congruence|done]].
  rewrite Hw in Htx. pose proof (manualMatchWrite_spec input ts w1 Htx) as H. rewrite Hdb in H.
  destruct (manualMatchWrite uc input ts w1) as [w' [g|e]]; destruct H as [? H]; split; eauto.
Qed.

(** C18: a manual match is all or nothing.  When it succeeds, the transactions
    it names are distinct, at least two, from at least two sources, and were
    UNMATCHED; they and no others are now MATCHED, in one new CONFIRMED group
    with one item per transaction for its whole amount, under a new COMPLETED
    run, with one event in the outbox; nothing else changed.  When it fails
    nothing changed. *)
Theorem ManualMatch_confirms raw input w :
  W_tx w = None -> keyed (DB_txs (W_db w)) -> contexts_agree (W_db w) ->
  let '(w', r) := ManualMatch uc raw input w in
  match r with
  | Ok g => exists ts, manual_selection input (W_db w) ts /\ manual_matched input ts (W_db w) (W_db w') g /\
      (forall t, t ∈ ts -> exists now, DB_txs (W_db w') !! TX_ID t = Some (set_status "MATCHED" now t)) /\
      (forall id, id ∉ MM_TransactionIDs input -> DB_txs (W_db w') !! id = DB_txs (W_db w) !! id)
  | Err _ => W_db w' = W_db w
  end.
Proof.
  intros Hw Hk Hc. pose proof (ManualMatch_spec raw input w Hw Hk) as H.
  destruct (ManualMatch uc raw input w) as [w' [g|e]]; destruct H as [_ H]; [|done].
  destruct H as (ts & Hs & Hm). exists ts. split; [done|]. split; [done|]. by eapply manual_matched_txs.
Qed.

Lemma selected_row input d ts id :
  manual_selection input d ts -> id ∈ MM_TransactionIDs input -> exists t, t ∈ ts /\ DB_txs d !! id = Some t.
Proof.
  intros Hs Hid. rewrite <- (ms_ids _ _ _ Hs) in Hid. apply list_elem_of_fmap in Hid as (t & -> & Ht).
  pose proof (ms_rows _ _ _ Hs) as Hr. rewrite Forall_forall in Hr. exists t. split; [done|]. by apply Hr.
Qed.

(** ** [Unmatch]

    Items are read outside the open transaction, from the committed state [c]. *)
Definition tx_at {X} (c : DB) (m : io X) (P : DB -> DB -> X -> Prop) : Prop :=
  forall w d, W_db w = c -> W_tx w = Some d ->
  let '(w', r) := m w in
  framed w w' /\ is_Some (W_tx w') /\
  match r with Ok x => exists d', W_tx w' = Some d' /\ P d d' x | Err _ => True end.

Lemma tx_at_spec {X} c (m : io X) P : tx_spec m P -> tx_at c m P.
Proof. intros H w d _ Hw. by apply H. Qed.

Lemma tx_at_weaken {X} c (m : io X) (P Q : DB -> DB -> X -> Prop) :
  tx_at c m P -> (forall d d' x, P d d' x -> Q d d' x) -> tx_at c m Q.
Proof. intros H HPQ w d Hc Hw. specialize (H w d Hc Hw). destruct (m w) as [w' [x|e]]; naive_solver. Qed.

Lemma tx_at_bind {X Y} c (m : io X) (f : X -> io Y) P Q :
  tx_at c m P -> (forall x, tx_at c (f x) (Q x)) ->
  tx_at c (m ≫= f) (fun d d' y => exists d1 x, P d d1 x /\ Q x d1 d' y).
Proof.
  intros Hm Hf w d Hc Hw. specialize (Hm w d Hc Hw). unfold mbind, st_bind. destruct (m w) as [w1 [x|e]]; [|done].
  destruct Hm as (H1 & _ & d1 & Hd1 & HP). specialize (Hf x w1 d1 ltac:(destruct H1; congruence) Hd1).
  destruct (f x w1) as [w2 [y|e]]; destruct Hf as (H3 & H5 & H6); split_and!; eauto using framed_trans.
  destruct H6 as (d2 & ? & ?). eauto 10.
Qed.

Lemma tx_at_read {X} c (f : DB -> res CmdError X) : tx_at c (sql_read f) (fun d d' x => d' = d /\ f c = Ok x).
Proof.
  intros w d Hc Hw. unfold sql_read, mbind, st_bind. destruct (io_roundtrip_cases false w) as [->|[[e ->] _]].
  - unfold st_get, st_lift. cbn. rewrite Hc. destruct (f c); split_and!; eauto; split_and!; cbn; auto.
  - split_and!; [split_and!; cbn; auto|eauto|done].
Qed.

Lemma WithTx_at {X} (m : io X) P w :
  tx_at (W_db w) m P -> W_tx w = None ->
  let '(w', r) := WithTx false m w in
  W_tx w' = None /\ match r with Ok x => P (W_db w) (W_db w') x | Err _ => W_db w' = W_db w end.
Proof.
  intros Hm Hw. pose proof (WithTx_cases false m w) as Hc. destruct (WithTx false m w) as [w' r].
  destruct Hc as [([e ->] & -> & _)|(w1 & r1 & E & Hc)]; [done|].
  pose proof (Hm (begin_tx (tick w)) (W_db w) eq_refl eq_refl) as H. rewrite E in H.
  destruct H as ((H1 & H2 & H3) & _ & H4). cbn in H1.
  destruct Hc as [(e & -> & -> & ->)|[(x & -> & -> & ->)|(x & e & -> & -> & -> & _)]]; cbn; split; try done.
  destruct H4 as (d' & -> & ?). done.
Qed.

(** The group after [Reject] or [Revoke], as its row holds it. *)
Definition undone (reason : string) (now : Time) (g : MatchGroup) : MatchGroup :=
  with_items [] (setRejected (if bool_decide (MG_Status g = MatchGroupStatusConfirmed) then MatchGroupStatusRevoked
                              else MatchGroupStatusRejected) (strings_TrimSpace reason) now g).

Lemma undo_method reason now g g' :
  (if bool_decide (MG_Status g = MatchGroupStatusConfirmed) then MatchGroup_Revoke reason else MatchGroup_Reject reason)
    now g = (g', Ok tt) ->
  with_items [] g' = undone reason now g /\ MG_Items g' = MG_Items g /\
  (MG_Status g = MatchGroupStatusConfirmed \/ MG_Status g = MatchGroupStatusProposed).
Proof.
  unfold undone. case_bool_decide as E; unfold MatchGroup_Revoke, MatchGroup_Reject, st_ensure, st_get, st_modify, st_lift,
    mbind, st_bind; rewrite assert_NotNil_Some; cbn; (case_bool_decide; cbn; [|done]);
    (destruct (ensure _ _); cbn; [|done]); intros [= <-]; split_and!; auto.
Qed.

Lemma rejectOrRevokeGroup_spec group reason :
  tx_spec (rejectOrRevokeGroup group reason (bool_decide (MG_Status group = MatchGroupStatusConfirmed)))
    (fun d d' g => exists now row, DB_groups d !! MG_ID group = Some row /\
      (MG_Status group = MatchGroupStatusConfirmed \/ MG_Status group = MatchGroupStatusProposed) /\
      d' = set_groups <[MG_ID group := g]> d /\ MG_ContextID row = MG_ContextID group /\
      g = mkMatchGroup (MG_ID row) (MG_ContextID row) (MG_RunID row) (MG_RuleID row) (MG_Confidence row)
            (MG_Status (undone reason now group)) [] (MG_CreatedAt row) now
            (Some (strings_TrimSpace reason)) (MG_ConfirmedAt group)).
Proof.
  unfold rejectOrRevokeGroup, matchGroupRepo_UpdateWithTx. eapply tx_weaken.
  { eapply tx_bind; [apply tx_method|intros g]. apply tx_existing. eapply tx_bind; [apply tx_sql|intros ?; apply tx_sql]. }
  intros d d' g (d1 & g' & [-> (now & Hm)] & d2 & [] & Hu & Hs). exists now. apply undo_method in Hm as (Hm & _ & Hst).
  assert (MG_ID g' = MG_ID group /\ MG_ContextID g' = MG_ContextID group) as [Ei Ec]
    by (split; [apply (f_equal MG_ID Hm)|apply (f_equal MG_ContextID Hm)]).
  unfold update_match_group in Hu. rewrite Ei, Ec in *. destruct (DB_groups d !! MG_ID group) as [row|]; [|done].
  case_bool_decide as Hc; [|done]. injection Hu as <-. exists row.
  apply res_bind_Ok in Hs as (g0 & Hsel & [= <- <-]). unfold select_match_group in Hsel. cbn in Hsel.
  rewrite lookup_insert_eq in Hsel. cbn in Hsel. rewrite bool_decide_eq_true_2 in Hsel by done.
  apply MatchGroup_ToEntity_id in Hsel as ->. unfold with_items. cbn -[undone]. split_and!; [done..|].
  rewrite <- Hm. f_equal; [..|apply (f_equal MG_ConfirmedAt Hm)].
  - apply (f_equal MG_UpdatedAt Hm).
  - apply (f_equal MG_RejectedReason Hm).
Qed.
(** The event of an undone group. *)
Definition unmatched_entry (gid : uuid) (items : list MatchItem) (reason : string) (entry : OutboxEvent) : Prop :=
  OE_EventType entry = EventTypeMatchUnmatched /\ OE_AggregateID entry = gid /\
  exists event, OE_Payload entry = PayloadUnmatched event /\ UE_MatchID event = gid /\
    UE_Reason event = strings_TrimSpace reason /\
    exists dropped, collectTransactionIDsSorted items = UE_TransactionIDs event ++ dropped.

Lemma unmatchOutboxEvent_entry group reason entry :
  unmatchOutboxEvent uc group reason = Ok entry -> unmatched_entry (MG_ID group) (MG_Items group) reason entry.
Proof.
  unfold unmatchOutboxEvent. destruct (uuid_Parse _) as [tenant|]; [|done]. intros H.
  apply res_bind_Ok in H as (event & Hev%map_err_Ok & H). unfold NewMatchUnmatchedEvent in Hev. res_inv.
  pose proof (TruncateIDListIfTooLarge_prefix (collectTransactionIDsSorted (MG_Items group))
    (outbox_DefaultMaxPayloadBytes - matchEventEnvelopeHeadroomBytes)) as Hp. cbn [UE_TransactionIDs] in H.
  destruct (TruncateIDListIfTooLarge _ _) as [ids n]. destruct Hp as (-> & dropped & Hd). res_inv.
  destruct (Nat.eqb_spec (length ids) (length (collectTransactionIDsSorted (MG_Items group)))) as [El|El]; cbn [negb];
    (split_and!; [done..|]); (eexists; split_and!; [done..|]); cbn; [exists []; by rewrite app_nil_r|by exists dropped].
Qed.

Lemma revertTransactionStatuses_spec c contextID gid :
  tx_at c (revertTransactionStatuses contextID gid) (fun d d' _ => exists now,
    d' = set_txs (mark_txs d contextID (MI_TransactionID <$> items_of_group gid c) "UNMATCHED" now) d).
Proof.
  unfold revertTransactionStatuses, matchItemRepo_ListByMatchGroupID, MarkUnmatchedWithTx. eapply tx_at_weaken.
  - eapply tx_at_bind; [apply tx_at_read|intros items].
    instantiate (1 := fun items d d' _ => exists now,
      d' = set_txs (mark_txs d contextID (MI_TransactionID <$> items) "UNMATCHED" now) d).
    cbn beta. case_bool_decide as E.
    + apply tx_at_spec. eapply tx_weaken; [apply tx_ret|]. intros d d' x [-> _]. exists 0%Z. rewrite E. cbn.
      by rewrite mark_txs_nil.
    + apply tx_at_spec, executeMark_spec.
  - by intros d d' x (d1 & items & [-> [= <-]] & ?).
Qed.

Lemma enqueueUnmatchEvent_spec c group reason :
  MG_Items group = [] ->
  tx_at c (enqueueUnmatchEvent uc group reason) (fun d d' _ => exists entry,
    d' = set_outbox (fun l => l ++ [entry]) d /\
    unmatched_entry (MG_ID group) (items_of_group (MG_ID group) c) reason entry).
Proof.
  intros Hg. unfold enqueueUnmatchEvent, matchItemRepo_ListByMatchGroupID. rewrite bool_decide_eq_true_2 by done.
  eapply tx_at_weaken.
  - eapply tx_at_bind; [eapply tx_at_bind; [apply tx_at_read|intros items; apply tx_at_spec, tx_ret]|intros g].
    eapply tx_at_bind; [apply tx_at_spec, tx_lift|intros e; apply tx_at_spec, outboxRepo_CreateWithTx_spec].
  - intros d d' x (d1 & g & (d2 & items & [-> [= <-]] & -> & ->) & d3 & entry & [-> He] & ->).
    exists entry. split; [done|]. by apply unmatchOutboxEvent_entry in He.
Qed.

(** What undoing a group does to the tables. *)
Record group_undone (input : UnmatchInput) (row : MatchGroup) (d d' : DB) : Prop := {
  gu_row : DB_groups d !! UM_MatchGroupID input = Some row /\ MG_ContextID row = UM_ContextID input;
  gu_status : MG_Status row = MatchGroupStatusConfirmed \/ MG_Status row = MatchGroupStatusProposed;
  gu_groups : exists now, DB_groups d' = <[UM_MatchGroupID input := undone (UM_Reason input) now row]> (DB_groups d);
  gu_txs : exists now, DB_txs d' = mark_txs d (UM_ContextID input)
    (MI_TransactionID <$> items_of_group (UM_MatchGroupID input) d) "UNMATCHED" now (DB_txs d);
  gu_outbox : exists entries, DB_outbox d' = DB_outbox d ++ entries /\
    if bool_decide (MG_Status row = MatchGroupStatusConfirmed)
    then exists entry, entries = [entry] /\
      unmatched_entry (UM_MatchGroupID input) (items_of_group (UM_MatchGroupID input) d) (UM_Reason input) entry
    else entries = [];
  gu_rest : (DB_runs d', DB_items d', DB_sourceContext d', DB_jobContext d', DB_exceptions d', DB_variances d',
      DB_adjustments d', DB_auditLogs d', DB_chainState d') =
    (DB_runs d, DB_items d, DB_sourceContext d, DB_jobContext d, DB_exceptions d, DB_variances d, DB_adjustments d,
      DB_auditLogs d, DB_chainState d);
}.

Lemma unmatch_event_spec c (b : bool) g reason :
  tx_at c (if b then enqueueUnmatchEvent uc g reason else mret tt) (fun d d' _ => MG_Items g = [] ->
    exists entries, d' = set_outbox (fun l => l ++ entries) d /\
    if b then exists entry, entries = [entry] /\ unmatched_entry (MG_ID g) (items_of_group (MG_ID g) c) reason entry
    else entries = []).
Proof.
  destruct b.
  - destruct (decide (MG_Items g = [])) as [E|E].
    + eapply tx_at_weaken; [by apply enqueueUnmatchEvent_spec|]. intros d d' y (entry & -> & He) _. eauto 10.
    + unfold enqueueUnmatchEvent. rewrite bool_decide_eq_false_2 by done. eapply tx_at_weaken; [|by intros].
      eapply tx_at_bind; [apply tx_at_spec, tx_ret|intros ?].
      eapply tx_at_bind; [apply tx_at_spec, tx_lift|intros e; apply tx_at_spec, outboxRepo_CreateWithTx_spec].
  - apply tx_at_spec. eapply tx_weaken; [apply tx_ret|]. intros d d' y [-> _] _. exists []. by rewrite set_outbox_nil.
Qed.

Lemma unmatchBody_spec input row d0 :
  DB_groups d0 !! UM_MatchGroupID input = Some row -> MG_ID row = UM_MatchGroupID input ->
  MG_ContextID row = UM_ContextID input ->
  tx_at d0 (unmatchBody uc input (with_items [] row)) (fun d d' _ => d = d0 -> group_undone input row d d').
Proof.
  intros Hrow Hid Hctx. unfold unmatchBody. set (b := bool_decide _). eapply tx_at_weaken.
  - eapply tx_at_bind; [apply tx_at_spec, rejectOrRevokeGroup_spec|intros g].
    eapply tx_at_bind; [apply revertTransactionStatuses_spec|intros ?].
    apply unmatch_event_spec.
  - cbn beta. intros d d' _ (d1 & g & (now & row' & Hr & Hst & -> & _ & Hg) & d2 & _ & (now' & ->) & Hout) ->.
    cbn in Hr, Hst. rewrite Hid, Hrow in Hr. injection Hr as <-.
    destruct Hout as (entries & -> & He); [by rewrite Hg|]. assert (MG_ID g = UM_MatchGroupID input) as Eg by (by rewrite Hg).
    rewrite Eg in He. split; cbn; try done.
    + exists now. rewrite Hid. f_equal. rewrite Hg. by destruct row.
    + by exists now'.
    + exists entries. by split.
Qed.

(** Rows of [match_groups] are keyed by their identifier. *)
Definition groups_keyed (d : DB) : Prop := forall id g, DB_groups d !! id = Some g -> MG_ID g = id.

Lemma Unmatch_spec input w :
  W_tx w = None -> groups_keyed (W_db w) ->
  let '(w', r) := Unmatch uc input w in
  match r with
  | Ok _ => exists row, group_undone input row (W_db w) (W_db w')
  | Err _ => W_db w' = W_db w
  end.
Proof.
  intros Hw Hk. unfold Unmatch, mbind, st_bind, st_lift.
  destruct (validateUnmatchInput input) as [[]|e]; [|done].
  destruct (validateTenantFromContextStrict uc (UM_TenantID input)) as [[]|e]; [|done].
  unfold loadMatchGroup, matchGroupRepo_FindByID.
  pose proof (ro_sql_read (select_match_group (UM_ContextID input) (UM_MatchGroupID input)) w) as Hr.
  destruct (sql_read _ w) as [w1 [g|e]]; destruct Hr as ((Hdb & _ & _) & Htx & Hsel); [|by destruct e].
  unfold select_match_group in Hsel. destruct (DB_groups (W_db w) !! _) as [row|] eqn:Hrow; [|done].
  case_bool_decide as Hc; [|done]. apply MatchGroup_ToEntity_id in Hsel as ->. rewrite Hw in Htx.
  pose proof (unmatchBody_spec input row (W_db w) Hrow (Hk _ _ Hrow) Hc) as Hb. rewrite <- Hdb in Hb.
  pose proof (WithTx_at _ _ w1 Hb Htx) as H. rewrite Hdb in H.
  destruct (WithTx _ _ w1) as [w' [u|e]]; destruct H as [_ H]; [|done]. eauto.
Qed.
Lemma undone_txs input row d d' :
  group_undone input row d d' ->
  let members := MI_TransactionID <$> items_of_group (UM_MatchGroupID input) d in
  (forall id t, DB_txs d !! id = Some t -> id ∈ members -> source_in_context d (UM_ContextID input) t = true ->
     exists now, DB_txs d' !! id = Some (set_status "UNMATCHED" now t)) /\
  (forall id, id ∉ members -> DB_txs d' !! id = DB_txs d !! id).
Proof.
  intros [_ _ _ [now ->] _ _]. split.
  - intros id t Ht Hin Hs. exists now. rewrite mark_txs_lookup, Ht. cbn. by rewrite bool_decide_eq_true_2, Hs by done.
  - intros id Hid. rewrite mark_txs_lookup, bool_decide_eq_false_2 by done. cbn. by destruct (_ !! id).
Qed.

(** Undoing a group is all or nothing.  When it succeeds the group was
    CONFIRMED or PROPOSED and is now REVOKED or REJECTED with the reason, the
    transactions of its items, and no others, are UNMATCHED again, and a
    group that was confirmed has one event; when it fails nothing changed. *)
Theorem Unmatch_reverts input w :
  W_tx w = None -> groups_keyed (W_db w) ->
  let '(w', r) := Unmatch uc input w in
  let members := MI_TransactionID <$> items_of_group (UM_MatchGroupID input) (W_db w) in
  match r with
  | Ok _ => (exists row, group_undone input row (W_db w) (W_db w')) /\
      (forall id t, DB_txs (W_db w) !! id = Some t -> id ∈ members ->
         source_in_context (W_db w) (UM_ContextID input) t = true ->
         exists now, DB_txs (W_db w') !! id = Some (set_status "UNMATCHED" now t)) /\
      (forall id, id ∉ members -> DB_txs (W_db w') !! id = DB_txs (W_db w) !! id)
  | Err _ => W_db w' = W_db w
  end.
Proof.
  intros Hw Hk. pose proof (Unmatch_spec input w Hw Hk) as H. destruct (Unmatch uc input w) as [w' [u|e]]; [|done].
  destruct H as (row & H). split; [eauto|]. by eapply undone_txs.
Qed.

(** Every item belongs to a stored group. *)
Definition items_owned (d : DB) : Prop := Forall (fun i => is_Some (DB_groups d !! MI_MatchGroupID i)) (DB_items d).

Lemma manual_matched_members input ts d d' g :
  items_owned d -> manual_matched input ts d d' g ->
  MI_TransactionID <$> items_of_group (MG_ID g) d' ≡ₚ TX_ID <$> ts.
Proof.
  intros Ho Hm. destruct (mm_items _ _ _ _ _ Hm) as (Hi & Hf & Hg). destruct (mm_groups _ _ _ _ _ Hm) as [Hn _].
  unfold items_of_group. rewrite stable_sort_perm, Hi, filter_app.
  assert (filter (fun i => MI_MatchGroupID i = MG_ID g) (DB_items d) = []) as ->.
  { clear -Ho Hn. unfold items_owned in Ho. induction Ho as [|i l [x Hx] _ IH]; [done|].
    rewrite filter_cons_False by congruence. done. }
  assert (filter (fun i => MI_MatchGroupID i = MG_ID g) (MG_Items g) = MG_Items g) as ->.
  { clear -Hg. induction Hg as [|i l Hi _ IH]; [done|]. rewrite filter_cons_True by done. by f_equal. }
  cbn. clear -Hf. induction Hf as [|t i ts items [Ht _] _ IH]; cbn; [done|]. by rewrite Ht, IH.
Qed.

Lemma manual_matched_keyed input ts d d' g :
  groups_keyed d -> manual_matched input ts d d' g -> groups_keyed d'.
Proof.
  intros Hk Hm i x Hx. destruct (mm_groups _ _ _ _ _ Hm) as [_ Hg]. rewrite Hg in Hx.
  apply lookup_insert_Some in Hx as [[<- <-]|[_ Hx]]; [done|by apply Hk].
Qed.

(** C7: undoing a manual match puts the transactions back.  After a manual match
    and an unmatch of its group, both successful, the transactions are as they
    were before, with a new update time only; all other transactions are
    untouched, and the group is on record as REVOKED with its two events. *)
Theorem Unmatch_undoes_ManualMatch raw input w w1 g uinput w2 :
  W_tx w = None -> keyed (DB_txs (W_db w)) -> contexts_agree (W_db w) -> groups_keyed (W_db w) -> items_owned (W_db w) ->
  ManualMatch uc raw input w = (w1, Ok g) ->
  UM_ContextID uinput = MM_ContextID input -> UM_MatchGroupID uinput = MG_ID g ->
  Unmatch uc uinput w1 = (w2, Ok tt) ->
  (forall id t, DB_txs (W_db w) !! id = Some t -> exists now,
     DB_txs (W_db w2) !! id =
       Some (if bool_decide (id ∈ MM_TransactionIDs input) then set_status (TX_Status t) now t else t)) /\
  (exists row, DB_groups (W_db w2) !! MG_ID g = Some row /\ MG_Status row = MatchGroupStatusRevoked) /\
  (exists e1 e2, DB_outbox (W_db w2) = DB_outbox (W_db w) ++ [e1; e2] /\ OE_EventType e1 = EventTypeMatchConfirmed /\
     OE_EventType e2 = EventTypeMatchUnmatched).
Proof.
  intros Hw Hk Hc Hgk Ho E Hctx Hid Eu.
  assert (exists ts, W_tx w1 = None /\ manual_selection input (W_db w) ts /\ manual_matched input ts (W_db w) (W_db w1) g)
    as (ts & Hw1 & Hs & Hm).
  { pose proof (ManualMatch_spec raw input w Hw Hk) as H. rewrite E in H. destruct H as (? & ts & ? & ?). eauto. }
  pose proof (manual_matched_members _ _ _ _ _ Ho Hm) as Hmem. rewrite (ms_ids _ _ _ Hs) in Hmem.
  destruct (manual_matched_txs _ _ _ _ _ Hc Hs Hm) as [Htx Hother]. destruct (mm_groups _ _ _ _ _ Hm) as [Hn Hg].
  pose proof (manual_matched_keyed _ _ _ _ _ Hgk Hm) as Hk1.
  pose proof (Unmatch_spec uinput w1 Hw1 Hk1) as H. rewrite Eu in H. destruct H as (row & H).
  destruct (undone_txs _ _ _ _ H) as [U1 U2]. rewrite Hid in U1, U2.
  destruct (gu_row _ _ _ _ H) as [Hrow _]. rewrite Hid, Hg, lookup_insert_eq in Hrow. injection Hrow as <-.
  assert (MG_Status g = MatchGroupStatusConfirmed) as Hst by apply Hm. split_and!.
  - intros id t Ht. case_bool_decide as Hin; [|exists 0%Z; rewrite U2, Hother by (by rewrite ?Hmem); done].
    rewrite <- (ms_ids _ _ _ Hs) in Hin. apply list_elem_of_fmap in Hin as (t' & -> & Ht').
    pose proof (ms_rows _ _ _ Hs) as Hr. rewrite Forall_forall in Hr. destruct (Hr t' Ht') as (Hrow' & Hj & Hun).
    rewrite Hrow' in Ht. injection Ht as <-. destruct (Htx t' Ht') as (now & Hnow).
    destruct (U1 _ _ Hnow) as (now' & ->); [rewrite Hmem, <- (ms_ids _ _ _ Hs); apply list_elem_of_fmap; eauto| |].
    + pose proof (mm_rest _ _ _ _ _ Hm) as Hrest. injection Hrest as Hsrc _. unfold source_in_context.
      rewrite Hsrc, Hctx. cbn. by rewrite (Hc _ _ _ Hrow' Hj), bool_decide_eq_true_2.
    + exists now'. by rewrite Hun.
  - destruct (gu_groups _ _ _ _ H) as (now & ->). rewrite Hid, lookup_insert_eq. eexists. split; [done|].
    unfold undone. cbn. by rewrite Hst.
  - destruct (mm_outbox _ _ _ _ _ Hm) as (e1 & Ho1 & He1). destruct (gu_outbox _ _ _ _ H) as (es & Ho2 & He2).
    rewrite bool_decide_eq_true_2 in He2 by done. destruct He2 as (e2 & -> & He2). exists e1, e2.
    rewrite Ho2, Ho1, <- app_assoc. split_and!; [done|apply He1|apply He2].
Qed.
End specs.

(** ** Sample calls *)
Definition manual_db : @DB model_uuid model_decimal :=
  mkDB (U:=model_uuid) (D:=model_decimal) ∅ ∅ [] (DB_txs sample_db) (DB_sourceContext sample_db) (<["job" := "ctx"]> ∅)
    ∅ [] [] ∅ [] ∅ ∅ ∅.
Definition manual_world : @World model_uuid model_decimal :=
  mkWorld (U:=model_uuid) (D:=model_decimal) manual_db None 0 0 None.
Definition manual_input (ids : list string) : @ManualMatchInput model_uuid :=
  mkManualMatchInput (U:=model_uuid) "tenant" "ctx" ids "".
Definition manual_call (ids : list string) :=
  ManualMatch (A:=model_assert) (V:=quiet_env) (O:=model_outbox) sample_uc None
    (manual_input ids).

Lemma manual_db_wf : keyed (DB_txs manual_db) /\ contexts_agree manual_db /\ groups_keyed manual_db /\ items_owned manual_db.
Proof.
  split_and!; [apply sample_db_wf| |by intros id g|constructor].
  intros id t c Ht Hj. unfold manual_db, sample_db in *. cbn in Ht, Hj |- *.
  repeat (apply lookup_insert_Some in Ht as [[_ <-]|[_ Ht]]); [..|done]; cbn in Hj |- *; vm_compute in Hj |- *; done.
Qed.

Definition manual_summary (w : @World model_uuid model_decimal) :=
  ((fun t => (TX_ID t, TX_Status t)) <$> (map_to_list (DB_txs (W_db w))).*2,
   MG_Status <$> (map_to_list (DB_groups (W_db w))).*2, OE_EventType <$> DB_outbox (W_db w)).

Definition manual_sample := manual_call ["l1"; "r1"] manual_world.
Definition unmatch_sample (w : @World model_uuid model_decimal) (gid : string) :=
  Unmatch (A:=model_assert) (V:=quiet_env) (O:=model_outbox) sample_uc
    (mkUnmatchInput (U:=model_uuid) "tenant" "ctx" gid "typo") w.

Definition undo_sample :=
  match manual_sample with
  | (w1, Ok g) => Some (unmatch_sample w1 (MG_ID g))
  | _ => None
  end.

Lemma manual_sample_result :
  (manual_summary manual_sample.1, is_Ok manual_sample.2) =
    ([("r1", "MATCHED"); ("l1", "MATCHED"); ("l2", "UNMATCHED")], ["CONFIRMED"], [EventTypeMatchConfirmed], true) /\
  (fun out => (manual_summary out.1, is_Ok out.2)) <$> undo_sample =
    Some ([("r1", "UNMATCHED"); ("l1", "UNMATCHED"); ("l2", "UNMATCHED")], ["REVOKED"],
      [EventTypeMatchConfirmed; EventTypeMatchUnmatched], true).
Proof. split; vm_compute; reflexivity. Qed.

Lemma ManualMatch_confirms_witness :
  exists w' g, manual_sample = (w', Ok g) /\ exists ts,
    manual_selection (manual_input ["l1"; "r1"]) manual_db ts /\
    manual_matched (manual_input ["l1"; "r1"]) ts manual_db (W_db w') g.
Proof.
  pose proof (proj1 manual_sample_result) as Hs. destruct manual_sample as [w' [g|e]] eqn:E; [|discriminate Hs].
  exists w', g. split; [reflexivity|]. unfold manual_sample, manual_call in E.
  pose proof (ManualMatch_confirms (A:=model_assert) (AL:=model_assert_laws) (V:=quiet_env) (O:=model_outbox) sample_uc None
    (manual_input ["l1"; "r1"]) manual_world eq_refl (proj1 manual_db_wf) (proj1 (proj2 manual_db_wf))) as H.
  rewrite E in H. destruct H as (ts & H1 & H2 & _). exists ts. split; [exact H1|exact H2].
Defined.

Lemma manual_sample_keyed w1 g : manual_sample = (w1, Ok g) -> W_tx w1 = None /\ groups_keyed (W_db w1).
Proof.
  intros E. unfold manual_sample, manual_call in E.
  pose proof (ManualMatch_spec (A:=model_assert) (AL:=model_assert_laws) (V:=quiet_env) (O:=model_outbox) sample_uc None
    (manual_input ["l1"; "r1"]) manual_world eq_refl (proj1 manual_db_wf)) as H.
  rewrite E in H. destruct H as (H1 & ts & _ & H2). split; [exact H1|].
  eapply manual_matched_keyed; [|exact H2]. apply manual_db_wf.
Qed.

Lemma Unmatch_reverts_witness :
  match undo_sample with
  | Some (w2, r) => is_Ok r = true /\ exists input row d, group_undone input row d (W_db w2)
  | None => False
  end.
Proof.
  pose proof (proj2 manual_sample_result) as Hu. unfold undo_sample in *.
  destruct manual_sample as [w1 [g|e]] eqn:E; [|discriminate Hu]. unfold unmatch_sample in *.
  pose proof (Unmatch_reverts (A:=model_assert) (AL:=model_assert_laws) (V:=quiet_env) (O:=model_outbox) sample_uc
    (mkUnmatchInput (U:=model_uuid) "tenant" "ctx" (MG_ID g) "typo") w1 (proj1 (manual_sample_keyed _ _ E))
    (proj2 (manual_sample_keyed _ _ E))) as H.
  destruct (Unmatch sample_uc _ w1) as [w2 [u|e]]; [|discriminate Hu]. destruct H as ((row & H) & _).
  split; [reflexivity|]. eexists _, row, _. exact H.
Defined.

Lemma Unmatch_undoes_ManualMatch_witness :
  exists w1 g w2, manual_sample = (w1, Ok g) /\ unmatch_sample w1 (MG_ID g) = (w2, Ok tt) /\
    exists row, DB_groups (W_db w2) !! MG_ID g = Some row /\ MG_Status row = MatchGroupStatusRevoked.
Proof.
  pose proof (proj2 manual_sample_result) as Hu. unfold undo_sample in *.
  destruct manual_sample as [w1 [g|e]] eqn:E; [|discriminate Hu].
  destruct (unmatch_sample w1 (MG_ID g)) as [w2 [[]|e]] eqn:Eu; [|discriminate Hu].
  exists w1, g, w2. split; [reflexivity|]. split; [exact Eu|].
  unfold manual_sample, manual_call in E. unfold unmatch_sample in Eu.
  destruct manual_db_wf as (H1 & H2 & H3 & H4).
  apply (Unmatch_undoes_ManualMatch (A:=model_assert) (AL:=model_assert_laws) (V:=quiet_env) (O:=model_outbox) sample_uc None
    (manual_input ["l1"; "r1"]) manual_world w1 g (mkUnmatchInput (U:=model_uuid) "tenant" "ctx" (MG_ID g) "typo") w2
    eq_refl H1 H2 H3 H4 E eq_refl eq_refl Eu).
Defined.
