(* ===== verification/DoubleMatch.v ===== *)
(** * Two manual matches of one transaction

    [ManualMatch] of internal/matching/services/command/match_group_manual_commands.go
    checks the status of its transactions before it opens the transaction that
    writes, and does not check it again there.  This file shows that two calls
    whose reads both come first therefore both succeed on a shared transaction:
    nothing in the writing phase refuses the second one.

    That is a statement of total correctness.  [wp m w Q] says that [m], run
    from [w], returns a value and a world satisfying [Q]; the rules follow the
    writing phase statement by statement under a [setting] in which the database
    answers and identifiers are new. *)
From stdpp Require Import pretty.
From S2P Require Import GoLib GoLibModel FeeStructure FeeSchedule FeeRules MatchTypes Evaluators.
From S2P Require Import Confidence Allocate Engine MatchEntities Transaction RunPrepare RunExecute Events Severity.
From S2P Require Import RuleDecode Store FeeFindings RunMatch RunOutcome RunSettles ManualMatch.

Section total.
  Context {U : UUIDLib} {D : DecimalLib} {DL : DecimalLaws D} {A : AssertLib} {AL : AssertLaws A} {N : UnicodeLib} {F : FmtLib}
    {V : Env U} {O : OutboxLib U}.
  Variable uc : Collaborators.

(** ** Running to the end *)
Definition wp {X} (m : io X) (w : World) (Q : World -> X -> Prop) : Prop := exists w' x, m w = (w', Ok x) /\ Q w' x.

Lemma wp_ret {X} (x : X) w (Q : World -> X -> Prop) : Q w x -> wp (mret x) w Q.
Proof. intros H. by exists w, x. Qed.

Lemma wp_bind {X Y} (m : io X) (f : X -> io Y) w Q : wp m w (fun w1 x => wp (f x) w1 Q) -> wp (m ≫= f) w Q.
Proof. intros (w1 & x & E & w2 & y & E2 & H). exists w2, y. unfold mbind, st_bind. by rewrite E. Qed.

Lemma wp_lift {X} (m : res CmdError X) x w Q : m = Ok x -> Q w x -> wp (st_lift m) w Q.
Proof. intros -> H. by exists w, x. Qed.

(** Identifiers are new and valid, the database answers, the tenant of the
    request is known and the outbox takes the event of a group. *)
Record setting (tenant : uuid) : Prop := {
  se_quiet : forall n, disturbed n = false;
  se_distinct : forall a b, env_newID a = env_newID b -> a = b;
  se_valid : forall n, env_newID n <> uuid_Nil;
  se_tenant : uuid_Parse (if string_empty (UC_tenant uc) then UC_defaultTenant uc else UC_tenant uc) = Some tenant;
  se_tenant_valid : tenant <> uuid_Nil;
  se_outbox : forall event, (length (CE_TransactionIDs event) <= maxMatchItems)%nat ->
    outbox_accepts (mkOutboxEvent (CE_EventType event) (CE_MatchID event) (PayloadConfirmed event)) = true;
}.
Context {tenant : uuid} (SE : setting tenant).

(** The worlds inside a transaction. *)
Definition inside (c d : DB) (n s : nat) (r : option MatchRun) : World := mkWorld c (Some d) n s r.

Section rules.
  Context (c : DB) (r : option MatchRun).

Lemma wp_roundtrip w (Q : World -> unit -> Prop) : Q (tick w) tt -> wp (io_roundtrip false) w Q.
Proof. intros H. exists (tick w), tt. by rewrite io_roundtrip_answer, (se_quiet _ SE). Qed.

Lemma wp_existing {X} (m : io X) d n s Q : wp m (inside c d n (S s) r) Q -> wp (ExistingTx m) (inside c d n s r) Q.
Proof. intros H. apply wp_bind, wp_roundtrip. exact H. Qed.

Lemma wp_sql {X} (f : DB -> res CmdError (DB * X)) d d' x n s Q :
  f d = Ok (d', x) -> Q (inside c d' n (S s) r) x -> wp (sql false f) (inside c d n s r) Q.
Proof. intros Hf H. eexists _, _. rewrite (sql_answer f _ d d' x), (se_quiet _ SE) by done. by split. Qed.

Lemma wp_fresh d n s (Q : World -> uuid * Time -> Prop) :
  Q (inside c d (S n) s r) (env_newID n, env_now n) -> wp io_fresh (inside c d n s r) Q.
Proof. intros H. eexists _, _. by split. Qed.

Lemma wp_now d n s (Q : World -> Time -> Prop) : Q (inside c d (S n) s r) (env_now n) -> wp io_now (inside c d n s r) Q.
Proof. intros H. eexists _, _. by split. Qed.

Lemma wp_method {S'} (method : Time -> st S' MatchError unit) o o' d n s (Q : World -> S' -> Prop) :
  method (env_now n) o = (o', Ok tt) -> Q (inside c d (S n) s r) o' -> wp (io_method method o) (inside c d n s r) Q.
Proof. intros Hm H. apply wp_bind, wp_now. rewrite Hm. by apply wp_ret. Qed.

(** ** The statements of the writing phase *)
Definition run_storable (run : MatchRun) : Prop := MatchRun_ToEntity run = Ok run.

Lemma wp_create_run run d n s Q : DB_runs d !! MR_ID run = None -> run_storable run ->
  Q (inside c (set_runs <[MR_ID run := run]> d) n (3 + s) r) run -> wp (matchRunRepo_CreateWithTx run) (inside c d n s r) Q.
Proof.
  intros Hn Hv H. apply wp_existing, wp_bind. eapply wp_sql; [unfold insert_match_run; by rewrite Hn|].
  eapply wp_sql; [|exact H]. unfold select_match_run. cbn. rewrite lookup_insert_eq, bool_decide_eq_true_2 by done. by rewrite Hv.
Qed.

(** What a transaction needs to become an item. *)
Record matchable (t : Transaction) : Prop := {
  ma_id : TX_ID t <> uuid_Nil;
  ma_amount : dec_IsNegative (manualAmount t) = false;
  ma_currency : manualCurrency t <> "";
}.

Lemma NewMatchItem_whole id now t : matchable t -> exists i,
  NewMatchItem id now (TX_ID t) (manualAmount t) (manualCurrency t) (manualAmount t) = Ok i /\ MI_ID i = id /\ item_of t i.
Proof.
  intros [H1 H2 H3]. unfold NewMatchItem, newMatchItem. rewrite !assert_That_spec, assert_NotEmpty_spec, H2, bool_decide_eq_false_2 by done.
  assert (dec_GreaterThan (manualAmount t) (manualAmount t) = false) as ->.
  { apply not_true_is_false. rewrite dec_GreaterThan_spec. apply QArith_base.Qlt_irrefl. }
  rewrite (proj2 (dec_Equal_spec _ _)) by reflexivity. apply string_empty_false in H3. rewrite H3. cbn. by eexists.
Qed.

Lemma wp_items ts d n s Q : Forall matchable ts ->
  (forall items, MI_ID <$> items = env_newID <$> seq n (length ts) -> Forall2 item_of ts items ->
     Q (inside c d (length ts + n) s r) items) -> wp (manualItems ts) (inside c d n s r) Q.
Proof.
  intros Hts. revert n Q. induction Hts as [|t ts Ht _ IH]; intros n Q HQ; cbn [manualItems]; [apply wp_ret; by apply HQ|].
  apply wp_bind, wp_fresh, wp_bind. destruct (NewMatchItem_whole (env_newID n) (env_now n) t Ht) as (i & Ei & Hi & Hof).
  eapply wp_lift; [cbn; by rewrite Ei|]. apply wp_bind, IH. intros items Hids Hall. apply wp_ret.
  replace (length ts + S n)%nat with (length (t :: ts) + n)%nat by (cbn; lia). apply HQ; [|by constructor].
  cbn. by rewrite Hi, Hids.
Qed.
Lemma set_items_total newID (items : list MatchItem) :
  res_mapM (fun item => match item with
    | Some i => _ ← ensure (assert_NotNil (Some i)) (ErrAssert "match group item"); Ok (setMatchGroupID newID i)
    | None => _ ← ensure (assert_NotNil (@None MatchItem)) (ErrAssert "match group item"); Err (ErrAssert "match group item")
    end) (Some <$> items) = Ok (setMatchGroupID newID <$> items).
Proof. induction items as [|i items IH]; [done|]. cbn. rewrite assert_NotNil_Some. cbn. cbn in IH. by rewrite IH. Qed.

(** The group of a manual match, as the command builds it. *)
Definition new_group (id contextID runID : uuid) (items : list MatchItem) (now confirmed : Time) : MatchGroup :=
  mkMatchGroup id contextID runID uuid_Nil (mkConfidenceScore manualMatchConfidence) MatchGroupStatusConfirmed
    (setMatchGroupID id <$> items) now confirmed None (Some confirmed).

Lemma wp_group contextID runID items d n s Q : contextID <> uuid_Nil -> runID <> uuid_Nil ->
  (minMatchItems <= length items <= maxMatchItems)%nat ->
  Q (inside c d (2 + n) s r) (new_group (env_newID n) contextID runID items (env_now n) (env_now (S n))) ->
  wp (manualGroup contextID runID items) (inside c d n s r) Q.
Proof.
  intros H1 H2 [H3 H4] HQ. apply wp_bind. eapply wp_lift; [done|]. apply wp_bind, wp_fresh, wp_bind. eapply wp_lift.
  { cbn [fst snd]. unfold NewMatchGroup. rewrite !assert_That_spec, !bool_decide_eq_false_2, !length_fmap by done.
    rewrite (proj2 (Nat.leb_le _ _) H3), (proj2 (Nat.leb_le _ _) H4). cbn [negb ensure mbind res_bind andb].
    rewrite set_items_total. reflexivity. }
  eapply wp_method; [|exact HQ].
  unfold MatchGroup_Confirm, st_ensure, st_get, st_modify, st_lift, mbind, st_bind. by rewrite assert_NotNil_Some.
Qed.

Lemma wp_persist group d n s Q : DB_groups d !! MG_ID group = None -> MatchGroup_ToEntity (group_row group) = Ok (group_row group) ->
  Q (inside c (set_groups <[MG_ID group := group_row group]> d) n (3 + s) r) group ->
  wp (persistManualGroup group) (inside c d n s r) Q.
Proof.
  intros Hn Hv HQ. unfold persistManualGroup, matchGroupRepo_CreateBatchWithTx. rewrite bool_decide_eq_false_2 by done.
  apply wp_bind, wp_existing, wp_bind, wp_bind. eapply wp_sql; [unfold insert_match_group; by rewrite Hn|]. apply wp_ret.
  eapply (wp_sql _ _ _ [group_row group]).
  - unfold fetchBatch. replace (remove_dups (MG_ID <$> [group])) with [MG_ID group]
      by (unfold remove_dups; cbn; case_decide as E; [by apply not_elem_of_nil in E|done]).
    cbn. rewrite lookup_insert_eq. cbn. by rewrite Hv.
  - apply wp_ret. replace (with_items _ _) with group by (by destruct group). exact HQ.
Qed.

Lemma wp_insert_items items d n s Q : NoDup (MI_ID <$> items) -> Forall (fun i => MI_ID i ∉ MI_ID <$> DB_items d) items ->
  (forall s', Q (inside c (set_items (fun l => l ++ items) d) n s' r) tt) -> wp (insertItems items) (inside c d n s r) Q.
Proof.
  revert d s. induction items as [|i items IH]; intros d s Hnd Hnew HQ; cbn [insertItems].
  - apply wp_ret. replace d with (set_items (fun l => l ++ []) d) by (destruct d; unfold set_items; cbn; by rewrite app_nil_r). apply HQ.
  - apply NoDup_cons in Hnd as [Hi Hnd]. apply Forall_cons in Hnew as [Hni Hnew]. apply wp_bind.
    eapply wp_sql; [unfold insert_match_item; by rewrite bool_decide_eq_false_2|]. apply IH; [done| |].
    + rewrite Forall_forall in Hnew |- *. intros j Hj. cbn. rewrite fmap_app, elem_of_app. intros [?|Hj2]; [by eapply Hnew|].
      cbn in Hj2. apply list_elem_of_singleton in Hj2. rewrite <-Hj2 in Hi. apply Hi, list_elem_of_fmap. eauto.
    + intros s'. specialize (HQ s'). destruct d. unfold set_items in *. cbn in *. by rewrite <-app_assoc.
Qed.

Lemma wp_create_items items d n s Q : items <> [] -> NoDup (MI_ID <$> items) -> Forall (fun i => MI_ID i ∉ MI_ID <$> DB_items d) items ->
  (forall s', Q (inside c (set_items (fun l => l ++ items) d) n s' r) items) ->
  wp (matchItemRepo_CreateBatchWithTx items) (inside c d n s r) Q.
Proof.
  intros Hne Hnd Hnew HQ. unfold matchItemRepo_CreateBatchWithTx. rewrite bool_decide_eq_false_2 by done.
  apply wp_existing, wp_bind, wp_insert_items; [done..|]. intros s'. apply wp_ret, HQ.
Qed.

Lemma wp_mark contextID ids d n s Q : contextID <> uuid_Nil -> ids <> [] ->
  (forall d', DB_runs d' = DB_runs d -> Q (inside c d' (S n) (S s) r) tt) ->
  wp (MarkMatchedWithTx contextID ids) (inside c d n s r) Q.
Proof.
  intros H1 H2 HQ. unfold MarkMatchedWithTx, executeMark. apply wp_bind. eapply wp_lift; [by rewrite bool_decide_eq_false_2|].
  rewrite bool_decide_eq_false_2 by done. apply wp_bind, wp_now. eapply wp_sql; [done|]. by apply HQ.
Qed.

Lemma wp_update_run run row d n s Q : DB_runs d !! MR_ID run = Some row -> MR_ContextID row = MR_ContextID run ->
  run_storable (updated_run run row) -> MR_ID row = MR_ID run ->
  (forall d', Q (inside c d' n (3 + s) r) (updated_run run row)) ->
  wp (matchRunRepo_UpdateWithTx run) (inside c d n s r) Q.
Proof.
  intros Hr Hc Hv Hid HQ. apply wp_existing, wp_bind. eapply wp_sql; [unfold update_match_run; by rewrite Hr, bool_decide_eq_true_2|].
  eapply wp_sql; [|apply HQ]. unfold select_match_run. cbn. rewrite lookup_insert_eq. cbn. rewrite bool_decide_eq_true_2 by done.
  by rewrite Hv.
Qed.
End rules.

(** The transactions an event names, at most those of the items. *)
Lemma collected_ids ts items : Forall matchable ts -> Forall2 item_of ts items -> items <> [] ->
  (1 <= length (collectTransactionIDsSorted items) <= length items)%nat.
Proof.
  intros Ht Hi Hne. unfold collectTransactionIDsSorted. rewrite stable_sort_perm. split.
  - destruct Hi as [|t i ts items (Hid & _) _]; [done|]. apply Forall_cons in Ht as [[Ht _ _] _].
    rewrite fmap_cons, filter_cons_True by congruence. cbn. lia.
  - etrans; [apply length_filter|]. by rewrite length_fmap.
Qed.

Lemma confirmed_event_total g now : MG_ContextID g <> uuid_Nil -> MG_RunID g <> uuid_Nil -> MG_ID g <> uuid_Nil ->
  is_Some (MG_ConfirmedAt g) -> CS_value (MG_Confidence g) = manualMatchConfidence ->
  (1 <= length (collectTransactionIDsSorted (MG_Items g)))%nat ->
  exists event, NewMatchConfirmedEvent tenant (UC_tenantSlug uc) (Some g) now = Ok event /\
    CE_TransactionIDs event = collectTransactionIDsSorted (MG_Items g).
Proof.
  intros H1 H2 H3 [at_ H4] H5 H6. unfold NewMatchConfirmedEvent.
  rewrite !assert_That_spec, assert_NotNil_Some, !bool_decide_eq_false_2, H4, H5 by (done || apply (se_tenant_valid _ SE)).
  rewrite (proj2 (Nat.eqb_neq _ 0)) by lia. by eexists.
Qed.

Lemma groupOutboxEvent_total g now event : NewMatchConfirmedEvent tenant (UC_tenantSlug uc) (Some g) now = Ok event ->
  (length (CE_TransactionIDs event) <= maxMatchItems)%nat -> exists entry, groupOutboxEvent uc g tenant now = Ok entry.
Proof.
  intros He Hl. unfold groupOutboxEvent. rewrite He. cbn [map_err mbind res_bind].
  pose proof (TruncateIDListIfTooLarge_prefix (CE_TransactionIDs event)
    (outbox_DefaultMaxPayloadBytes - matchEventEnvelopeHeadroomBytes)) as Hp.
  destruct (TruncateIDListIfTooLarge _ _) as [ids k]. destruct Hp as (-> & dropped & Hp). rewrite Hp, length_app in Hl.
  rewrite (se_outbox _ SE); [by eexists|]. destruct (negb _); cbn; rewrite ?Hp, ?length_app; lia.
Qed.

Lemma wp_enqueue c r g d n s Q : MG_Status g = MatchGroupStatusConfirmed -> (forall now, exists event, groupOutboxEvent uc g tenant now = Ok event) ->
  (forall d', Q (inside c d' (S n) (S s) r) tt) -> wp (enqueueMatchConfirmedEvents uc [g]) (inside c d n s r) Q.
Proof.
  intros Hs Hev HQ. unfold enqueueMatchConfirmedEvents. rewrite (se_tenant _ SE). cbn [enqueueGroupEvents].
  unfold enqueueGroupEvent. rewrite bool_decide_eq_true_2 by done. cbn [negb]. destruct (Hev (env_now n)) as (event & Ee).
  apply wp_bind, wp_bind, wp_now, wp_bind. eapply wp_lift; [exact Ee|]. eapply wp_sql; [done|]. apply wp_ret, HQ.
Qed.

(** ** The writing phase succeeds *)
Record ready (input : ManualMatchInput) (ts : list Transaction) : Prop := {
  re_context : MM_ContextID input <> uuid_Nil;
  re_ids : MM_TransactionIDs input <> [];
  re_rows : Forall matchable ts;
  re_count : (minMatchItems <= length ts <= maxMatchItems)%nat;
}.

(** The identifier is not in use. *)
Definition unused (d : DB) (k : nat) : Prop :=
  DB_runs d !! env_newID k = None /\ DB_groups d !! env_newID k = None /\ env_newID k ∉ MI_ID <$> DB_items d.

(** The identifiers of a new group were drawn between [n] and [n']. *)
Record drawn (n n' : nat) (g : MatchGroup) : Prop := {
  dr_run : exists k, (n <= k < n')%nat /\ MG_RunID g = env_newID k;
  dr_group : exists k, (n <= k < n')%nat /\ MG_ID g = env_newID k;
  dr_items : forall i, i ∈ MG_Items g -> exists k, (n <= k < n')%nat /\ MI_ID i = env_newID k;
}.

Lemma item_ids items n m : MI_ID <$> items = env_newID <$> seq n m ->
  forall i, i ∈ items -> exists k, (n <= k < m + n)%nat /\ MI_ID i = env_newID k.
Proof.
  intros E i Hi. assert (MI_ID i ∈ MI_ID <$> items) as H by (apply list_elem_of_fmap; eauto). rewrite E in H.
  apply list_elem_of_fmap in H as (k & Hk & Hin%elem_of_seq). exists k. split; [lia|done].
Qed.

Lemma new_items_ids id (items : list MatchItem) : MI_ID <$> (setMatchGroupID id <$> items) = MI_ID <$> items.
Proof. induction items as [|[] items IH]; [done|]. cbn. by f_equal. Qed.

Lemma new_items_of id ts items : Forall2 item_of ts items -> Forall2 item_of ts (setMatchGroupID id <$> items).
Proof. intros H. apply Forall2_fmap_r. eapply Forall2_impl; [exact H|]. by intros t []. Qed.

Lemma item_ids_new d m n items len : (forall k, (m <= k)%nat -> unused d k) -> (m < n)%nat -> MI_ID <$> items = env_newID <$> seq n len ->
  NoDup (MI_ID <$> items) /\ Forall (fun i => MI_ID i ∉ MI_ID <$> DB_items d) items.
Proof.
  intros Hun Hm E. split.
  - rewrite E. apply NoDup_fmap_2_strong; [|apply NoDup_seq]. intros a b _ _. apply (se_distinct _ SE).
  - apply Forall_forall. intros i Hi. destruct (item_ids _ _ _ E _ Hi) as (k & Hk & ->). apply (Hun k). lia.
Qed.

Lemma MatchRun_Complete_total stats now run : processing run ->
  MatchRun_Complete (Some stats) now run = (completed_run run stats now, Ok tt).
Proof.
  intros [Hs _]. unfold MatchRun_Complete, st_ensure, st_get, st_modify, st_lift, mbind, st_bind.
  rewrite assert_NotNil_Some. cbn. by rewrite bool_decide_eq_true_2.
Qed.

Lemma new_group_event id contextID runID ts items now confirmed : contextID <> uuid_Nil -> runID <> uuid_Nil -> id <> uuid_Nil ->
  Forall matchable ts -> Forall2 item_of ts items -> (minMatchItems <= length items <= maxMatchItems)%nat ->
  forall t, exists entry, groupOutboxEvent uc (new_group id contextID runID items now confirmed) tenant t = Ok entry.
Proof.
  intros H1 H2 H3 Ht Hof Hl t.
  assert (1 <= length (collectTransactionIDsSorted (setMatchGroupID id <$> items)) <= length items)%nat as Hc.
  { rewrite <-(length_fmap (setMatchGroupID id) items). eapply collected_ids; [exact Ht|by apply new_items_of|].
    destruct items; [unfold minMatchItems in Hl; cbn in Hl; lia|done]. }
  destruct (confirmed_event_total (new_group id contextID runID items now confirmed) t) as (event & He & Hids); try done; [apply Hc|].
  eapply groupOutboxEvent_total; [exact He|]. rewrite Hids. etrans; [apply Hc|apply Hl].
Qed.

Lemma wp_body input ts c d n s r m run :
  ready input ts -> (forall k, (m <= k)%nat -> unused d k) -> (m < n)%nat -> MR_ID run = env_newID m ->
  processing run -> MR_ContextID run = MM_ContextID input ->
  wp (manualMatchBody uc input ts run) (inside c d n s r) (fun w' g => drawn m (W_next w') g /\ (n <= W_next w')%nat).
Proof.
  intros [H1 H2 H3 H4] Hun Hm Hid Hp Hctx. assert (MR_ID run <> uuid_Nil) as Hr by (rewrite Hid; apply (se_valid _ SE)).
  unfold manualMatchBody. apply wp_bind, wp_create_run.
  { rewrite Hid. apply (Hun m). lia. }
  { apply MatchRun_ToEntity_valid. destruct Hp as [Hs Hv]. split; [done|]. by rewrite Hs. }
  apply wp_bind, wp_items; [done|]. intros items Hids Hof. pose proof (Forall2_length _ _ _ Hof) as Hlen.
  apply wp_bind, wp_group; [done|done|lia|]. apply wp_bind, wp_persist; [apply (Hun _); lia|done|].
  destruct (item_ids_new _ _ _ _ _ Hun Hm Hids) as [Hnd Hnew].
  apply wp_bind, wp_create_items; cbn [MG_Items new_group].
  { destruct items; [unfold minMatchItems in H4; cbn in Hlen; lia|done]. }
  { by rewrite new_items_ids. }
  { apply Forall_fmap. eapply Forall_impl; [exact Hnew|]. by intros []. }
  intros s'. apply wp_bind, wp_mark; [done..|]. intros d' Hd'. apply wp_bind.
  eapply wp_method; [by apply MatchRun_Complete_total|]. apply wp_bind, (wp_update_run _ _ _ run); [|done| |done|].
  { rewrite Hd'. cbn. by rewrite lookup_insert_eq. }
  { apply MatchRun_ToEntity_valid, completed_valid. exact Hp. }
  intros d2. apply wp_bind, wp_enqueue; [done|eapply new_group_event; try done; [apply (se_valid _ SE)|lia]|].
  intros d3. apply wp_ret. cbn [W_next inside]. split; [|lia]. split; cbn [MG_RunID MG_ID MG_Items new_group].
  - exists m. split; [lia|done].
  - eexists. split; [|reflexivity]. lia.
  - intros i (j & -> & Hj)%list_elem_of_fmap. destruct (item_ids _ _ _ Hids _ Hj) as (k & Hk & E). exists k. split; [lia|done].
Qed.

Lemma wp_write input ts w : W_tx w = None -> ready input ts -> (forall k, (W_next w <= k)%nat -> unused (W_db w) k) ->
  wp (manualMatchWrite uc input ts) w (fun w' g => drawn (W_next w) (W_next w') g /\ (W_next w <= W_next w')%nat).
Proof.
  intros Hw Hre Hun. pose proof (re_context _ _ Hre) as Hc. unfold manualMatchWrite.
  apply wp_bind. eexists _, _. split; [reflexivity|]. apply wp_bind. eapply wp_lift.
  { unfold NewMatchRun. rewrite !assert_That_spec, bool_decide_eq_false_2 by done. reflexivity. }
  set (run := mkMatchRun _ _ _ _ _ _ _ _ _ _). set (w1 := mkWorld _ _ _ _ _).
  destruct (wp_body input ts (W_db w) (W_db w) (S (W_next w)) (S (W_step w)) (W_run w) (W_next w) run) as (w2 & g & E & Hd & Hn);
    [done|done|lia|done|done|done|].
  exists (commit_tx (tick w2)), g. split; [|split; [exact Hd|cbn; lia]].
  unfold WithTx, mbind, st_bind. rewrite io_roundtrip_answer, (se_quiet _ SE). unfold tx_scope.
  change (begin_tx (tick w1)) with (inside (W_db w) (W_db w) (S (W_next w)) (S (W_step w)) (W_run w)).
  by rewrite E, io_roundtrip_answer, (se_quiet _ SE).
Qed.

(** ** The reading phase *)
Lemma manualMatchRead_next raw input w : W_next (manualMatchRead uc raw input w).1 = W_next w.
Proof.
  unfold manualMatchRead, FindByContextAndIDs, sql_read, mbind, st_bind, st_lift, st_ensure, st_lift.
  destruct (validateManualMatchInput input); [|done]. destruct (validateTenantFromContext _ _); [|done].
  destruct (map_err _ _) as [ctxInfo|]; [|done]. destruct (match ctxInfo with None => _ | Some _ => _ end); [|done].
  destruct (ensure _ _); [|done]. case_bool_decide; [cbn; by destruct (checkManualTransactions _ _)|].
  rewrite io_roundtrip_answer. destruct (disturbed _); [done|]. cbn. by destruct (checkManualTransactions _ _).
Qed.

Lemma manualMatchRead_ready raw input w w' ts : keyed (DB_txs (W_db w)) -> manualMatchRead uc raw input w = (w', Ok ts) ->
  Forall matchable ts -> (length (MM_TransactionIDs input) <= maxMatchItems)%nat ->
  ready input ts /\ manual_selection input (W_db w) ts /\ W_db w' = W_db w /\ W_tx w' = W_tx w /\ W_next w' = W_next w.
Proof.
  intros Hk E Hm Hl. pose proof (manualMatchRead_spec uc raw input w) as H. pose proof (manualMatchRead_next raw input w) as Hn.
  rewrite E in H, Hn. destruct H as ((H1 & _) & H2 & H3). specialize (H3 Hk). split; [|done].
  pose proof (ms_distinct _ _ _ H3) as [_ H4]. pose proof (Permutation_length (ms_ids _ _ _ H3)) as H5. rewrite length_fmap in H5.
  split; [| |done|unfold minMatchItems; lia].
  - unfold manualMatchRead in E. unfold mbind at 1, st_bind at 1 in E. unfold st_lift at 1 in E.
    destruct (validateManualMatchInput input) eqn:Ev; [|discriminate E]. unfold validateManualMatchInput in Ev. res_inv. by bool_inv.
  - intros Hnil. rewrite Hnil in H4. cbn in H4. lia.
Qed.

(** The identifiers a match did not draw stay unused. *)
Lemma unused_later input ts d d' g n n' k : (forall k, (n <= k)%nat -> unused d k) -> drawn n n' g -> manual_matched input ts d d' g ->
  (n <= n')%nat -> (n' <= k)%nat -> unused d' k.
Proof.
  intros Hun [(k1 & H1 & E1) (k2 & H2 & E2) H3] M Hn Hk. destruct (Hun k) as (U1 & U2 & U3); [lia|].
  destruct (mm_run _ _ _ _ _ M) as (run & R1 & _ & _ & R2). destruct (mm_groups _ _ _ _ _ M) as [_ G].
  destruct (mm_items _ _ _ _ _ M) as [I _]. split_and!.
  - rewrite R2, R1, E1, lookup_insert_ne; [done|]. intros E%(se_distinct _ SE). lia.
  - rewrite G, E2, lookup_insert_ne; [done|]. intros E%(se_distinct _ SE). lia.
  - rewrite I, fmap_app, elem_of_app. intros [?|(i & Ei & Hi)%list_elem_of_fmap]; [done|].
    destruct (H3 i Hi) as (k3 & H4 & E3). rewrite E3 in Ei. apply (se_distinct _ SE) in Ei. lia.
Qed.

(** Both groups hold the transaction whole. *)
Definition matched_twice (d d' : DB) (id : uuid) (g1 g2 : MatchGroup) : Prop :=
  MG_ID g1 <> MG_ID g2 /\
  (exists r1 r2, DB_groups d' !! MG_ID g1 = Some r1 /\ DB_groups d' !! MG_ID g2 = Some r2 /\
     MG_Status r1 = MatchGroupStatusConfirmed /\ MG_Status r2 = MatchGroupStatusConfirmed) /\
  (exists t i1 i2, DB_txs d !! id = Some t /\ i1 ∈ DB_items d' /\ i2 ∈ DB_items d' /\
     item_of t i1 /\ item_of t i2 /\ MI_MatchGroupID i1 = MG_ID g1 /\ MI_MatchGroupID i2 = MG_ID g2).

Lemma matched_both input1 input2 ts1 ts2 d d1 d2 g1 g2 id : manual_selection input1 d ts1 -> manual_selection input2 d ts2 ->
  manual_matched input1 ts1 d d1 g1 -> manual_matched input2 ts2 d1 d2 g2 ->
  id ∈ MM_TransactionIDs input1 -> id ∈ MM_TransactionIDs input2 -> matched_twice d d2 id g1 g2.
Proof.
  intros S1 S2 M1 M2 Hid1 Hid2. destruct (selected_row _ _ _ _ S1 Hid1) as (t & Ht1 & Hrow).
  destruct (selected_row _ _ _ _ S2 Hid2) as (t' & Ht2 & Hrow'). rewrite Hrow in Hrow'. injection Hrow' as <-.
  destruct (mm_groups _ _ _ _ _ M1) as [_ G1]. destruct (mm_groups _ _ _ _ _ M2) as [N2 G2].
  assert (MG_ID g1 <> MG_ID g2) as Hne by (intros E; rewrite G1, <- E, lookup_insert_eq in N2; done).
  split_and!; [done| |].
  - exists (group_row g1), (group_row g2). rewrite G2, lookup_insert_eq, lookup_insert_ne, G1, lookup_insert_eq by done.
    split_and!; [done..| |]; [apply M1|apply M2].
  - destruct (mm_items _ _ _ _ _ M1) as (I1 & F1 & P1). destruct (mm_items _ _ _ _ _ M2) as (I2 & F2 & P2).
    apply (Forall2_elem_of_l _ _ _ _ F1) in Ht1 as (i1 & Hi1 & Ho1).
    apply (Forall2_elem_of_l _ _ _ _ F2) in Ht2 as (i2 & Hi2 & Ho2). rewrite Forall_forall in P1, P2.
    exists t, i1, i2. rewrite I2, I1, !elem_of_app. split_and!; auto.
Qed.

(** C26: Two manual matches that read before either writes both succeed on a
    transaction they share: the reads check its status outside the transaction
    that writes, and nothing in the writes looks at it again or refuses it.
    Suppose both reads return, the database answers, identifiers are new, the
    tenant is known, the outbox takes the events and the transactions found can
    be items (an identifier, a currency, an amount that is not negative, at
    most 500 of them).  Then both writes return their groups, which are
    different and both CONFIRMED, each with an item for the whole amount of the
    shared transaction. *)
Theorem ManualMatch_double_match raw1 raw2 input1 input2 ts1 ts2 w wa wb id :
  W_tx w = None -> keyed (DB_txs (W_db w)) -> (forall k, (W_next w <= k)%nat -> unused (W_db w) k) ->
  manualMatchRead uc raw1 input1 w = (wa, Ok ts1) -> manualMatchRead uc raw2 input2 wa = (wb, Ok ts2) ->
  Forall matchable ts1 -> Forall matchable ts2 ->
  (length (MM_TransactionIDs input1) <= maxMatchItems)%nat -> (length (MM_TransactionIDs input2) <= maxMatchItems)%nat ->
  id ∈ MM_TransactionIDs input1 -> id ∈ MM_TransactionIDs input2 ->
  exists w1 w2 g1 g2, manualMatchWrite uc input1 ts1 wb = (w1, Ok g1) /\ manualMatchWrite uc input2 ts2 w1 = (w2, Ok g2) /\
    matched_twice (W_db w) (W_db w2) id g1 g2.
Proof.
  intros Hw Hk Hun R1 R2 Hm1 Hm2 Hl1 Hl2 Hid1 Hid2.
  destruct (manualMatchRead_ready _ _ _ _ _ Hk R1 Hm1 Hl1) as (Y1 & S1 & D1 & T1 & N1). rewrite <-D1 in Hk.
  destruct (manualMatchRead_ready _ _ _ _ _ Hk R2 Hm2 Hl2) as (Y2 & S2 & D2 & T2 & N2). rewrite D1 in S2, D2.
  assert (W_tx wb = None) as Hwb by congruence. rewrite <-D2, <-N1, <-N2 in Hun.
  destruct (wp_write input1 ts1 wb Hwb Y1 Hun) as (w1 & g1 & E1 & Dr1 & L1).
  pose proof (manualMatchWrite_spec uc input1 ts1 wb Hwb) as M1. rewrite E1 in M1. destruct M1 as [T3 M1].
  destruct (wp_write input2 ts2 w1 T3 Y2) as (w2 & g2 & E2 & _).
  { intros k Hle. by eapply unused_later. }
  pose proof (manualMatchWrite_spec uc input2 ts2 w1 T3) as M2. rewrite E2 in M2. destruct M2 as [_ M2].
  exists w1, w2, g1, g2. split; [done|]. split; [done|]. rewrite D2 in M1.
  exact (matched_both _ _ _ _ _ _ _ _ _ _ S1 S2 M1 M2 Hid1 Hid2).
Qed.
End total.

(** ** Two sample calls that share [r1] *)
Definition manual_read (ids : list string) := manualMatchRead (V:=quiet_env) sample_uc None (manual_input ids).
Definition manual_write (ids : list string) ts :=
  manualMatchWrite (A:=model_assert) (V:=quiet_env) (O:=model_outbox) sample_uc (manual_input ids) ts.

Lemma sample_setting : setting (U:=model_uuid) (D:=model_decimal) (V:=quiet_env) (O:=model_outbox) sample_uc "tenant".
Proof.
  split; [done| |done|reflexivity|done|done]. intros a b E. cbn in E. injection E as E. apply (inj pretty). exact E.
Qed.

Definition sample_reads :=
  match manual_read ["l1"; "r1"] manual_world with
  | (wa, Ok ts1) => match manual_read ["l2"; "r1"] wa with (wb, Ok ts2) => Some (wa, ts1, wb, ts2) | _ => None end
  | _ => None
  end.

Definition item_ready (t : @Transaction model_uuid model_decimal) : bool :=
  negb (bool_decide (TX_ID t = uuid_Nil)) && negb (dec_IsNegative (manualAmount t)) && negb (string_empty (manualCurrency t)).

Lemma item_ready_matchable ts : forallb item_ready ts = true -> Forall matchable ts.
Proof.
  rewrite forallb_forall. intros H. apply Forall_forall. intros t Ht. apply list_elem_of_In, H in Ht. unfold item_ready in Ht.
  bool_inv. split; [done|done|]. by apply string_empty_false.
Qed.

Lemma sample_reads_result :
  (fun '(_, ts1, _, ts2) => (forallb item_ready ts1, forallb item_ready ts2)) <$> sample_reads = Some (true, true).
Proof. vm_compute. reflexivity. Qed.

Lemma ManualMatch_double_match_witness :
  exists wa ts1 wb ts2 w1 w2 g1 g2, manual_read ["l1"; "r1"] manual_world = (wa, Ok ts1) /\ manual_read ["l2"; "r1"] wa = (wb, Ok ts2) /\
    manual_write ["l1"; "r1"] ts1 wb = (w1, Ok g1) /\ manual_write ["l2"; "r1"] ts2 w1 = (w2, Ok g2) /\
    matched_twice manual_db (W_db w2) "r1" g1 g2.
Proof.
  pose proof sample_reads_result as Hs. unfold sample_reads in Hs.
  destruct (manual_read ["l1"; "r1"] manual_world) as [wa [ts1|e]] eqn:R1; [|discriminate Hs].
  destruct (manual_read ["l2"; "r1"] wa) as [wb [ts2|e]] eqn:R2; [|discriminate Hs]. injection Hs as H1 H2.
  exists wa, ts1, wb, ts2.
  destruct (ManualMatch_double_match (DL:=model_decimal_laws) (A:=model_assert) (AL:=model_assert_laws) (V:=quiet_env)
    (O:=model_outbox) sample_uc sample_setting None None (manual_input ["l1"; "r1"]) (manual_input ["l2"; "r1"]) ts1 ts2
    manual_world wa wb "r1" eq_refl (proj1 manual_db_wf)) as (w1 & w2 & g1 & g2 & E1 & E2 & H);
    [|exact R1|exact R2|by apply item_ready_matchable..|
     cbn; unfold maxMatchItems; lia|cbn; unfold maxMatchItems; lia|cbn; right; left|cbn; right; left|].
  { intros k _. split; [reflexivity|]. split; [reflexivity|]. apply not_elem_of_nil. }
  exists w1, w2, g1, g2. split; [reflexivity|]. split; [exact R2|]. split; [exact E1|]. split; [exact E2|exact H].
Defined.
