(* ===== verification/Adjust.v ===== *)
(** * Adjustments

    Models internal/matching/services/command/adjustment_commands.go
    ([CreateAdjustment]) and
    internal/matching/adapters/postgres/adjustment/adjustment.postgresql.go
    ([CreateWithAuditLog]) over the database of Store.v and the audit log of
    AuditRepo.v. *)
From S2P Require Import GoLib GoLibModel FeeStructure FeeSchedule FeeRules MatchTypes Evaluators.
From S2P Require Import Confidence Allocate Engine MatchEntities Transaction RuleDecode RunPrepare.
From S2P Require Import RunExecute Events Severity Sha256 GoTime GoJson AuditChain Store AuditRepo FeeFindings RunMatch.
From S2P Require Import RunOutcome RunSettles ManualMatch.

Section adjust.
  Context {U : UUIDLib} {D : DecimalLib} {A : AssertLib} {V : Env U}.

Record CreateAdjustmentInput : Type := mkCreateAdjustmentInput {
  CA_TenantID : uuid;
  CA_ContextID : uuid;
  CA_MatchGroupID : option uuid;
  CA_TransactionID : option uuid;
  CA_Type : string;
  CA_Direction : string;
  CA_Amount : decimal;
  CA_Currency : string;
  CA_Description : string;
  CA_Reason : string;
  CA_CreatedBy : string;
}.

Variable uc : Collaborators.

Definition validateCreateAdjustmentInput (input : CreateAdjustmentInput) : res CmdError unit :=
  _ ← ensure (negb (bool_decide (CA_TenantID input = uuid_Nil))) (ErrAdjustment "tenant id is required");
  _ ← ensure (negb (bool_decide (CA_ContextID input = uuid_Nil))) (ErrAdjustment "context id is required");
  _ ← ensure (bool_decide (is_Some (CA_MatchGroupID input)) || bool_decide (is_Some (CA_TransactionID input)))
        (ErrAdjustment "match group id or transaction id is required");
  _ ← ensure (negb (string_empty (CA_Type input))) (ErrAdjustment "type is required");
  _ ← ensure (negb (string_empty (CA_Direction input))) (ErrAdjustment "direction is required");
  _ ← ensure (dec_IsPositive (CA_Amount input)) (ErrAdjustment "amount must be positive");
  _ ← ensure (negb (string_empty (CA_Currency input))) (ErrAdjustment "currency is required");
  _ ← ensure (negb (string_empty (CA_Description input))) (ErrAdjustment "description is required");
  _ ← ensure (negb (string_empty (CA_Reason input))) (ErrAdjustment "reason is required");
  ensure (negb (string_empty (CA_CreatedBy input))) (ErrAdjustment "created_by is required").

Definition verifyAdjustmentContext (input : CreateAdjustmentInput) : res CmdError unit :=
  ctxInfo ← UC_findContext uc (CA_TenantID input) (CA_ContextID input);
  match ctxInfo with
  | None => Err (ErrAdjustment "context not found")
  | Some info => ensure (RCI_Active info) (ErrAdjustment "context is not active")
  end.

Definition verifyAdjustmentTargets (input : CreateAdjustmentInput) : io unit :=
  _ ← (match CA_MatchGroupID input with
       | None => mret tt
       | Some id => _ ← matchGroupRepo_FindByID (CA_ContextID input) id; mret tt
       end);
  match CA_TransactionID input with
  | None => mret tt
  | Some id =>
      txns ← FindByContextAndIDs (CA_ContextID input) [id];
      st_ensure (negb (length txns =? 0)%nat) (ErrAdjustment "transaction not found")
  end.

Definition prepareAdjustment (input : CreateAdjustmentInput) : io Adjustment :=
  _ ← st_lift (verifyAdjustmentContext input);
  _ ← verifyAdjustmentTargets input;
  _ ← st_ensure (AdjustmentType_IsValid (CA_Type input)) (ErrAdjustment "invalid adjustment type");
  _ ← st_ensure (AdjustmentDirection_IsValid (CA_Direction input)) (ErrAdjustment "invalid adjustment direction");
  id ← io_fresh;
  st_lift (map_err ErrMatch (NewAdjustment id.1 id.2 (CA_ContextID input) (CA_MatchGroupID input)
    (CA_TransactionID input) (CA_Type input) (CA_Direction input) (CA_Amount input) (CA_Currency input)
    (CA_Description input) (CA_Reason input) (CA_CreatedBy input))).

(** ** The audit record *)

(** [json.Marshal] writes the keys of a map in sorted order. *)
Definition buildAdjustmentAuditChanges (adjustmentID : uuid) (now : Time) (input : CreateAdjustmentInput) : option bytes :=
  occurred ← marshal_time now;
  let target name id := match id with Some u => [(name, marshal_uuid u)] | None => [] end in
  Some (json_object (
    [("action", marshal_string "CREATE"); ("actor", marshal_string (CA_CreatedBy input));
     ("amount", marshal_string (dec_String (CA_Amount input))); ("context_id", marshal_uuid (CA_ContextID input));
     ("currency", marshal_string (CA_Currency input)); ("description", marshal_string (CA_Description input));
     ("direction", marshal_string (CA_Direction input)); ("entity_id", marshal_uuid adjustmentID);
     ("entity_type", marshal_string "adjustment")] ++ target "match_group_id" (CA_MatchGroupID input) ++
    [("occurred_at", occurred); ("reason", marshal_string (CA_Reason input))] ++
    target "transaction_id" (CA_TransactionID input) ++ [("type", marshal_string (CA_Type input))])).

Definition buildAdjustmentAuditLogEntity (adjustment : Adjustment) (input : CreateAdjustmentInput) : io AuditLog :=
  now ← io_now;
  match buildAdjustmentAuditChanges (ADJ_ID adjustment) now input with
  | None => io_fail (ErrAdjustment "build audit changes")
  | Some auditChanges =>
      id ← io_fresh;
      st_lift (map_err ErrAudit (NewAuditLog id.1 id.2 (CA_TenantID input) "adjustment" (ADJ_ID adjustment) "CREATE"
        (Some (CA_CreatedBy input)) auditChanges))
  end.

(** ** The repository *)
Definition insert_adjustment (adjustment : Adjustment) (d : DB) : res CmdError (DB * unit) :=
  match DB_adjustments d !! ADJ_ID adjustment with
  | Some _ => Err ErrDuplicateKey
  | None => Ok (set_adjustments <[ADJ_ID adjustment := adjustment]> d, tt)
  end.

Definition Adjustment_ToEntity (row : Adjustment) : res CmdError Adjustment :=
  _ ← ensure (AdjustmentType_IsValid (ADJ_Type row)) (ErrAdjustment "invalid adjustment type");
  _ ← ensure (AdjustmentDirection_IsValid (ADJ_Direction row)) (ErrAdjustment "invalid adjustment direction");
  Ok row.

Definition select_adjustment (id : uuid) (d : DB) : res CmdError (DB * Adjustment) :=
  match DB_adjustments d !! id with
  | Some row => adjustment ← Adjustment_ToEntity row; Ok (d, adjustment)
  | None => Err ErrNoRows
  end.

Definition adjustmentRepo_insertWithTx (adjustment : Adjustment) : io Adjustment :=
  _ ← sql false (insert_adjustment adjustment);
  sql false (select_adjustment (ADJ_ID adjustment)).

Definition CreateWithAuditLogWithTx (ctxTenant : option uuid) (adjustment : Adjustment) (auditLog : AuditLog)
    : io Adjustment :=
  created ← adjustmentRepo_insertWithTx adjustment;
  _ ← auditLogRepo_CreateWithTx ctxTenant auditLog;
  mret created.

Definition CreateWithAuditLog (ctxTenant : option uuid) (adjustment : Adjustment) (auditLog : AuditLog) : io Adjustment :=
  WithTx false (CreateWithAuditLogWithTx ctxTenant adjustment auditLog).

(** The tenant of the request, as the audit repository reads it. *)
Definition getTenantIDFromContext : option uuid :=
  if string_empty (UC_tenant uc) then None else uuid_Parse (UC_tenant uc).

Definition persistAdjustmentWithAudit (adjustment : Adjustment) (input : CreateAdjustmentInput) : io Adjustment :=
  auditLog ← buildAdjustmentAuditLogEntity adjustment input;
  CreateWithAuditLog getTenantIDFromContext adjustment auditLog.

Definition CreateAdjustment (input : CreateAdjustmentInput) : io Adjustment :=
  _ ← st_lift (validateCreateAdjustmentInput input);
  adjustment ← prepareAdjustment input;
  persistAdjustmentWithAudit adjustment input.
End adjust.

Section audited.
  Context {U : UUIDLib} {D : DecimalLib} {DL : DecimalLaws D} {A : AssertLib} {AL : AssertLaws A} {V : Env U}.
  Variable uc : Collaborators.

(** The adjustment holds what was asked for. *)
Record adjustment_of (input : CreateAdjustmentInput) (adj : Adjustment) : Prop := {
  ao_target : ADJ_ContextID adj = CA_ContextID input /\ ADJ_MatchGroupID adj = CA_MatchGroupID input /\
    ADJ_TransactionID adj = CA_TransactionID input /\
    (is_Some (ADJ_MatchGroupID adj) \/ is_Some (ADJ_TransactionID adj));
  ao_amount : ADJ_Amount adj = CA_Amount input /\ (0 < dec_Rat (ADJ_Amount adj))%Q /\ ADJ_Currency adj = CA_Currency input;
  ao_kind : ADJ_Type adj = CA_Type input /\ AdjustmentType_IsValid (ADJ_Type adj) = true /\
    ADJ_Direction adj = CA_Direction input /\ AdjustmentDirection_IsValid (ADJ_Direction adj) = true;
  ao_text : ADJ_Description adj = CA_Description input /\ ADJ_Reason adj = CA_Reason input /\
    ADJ_CreatedBy adj = CA_CreatedBy input;
}.

(** The audit row tells the adjustment, its author and its fields. *)
Record audit_of (input : CreateAdjustmentInput) (adj : Adjustment) (row : AuditLog) : Prop := {
  au_entity : AL_EntityType row = "adjustment" /\ AL_EntityID row = ADJ_ID adj /\ AL_Action row = "CREATE";
  au_actor : normalizedActorID (Some (CA_CreatedBy input)) = Ok (AL_ActorID row);
  au_tenant : AL_TenantID row = default (CA_TenantID input) (getTenantIDFromContext uc);
  au_changes : exists now, buildAdjustmentAuditChanges (ADJ_ID adj) now input = Some (AL_Changes row);
}.

(** An adjustment's target is there when it is checked. *)
Definition target_found (input : CreateAdjustmentInput) (d : DB) : Prop :=
  (forall id, CA_MatchGroupID input = Some id ->
     exists g, DB_groups d !! id = Some g /\ MG_ContextID g = CA_ContextID input) /\
  (forall id, CA_TransactionID input = Some id -> exists k t, DB_txs d !! k = Some t /\ TX_ID t = id /\
     DB_jobContext d !! TX_IngestionJobID t = Some (CA_ContextID input)).

Lemma verifyAdjustmentTargets_spec input : ro_spec (verifyAdjustmentTargets input) (fun d _ => target_found input d).
Proof.
  unfold verifyAdjustmentTargets. eapply ro_weaken.
  - eapply ro_bind with (P := fun d _ => forall id, CA_MatchGroupID input = Some id ->
      exists g, DB_groups d !! id = Some g /\ MG_ContextID g = CA_ContextID input)
      (Q := fun _ d _ => forall id, CA_TransactionID input = Some id -> exists k t, DB_txs d !! k = Some t /\ TX_ID t = id /\
        DB_jobContext d !! TX_IngestionJobID t = Some (CA_ContextID input)).
    + destruct (CA_MatchGroupID input) as [gid|]; [|eapply ro_weaken; [apply ro_ret|done]].
      eapply ro_weaken; [eapply ro_bind; [apply ro_sql_read|intros g; apply ro_ret]|].
      intros d [] (g & Hg & _) id [= <-]. unfold select_match_group in Hg.
      destruct (DB_groups d !! gid) as [row|]; [|done]. case_bool_decide; [|done]. eauto.
    + intros _. destruct (CA_TransactionID input) as [tid|]; [|eapply ro_weaken; [apply ro_ret|done]].
      eapply ro_weaken; [eapply ro_bind; [apply FindByContextAndIDs_spec|intros txs; apply ro_lift]|].
      intros d [] (txs & -> & Hne) id [= <-]. res_inv. bool_inv.
      destruct (filter _ _) as [|t l] eqn:E; [done|].
      assert (t ∈ t :: l) as Ht by left. rewrite <- E in Ht. apply list_elem_of_filter in Ht as [[Hid Hj] Ht].
      apply list_elem_of_fmap in Ht as ([k t'] & -> & Hm). apply elem_of_map_to_list in Hm.
      apply list_elem_of_singleton in Hid. eauto 10.
  - intros d [] ([] & H1 & H2). by split.
Qed.

Lemma prepareAdjustment_spec input :
  ro_spec (prepareAdjustment uc input) (fun d adj => adjustment_of input adj /\ target_found input d).
Proof.
  unfold prepareAdjustment. eapply ro_weaken.
  - eapply ro_bind; [apply ro_lift|intros ?]. eapply ro_bind; [apply verifyAdjustmentTargets_spec|intros ?].
    eapply ro_bind; [apply ro_lift|intros ?]. eapply ro_bind; [apply ro_lift|intros ?].
    eapply ro_bind with (P := fun _ _ => True); [intros w; cbn; split; [by split_and!|done]|intros id]. apply ro_lift.
  - cbn. intros d adj (_ & _ & _ & Htf & _ & _ & _ & _ & id & _ & H%map_err_Ok). split; [|done].
    unfold NewAdjustment in H. res_inv. assert_inv. dec_bool. split; cbn; split_and!; try done.
    bool_inv. by apply orb_true_iff in Hx0 as [?%bool_decide_eq_true|?%bool_decide_eq_true]; auto.
Qed.
Lemma adjustmentRepo_insertWithTx_spec adj :
  tx_spec (adjustmentRepo_insertWithTx adj) (fun d d' x => x = adj /\ DB_adjustments d !! ADJ_ID adj = None /\
    d' = set_adjustments <[ADJ_ID adj := adj]> d).
Proof.
  unfold adjustmentRepo_insertWithTx. eapply tx_weaken; [tx_bind; apply tx_sql|].
  intros d d' x (d1 & [] & H1 & H2). unfold insert_adjustment in H1. destruct (_ !! _) eqn:E; [done|]. injection H1 as <-.
  unfold select_adjustment in H2. cbn in H2. rewrite lookup_insert_eq in H2.
  apply res_bind_Ok in H2 as (y & Hy & [= <- <-]). unfold Adjustment_ToEntity in Hy. by res_inv.
Qed.

(** The row of the adjustment and the audit row, together. *)
Definition adjusted (input : CreateAdjustmentInput) (d d' : DB) (adj : Adjustment) : Prop :=
  DB_adjustments d !! ADJ_ID adj = None /\
  exists row next, audit_of input adj row /\
    d' = set_chainState (fun _ => next) (set_auditLogs (fun rows => rows ++ [row])
           (set_adjustments <[ADJ_ID adj := adj]> d)).

Lemma CreateWithAuditLogWithTx_spec adj log input :
  audit_of input adj (chained log (default (CA_TenantID input) (getTenantIDFromContext uc)) 0 [] []) ->
  AL_TenantID log = CA_TenantID input ->
  tx_spec (CreateWithAuditLogWithTx (getTenantIDFromContext uc) adj log) (fun d d' x =>
    chains_wf (DB_auditLogs d) (DB_chainState d) ->
    chains_wf (DB_auditLogs d') (DB_chainState d') /\ x = adj /\ adjusted input d d' adj).
Proof.
  intros Ha Ht. unfold CreateWithAuditLogWithTx, auditLogRepo_CreateWithTx. eapply tx_weaken.
  { eapply tx_bind; [apply adjustmentRepo_insertWithTx_spec|intros x].
    eapply tx_bind; [apply tx_existing, executeCreate_spec|intros ?; apply tx_ret]. }
  intros d d' x (d1 & y & (-> & Hn & ->) & d2 & row & H & -> & ->) Hwf.
  destruct (H Hwf) as [Hwf' ((next & ->) & seq & prev & hash & Hrow)]. split; [done|]. split; [done|]. split; [done|].
  exists row, next. split; [|done]. rewrite Hrow, Ht. by destruct Ha.
Qed.

Lemma auditLog_of adj input w :
  let '(w', r) := buildAdjustmentAuditLogEntity adj input w in
  framed w w' /\ W_tx w' = W_tx w /\
  match r with
  | Ok log => AL_TenantID log = CA_TenantID input /\
      audit_of input adj (chained log (default (CA_TenantID input) (getTenantIDFromContext uc)) 0 [] [])
  | Err _ => True
  end.
Proof.
  unfold buildAdjustmentAuditLogEntity, mbind, st_bind, io_now.
  destruct (buildAdjustmentAuditChanges _ _ input) as [changes|] eqn:E; [|split; [by split_and!|done]].
  unfold io_fresh, st_lift. cbn [W_db W_tx W_next W_step W_run fst snd].
  destruct (map_err ErrAudit _) as [log|e] eqn:El; (split; [by split_and!|]; split; [done|]); [|done].
  apply map_err_Ok in El. unfold NewAuditLog in El. res_inv. cbn [AL_TenantID]. split; [done|]. split; cbn.
  - by split_and!.
  - done.
  - done.
  - eauto.
Qed.

(** C19: an adjustment and its audit record are committed together.  A
    successful call stored exactly one new adjustment, with the fields asked
    for, a positive amount and an existing target, and exactly one audit
    record naming it and its author with all its fields; a failed call changed
    nothing.  Either way the audit chain still verifies. *)
Theorem CreateAdjustment_audited input w :
  W_tx w = None -> chains_wf (DB_auditLogs (W_db w)) (DB_chainState (W_db w)) ->
  let '(w', r) := CreateAdjustment uc input w in
  chains_wf (DB_auditLogs (W_db w')) (DB_chainState (W_db w')) /\
  match r with
  | Ok adj => adjustment_of input adj /\ target_found input (W_db w) /\ adjusted input (W_db w) (W_db w') adj
  | Err _ => W_db w' = W_db w
  end.
Proof.
  intros Hw Hwf. unfold CreateAdjustment, persistAdjustmentWithAudit, CreateWithAuditLog, mbind, st_bind, st_lift.
  destruct (validateCreateAdjustmentInput input) as [[]|e]; [|done].
  pose proof (prepareAdjustment_spec input w) as Hp.
  destruct (prepareAdjustment uc input w) as [w1 [adj|e]]; destruct Hp as ((D1 & _ & _) & T1 & Hp); [|by rewrite D1].
  destruct Hp as [Hadj Htf]. pose proof (auditLog_of adj input w1) as Hl.
  destruct (buildAdjustmentAuditLogEntity adj input w1) as [w2 [log|e]]; destruct Hl as ((D2 & _ & _) & T2 & Hl);
    [|by rewrite D2, D1].
  destruct Hl as [Ht Hau]. assert (W_tx w2 = None) as Hw2 by congruence. rewrite D1 in D2.
  pose proof (WithTx_spec false _ _ w2 (CreateWithAuditLogWithTx_spec adj log input Hau Ht) Hw2) as H.
  destruct (WithTx false _ w2) as [w3 [x|e]]; destruct H as (_ & _ & _ & H); rewrite D2 in H.
  - destruct (H Hwf) as (? & -> & ?). by split_and!.
  - by rewrite H.
Qed.
End audited.

(** ** A sample call *)
Definition adjust_input : @CreateAdjustmentInput model_uuid model_decimal :=
  mkCreateAdjustmentInput (U:=model_uuid) (D:=model_decimal) "tenant" "ctx" None (Some "l2") "BANK_FEE" "DEBIT"
    (5 # 1)%Q "USD" "bank fee" "variance" "user".
Definition adjust_sample :=
  CreateAdjustment (A:=model_assert) (V:=quiet_env) sample_uc adjust_input manual_world.

Lemma adjust_sample_result :
  (is_Ok adjust_sample.2, AL_EntityID <$> DB_auditLogs (W_db adjust_sample.1),
   (map_to_list (DB_adjustments (W_db adjust_sample.1))).*1,
   VerifyChain (chain_record <$> DB_auditLogs (W_db adjust_sample.1))) = (true, ["id0"], ["id0"], Ok tt).
Proof. vm_compute. reflexivity. Qed.

Lemma CreateAdjustment_audited_witness :
  exists w' adj, adjust_sample = (w', Ok adj) /\ adjustment_of adjust_input adj /\
    adjusted sample_uc adjust_input manual_db (W_db w') adj.
Proof.
  pose proof adjust_sample_result as Hs. destruct adjust_sample as [w' [adj|e]] eqn:E; [|discriminate Hs].
  exists w', adj. split; [reflexivity|]. unfold adjust_sample in E.
  pose proof (CreateAdjustment_audited (DL:=model_decimal_laws) (A:=model_assert) (AL:=model_assert_laws) (V:=quiet_env)
    sample_uc adjust_input manual_world eq_refl chains_wf_empty) as H.
  rewrite E in H. destruct H as (_ & H1 & _ & H2). split; [exact H1|exact H2].
Defined.
