(* ===== verification/Lock.v ===== *)
(** * The lock of a reconciliation context

    Models internal/matching/adapters/redis/lock_manager.go over a Redis
    server, and match_group_lock_commands.go ([acquireContextLock],
    [releaseMatchLock]).  A server entry is a token with the instant, in
    milliseconds, at which it expires; the two Lua scripts run atomically.

    Many clients use the server at once: [lock_step] interleaves their calls
    with the passing of time, crashes, and calls whose reply is lost after the
    server has executed them.  Tokens are 16 random bytes and are taken to be
    distinct. *)
From S2P Require Import GoLib GoLibModel.
Local Open Scope Z_scope.

Inductive LockError : Type :=
| errLockTTLInvalid | errLockTenantRequired | errLockContextIDInvalid
| ErrLockAlreadyHeld
| ErrMatchRunLocked
| ErrAcquireLock (e : LockError).

Definition lockKeyPrefix : string := "matcher:matchrun:lock".
Definition nanos_per_millisecond : Z := 1000000.
Definition lockTTL : Duration := 15 * 60 * nanos_per_second.

(** ** Redis *)
Abbreviation redis := (gmap string (string * Z)).

Definition redis_Get (now : Z) (key : string) (r : redis) : option string :=
  match r !! key with
  | Some (token, expires) => if now <? expires then Some token else None
  | None => None
  end.

(** [SET key token PX ttl NX], with at least one millisecond. *)
Definition redis_SetNX (now : Z) (key token : string) (ttl : Duration) (r : redis) : redis * bool :=
  match redis_Get now key r with
  | Some _ => (r, false)
  | None => (<[key := (token, now + Z.max 1 (Z.quot ttl nanos_per_millisecond))]> r, true)
  end.

Definition redis_Del (now : Z) (key : string) (r : redis) : redis * Z :=
  match redis_Get now key r with
  | Some _ => (delete key r, 1)
  | None => (r, 0)
  end.

(** A time to live that is not positive deletes the entry. *)
Definition redis_PExpire (now : Z) (key : string) (milliseconds : Z) (r : redis) : redis * Z :=
  match redis_Get now key r with
  | Some token => (if milliseconds <=? 0 then delete key r else <[key := (token, now + milliseconds)]> r, 1)
  | None => (r, 0)
  end.

(** ** The lock manager *)
Section manager.
  Context {U : UUIDLib}.

Record lock : Type := mkLock {
  LK_key : string;
  LK_token : string;
}.

Definition acquireLock (now : Z) (key : string) (ttl : Duration) (token : string) : st redis LockError lock := fun r =>
  match redis_SetNX now key token ttl r with
  | (r', true) => (r', Ok (mkLock key token))
  | (r', false) => (r', Err ErrLockAlreadyHeld)
  end.

Definition lock_key (tenantID : string) (contextID : uuid) : string :=
  lockKeyPrefix +:+ ":" +:+ tenantID +:+ ":" +:+ uuid_String contextID.

Definition AcquireContextLock (tenant : string) (now : Z) (contextID : uuid) (ttl : Duration) (token : string)
    : st redis LockError lock :=
  _ ← st_ensure (negb (ttl <=? 0)) errLockTTLInvalid;
  _ ← st_ensure (negb (bool_decide (contextID = uuid_Nil))) errLockContextIDInvalid;
  let tenantID := strings_TrimSpace tenant in
  _ ← st_ensure (negb (string_empty tenantID)) errLockTenantRequired;
  acquireLock now (lock_key tenantID contextID) ttl token.

(** The transaction identifiers are not used. *)
Definition AcquireTransactionsLock (tenant : string) (now : Z) (contextID : uuid) (transactionIDs : list uuid)
    (ttl : Duration) (token : string) : st redis LockError lock :=
  AcquireContextLock tenant now contextID ttl token.

Definition Refresh (now : Z) (lck : lock) (ttl : Duration) : st redis LockError unit := fun r =>
  if string_empty (strings_TrimSpace (LK_key lck)) then (r, Ok tt)
  else
    let '(r', refreshedCount) :=
      if bool_decide (redis_Get now (LK_key lck) r = Some (LK_token lck))
      then redis_PExpire now (LK_key lck) (Z.quot ttl nanos_per_millisecond) r else (r, 0) in
    (r', if refreshedCount =? 0 then Err ErrLockAlreadyHeld else Ok tt).

Definition Release (now : Z) (lck : lock) : st redis LockError unit := fun r =>
  if string_empty (strings_TrimSpace (LK_key lck)) then (r, Ok tt)
  else
    let '(r', releasedCount) :=
      if bool_decide (redis_Get now (LK_key lck) r = Some (LK_token lck))
      then redis_Del now (LK_key lck) r else (r, 0) in
    (r', if releasedCount =? 0 then Err ErrLockAlreadyHeld else Ok tt).

(** [acquireContextLock] of the use case. *)
Definition acquireContextLock (tenant : string) (now : Z) (contextID : uuid) (token : string) : st redis LockError lock :=
  fun r =>
  match AcquireContextLock tenant now contextID lockTTL token r with
  | (r', Err ErrLockAlreadyHeld) => (r', Err ErrMatchRunLocked)
  | (r', Err e) => (r', Err (ErrAcquireLock e))
  | out => out
  end.

(** ** Clients *)

(** A lock a run holds, and until when its last successful call made it valid. *)
Record client : Type := mkClient {
  CL_lock : lock;
  CL_valid : Z;
}.

Record locks : Type := mkLocks {
  LS_redis : redis;
  LS_now : Z;
  LS_clients : gmap nat client;
  LS_tokens : gset string;
}.

Definition lease (now : Z) : Z := now + Z.quot lockTTL nanos_per_millisecond.

Inductive lock_step : locks -> locks -> Prop :=
| step_time r now cs tokens now' :
    now <= now' -> lock_step (mkLocks r now cs tokens) (mkLocks r now' cs tokens)
| step_acquire r now cs tokens i tenant contextID token r' lck :
    cs !! i = None -> token ∉ tokens ->
    acquireContextLock tenant now contextID token r = (r', Ok lck) ->
    lock_step (mkLocks r now cs tokens) (mkLocks r' now (<[i := mkClient lck (lease now)]> cs) ({[token]} ∪ tokens))
| step_acquire_refused r now cs tokens tenant contextID token r' e :
    token ∉ tokens -> acquireContextLock tenant now contextID token r = (r', Err e) ->
    lock_step (mkLocks r now cs tokens) (mkLocks r' now cs ({[token]} ∪ tokens))
| step_acquire_lost r now cs tokens tenant contextID token :
    token ∉ tokens ->
    lock_step (mkLocks r now cs tokens)
      (mkLocks (acquireContextLock tenant now contextID token r).1 now cs ({[token]} ∪ tokens))
| step_refresh r now cs tokens i c r' :
    cs !! i = Some c -> Refresh now (CL_lock c) lockTTL r = (r', Ok tt) ->
    lock_step (mkLocks r now cs tokens) (mkLocks r' now (<[i := mkClient (CL_lock c) (lease now)]> cs) tokens)
| step_refresh_failed r now cs tokens i c :
    cs !! i = Some c ->
    lock_step (mkLocks r now cs tokens) (mkLocks (Refresh now (CL_lock c) lockTTL r).1 now cs tokens)
| step_release r now cs tokens i c :
    cs !! i = Some c ->
    lock_step (mkLocks r now cs tokens) (mkLocks (Release now (CL_lock c) r).1 now (delete i cs) tokens)
| step_crash r now cs tokens i :
    lock_step (mkLocks r now cs tokens) (mkLocks r now (delete i cs) tokens).

Definition locks_init (now : Z) : locks := mkLocks ∅ now ∅ ∅.
End manager.

Section exclusion.
  Context {U : UUIDLib}.

(** ** What the calls do to the server *)
Lemma redis_Get_stored now key r token :
  redis_Get now key r = Some token <-> exists e, r !! key = Some (token, e) /\ now < e.
Proof.
  unfold redis_Get. destruct (r !! key) as [[t e]|]; [|naive_solver].
  destruct (Z.ltb_spec now e); split; [intros [= ->]; eauto|by intros (e' & [= -> ->] & ?)|done|].
  intros (e' & [= -> ->] & ?). lia.
Qed.

Lemma strip_any_elem ws s r : strip_any ws s = Some r -> exists w, w ∈ ws /\ s = w ++ r.
Proof.
  induction ws as [|w ws IH]; cbn; [done|]. destruct (strip_prefix w s) eqn:E.
  - intros [= ->]. exists w. split; [left|by apply strip_prefix_split].
  - intros (w' & ? & ?)%IH. exists w'. split; [by right|done].
Qed.

Lemma trim_front_keeps ws a fuel s : Forall (fun w => a ∉ w) ws -> a ∈ s -> a ∈ trim_front fuel ws s.
Proof.
  intros Hws. revert s. induction fuel as [|fuel IH]; intros s Ha; cbn; [done|].
  destruct (strip_any ws s) as [r|] eqn:E; [|done]. apply IH. apply strip_any_elem in E as (w & Hw & ->).
  rewrite Forall_forall in Hws. specialize (Hws w Hw). set_solver.
Qed.

Lemma rev_elem (a : ascii) l : a ∈ rev l <-> a ∈ l.
Proof. by rewrite !list_elem_of_In, <- in_rev. Qed.

(** A key is never blank, so the scripts always run. *)
Lemma lock_key_not_blank tenant contextID : string_empty (strings_TrimSpace (lock_key tenant contextID)) = false.
Proof.
  apply bool_decide_eq_false_2. intros E. apply (f_equal String.list_ascii_of_string) in E.
  unfold strings_TrimSpace, trim_right, trim_left in E. rewrite String.list_ascii_of_string_of_list_ascii in E.
  set (a := Ascii.ascii_of_nat 109). set (l := String.list_ascii_of_string _) in E.
  set (x := trim_front (length l) white_space l) in E.
  assert (a ∈ x) as Hx.
  { apply trim_front_keeps; [apply (bool_decide_unpack _); by vm_compute|left]. }
  assert (a ∈ rev (trim_front (length x) (@rev ascii <$> white_space) (rev x))) as H; [|rewrite E in H; by apply not_elem_of_nil in H].
  apply rev_elem, trim_front_keeps; [apply (bool_decide_unpack _); by vm_compute|by apply rev_elem].
Qed.
(** An acquisition takes a free entry, with the whole lease. *)
Lemma acquireContextLock_cases tenant now contextID token r r' out :
  acquireContextLock tenant now contextID token r = (r', out) ->
  (exists lck, out = Ok lck /\ LK_token lck = token /\ string_empty (strings_TrimSpace (LK_key lck)) = false /\
     redis_Get now (LK_key lck) r = None /\ r' = <[LK_key lck := (token, lease now)]> r) \/
  ((exists e, out = Err e) /\ r' = r).
Proof.
  unfold acquireContextLock, AcquireContextLock, acquireLock, redis_SetNX, st_ensure, st_lift, mbind, st_bind. cbn.
  case_bool_decide; cbn; [intros [= <- <-]; eauto|]. destruct (string_empty _) eqn:Et; cbn; [intros [= <- <-]; eauto|].
  set (key := lock_key _ _). destruct (redis_Get now key r) eqn:Eg; intros [= <- <-]; [eauto|left].
  eexists. split; [done|]. split_and!; try done. apply lock_key_not_blank.
Qed.

(** A refresh or a release touches the entry only if it holds its token. *)
Lemma Refresh_cases now lck r r' out :
  string_empty (strings_TrimSpace (LK_key lck)) = false -> Refresh now lck lockTTL r = (r', out) ->
  (out = Ok tt /\ redis_Get now (LK_key lck) r = Some (LK_token lck) /\
     r' = <[LK_key lck := (LK_token lck, lease now)]> r) \/
  (out = Err ErrLockAlreadyHeld /\ r' = r).
Proof.
  intros Hk. unfold Refresh. rewrite Hk. case_bool_decide as E; [|by intros [= <- <-]; auto].
  unfold redis_PExpire. rewrite E. intros [= <- <-]. left. by split_and!.
Qed.

Lemma Release_cases now lck r r' out :
  string_empty (strings_TrimSpace (LK_key lck)) = false -> Release now lck r = (r', out) ->
  (redis_Get now (LK_key lck) r = Some (LK_token lck) /\ r' = delete (LK_key lck) r) \/ r' = r.
Proof.
  intros Hk. unfold Release. rewrite Hk. case_bool_decide as E; [|by intros [= <- <-]; auto].
  unfold redis_Del. rewrite E. intros [= <- <-]. by left.
Qed.

(** ** The invariant *)
Definition client_ok (s : locks) (c : client) : Prop :=
  LK_token (CL_lock c) ∈ LS_tokens s /\ string_empty (strings_TrimSpace (LK_key (CL_lock c))) = false /\
  CL_valid c <= lease (LS_now s) /\
  (LS_now s < CL_valid c -> exists e, LS_redis s !! LK_key (CL_lock c) = Some (LK_token (CL_lock c), e) /\ CL_valid c <= e).

Record locks_ok (s : locks) : Prop := {
  lo_clients : forall i c, LS_clients s !! i = Some c -> client_ok s c;
  lo_tokens : forall i j ci cj, LS_clients s !! i = Some ci -> LS_clients s !! j = Some cj ->
    LK_token (CL_lock ci) = LK_token (CL_lock cj) -> i = j;
  lo_expiry : forall k t e, LS_redis s !! k = Some (t, e) -> e <= lease (LS_now s);
}.

Lemma valid_get s c : client_ok s c -> LS_now s < CL_valid c ->
  redis_Get (LS_now s) (LK_key (CL_lock c)) (LS_redis s) = Some (LK_token (CL_lock c)).
Proof. intros (_ & _ & _ & H) Hv. destruct (H Hv) as (e & He & ?). apply redis_Get_stored. exists e. split; [done|lia]. Qed.

(** A client keeps its standing when the entry of its key stays, or is given a
    full lease, or is no longer relied on. *)
Lemma client_ok_redis r now cs cs' tokens tokens' r' c :
  client_ok (mkLocks r now cs tokens) c -> tokens ⊆ tokens' ->
  (now < CL_valid c -> r' !! LK_key (CL_lock c) = r !! LK_key (CL_lock c) \/
     r' !! LK_key (CL_lock c) = Some (LK_token (CL_lock c), lease now)) ->
  client_ok (mkLocks r' now cs' tokens') c.
Proof.
  intros (H1 & H2 & H3 & H4) Ht Hr. cbn in *. split_and!; cbn; [set_solver|done|done|].
  intros Hv. destruct (H4 Hv) as (e & He & ?). destruct (Hr Hv) as [-> | ->]; eauto.
Qed.

Lemma acquired_other r now cs tokens c k token e :
  client_ok (mkLocks r now cs tokens) c -> redis_Get now k r = None -> now < CL_valid c ->
  <[k := (token, e)]> r !! LK_key (CL_lock c) = r !! LK_key (CL_lock c).
Proof.
  intros Hc Hg Hv. apply lookup_insert_ne. intros ->. pose proof (valid_get _ _ Hc Hv) as H. cbn in H. congruence.
Qed.

Lemma refreshed_other r now cs tokens c c' r' out :
  client_ok (mkLocks r now cs tokens) c -> client_ok (mkLocks r now cs tokens) c' ->
  Refresh now (CL_lock c) lockTTL r = (r', out) -> now < CL_valid c' ->
  r' !! LK_key (CL_lock c') = r !! LK_key (CL_lock c') \/
  r' !! LK_key (CL_lock c') = Some (LK_token (CL_lock c'), lease now).
Proof.
  intros (_ & Hk & _) Hc' [(_ & Hg & ->)|[_ ->]]%Refresh_cases Hv; [|by left|done].
  destruct (decide (LK_key (CL_lock c) = LK_key (CL_lock c'))) as [E|E]; [right|left; by apply lookup_insert_ne].
  pose proof (valid_get _ _ Hc' Hv) as H. cbn in H. rewrite E in Hg. rewrite Hg in H. injection H as H.
  by rewrite E, H, lookup_insert_eq.
Qed.

Lemma released_other r now cs tokens c c' r' out :
  client_ok (mkLocks r now cs tokens) c -> client_ok (mkLocks r now cs tokens) c' ->
  LK_token (CL_lock c) <> LK_token (CL_lock c') ->
  Release now (CL_lock c) r = (r', out) -> now < CL_valid c' -> r' !! LK_key (CL_lock c') = r !! LK_key (CL_lock c').
Proof.
  intros (_ & Hk & _) Hc' Hne [[Hg ->]| ->]%Release_cases Hv; [|done|done].
  apply lookup_delete_ne. intros E. apply Hne. pose proof (valid_get _ _ Hc' Hv) as H. cbn in H. rewrite E in Hg. congruence.
Qed.

(** No entry outlives a full lease. *)
Definition expiring (now : Z) (r : redis) : Prop := forall k t e, r !! k = Some (t, e) -> e <= lease now.

Lemma expiring_insert now r k t : expiring now r -> expiring now (<[k := (t, lease now)]> r).
Proof. intros H k' t' e [[_ [= _ <-]]|[_ ?]]%lookup_insert_Some; [done|eauto]. Qed.

Lemma lock_step_expiry s s' :
  lock_step s s' -> locks_ok s -> expiring (LS_now s') (LS_redis s').
Proof.
  intros Hs [Hc _ He]. change (expiring (LS_now s) (LS_redis s)) in He.
  destruct Hs as [r now cs tk now' Hle|r now cs tk i tn cid tok r' lck Hi Hf Ha|
    r now cs tk tn cid tok r' e Hf Ha|r now cs tk tn cid tok Hf|r now cs tk i c r' Hi Hr|r now cs tk i c Hi|
    r now cs tk i c Hi|r now cs tk i]; cbn in *; try done.
  - intros k t e H. specialize (He _ _ _ H). unfold lease in *. lia.
  - apply acquireContextLock_cases in Ha as [(l & _ & _ & _ & _ & ->)|(_ & ->)]; [by apply expiring_insert|done].
  - apply acquireContextLock_cases in Ha as [(l & _ & _ & _ & _ & ->)|(_ & ->)]; [by apply expiring_insert|done].
  - destruct (acquireContextLock tn now cid tok r) as [r' out] eqn:Ha.
    apply acquireContextLock_cases in Ha as [(l & _ & _ & _ & _ & ->)|(_ & ->)]; [by apply expiring_insert|done].
  - destruct (Hc i c Hi) as (_ & Hk & _).
    apply Refresh_cases in Hr as [(_ & _ & ->)|[_ ->]]; [by apply expiring_insert|done|done].
  - destruct (Hc i c Hi) as (_ & Hk & _). destruct (Refresh now (CL_lock c) lockTTL r) as [r' out] eqn:Hr.
    apply Refresh_cases in Hr as [(_ & _ & ->)|[_ ->]]; [by apply expiring_insert|done|done].
  - destruct (Hc i c Hi) as (_ & Hk & _). destruct (Release now (CL_lock c) r) as [r' out] eqn:Hr.
    apply Release_cases in Hr as [[_ ->]| ->]; [|done|done]. intros k t e H. cbn in H.
    apply lookup_delete_Some in H as [_ H]. eauto.
Qed.

Lemma lock_step_clients s s' :
  lock_step s s' -> locks_ok s ->
  (forall i c, LS_clients s' !! i = Some c -> client_ok s' c) /\
  (forall i j ci cj, LS_clients s' !! i = Some ci -> LS_clients s' !! j = Some cj ->
    LK_token (CL_lock ci) = LK_token (CL_lock cj) -> i = j).
Proof.
  intros Hs [Hc Ht _]. destruct Hs as [r now cs tk now' Hle|r now cs tk i tn cid tok r' lck Hi Hf Ha|
    r now cs tk tn cid tok r' e Hf Ha|r now cs tk tn cid tok Hf|r now cs tk i c r' Hi Hr|r now cs tk i c Hi|
    r now cs tk i c Hi|r now cs tk i]; cbn in *.
  - split; [|done]. intros i c Hi. destruct (Hc i c Hi) as (H1 & H2 & H3 & H4). cbn in *.
    split_and!; cbn; try done; [unfold lease in *; lia|]. intros Hv. apply H4. lia.
  - apply acquireContextLock_cases in Ha as [(l & [= <-] & <- & Hk & Hg & ->)|([e ?] & _)]; [|done]. split; cbn.
    + intros j c [[<- <-]|[Hne Hj]]%lookup_insert_Some; cbn.
      * split_and!; cbn; [set_solver|done|done|]. intros _. exists (lease now). by rewrite lookup_insert_eq.
      * eapply client_ok_redis; [by apply (Hc j)|set_solver|]. intros Hv. left. eapply acquired_other; [by apply (Hc j)|done|done].
    + intros j1 j2 c1 c2 [[<- <-]|[? H1]]%lookup_insert_Some [[<- <-]|[? H2]]%lookup_insert_Some E; cbn in E;
        [done|destruct (Hc _ _ H2) as [? _]; cbn in *; congruence|destruct (Hc _ _ H1) as [? _]; cbn in *; congruence|eauto].
  - apply acquireContextLock_cases in Ha as [(l & ? & _)|(_ & ->)]; [done|]. split; [|done]. intros j c Hj.
    eapply client_ok_redis; [by apply (Hc j)|set_solver|by left].
  - destruct (acquireContextLock tn now cid tok r) as [r' out] eqn:Ha. cbn. split; [|done]. intros j c Hj.
    eapply client_ok_redis; [by apply (Hc j)|set_solver|]. intros Hv. left.
    apply acquireContextLock_cases in Ha as [(l & _ & _ & _ & Hg & ->)|(_ & ->)]; [|done].
    eapply acquired_other; [by apply (Hc j)|done|done].
  - pose proof (Hc i c Hi) as Hci. split; cbn.
    + intros j c' [[<- <-]|[Hne Hj]]%lookup_insert_Some.
      * destruct Hci as (H1 & H2 & _). apply Refresh_cases in Hr as [(_ & Hg & ->)|[? _]]; [|done|done].
        split_and!; cbn; [done..|]. intros _. exists (lease now). by rewrite lookup_insert_eq.
      * eapply client_ok_redis; [by apply (Hc j)|done|]. intros Hv.
        eapply refreshed_other; [exact Hci|by apply (Hc j)|exact Hr|done].
    + intros j1 j2 c1 c2 [[<- <-]|[? H1]]%lookup_insert_Some [[<- <-]|[? H2]]%lookup_insert_Some E; cbn in E; eauto.
  - destruct (Refresh now (CL_lock c) lockTTL r) as [r' out] eqn:Hr. cbn. split; [|done]. intros j c' Hj.
    eapply client_ok_redis; [by apply (Hc j)|done|]. intros Hv.
    eapply refreshed_other; [by apply (Hc i)|by apply (Hc j)|exact Hr|done].
  - destruct (Release now (CL_lock c) r) as [r' out] eqn:Hr. cbn. split; cbn.
    + intros j c' [Hne Hj]%lookup_delete_Some. eapply client_ok_redis; [by apply (Hc j)|done|]. intros Hv. left.
      eapply released_other; [by apply (Hc i)|by apply (Hc j)| |exact Hr|done]. intros E. apply Hne. eauto.
    + intros j1 j2 c1 c2 [_ H1]%lookup_delete_Some [_ H2]%lookup_delete_Some. eauto.
  - split; cbn.
    + intros j c [_ Hj]%lookup_delete_Some. by apply (Hc j).
    + intros j1 j2 c1 c2 [_ H1]%lookup_delete_Some [_ H2]%lookup_delete_Some. eauto.
Qed.

Lemma lock_step_ok s s' : lock_step s s' -> locks_ok s -> locks_ok s'.
Proof. intros Hs Hok. destruct (lock_step_clients _ _ Hs Hok). split; [done..|]. by eapply lock_step_expiry. Qed.

Lemma locks_reachable_ok now s : rtc lock_step (locks_init now) s -> locks_ok s.
Proof.
  intros H. assert (locks_ok (locks_init now)) as Hi by (split; cbn; intros *; rewrite lookup_empty; done).
  remember (locks_init now) as s0 eqn:E. clear E. induction H; eauto using lock_step_ok.
Qed.

(** C17: the lock excludes.  Whatever the clients do, however calls interleave,
    fail after taking effect or never return, while the lease of a client's
    last successful call lasts the server holds its token: no other client has
    a valid lease on the key, and no other can acquire it. *)
Theorem lock_exclusive now s i c :
  rtc lock_step (locks_init now) s -> LS_clients s !! i = Some c -> LS_now s < CL_valid c ->
  redis_Get (LS_now s) (LK_key (CL_lock c)) (LS_redis s) = Some (LK_token (CL_lock c)) /\
  (forall j c', LS_clients s !! j = Some c' -> LK_key (CL_lock c') = LK_key (CL_lock c) -> LS_now s < CL_valid c' -> j = i) /\
  (forall tenant contextID token, lock_key (strings_TrimSpace tenant) contextID = LK_key (CL_lock c) ->
     exists e, acquireContextLock tenant (LS_now s) contextID token (LS_redis s) = (LS_redis s, Err e)).
Proof.
  intros Hr Hi Hv. destruct (locks_reachable_ok _ _ Hr) as [Hc Ht]. pose proof (valid_get _ _ (Hc i c Hi) Hv) as Hg.
  split_and!; [done| |].
  - intros j c' Hj Ek Hv'. pose proof (valid_get _ _ (Hc j c' Hj) Hv') as Hg'. rewrite Ek, Hg in Hg'.
    injection Hg' as E. symmetry. eauto.
  - intros tenant contextID token Ek. destruct (acquireContextLock _ _ _ _ _) as [r' out] eqn:E. assert (E' := E).
    apply acquireContextLock_cases in E as [(lck & -> & _ & _ & Hn & _)|([e ->] & ->)]; [|eauto]. exfalso.
    unfold acquireContextLock, AcquireContextLock, acquireLock, redis_SetNX, st_ensure, st_lift, mbind, st_bind in E'.
    cbn in E'. case_bool_decide; cbn in E'; [done|]. destruct (string_empty _); cbn in E'; [done|].
    rewrite Ek, Hg in E'. done.
Qed.

(** A lock is never stuck.  Whatever happened before, a context whose
    entry nobody touches for fifteen minutes can be locked again; the lock then
    holds, can be refreshed, and its release frees the context. *)
Theorem lock_recovers now0 s tenant now contextID token :
  rtc lock_step (locks_init now0) s -> lease (LS_now s) <= now ->
  contextID <> uuid_Nil -> strings_TrimSpace tenant <> "" ->
  let lck := mkLock (lock_key (strings_TrimSpace tenant) contextID) token in
  let '(r', out) := acquireContextLock tenant now contextID token (LS_redis s) in
  out = Ok lck /\ redis_Get now (LK_key lck) r' = Some token /\
  Refresh now lck lockTTL r' = (r', Ok tt) /\
  redis_Get now (LK_key lck) (Release now lck r').1 = None.
Proof.
  intros Hr Hnow Hid Ht. destruct (locks_reachable_ok _ _ Hr) as [_ _ He]. set (r := LS_redis s) in *.
  set (key := lock_key _ _).
  assert (Hg : redis_Get now key r = None).
  { unfold redis_Get. destruct (r !! key) as [[t e]|] eqn:E; [|done]. specialize (He _ _ _ E).
    by rewrite (proj2 (Z.ltb_ge _ _)) by lia. }
  unfold acquireContextLock, AcquireContextLock, acquireLock, redis_SetNX, st_ensure, st_lift, mbind, st_bind. cbn.
  rewrite bool_decide_eq_false_2 by done. cbn. unfold string_empty at 1. rewrite bool_decide_eq_false_2 by done. cbn. fold key. rewrite Hg.
  set (r' := <[key := _]> r). change (now + _) with (lease now) in r'.
  assert (Hg' : redis_Get now key r' = Some token).
  { apply redis_Get_stored. exists (lease now). unfold r'. rewrite lookup_insert_eq. split; [done|]. unfold lease.
    change (Z.quot lockTTL nanos_per_millisecond) with 900000. lia. }
  assert (Hb : string_empty (strings_TrimSpace key) = false) by apply lock_key_not_blank.
  split_and!; [done|done| |].
  - unfold Refresh. cbn [LK_key LK_token]. rewrite Hb, bool_decide_eq_true_2 by done.
    unfold redis_PExpire. rewrite Hg'. cbn. f_equal. unfold r'. by rewrite insert_insert_eq.
  - unfold Release. cbn [LK_key LK_token]. rewrite Hb, bool_decide_eq_true_2 by done.
    unfold redis_Del. rewrite Hg'. cbn. unfold redis_Get. by rewrite lookup_delete_eq.
Qed.
End exclusion.

(** ** A sample run *)
Definition sample_locks : locks :=
  mkLocks (acquireContextLock (U:=model_uuid) "tenant" 0 "ctx" "t0" ∅).1 1000
    (<[0%nat := mkClient (mkLock (lock_key (U:=model_uuid) "tenant" "ctx") "t0") (lease 0)]> ∅) {["t0"]}.

Lemma sample_locks_reachable : rtc (lock_step (U:=model_uuid)) (locks_init 0) sample_locks.
Proof.
  eapply rtc_l.
  - eapply (step_acquire (U:=model_uuid) ∅ 0 ∅ ∅ 0%nat "tenant" "ctx" "t0"); [reflexivity|apply not_elem_of_empty|reflexivity].
  - rewrite union_empty_r_L. apply rtc_once. by apply (step_time (U:=model_uuid)).
Qed.

Lemma lock_exclusive_witness :
  redis_Get 1000 (lock_key (U:=model_uuid) "tenant" "ctx") (LS_redis sample_locks) = Some "t0" /\
  exists e, acquireContextLock (U:=model_uuid) "tenant" 1000 "ctx" "t1" (LS_redis sample_locks) = (LS_redis sample_locks, Err e).
Proof.
  destruct (lock_exclusive 0 sample_locks 0%nat (mkClient (mkLock (lock_key (U:=model_uuid) "tenant" "ctx") "t0") (lease 0))
    sample_locks_reachable eq_refl ltac:(reflexivity)) as (H1 & _ & H2).
  split; [exact H1|]. apply (H2 "tenant" "ctx" "t1"). reflexivity.
Defined.

Lemma lock_recovers_witness :
  exists r' lck, acquireContextLock (U:=model_uuid) "tenant" 901000 "ctx" "t1" (LS_redis sample_locks) = (r', Ok lck).
Proof.
  pose proof (lock_recovers 0 sample_locks "tenant" 901000 ("ctx" : @uuid model_uuid) "t1" sample_locks_reachable
    ltac:(vm_compute; discriminate) ltac:(discriminate) ltac:(vm_compute; discriminate)) as H.
  cbv zeta in H. destruct (acquireContextLock _ _ _ _ _) as [r' out]. destruct H as (-> & _). eauto.
Defined.
