(* ===== verification/ExceptionRepo.v ===== *)
(** * The repository of exceptions and its concurrent users

    Models internal/exception/adapters/postgres/exception/{exception,
    exception_queries.postgresql,exception_write.postgresql}.go: reading a row
    and the update that checks the version it was read at.

    [exception_updates_serialize]: users that read, change and write rows in
    any interleaving, with matching runs that re-classify rows in between,
    leave each row as its committed changes applied one after another would;
    [severity_lost] shows that the classification itself is not protected. *)
From S2P Require Import GoLib GoLibModel MatchTypes RunPrepare RunExecute Severity Exceptions Store.
Local Open Scope Z_scope.

Definition bigint_max : Z := 2 ^ 63 - 1.

Section repository.
  Context {U : UUIDLib} {D : DecimalLib} {A : AssertLib} {N : UnicodeLib} {V : Env U}.

(** [scanInto]: severity and status are parsed again. *)
Definition scanInto (row : Exception) : res CmdError Exception :=
  severity ← map_err (fun _ => ErrException ErrExceptionSeverityInvalid) (ParseExceptionSeverity (EX_Severity row));
  status ← map_err ErrException (ParseExceptionStatus (EX_Status row));
  Ok (reclass severity (EX_Reason row) (EX_UpdatedAt row) (set_exception_status status row)).

Definition select_exception (id : uuid) (d : DB) : res CmdError Exception :=
  match exception_at id d with
  | Some row => scanInto row
  | None => Err (ErrException ErrExceptionNotFound)
  end.

Definition exceptionRepo_FindByID (id : uuid) : io Exception := sql_read (select_exception id).

(** The row an update writes. *)
Definition updated_exception (now : Time) (exception row : Exception) : Exception :=
  mkException (EX_ID row) (EX_TransactionID row) (EX_Severity exception) (EX_Status exception)
    (EX_ExternalSystem exception) (EX_ExternalIssueID exception) (EX_AssignedTo exception) (EX_DueAt exception)
    (EX_ResolutionNotes exception) (EX_ResolutionType exception) (EX_ResolutionReason exception)
    (EX_Reason exception) (EX_Version row + 1) (EX_CreatedAt row) now.

(** [UPDATE ... WHERE id = $1 AND version = $13]; the result says whether a
    row was affected. *)
Definition update_exception (now : Time) (exception : Exception) (d : DB) : res CmdError (DB * bool) :=
  match exception_at (EX_ID exception) d with
  | Some row =>
      if EX_Version row =? EX_Version exception
      then _ ← ensure (EX_Version row <? bigint_max) (ErrDatabase "bigint out of range");
           Ok (set_exceptions <[EX_TransactionID row := updated_exception now exception row]> d, true)
      else Ok (d, false)
  | None => Ok (d, false)
  end.

Definition exists_exception (id : uuid) (d : DB) : res CmdError (DB * bool) :=
  Ok (d, bool_decide (is_Some (exception_at id d))).

Definition exceptionRepo_executeUpdate (exception : Exception) : io Exception :=
  now ← io_now;
  affected ← sql false (update_exception now exception);
  if (affected : bool) then sql false (fun d => x ← select_exception (EX_ID exception) d; Ok (d, x))
  else
    found ← sql false (exists_exception (EX_ID exception));
    io_fail (if (found : bool) then ErrConcurrentModification else ErrException ErrExceptionNotFound).

Definition exceptionRepo_Update (exception : Exception) : io Exception := WithTx false (exceptionRepo_executeUpdate exception).
Definition exceptionRepo_UpdateWithTx (exception : Exception) : io Exception :=
  ExistingTx (exceptionRepo_executeUpdate exception).
End repository.

(** ** Rows *)
Section rows.
  Context {U : UUIDLib} {D : DecimalLib} {A : AssertLib} {AL : AssertLaws A} {N : UnicodeLib} {NL : UnicodeLaws N}
    {V : Env U}.

Record exceptions_ok (d : DB) : Prop := {
  xo_key : forall k x, DB_exceptions d !! k = Some x -> EX_TransactionID x = k;
  xo_ids : forall k k' x x', DB_exceptions d !! k = Some x -> DB_exceptions d !! k' = Some x' -> EX_ID x = EX_ID x' -> k = k';
  xo_rows : forall k x, DB_exceptions d !! k = Some x -> ExceptionSeverity_IsValid (EX_Severity x) = true /\ exception_wf x;
}.

Lemma ParseExceptionSeverity_valid s : ExceptionSeverity_IsValid s = true -> ParseExceptionSeverity s = Ok s.
Proof.
  unfold ExceptionSeverity_IsValid. rewrite bool_decide_eq_true. intros H. unfold ParseExceptionSeverity.
  rewrite !elem_of_cons in H. destruct H as [-> |[-> |[-> |[-> |H]]]]; [..|by apply not_elem_of_nil in H];
    rewrite ToUpper_ascii by (by vm_compute); by vm_compute.
Qed.

Lemma ParseExceptionStatus_valid s : ExceptionStatus_IsValid s = true -> ParseExceptionStatus s = Ok s.
Proof.
  unfold ExceptionStatus_IsValid. rewrite bool_decide_eq_true. intros H. unfold ParseExceptionStatus.
  rewrite !elem_of_cons in H. destruct H as [-> |[-> |[-> |[-> |H]]]]; [..|by apply not_elem_of_nil in H];
    rewrite ToUpper_ascii by (by vm_compute); by vm_compute.
Qed.

Lemma scanInto_valid x : ExceptionSeverity_IsValid (EX_Severity x) = true -> exception_wf x -> scanInto x = Ok x.
Proof.
  intros Hs [Ht _ _]. unfold scanInto. rewrite ParseExceptionSeverity_valid, ParseExceptionStatus_valid by done. by destruct x.
Qed.

Lemma exception_at_Some d id x :
  exceptions_ok d -> exception_at id d = Some x <-> DB_exceptions d !! EX_TransactionID x = Some x /\ EX_ID x = id.
Proof.
  intros [Hk Hi _]. unfold exception_at. split.
  - intros H. assert (x ∈ filter (fun x => EX_ID x = id) (map_to_list (DB_exceptions d)).*2) as Hx.
    { destruct (filter _ _); [done|]. injection H as ->. by left. }
    apply list_elem_of_filter in Hx as [<- Hx]. apply list_elem_of_fmap in Hx as ([k y] & -> & Hx).
    apply elem_of_map_to_list in Hx. cbn. by rewrite (Hk _ _ Hx).
  - intros [Hx <-]. destruct (filter _ _) as [|y l] eqn:E.
    + assert (x ∈ @nil Exception) as Hn; [|by apply not_elem_of_nil in Hn]. rewrite <-E.
      apply list_elem_of_filter. split; [done|]. apply list_elem_of_fmap. exists (EX_TransactionID x, x).
      split; [done|]. by apply elem_of_map_to_list.
    + assert (y ∈ y :: l) as Hy by left. rewrite <-E in Hy. apply list_elem_of_filter in Hy as [Hid Hy].
      apply list_elem_of_fmap in Hy as ([k z] & -> & Hz). apply elem_of_map_to_list in Hz. cbn in *.
      rewrite (Hi _ _ _ _ Hz Hx Hid) in Hz. congruence.
Qed.

Lemma select_exception_Ok d id x :
  exceptions_ok d -> select_exception id d = Ok x <-> DB_exceptions d !! EX_TransactionID x = Some x /\ EX_ID x = id.
Proof.
  intros Hd. rewrite <-(exception_at_Some d id x Hd). unfold select_exception. destruct (exception_at id d) as [y|] eqn:E; [|done].
  apply exception_at_Some in E as [Hy _]; [|done]. destruct (xo_rows d Hd _ _ Hy). rewrite scanInto_valid by done.
  split; congruence.
Qed.

(** The rows after an update that found its version. *)
Lemma update_exception_affected now x d d' :
  exceptions_ok d -> update_exception now x d = Ok (d', true) -> exists row,
  DB_exceptions d !! EX_TransactionID row = Some row /\ EX_ID row = EX_ID x /\ EX_Version row = EX_Version x /\
  d' = set_exceptions <[EX_TransactionID row := updated_exception now x row]> d.
Proof.
  intros Hd. unfold update_exception. destruct (exception_at _ d) as [row|] eqn:E; [|done].
  apply exception_at_Some in E as [Hr Hid]; [|done]. destruct (_ =? _) eqn:Ev; [|done]. apply Z.eqb_eq in Ev.
  intros H. res_inv. eauto 10.
Qed.

Lemma exceptions_ok_insert d k row row' :
  exceptions_ok d -> DB_exceptions d !! k = Some row ->
  EX_TransactionID row' = EX_TransactionID row -> EX_ID row' = EX_ID row ->
  ExceptionSeverity_IsValid (EX_Severity row') = true -> exception_wf row' ->
  exceptions_ok (set_exceptions <[k := row']> d).
Proof.
  intros [Hk Hi Hr] Hrow Ht Hid Hs Hw. split; cbn.
  - intros k' x [[<- <-]|[Hn H]]%lookup_insert_Some; [by rewrite Ht, (Hk _ _ Hrow)|eauto].
  - intros k1 k2 x1 x2 [[<- <-]|[Hn1 H1]]%lookup_insert_Some [[<- <-]|[Hn2 H2]]%lookup_insert_Some E; try done.
    + rewrite Hid in E. by rewrite (Hi _ _ _ _ Hrow H2 E).
    + rewrite Hid in E. by rewrite (Hi _ _ _ _ H1 Hrow E).
    + eauto.
  - intros k' x [[<- <-]|[Hn H]]%lookup_insert_Some; eauto.
Qed.
End rows.

(** ** Concurrent users *)
Section concurrency.
  Context {U : UUIDLib} {D : DecimalLib} {A : AssertLib} {AL : AssertLaws A} {N : UnicodeLib} {NL : UnicodeLaws N}
    {V : Env U}.

(** The object a user holds, and the status a resolution it started began at. *)
Record holder : Type := mkHolder {
  HO_obj : Exception;
  HO_prev : option ExceptionStatus;
}.

(** [XS_log]: the committed calls, oldest first. *)
Record xstore : Type := mkXStore {
  XS_db : DB;
  XS_holders : gmap nat holder;
  XS_log : list (uuid * (exception_op * Time));
}.

Definition started (op : exception_op) (x : Exception) : option ExceptionStatus :=
  match op with XStart => Some (EX_Status x) | _ => None end.

(** Only the user that started a resolution aborts it. *)
Definition op_allowed (op : exception_op) (h : holder) : Prop :=
  match op with XAbort s => HO_prev h = Some s | _ => True end.

Inductive xstep : xstore -> xstore -> Prop :=
| xs_read d hs log i id x :
    select_exception id d = Ok x ->
    xstep (mkXStore d hs log) (mkXStore d (<[i := mkHolder x None]> hs) log)
| xs_write d hs log i h op now now' x' d' y :
    hs !! i = Some h -> op_allowed op h -> exception_step op now (HO_obj h) = (x', Ok tt) ->
    update_exception now' x' d = Ok (d', true) -> select_exception (EX_ID x') d' = Ok y ->
    xstep (mkXStore d hs log)
      (mkXStore d' (<[i := mkHolder y (started op (HO_obj h))]> hs) (log ++ [(EX_ID x', (op, now))]))
| xs_refused d hs log i h op now now' x' d' :
    hs !! i = Some h -> exception_step op now (HO_obj h) = (x', Ok tt) ->
    update_exception now' x' d = Ok (d', false) ->
    xstep (mkXStore d hs log) (mkXStore d' (delete i hs) log)
| xs_drop d hs log i : xstep (mkXStore d hs log) (mkXStore d (delete i hs) log)
| xs_reclassify d hs log id txID severity reason now d' :
    ExceptionSeverity_IsValid severity = true -> upsert_exception id txID severity reason now d = Ok (d', tt) ->
    xstep (mkXStore d hs log) (mkXStore d' hs log).

(** *** The sequential specification *)
Definition bump (x : Exception) : Exception :=
  mkException (EX_ID x) (EX_TransactionID x) (EX_Severity x) (EX_Status x) (EX_ExternalSystem x) (EX_ExternalIssueID x)
    (EX_AssignedTo x) (EX_DueAt x) (EX_ResolutionNotes x) (EX_ResolutionType x) (EX_ResolutionReason x) (EX_Reason x)
    (EX_Version x + 1) (EX_CreatedAt x) (EX_UpdatedAt x).

Fixpoint replay (ops : list (exception_op * Time)) (x : Exception) : option Exception :=
  match ops with
  | [] => Some x
  | (op, now) :: ops' =>
      match exception_step op now x with
      | (x', Ok _) => replay ops' (bump x')
      | (_, Err _) => None
      end
  end.

Definition ops_of (id : uuid) (log : list (uuid * (exception_op * Time))) : list (exception_op * Time) :=
  (filter (fun e => e.1 = id) log).*2.

Lemma replay_app ops ops' x : replay (ops ++ ops') x = replay ops x ≫= replay ops'.
Proof.
  revert x. induction ops as [|[op now] ops IH]; intros x; [done|]. cbn. destruct (exception_step op now x) as [x' [?|?]]; [|done].
  apply IH.
Qed.

Lemma replay_facts ops x y : replay ops x = Some y ->
  EX_ID y = EX_ID x /\ EX_Version y = EX_Version x + Z.of_nat (length ops) /\
  rtc exception_transition (EX_Status x) (EX_Status y).
Proof.
  revert x. induction ops as [|[op now] ops IH]; intros x; cbn [replay]; [intros [= ->]; split_and!; [done|cbn; lia|done]|].
  destruct (exception_step op now x) as [x' [[]|e]] eqn:E; [|done]. intros H. apply IH in H as (H1 & H2 & H3).
  pose proof (exception_step_identity _ _ _ _ E) as (Hi & _ & Hv & _). apply exception_step_transition in E.
  cbn in *. split_and!; [congruence|lia|]. by eapply rtc_l.
Qed.

Lemma resolved_final x y : rtc exception_transition x y -> x = ExceptionStatusResolved -> y = ExceptionStatusResolved.
Proof.
  induction 1 as [|x y z H _ IH]; [done|]. intros ->. apply IH. inversion H as [| |s Hs|s Hs|s Hs|s]; subst; try done.
  rewrite !elem_of_cons in Hs. destruct Hs as [?|[?|Hs]]; [done..|by apply not_elem_of_nil in Hs].
Qed.

(** *** The simulation *)
Record holder_ok (d : DB) (h : holder) (row : Exception) : Prop := {
  ho_row : DB_exceptions d !! EX_TransactionID (HO_obj h) = Some row;
  ho_id : EX_ID row = EX_ID (HO_obj h);
  ho_version : EX_Version (HO_obj h) <= EX_Version row;
  ho_core : EX_Version (HO_obj h) = EX_Version row -> same_core (HO_obj h) row;
  ho_severity : ExceptionSeverity_IsValid (EX_Severity (HO_obj h)) = true;
  ho_prev : HO_prev h = Some ExceptionStatusAssigned -> has_assignee (HO_obj h);
}.

Definition row_replays (log : list (uuid * (exception_op * Time))) (x0 x : Exception) : Prop :=
  exists y, replay (ops_of (EX_ID x0) log) x0 = Some y /\ same_core y x.

Record xs_ok (d0 : DB) (s : xstore) : Prop := {
  xi_db : exceptions_ok (XS_db s);
  xi_rows : forall k x0, DB_exceptions d0 !! k = Some x0 -> exists x,
    DB_exceptions (XS_db s) !! k = Some x /\ row_replays (XS_log s) x0 x;
  xi_holders : forall i h, XS_holders s !! i = Some h -> exists row, holder_ok (XS_db s) h row;
}.

Lemma same_core_fields x y : same_core x y ->
  EX_ID y = EX_ID x /\ EX_TransactionID y = EX_TransactionID x /\ EX_Version y = EX_Version x /\ EX_Status y = EX_Status x.
Proof. by intros (s & r & u & ->). Qed.

(** The row after a committed call. *)
Lemma written_row op now now' x x' row :
  same_core x row -> exception_step op now x = (x', Ok tt) -> same_core (bump x') (updated_exception now' x' row).
Proof.
  intros (s & r & u & ->) H. apply exception_step_identity in H as (H1 & H2 & H3 & _ & _ & H6).
  exists (EX_Severity x'), (EX_Reason x'), now'. unfold updated_exception, reclass, bump. cbn. congruence.
Qed.

Lemma replay_step log id op now x0 x x' row row' :
  EX_ID x0 = id -> row_replays log x0 row -> same_core x row -> exception_step op now x = (x', Ok tt) ->
  same_core (bump x') row' -> row_replays (log ++ [(id, (op, now))]) x0 row'.
Proof.
  intros <- (y & Hy & Hc) Hx Hs Hr. unfold row_replays, ops_of. rewrite filter_app, fmap_app, replay_app.
  fold (ops_of (EX_ID x0) log). rewrite Hy. cbn [mbind option_bind].
  rewrite (filter_cons_True _ _ _) by done. cbn.
  assert (same_core x y) as (s & r & u & ->) by (etrans; [exact Hx|by symmetry]).
  destruct (exception_step_reclass _ _ _ _ s r u Hs) as (u' & ->). exists (bump (reclass s r u' x')). split; [done|].
  etrans; [|exact Hr]. by exists (EX_Severity x'), (EX_Reason x'), (EX_UpdatedAt x').
Qed.

Lemma replay_other log id e x0 row : EX_ID x0 <> id -> row_replays log x0 row -> row_replays (log ++ [(id, e)]) x0 row.
Proof.
  intros Hn (y & Hy & Hc). exists y. split; [|done]. unfold ops_of. rewrite filter_app, fmap_app.
  rewrite (filter_cons_False _ _ _) by (cbn; congruence). by rewrite app_nil_r.
Qed.

Lemma merged_severity_valid a b :
  ExceptionSeverity_IsValid a = true -> ExceptionSeverity_IsValid b = true ->
  ExceptionSeverity_IsValid (merged_severity a b) = true.
Proof. unfold merged_severity. by repeat case_match. Qed.

(** What a run does to a row leaves its core alone. *)
Lemma reclassify_rows id txID severity reason now d d' :
  exceptions_ok d -> ExceptionSeverity_IsValid severity = true ->
  upsert_exception id txID severity reason now d = Ok (d', tt) ->
  exceptions_ok d' /\ (forall k x, DB_exceptions d !! k = Some x -> exists x', DB_exceptions d' !! k = Some x' /\ same_core x x').
Proof.
  intros Hd Hs. unfold upsert_exception. destruct (DB_exceptions d !! txID) as [old|] eqn:E.
  - intros [= <-]. destruct (xo_rows d Hd _ _ E) as [Hsev Hw].
    assert (same_core old (reclassified severity reason now old)) as Hc by (by eexists _, _, _). split.
    + eapply exceptions_ok_insert; try done; [by apply merged_severity_valid|]. by rewrite <-Hc.
    + intros k x Hx. cbn. destruct (decide (k = txID)) as [->|].
      * rewrite lookup_insert_eq. simplify_eq. eauto.
      * exists x. by rewrite lookup_insert_ne.
  - destruct (exception_at id d) eqn:Ei; [done|]. intros [= <-]. split.
    + assert (forall k x, DB_exceptions d !! k = Some x -> EX_ID x <> id) as Hfresh.
      { intros k x Hx Hid. assert (exception_at id d = Some x); [|congruence]. apply exception_at_Some; [done|].
        by rewrite (xo_key d Hd _ _ Hx). }
      destruct Hd as [Hk Hi Hr]. split; cbn.
      * intros k x [[<- <-]|[_ Hx]]%lookup_insert_Some; eauto.
      * intros k1 k2 x1 x2 [[<- <-]|[_ H1]]%lookup_insert_Some [[<- <-]|[_ H2]]%lookup_insert_Some He; eauto.
        -- by destruct (Hfresh _ _ H2).
        -- by destruct (Hfresh _ _ H1).
      * intros k x [[<- <-]|[_ Hx]]%lookup_insert_Some; [split; [done|by split]|eauto].
    + intros k x Hx. cbn. exists x. by rewrite lookup_insert_ne by congruence.
Qed.

Lemma holder_ok_rows d d' h row row' :
  holder_ok d h row -> DB_exceptions d' !! EX_TransactionID (HO_obj h) = Some row' -> same_core row row' -> holder_ok d' h row'.
Proof.
  intros [H1 H2 H3 H4 H5 H6] Hr Hc. pose proof (same_core_fields _ _ Hc) as (? & ? & ? & ?).
  split; try done; [congruence|lia|]. intros He. etrans; [|exact Hc]. apply H4. congruence.
Qed.

Lemma xstep_read_ok d0 d hs log i id x :
  xs_ok d0 (mkXStore d hs log) -> select_exception id d = Ok x ->
  xs_ok d0 (mkXStore d (<[i := mkHolder x None]> hs) log).
Proof.
  intros [Hd Hrows Hh] Hx. split; cbn in *; [done|done|]. intros j h [[<- <-]|[_ Hj]]%lookup_insert_Some; [|by eauto].
  apply select_exception_Ok in Hx as [Hx <-]; [|done]. exists x. destruct (xo_rows d Hd _ _ Hx). by split.
Qed.

Lemma xstep_reclassify_ok d0 d hs log id txID severity reason now d' :
  xs_ok d0 (mkXStore d hs log) -> ExceptionSeverity_IsValid severity = true ->
  upsert_exception id txID severity reason now d = Ok (d', tt) -> xs_ok d0 (mkXStore d' hs log).
Proof.
  intros [Hd Hrows Hh] Hs Hu. destruct (reclassify_rows _ _ _ _ _ _ _ Hd Hs Hu) as [Hd' Hk]. split; cbn in *; [done|..].
  - intros k x0 H0. destruct (Hrows _ _ H0) as (x & Hx & y & Hy & Hc). destruct (Hk _ _ Hx) as (x' & Hx' & Hc').
    exists x'. split; [done|]. exists y. split; [done|]. by etrans.
  - intros i h Hi. destruct (Hh _ _ Hi) as (row & Hrow). destruct (Hk _ _ (ho_row _ _ _ Hrow)) as (row' & Hr & Hc).
    exists row'. by eapply holder_ok_rows.
Qed.

(** A committed call: the row was the one the user held, and becomes the
    changed object. *)
Record written (d d' : DB) (h : holder) (row x' row' : Exception) : Prop := {
  wr_db : d' = set_exceptions <[EX_TransactionID row := row']> d;
  wr_row : DB_exceptions d !! EX_TransactionID row = Some row;
  wr_held : same_core (HO_obj h) row;
  wr_core : same_core (bump x') row';
  wr_ids : EX_TransactionID row' = EX_TransactionID row /\ EX_ID row' = EX_ID row /\ EX_ID row = EX_ID x';
  wr_version : EX_Version row' = EX_Version row + 1;
  wr_severity : ExceptionSeverity_IsValid (EX_Severity row') = true;
  wr_ok : exceptions_ok d';
}.

Lemma write_facts d d' h row op now now' x' :
  exceptions_ok d -> holder_ok d h row -> op_allowed op h -> exception_step op now (HO_obj h) = (x', Ok tt) ->
  update_exception now' x' d = Ok (d', true) -> written d d' h row x' (updated_exception now' x' row).
Proof.
  intros Hd [R1 R2 R3 R4 R5 R6] Hop Hs Hu.
  destruct (exception_step_identity _ _ _ _ Hs) as (I1 & I2 & I3 & I4 & _).
  destruct (update_exception_affected _ _ _ _ Hd Hu) as (row1 & U1 & U2 & U3 & ->).
  assert (row1 = row) as ->.
  { assert (EX_TransactionID row1 = EX_TransactionID (HO_obj h)) as E; [|congruence].
    eapply (xo_ids d Hd); [exact U1|exact R1|congruence]. }
  assert (same_core (HO_obj h) row) as Hc by (apply R4; congruence).
  assert (same_core (bump x') (updated_exception now' x' row)) as Hc' by (by eapply written_row).
  assert (ExceptionSeverity_IsValid (EX_Severity x') = true) as Hsev by (by rewrite I4).
  split; try done. eapply exceptions_ok_insert; try done. rewrite <-Hc'.
  assert (exception_wf x') as [? ? ?]; [|by split]. eapply exception_step_wf; [|..|exact Hs].
  - rewrite Hc. by apply (xo_rows d Hd) in U1 as [_ ?].
  - intros ->. by apply R6.
Qed.

Lemma written_select d d' h row x' row' y :
  written d d' h row x' row' -> select_exception (EX_ID x') d' = Ok y -> y = row'.
Proof.
  intros [-> _ _ _ (T & I & J) _ _ Hd'] Hy. apply select_exception_Ok in Hy as [Hy1 Hy2]; [|done]. cbn in Hy1.
  assert (EX_TransactionID y = EX_TransactionID row) as E.
  { eapply (xo_ids _ Hd'); [exact Hy1|cbn; apply lookup_insert_eq|congruence]. }
  rewrite E, lookup_insert_eq in Hy1. congruence.
Qed.

Lemma row_replays_id log x0 x : row_replays log x0 x -> EX_ID x = EX_ID x0.
Proof. intros (y & Hy & Hc). apply replay_facts in Hy as [Hy _]. apply same_core_fields in Hc as [Hc _]. congruence. Qed.

Lemma written_rows d0 d d' h row op now x' row' log :
  exceptions_ok d -> written d d' h row x' row' -> exception_step op now (HO_obj h) = (x', Ok tt) ->
  (forall k x0, DB_exceptions d0 !! k = Some x0 -> exists x, DB_exceptions d !! k = Some x /\ row_replays log x0 x) ->
  forall k x0, DB_exceptions d0 !! k = Some x0 ->
  exists x, DB_exceptions d' !! k = Some x /\ row_replays (log ++ [(EX_ID x', (op, now))]) x0 x.
Proof.
  intros Hd [-> W1 W2 W3 (T & I & J) _ _ _] Hs Hrows k x0 H0. destruct (Hrows _ _ H0) as (x & Hx & Hrep).
  pose proof (row_replays_id _ _ _ Hrep) as Hid. cbn. destruct (decide (k = EX_TransactionID row)) as [->|Hn].
  - rewrite lookup_insert_eq. exists row'. split; [done|]. simplify_eq.
    eapply replay_step; [congruence|done|exact W2|exact Hs|exact W3].
  - rewrite lookup_insert_ne by done. exists x. split; [done|]. apply replay_other; [|done]. intros He. apply Hn.
    eapply (xo_ids d Hd); [exact Hx|exact W1|congruence].
Qed.

Lemma written_holders d d' h row x' row' h' row2 :
  written d d' h row x' row' -> holder_ok d h' row2 -> exists row3, holder_ok d' h' row3.
Proof.
  intros [-> W1 _ _ (T & I & J) Hv _ _] H2.
  destruct (decide (EX_TransactionID (HO_obj h') = EX_TransactionID row)) as [E|E].
  - destruct H2 as [Q1 Q2 Q3 Q4 Q5 Q6]. rewrite E in Q1. simplify_eq. exists row'.
    split; try done; [cbn; by rewrite E, lookup_insert_eq|congruence|lia|lia].
  - exists row2. eapply holder_ok_rows; [exact H2| |done]. cbn. rewrite lookup_insert_ne by congruence. by destruct H2.
Qed.

Lemma xstep_write_ok d0 d hs log i h op now now' x' d' y :
  xs_ok d0 (mkXStore d hs log) -> hs !! i = Some h -> op_allowed op h ->
  exception_step op now (HO_obj h) = (x', Ok tt) -> update_exception now' x' d = Ok (d', true) ->
  select_exception (EX_ID x') d' = Ok y ->
  xs_ok d0 (mkXStore d' (<[i := mkHolder y (started op (HO_obj h))]> hs) (log ++ [(EX_ID x', (op, now))])).
Proof.
  intros [Hd Hrows Hh] Hi Hop Hs Hu Hy. cbn in *. destruct (Hh _ _ Hi) as (row & Hrow).
  pose proof (write_facts _ _ _ _ _ _ _ _ Hd Hrow Hop Hs Hu) as Hw. rewrite (written_select _ _ _ _ _ _ _ Hw Hy).
  set (row' := updated_exception now' x' row) in *. split; cbn; [by destruct Hw|by eapply written_rows|].
  intros j h' [[<- <-]|[_ Hj]]%lookup_insert_Some.
  - exists row'. destruct Hw as [-> W1 W2 W3 (T & I & J) Hv Hsev Hd']. split; try done; [exact (lookup_insert_eq _ _ _)|].
    destruct op; try done. cbn. intros [= Hst]. apply Exception_StartResolution_effect in Hs as (_ & Hx).
    destruct (xo_rows d Hd _ _ W1) as [_ [_ Ha _]]. destruct W2 as (s & r & u & ->). subst x'. by apply Ha.
  - destruct (Hh _ _ Hj) as (row2 & H2). by eapply written_holders.
Qed.

Lemma xstep_ok d0 s s' : xstep s s' -> xs_ok d0 s -> xs_ok d0 s'.
Proof.
  intros Hstep Hok. destruct Hstep; [by eapply xstep_read_ok|by eapply xstep_write_ok|..|by eapply xstep_reclassify_ok];
    destruct Hok as [Hd Hrows Hh]; cbn in *.
  - assert (d' = d) as -> by (unfold update_exception in *; repeat case_match; res_inv; congruence).
    split; cbn; [done|done|]. intros j h' [_ Hj]%lookup_delete_Some. eauto.
  - split; cbn; [done|done|]. intros j h' [_ Hj]%lookup_delete_Some. eauto.
Qed.

(** C6: users that read exceptions, call their methods and write them back, in
    any interleaving and with matching runs that re-classify rows in between,
    lose no update: every row is, up to its classification, the row the
    committed calls on it produce one after another, its version counts them,
    it keeps the invariant of the aggregate, its status follows the status
    diagram and a resolved exception stays resolved. *)
Theorem exception_updates_serialize d0 s k x0 :
  exceptions_ok d0 -> rtc xstep (mkXStore d0 ∅ []) s -> DB_exceptions d0 !! k = Some x0 ->
  let ops := ops_of (EX_ID x0) (XS_log s) in
  exists x y, DB_exceptions (XS_db s) !! k = Some x /\ replay ops x0 = Some y /\ same_core y x /\
    EX_Version x = EX_Version x0 + Z.of_nat (length ops) /\ exception_wf x /\
    rtc exception_transition (EX_Status x0) (EX_Status x) /\
    (EX_Status x0 = ExceptionStatusResolved -> EX_Status x = ExceptionStatusResolved).
Proof.
  intros Hd0 Hs H0 ops. assert (xs_ok d0 s) as [Hd Hrows _].
  { revert Hs. apply (rtc_ind_r (xs_ok d0)); [|intros s1 s2 _ H1 H2; by eapply xstep_ok].
    split; cbn; [done| |by intros i h; rewrite lookup_empty]. intros k' x' Hx'. exists x'. split; [done|]. by exists x'. }
  destruct (Hrows _ _ H0) as (x & Hx & y & Hy & Hc). pose proof (replay_facts _ _ _ Hy) as (_ & Hv & Ht).
  pose proof (same_core_fields _ _ Hc) as (_ & _ & Ev & Es). rewrite <-Es in Ht. exists x, y.
  split_and!; try done; [by rewrite Ev|by apply (xo_rows _ Hd) in Hx as [_ ?]|by apply resolved_final].
Qed.

(** C31: the classification is not protected by the version: when a run raises
    the severity of an exception between the read and the write of a user, the
    write succeeds and puts the old severity and reason back. *)
Theorem severity_lost d d1 x severity reason id now op now1 now2 x' :
  exceptions_ok d -> DB_exceptions d !! EX_TransactionID x = Some x -> EX_Version x < bigint_max ->
  ExceptionSeverity_IsValid severity = true ->
  upsert_exception id (EX_TransactionID x) severity reason now d = Ok (d1, tt) ->
  exception_step op now1 x = (x', Ok tt) ->
  (exists raised, DB_exceptions d1 !! EX_TransactionID x = Some raised /\
     severity_rank (EX_Severity raised) = Nat.max (severity_rank severity) (severity_rank (EX_Severity x))) /\
  exists d2 row, update_exception now2 x' d1 = Ok (d2, true) /\ DB_exceptions d2 !! EX_TransactionID x = Some row /\
    EX_Severity row = EX_Severity x /\ EX_Reason row = EX_Reason x /\ EX_Status row = EX_Status x'.
Proof.
  intros Hd Hx Hv Hsev Hu Hs. destruct (exception_step_identity _ _ _ _ Hs) as (I1 & I2 & I3 & I4 & I5 & _).
  destruct (reclassify_rows _ _ _ _ _ _ _ Hd Hsev Hu) as [Hd1 _].
  apply upsert_exception_row in Hu as (row & -> & Hrow). rewrite Hx in Hrow. set (d1 := set_exceptions _ d) in *.
  assert (DB_exceptions d1 !! EX_TransactionID x = Some row) as H1 by apply lookup_insert_eq.
  split; [exists row; split; [done|]; subst row; apply merged_severity_rank|].
  assert (exception_at (EX_ID x') d1 = Some row) as Hat.
  { apply exception_at_Some; [done|]. subst row. by rewrite I1. }
  unfold update_exception. rewrite Hat. subst row. cbn. rewrite I3, Z.eqb_refl.
  rewrite (proj2 (Z.ltb_lt _ _) Hv). cbn. eexists _, _. split; [done|]. cbn. by rewrite lookup_insert_eq.
Qed.
End concurrency.

(** ** A concrete store: two users read the exception [e1]; the first assigns
    it, a run raises its severity, the second is refused. *)
Definition sample_exception : @Exception model_uuid :=
  mkException (U:=model_uuid) "e1" "t1" "LOW" "OPEN" None None None None None None None (Some "UNMATCHED") 1 5 5.

Definition exception_db (x : @Exception model_uuid) : @DB model_uuid model_decimal :=
  mkDB (U:=model_uuid) (D:=model_decimal) ∅ ∅ [] ∅ ∅ ∅ {[EX_TransactionID x := x]} [] [] ∅ [] ∅ ∅ ∅.

Lemma exception_db_ok x :
  ExceptionSeverity_IsValid (EX_Severity x) = true -> exception_wf x -> exceptions_ok (exception_db x).
Proof.
  intros Hs Hw. split; cbn.
  - by intros k y [<- <-]%lookup_singleton_Some.
  - by intros k k' y y' [<- <-]%lookup_singleton_Some [<- <-]%lookup_singleton_Some.
  - by intros k y [<- <-]%lookup_singleton_Some.
Qed.

Lemma sample_db_ok : exceptions_ok (exception_db sample_exception).
Proof. apply exception_db_ok; [by vm_compute|]. by split. Qed.

Definition assigned_exception : @Exception model_uuid :=
  mkException (U:=model_uuid) "e1" "t1" "LOW" "ASSIGNED" None None (Some "ana") None None None None (Some "UNMATCHED") 2 5 8.

Definition raised_exception : @Exception model_uuid :=
  reclassified "HIGH" "FEE_VARIANCE" 9 assigned_exception.

Definition sample_xstore : @xstore model_uuid model_decimal :=
  mkXStore (U:=model_uuid) (D:=model_decimal) (exception_db raised_exception) {[1%nat := mkHolder (U:=model_uuid) assigned_exception None]}
    [("e1", (XAssign " ana " None, 7))].

Lemma sample_xstore_reachable :
  rtc (xstep (A:=model_assert) (N:=model_unicode)) (mkXStore (U:=model_uuid) (exception_db sample_exception) ∅ []) sample_xstore.
Proof.
  eapply rtc_l; [apply (xs_read (D:=model_decimal) (U:=model_uuid) _ _ _ 1 ("e1" : @uuid model_uuid) sample_exception); reflexivity|].
  eapply rtc_l; [apply (xs_read (D:=model_decimal) (U:=model_uuid) _ _ _ 2 ("e1" : @uuid model_uuid) sample_exception); reflexivity|].
  eapply rtc_l.
  { apply (xs_write (D:=model_decimal) (U:=model_uuid) _ _ _ 1 (mkHolder sample_exception None) (XAssign " ana " None) 7 8
      (set_exception_updated 7 (set_assignment (Some "ana") None (set_exception_status "ASSIGNED" sample_exception)))
      (exception_db assigned_exception) assigned_exception); [reflexivity|exact I|reflexivity..]. }
  eapply rtc_l.
  { apply (xs_reclassify (D:=model_decimal) (U:=model_uuid) _ _ _ ("e9" : @uuid model_uuid) ("t1" : @uuid model_uuid) "HIGH" "FEE_VARIANCE" 9
      (exception_db raised_exception)); reflexivity. }
  eapply rtc_l.
  { apply (xs_refused (D:=model_decimal) (U:=model_uuid) _ _ _ 2 (mkHolder sample_exception None) XStart 10 11
      (set_exception_updated 10 (set_exception_status "PENDING_RESOLUTION" sample_exception))
      (exception_db raised_exception)); reflexivity. }
  apply reflexive_eq. reflexivity.
Qed.

Lemma exception_updates_serialize_witness :
  exists x, DB_exceptions (XS_db sample_xstore) !! ("t1" : @uuid model_uuid) = Some x /\ EX_Version x = 2 /\ exception_wf x.
Proof.
  pose proof (exception_updates_serialize (AL:=model_assert_laws) (NL:=model_unicode_laws) (exception_db sample_exception)
    sample_xstore ("t1" : @uuid model_uuid) sample_exception
    sample_db_ok
    sample_xstore_reachable eq_refl) as (x & y & H1 & H2 & H3 & H4 & H5 & _).
  exists x. split; [exact H1|split; [exact H4|exact H5]].
Defined.

Lemma severity_lost_witness :
  exists d2 row, update_exception (D:=model_decimal) 11
      (set_exception_updated 10 (set_exception_status "PENDING_RESOLUTION" sample_exception))
      (exception_db (reclassified "HIGH" "FEE_VARIANCE" 9 sample_exception)) = Ok (d2, true) /\
    DB_exceptions d2 !! ("t1" : @uuid model_uuid) = Some row /\ EX_Severity row = "LOW".
Proof.
  destruct (severity_lost (AL:=model_assert_laws) (exception_db sample_exception)
    (exception_db (reclassified "HIGH" "FEE_VARIANCE" 9 sample_exception)) sample_exception "HIGH"
    "FEE_VARIANCE" ("e9" : @uuid model_uuid) 9 XStart 10 11
    (set_exception_updated 10 (set_exception_status "PENDING_RESOLUTION" sample_exception))
    sample_db_ok
    eq_refl eq_refl eq_refl eq_refl eq_refl) as [_ (d2 & row & H1 & H2 & H3 & _)].
  exists d2, row. split; [exact H1|split; [exact H2|exact H3]].
Defined.
