(* ===== verification/Calls.v ===== *)
(** * Reasoning about commands of several transactions

    [call_spec m P E]: run outside a transaction, [m] ends outside one and
    moves the committed tables from [d] to [d'] with [P d d' x] when it
    returns [x] and with [E d d'] when it fails.  The rules follow the
    structure of a command; [WithTx] and the steps that only read enter
    through their own specifications. *)
From S2P Require Import GoLib GoLibModel Store RunMatch RunOutcome.

Section calls.
  Context {U : UUIDLib} {D : DecimalLib} {V : Env U}.

Definition call_spec {X} (m : io X) (P : DB -> DB -> X -> Prop) (E : DB -> DB -> Prop) : Prop :=
  forall w, W_tx w = None ->
  let '(w', r) := m w in
  W_tx w' = None /\ match r with Ok x => P (W_db w) (W_db w') x | Err _ => E (W_db w) (W_db w') end.

Lemma call_weaken {X} (m : io X) (P P' : DB -> DB -> X -> Prop) (E E' : DB -> DB -> Prop) :
  call_spec m P E -> (forall d d' x, P d d' x -> P' d d' x) -> (forall d d', E d d' -> E' d d') -> call_spec m P' E'.
Proof. intros H HP HE w Hw. specialize (H w Hw). destruct (m w) as [w' [x|e]]; naive_solver. Qed.

Lemma call_read {X} (m : io X) P : ro_spec m P -> call_spec m (fun d d' x => d' = d /\ P d x) (fun d d' => d' = d).
Proof.
  intros H w Hw. specialize (H w). destruct (m w) as [w' r]. destruct H as ((Hd & _ & _) & Ht & H).
  split; [congruence|]. by destruct r.
Qed.

Lemma call_tx {X} detached (m : io X) P : tx_spec m P -> call_spec (WithTx detached m) P (fun d d' => d' = d).
Proof.
  intros H w Hw. pose proof (WithTx_spec detached m P w H Hw) as Hs. destruct (WithTx detached m w) as [w' r].
  by destruct Hs as (? & _ & _ & ?).
Qed.

Lemma call_bind {X Y} (m : io X) (f : X -> io Y) P E Q F :
  call_spec m P E -> (forall d d1 x, P d d1 x -> call_spec (f x) (Q x) (F x)) ->
  call_spec (m ≫= f) (fun d d' y => exists d1 x, P d d1 x /\ Q x d1 d' y)
    (fun d d' => E d d' \/ exists d1 x, P d d1 x /\ F x d1 d').
Proof.
  intros Hm Hf w Hw. specialize (Hm w Hw). unfold mbind, st_bind. destruct (m w) as [w1 [x|e]]; [|by destruct Hm; auto].
  destruct Hm as [H1 HP]. specialize (Hf _ _ x HP w1 H1). destruct (f x w1) as [w2 [y|e]]; destruct Hf; eauto 10.
Qed.

Lemma call_ret {X} (x : X) : call_spec (mret x) (fun d d' y => d' = d /\ y = x) (fun _ _ => False).
Proof. by intros w Hw. Qed.

(** A read in front of a call. *)
Lemma call_after_read {X Y} (m : io X) (f : X -> io Y) P Q F :
  ro_spec m P -> (forall d x, P d x -> call_spec (f x) (Q x) (F x)) ->
  call_spec (m ≫= f) (fun d d' y => exists x, P d x /\ Q x d d' y) (fun d d' => d' = d \/ exists x, P d x /\ F x d d').
Proof.
  intros Hm Hf. eapply call_weaken; [eapply call_bind; [by apply call_read|intros d d1 x [_ HP]; by eapply Hf]|..].
  - intros d d' y (d1 & x & [-> ?] & ?). eauto.
  - intros d d' [?|(d1 & x & [-> ?] & ?)]; eauto.
Qed.

(** A call whose failures change nothing. *)
Lemma call_read_then {X Y} (m : io X) (f : X -> io Y) P Q :
  ro_spec m P -> (forall d x, P d x -> call_spec (f x) (Q x) (fun d d' => d' = d)) ->
  call_spec (m ≫= f) (fun d d' y => exists x, P d x /\ Q x d d' y) (fun d d' => d' = d).
Proof. intros Hm Hf. eapply call_weaken; [by eapply (call_after_read _ _ _ _ (fun _ d d' => d' = d))|naive_solver..]. Qed.

(** A call whose failure is handled. *)
Definition io_try {X} (m : io X) (handler : CmdError -> io X) : io X := fun w =>
  match m w with (w', Ok x) => (w', Ok x) | (w', Err e) => handler e w' end.

Lemma call_try {X} (m : io X) handler P E Q F :
  call_spec m P E -> (forall e, call_spec (handler e) Q F) ->
  call_spec (io_try m handler) (fun d d' x => P d d' x \/ exists d1, E d d1 /\ Q d1 d' x)
    (fun d d' => exists d1, E d d1 /\ F d1 d').
Proof.
  intros Hm Hh w Hw. specialize (Hm w Hw). unfold io_try. destruct (m w) as [w1 [x|e]]; [destruct Hm; eauto|].
  destruct Hm as [H1 HE]. specialize (Hh e w1 H1). destruct (handler e w1) as [w2 [x|e']]; destruct Hh; eauto.
Qed.

Lemma ro_try {X} (m : io X) handler P Q :
  ro_spec m P -> (forall e, ro_spec (handler e) Q) -> ro_spec (io_try m handler) (fun d x => P d x \/ Q d x).
Proof.
  intros Hm Hh w. specialize (Hm w). unfold io_try. destruct (m w) as [w1 [x|e]].
  - destruct Hm as (? & ? & ?). split_and!; auto.
  - destruct Hm as (H1 & H2 & _). specialize (Hh e w1). destruct (handler e w1) as [w2 r]. destruct Hh as (H3 & H4 & H5).
    split_and!; [by eapply framed_trans|congruence|]. destruct r; [|done]. right. destruct H1 as (<- & _). done.
Qed.

Lemma ro_now : ro_spec io_now (fun _ _ => True).
Proof. intros w. cbn. split_and!; [by split_and!|done..]. Qed.

Lemma ro_fresh : ro_spec io_fresh (fun _ _ => True).
Proof. intros w. cbn. split_and!; [by split_and!|done..]. Qed.

Lemma ro_fail {X} e P : ro_spec (io_fail (X:=X) e) P.
Proof. intros w. cbn. split_and!; [by split_and!|done..]. Qed.
End calls.
