(* ===== verification/Resolution.v ===== *)
(** * Resolving an exception

    Models internal/exception/services/command/{commands,force_match_commands,
    adjust_entry_commands,streaming_events}.go, adapters/resolution/executor.go,
    internal/shared/adapters/cross/{exception_matching_gateway,
    exception_context_lookup}.go, adapters/audit/outbox_publisher.go and
    [Emit] of internal/streaming/emission/emission.go.

    A resolution marks the exception PENDING_RESOLUTION, calls matching, which
    marks the transaction as matched or stores an adjustment, and then resolves
    the exception together with its audit event in one transaction.  The three
    steps are separate transactions: [resolution_outcome] lists what a call can
    leave behind, and [resolution_stuck] of Bulk.v what no later call repairs.

    The streaming library stores its own rows inside the transaction it is
    given; here an emission succeeds or fails. *)
From S2P Require Import GoLib GoLibModel FeeStructure MatchTypes MatchEntities Transaction RunPrepare RunExecute.
From S2P Require Import Severity Exceptions Sha256 AuditChain AuditEvent Store RunMatch RunOutcome Calls ManualMatch Adjust ExceptionRepo.

Section commands.
  Context {U : UUIDLib} {D : DecimalLib} {A : AssertLib} {N : UnicodeLib} {V : Env U} {O : OutboxLib U}.

(** What a call finds in the request and in the wiring of the use case: the
    tenant, the actor, the salt of actor hashes, whether a live streaming
    emitter and a source finder are wired, and the tenant of streaming. *)
Record ExceptionUseCase : Type := mkExceptionUseCase {
  XU_tenant : string;
  XU_defaultTenant : string;
  XU_actor : string;
  XU_salt : string;
  XU_emitter : bool;
  XU_streamTenant : string;
  XU_sourceFinder : bool;
}.
Context (uc : ExceptionUseCase).

Definition exception_fail {X} (e : ExceptionCmdError) : io X := io_fail (ErrExceptionCmd e).

(** ** [emission.go] *)
Definition Emit (requireOutboxTx : bool) : io unit :=
  if negb (XU_emitter uc) then
    if requireOutboxTx then exception_fail ErrCriticalOutboxTxRequired else mret tt
  else
    _ ← st_ensure (negb (string_empty (XU_streamTenant uc))) (ErrExceptionCmd ErrStreamTenantIDMissing);
    io_roundtrip false.

Definition emitExceptionCritical : io unit := Emit true.

(** ** [outbox_publisher.go] *)
Definition buildOutboxEvent (event : AuditEvent) : io OutboxEvent :=
  let tenantIDStr := if string_empty (XU_tenant uc) then XU_defaultTenant uc else XU_tenant uc in
  _ ← st_ensure (negb (string_empty tenantIDStr)) (ErrExceptionCmd ErrAuditTenantIDMissing);
  tenantID ← st_lift (match uuid_Parse tenantIDStr with
                      | Some t => Ok t
                      | None => Err (ErrExceptionCmd ErrAuditTenantIDMissing)
                      end);
  id ← io_fresh;
  auditEvent ← st_lift (match marshalOrTruncate outbox_DefaultMaxPayloadBytes
                                (auditCreatedEvent id.1 tenantID id.2 (XU_salt uc) event) with
                        | Some e => Ok e
                        | None => Err (ErrExceptionCmd ErrMarshalAuditEvent)
                        end);
  let outboxEvent := mkOutboxEvent EventTypeAuditLogCreated (AV_ExceptionID event) (PayloadAudit auditEvent) in
  _ ← st_ensure (outbox_accepts outboxEvent) ErrOutboxRejected;
  mret outboxEvent.

Definition PublishExceptionEventWithTx (event : AuditEvent) : io unit :=
  outboxEvent ← buildOutboxEvent event; outboxRepo_CreateWithTx outboxEvent.

Definition PublishExceptionEvent (event : AuditEvent) : io unit :=
  outboxEvent ← buildOutboxEvent event; WithTx false (outboxRepo_CreateWithTx outboxEvent).

(** ** [exception_context_lookup.go] *)
Definition transactionRepo_FindByID (transactionID : uuid) : io Transaction :=
  sql_read (fun d => match DB_txs d !! transactionID with Some t => Ok t | None => Err ErrNoRows end).

Definition resolveViaIngestionJob (ingestionJobID : uuid) : io uuid :=
  sql_read (fun d => match DB_jobContext d !! ingestionJobID with
                     | Some c => Ok c
                     | None => Err (ErrExceptionCmd ErrIngestionJobNotFound)
                     end).

Definition resolveViaSource (sourceID : uuid) : io uuid :=
  sql_read (fun d => match DB_sourceContext d !! sourceID with Some c => Ok c | None => Err ErrNoRows end).

Definition mapSourceLookupError (jobErr sourceErr : CmdError) : CmdError :=
  match jobErr, sourceErr with
  | ErrExceptionCmd ErrIngestionJobNotFound, ErrNoRows => ErrExceptionCmd ErrSourceNotFound
  | _, ErrExceptionCmd ErrSourceNotFound => sourceErr
  | _, ErrCmdContextNotFound => sourceErr
  | _, _ => jobErr
  end.

Definition GetContextIDByTransactionID (transactionID : uuid) : io uuid :=
  tx ← io_try (transactionRepo_FindByID transactionID)
         (fun e => io_fail (match e with ErrNoRows => ErrTransactionNotFound | _ => e end));
  io_try (resolveViaIngestionJob (TX_IngestionJobID tx)) (fun jobErr =>
    if negb (XU_sourceFinder uc) || bool_decide (TX_SourceID tx = uuid_Nil) then io_fail jobErr
    else io_try (resolveViaSource (TX_SourceID tx)) (fun sourceErr => io_fail (mapSourceLookupError jobErr sourceErr))).

(** ** [exception_matching_gateway.go] *)
Definition transactionRepo_MarkMatched (contextID : uuid) (transactionIDs : list uuid) : io unit :=
  _ ← st_ensure (negb (bool_decide (contextID = uuid_Nil))) (ErrRun ErrContextIDRequired);
  if bool_decide (transactionIDs = []) then mret tt
  else WithTx false (now ← io_now; sql false (BuildMarkStatusQuery contextID transactionIDs "MATCHED" now)).

Definition CreateForceMatch (transactionID : uuid) : io unit :=
  contextID ← GetContextIDByTransactionID transactionID;
  transactionRepo_MarkMatched contextID [transactionID].

Definition mapReasonToAdjustmentType (reason : string) : AdjustmentType :=
  if bool_decide (reason = "CURRENCY_CORRECTION") then AdjustmentTypeFXDifference else AdjustmentTypeMiscellaneous.

Definition adjustmentRepo_Create (adjustment : Adjustment) : io Adjustment :=
  WithTx false (adjustmentRepo_insertWithTx adjustment).

Definition gateway_CreateAdjustment (transactionID : uuid) (direction : AdjustmentDirection) (amount : decimal)
    (currency reason notes actor : string) : io unit :=
  contextID ← GetContextIDByTransactionID transactionID;
  let adjustmentType := mapReasonToAdjustmentType reason in
  _ ← st_ensure (AdjustmentDirection_IsValid direction) (ErrExceptionCmd ErrInvalidDirection);
  id ← io_fresh;
  adjustment ← st_lift (map_err ErrMatch (NewAdjustment id.1 id.2 contextID None (Some transactionID) adjustmentType
                 direction amount currency notes reason actor));
  _ ← adjustmentRepo_Create adjustment;
  mret tt.

(** ** [executor.go] *)
Definition executor_ForceMatch (exceptionID : uuid) : io unit :=
  exception ← exceptionRepo_FindByID exceptionID;
  CreateForceMatch (EX_TransactionID exception).

Record AdjustmentInput : Type := mkAdjustmentInput {
  AI_Amount : decimal;
  AI_Currency : string;
  AI_Reason : string;
  AI_Notes : string;
}.

Definition executor_AdjustEntry (exceptionID : uuid) (input : AdjustmentInput) : io unit :=
  _ ← st_ensure (negb (dec_IsZero (AI_Amount input))) (ErrExceptionCmd ErrInvalidAdjustment);
  exception ← exceptionRepo_FindByID exceptionID;
  let direction := if dec_IsNegative (AI_Amount input) then AdjustmentDirectionCredit else AdjustmentDirectionDebit in
  gateway_CreateAdjustment (EX_TransactionID exception) direction (AI_Amount input) (AI_Currency input)
    (AI_Reason input) (AI_Notes input) (XU_actor uc).

(** ** [commands.go] *)
Definition exception_call (method : Time -> st Exception ExceptionError unit) (x : Exception) : io Exception :=
  now ← io_now;
  st_lift (match method now x with (x', Ok _) => Ok x' | (_, Err e) => Err (ErrException e) end).

(** Failures of the revert are logged only. *)
Definition revertExceptionStatus (exception : Exception) (previousStatus : ExceptionStatus) : io unit :=
  io_try (exception ← exception_call (Exception_AbortResolution previousStatus) exception;
          _ ← exceptionRepo_Update exception;
          mret tt)
         (fun _ => mret tt).

Definition executeWithRevert (exception : Exception) (previousStatus : ExceptionStatus) (gatewayFn : io unit) : io unit :=
  io_try gatewayFn (fun e => _ ← revertExceptionStatus exception previousStatus; io_fail e).

(** What [processForceMatch] and [processAdjustEntry] have in common: the
    gateway call, the resolution and the audit event differ. *)
Definition resolveBody (exception : Exception) (audit : Exception -> Time -> AuditEvent) : io Exception :=
  updated ← exceptionRepo_UpdateWithTx exception;
  now ← io_now;
  _ ← PublishExceptionEventWithTx (audit updated now);
  _ ← emitExceptionCritical;
  mret updated.

Definition finishResolution (exception : Exception) (notes : string) (opts : list ResolveOption)
    (audit : Exception -> Time -> AuditEvent) : io Exception :=
  exception ← exception_call (Exception_Resolve notes opts) exception;
  WithTx false (resolveBody exception audit).

Definition processResolution (exceptionID : uuid) (gatewayFn : uuid -> io unit) (notes : string)
    (opts : list ResolveOption) (audit : ExceptionStatus -> Exception -> Time -> AuditEvent) : io Exception :=
  exception ← exceptionRepo_FindByID exceptionID;
  _ ← st_lift (map_err ErrException (ValidateResolutionTransition (EX_Status exception) ExceptionStatusResolved));
  let previousStatus := EX_Status exception in
  exception ← exception_call Exception_StartResolution exception;
  exception ← exceptionRepo_Update exception;
  _ ← executeWithRevert exception previousStatus (gatewayFn (EX_ID exception));
  finishResolution exception notes opts (audit previousStatus).

(** ** [force_match_commands.go] *)
Record ForceMatchCommand : Type := mkForceMatchCommand {
  FMC_ExceptionID : uuid;
  FMC_OverrideReason : string;
  FMC_Notes : string;
}.

(** The trimmed actor and notes and the parsed reason. *)
Definition validateForceMatch (cmd : ForceMatchCommand) : res CmdError (string * string * string) :=
  _ ← ensure (negb (bool_decide (FMC_ExceptionID cmd = uuid_Nil))) (ErrExceptionCmd ErrExceptionIDRequired);
  let actor := strings_TrimSpace (XU_actor uc) in
  _ ← ensure (negb (string_empty actor)) (ErrExceptionCmd ErrActorRequired);
  let notes := strings_TrimSpace (FMC_Notes cmd) in
  _ ← ensure (negb (string_empty notes)) (ErrException ErrResolutionNotesRequired);
  overrideReason ← map_err ErrException (ParseOverrideReason (FMC_OverrideReason cmd));
  Ok (actor, notes, overrideReason).

Definition forceMatchAudit (actor notes overrideReason : string) (previousStatus : ExceptionStatus) (updated : Exception)
    (now : Time) : AuditEvent :=
  mkAuditEvent (EX_ID updated) "FORCE_MATCH" actor "" notes (Some overrideReason) now
    (list_to_map [("previous_status", previousStatus); ("resolution_type", "FORCE_MATCH");
                  ("override_reason", overrideReason); ("transaction_id", uuid_String (EX_TransactionID updated))]).

Definition ForceMatch (cmd : ForceMatchCommand) : io Exception :=
  '(actor, notes, overrideReason) ← st_lift (validateForceMatch cmd);
  processResolution (FMC_ExceptionID cmd) executor_ForceMatch notes
    [WithResolutionType "FORCE_MATCH"; WithResolutionReason overrideReason]
    (forceMatchAudit actor notes overrideReason).

(** ** [adjust_entry_commands.go] *)
Record AdjustEntryCommand : Type := mkAdjustEntryCommand {
  AEC_ExceptionID : uuid;
  AEC_ReasonCode : string;
  AEC_Notes : string;
  AEC_Amount : decimal;
  AEC_Currency : string;
}.

Definition validateAdjustEntry (cmd : AdjustEntryCommand) : res CmdError (string * string * string * string) :=
  _ ← ensure (negb (bool_decide (AEC_ExceptionID cmd = uuid_Nil))) (ErrExceptionCmd ErrExceptionIDRequired);
  let actor := strings_TrimSpace (XU_actor uc) in
  _ ← ensure (negb (string_empty actor)) (ErrExceptionCmd ErrActorRequired);
  let notes := strings_TrimSpace (AEC_Notes cmd) in
  _ ← ensure (negb (string_empty notes)) (ErrException ErrResolutionNotesRequired);
  _ ← ensure (negb (dec_IsZero (AEC_Amount cmd))) (ErrExceptionCmd ErrZeroAdjustmentAmount);
  _ ← ensure (negb (dec_IsNegative (AEC_Amount cmd))) (ErrExceptionCmd ErrNegativeAdjustmentAmount);
  currency ← map_err ErrException (ParseCurrencyCode (AEC_Currency cmd));
  reason ← map_err ErrException (ParseAdjustmentReason (AEC_ReasonCode cmd));
  Ok (actor, notes, currency, reason).

Definition adjustEntryAudit (actor notes currency reason : string) (previousStatus : ExceptionStatus) (updated : Exception)
    (now : Time) : AuditEvent :=
  mkAuditEvent (EX_ID updated) "ADJUST_ENTRY" actor "" notes (Some reason) now {["currency" := currency]}.

Definition AdjustEntry (cmd : AdjustEntryCommand) : io Exception :=
  '(actor, notes, currency, reason) ← st_lift (validateAdjustEntry cmd);
  processResolution (AEC_ExceptionID cmd)
    (fun id => executor_AdjustEntry id (mkAdjustmentInput (AEC_Amount cmd) currency reason notes)) notes
    [WithResolutionType "ADJUST_ENTRY"; WithResolutionReason reason]
    (adjustEntryAudit actor notes currency reason).
End commands.

Section outcome.
  Context {U : UUIDLib} {D : DecimalLib} {DL : DecimalLaws D} {A : AssertLib} {AL : AssertLaws A} {N : UnicodeLib}
    {NL : UnicodeLaws N} {V : Env U} {O : OutboxLib U}.
  Variable uc : ExceptionUseCase.

(** ** The audit event *)
Record audit_entry (event : AuditEvent) (entry : OutboxEvent) : Prop := {
  an_type : OE_EventType entry = EventTypeAuditLogCreated;
  an_aggregate : OE_AggregateID entry = AV_ExceptionID event;
  an_payload : exists created, OE_Payload entry = PayloadAudit created /\
    AE_EntityType created = entityTypeException /\ AE_EntityID created = AV_ExceptionID event /\
    AE_Action created = AV_Action event /\ AE_OccurredAt created = AV_OccurredAt event /\
    (AV_Actor event <> "" -> is_Some (AE_Actor created));
}.

Lemma ResolveActorHash_nonempty event salt : AV_Actor event <> "" -> ResolveActorHash event salt <> "".
Proof.
  intros Ha. unfold ResolveActorHash, string_empty. do 2 case_bool_decide; try done. cbn. intros E.
  pose proof (HashActor_length (AV_Actor event) salt Ha) as Hl. by rewrite E in Hl.
Qed.

Lemma buildOutboxEvent_spec event : ro_spec (buildOutboxEvent uc event) (fun _ entry => audit_entry event entry).
Proof.
  unfold buildOutboxEvent.
  eapply ro_weaken.
  { eapply ro_bind; [apply ro_lift|intros ?]. eapply ro_bind; [apply ro_lift|intros tenantID].
    eapply ro_bind; [apply ro_fresh|intros id]. eapply ro_bind; [apply ro_lift|intros ae].
    eapply ro_bind; [apply ro_lift|intros ?; apply ro_ret]. }
  intros d entry (_ & _ & t & _ & id & _ & ae & Hae & _ & _ & ->).
  destruct (marshalOrTruncate _ _) as [ae'|] eqn:E; [|done]. injection Hae as <-.
  apply marshalOrTruncate_same in E as (changes & ->). split; [done|done|]. eexists. split; [done|]. cbn. split_and!; try done.
  intros Ha. apply (ResolveActorHash_nonempty _ (XU_salt uc)) in Ha. unfold string_empty. rewrite bool_decide_eq_false_2 by done. eauto.
Qed.

Lemma PublishExceptionEventWithTx_spec event :
  tx_spec (PublishExceptionEventWithTx uc event) (fun d d' _ => exists entry, audit_entry event entry /\
    d' = set_outbox (fun l => l ++ [entry]) d).
Proof.
  intros w d Hw. unfold PublishExceptionEventWithTx, mbind, st_bind. pose proof (buildOutboxEvent_spec event w) as Hb.
  destruct (buildOutboxEvent uc event w) as [w1 [entry|e]]; destruct Hb as (Hf & Ht & Hb).
  2:{ split_and!; [done|by rewrite Ht, Hw|done]. }
  rewrite Hw in Ht. pose proof (tx_sql false (fun d => Ok (set_outbox (fun events => events ++ [entry]) d, tt)) w1 d Ht) as Hs.
  unfold outboxRepo_CreateWithTx. destruct (sql _ _ w1) as [w2 r]. destruct Hs as (Hf2 & Hs2 & Hs).
  split_and!; [by eapply framed_trans|done|]. destruct r as [u|e]; [|done]. destruct Hs as (d' & Hd' & [= <- _]). eauto 10.
Qed.

(** ** Updating the row *)
Definition put (row : Exception) (d : DB) : DB := set_exceptions <[EX_TransactionID row := row]> d.

Definition storable (x : Exception) : Prop := ExceptionSeverity_IsValid (EX_Severity x) = true /\ exception_wf x.

(** [stored d x' y]: the row of [x'] was at the version of [x'] and is now [y]. *)
Definition stored (d d' : DB) (x' y : Exception) : Prop :=
  exists row now, DB_exceptions d !! EX_TransactionID row = Some row /\ EX_ID row = EX_ID x' /\
    EX_Version row = EX_Version x' /\ y = updated_exception now x' row /\ d' = put y d.

Lemma stored_ok d d' x' y : exceptions_ok d -> storable x' -> stored d d' x' y -> exceptions_ok d'.
Proof.
  intros Hd [Hs [H1 H2 H3]] (row & now & Hr & Hid & Hv & -> & ->). unfold put. cbn [EX_TransactionID updated_exception].
  eapply exceptions_ok_insert; try done; by split.
Qed.

Lemma stored_select d d' x' y z :
  exceptions_ok d -> storable x' -> stored d d' x' y -> select_exception (EX_ID x') d' = Ok z -> z = y.
Proof.
  intros Hd Hx Hst Hz. pose proof (stored_ok _ _ _ _ Hd Hx Hst) as Hd'. destruct Hst as (row & now & Hr & Hid & Hv & -> & ->).
  apply select_exception_Ok in Hz as [Hz1 Hz2]; [|done].
  assert (DB_exceptions (put (updated_exception now x' row) d) !! EX_TransactionID row = Some (updated_exception now x' row)) as Hy
    by apply lookup_insert_eq.
  assert (EX_TransactionID z = EX_TransactionID row) as E by (eapply (xo_ids _ Hd'); [exact Hz1|exact Hy|cbn; congruence]).
  rewrite E in Hz1. congruence.
Qed.

Lemma executeUpdate_spec x' : storable x' ->
  tx_spec (exceptionRepo_executeUpdate x') (fun d d' y => exceptions_ok d -> stored d d' x' y).
Proof.
  intros Hx. unfold exceptionRepo_executeUpdate.
  assert (forall b : bool, tx_spec (if b then sql false (fun d => x ← select_exception (EX_ID x') d; Ok (d, x))
    else found ← sql false (exists_exception (EX_ID x'));
         io_fail (if (found : bool) then ErrConcurrentModification else ErrException ErrExceptionNotFound))
    (fun d d' y => b = true /\ d' = d /\ select_exception (EX_ID x') d = Ok y)) as Hsel.
  { intros [].
    - eapply tx_weaken; [apply tx_sql|]. intros d d' y H. cbn in H. destruct (select_exception _ d); [|done].
      by injection H as <- <-.
    - eapply tx_weaken; [eapply tx_bind; [apply tx_sql|intros ?; apply (tx_fail _ (fun _ _ _ => False))]|]. naive_solver. }
  eapply tx_weaken; [eapply tx_bind; [apply tx_now|intros now; eapply tx_bind; [apply tx_sql|intros b; apply (Hsel b)]]|].
  intros d d' y (d1 & now & -> & d2 & b & Hu & -> & -> & Hy) Hd.
  apply update_exception_affected in Hu as (row & H1 & H2 & H3 & ->); [|done].
  assert (stored d (put (updated_exception now x' row) d) x' (updated_exception now x' row)) as Hst by (eexists _, _; eauto 10).
  rewrite (stored_select _ _ _ _ _ Hd Hx Hst Hy). done.
Qed.

Lemma Update_spec x' : storable x' ->
  call_spec (exceptionRepo_Update x') (fun d d' y => exceptions_ok d -> stored d d' x' y) (fun d d' => d' = d).
Proof. intros Hx. by apply call_tx, executeUpdate_spec. Qed.

Lemma exception_call_spec method x :
  ro_spec (exception_call method x) (fun _ x' => exists now, method now x = (x', Ok tt)).
Proof.
  unfold exception_call. eapply ro_weaken; [eapply ro_bind; [apply ro_now|intros now; apply ro_lift]|].
  intros d x' (now & _ & H). exists now. destruct (method now x) as [y [[]|e]]; [|done]. by injection H as ->.
Qed.

(** ** The steps of a resolution *)
Definition row_of (d : DB) (id : uuid) (x : Exception) : Prop :=
  DB_exceptions d !! EX_TransactionID x = Some x /\ EX_ID x = id.

Definition pending_of (x p : Exception) : Prop :=
  exists now, p = set_exception_updated now (bump (set_exception_status ExceptionStatusPendingResolution x)).
Definition reverted_of (x r : Exception) : Prop := exists now, r = set_exception_updated now (bump (bump x)).
Definition resolved_of (notes : string) (opts : list ResolveOption) (x y : Exception) : Prop :=
  exists now now', y = set_exception_updated now'
    (bump (resolved notes opts now (bump (set_exception_status ExceptionStatusPendingResolution x)))).

Lemma FindByID_spec id : ro_spec (exceptionRepo_FindByID id) (fun d x => exceptions_ok d -> row_of d id x).
Proof. eapply ro_weaken; [apply ro_sql_read|]. intros d x H Hd. by apply select_exception_Ok in H. Qed.

Lemma row_of_storable d id x : exceptions_ok d -> row_of d id x -> storable x.
Proof. intros Hd [Hx _]. by apply (xo_rows d Hd) in Hx. Qed.

(** A stored object of the row [x] replaces exactly [x]. *)
Lemma stored_row d d' id x x' y :
  exceptions_ok d -> row_of d id x -> EX_ID x' = EX_ID x -> stored d d' x' y ->
  exists now, y = updated_exception now x' x /\ d' = put y d.
Proof.
  intros Hd [Hx _] Hid (row & now & Hr & Hrid & _ & -> & ->). assert (row = x) as ->; [|eauto].
  assert (EX_TransactionID row = EX_TransactionID x) as E by (eapply (xo_ids d Hd); [exact Hr|exact Hx|congruence]). congruence.
Qed.

Lemma pending_row d id x p :
  exceptions_ok d -> row_of d id x -> pending_of x p -> exceptions_ok (put p d) /\ row_of (put p d) id p.
Proof.
  intros Hd [Hx Hid] (now & ->). split; [|split; [apply lookup_insert_eq|done]].
  destruct (xo_rows d Hd _ _ Hx). unfold put. cbn. by eapply exceptions_ok_insert.
Qed.

Lemma put_put a b d : EX_TransactionID a = EX_TransactionID b -> put b (put a d) = put b d.
Proof. intros E. unfold put. rewrite E. destruct d. unfold set_exceptions. cbn. f_equal. apply insert_insert_eq. Qed.

Definition resolvable (x : Exception) : Prop :=
  EX_Status x = ExceptionStatusOpen \/ EX_Status x = ExceptionStatusAssigned.

(** Starting: the row becomes pending. *)
Lemma start_spec id x now x' :
  storable x -> Exception_StartResolution now x = (x', Ok tt) ->
  call_spec (exceptionRepo_Update x') (fun d d' p => exceptions_ok d -> row_of d id x -> pending_of x p /\ d' = put p d)
    (fun d d' => d' = d).
Proof.
  intros [Hs [H1 H2 H3]] H. apply Exception_StartResolution_effect in H as (_ & ->).
  eapply call_weaken; [apply Update_spec|..]; [by split|..|done].
  intros d d' p Hst Hd Hx. eapply stored_row in Hst as (now' & -> & ->); [|done..]. split; [by eexists|done].
Qed.

(** Reverting: the row gets its status back, or stays as it is. *)
Lemma revert_spec id x p :
  storable x -> resolvable x -> pending_of x p ->
  call_spec (revertExceptionStatus p (EX_Status x))
    (fun d d' _ => exceptions_ok d -> row_of d id p -> d' = d \/ exists r, reverted_of x r /\ d' = put r d) (fun _ _ => False).
Proof.
  intros [Hs [W1 W2 W3]] Hr (now & ->). set (p := set_exception_updated _ _). unfold revertExceptionStatus.
  set (Q := fun (d d' : DB) (_ : unit) => exceptions_ok d -> row_of d id p -> exists r, reverted_of x r /\ d' = put r d).
  assert (call_spec (exception ← exception_call (Exception_AbortResolution (EX_Status x)) p; _ ← exceptionRepo_Update exception;
    mret tt) Q (fun d d' => d' = d)) as Hm.
  { eapply call_weaken; [eapply (call_after_read _ _ _ (fun _ => Q) (fun _ d d' => d' = d)); [apply exception_call_spec|]|..];
      [|by intros d d' u (x' & _ & H)|by intros d d' [->|(x' & _ & ->)]].
    intros d0 x' (t & H). apply Exception_AbortResolution_effect in H as (_ & _ & ->).
    eapply call_weaken; [eapply call_bind; [apply Update_spec|intros ? ? y _; apply call_ret]|..].
    - split; [done|]. destruct Hr as [E|E]; rewrite E in *; by split.
    - intros d d' [] (d1 & y & Hst & -> & _) Hd Hx. eapply stored_row in Hst as (now' & -> & ->); [|done..].
      eexists. split; [|done]. exists now'. unfold updated_exception, p. destruct x. by cbn.
    - by intros d d' [->|(d1 & y & _ & [])]. }
  eapply call_weaken; [eapply (call_try _ _ _ _ (fun d d' _ => d' = d) (fun _ _ => False)); [exact Hm|]|..].
  - intros e w Hn. by cbn.
  - intros d d' [] [H|(d1 & -> & ->)]; [|by auto]. intros Hd Hx. right. by apply H.
  - by intros d d' (d1 & _ & []).
Qed.

Lemma executeWithRevert_spec id x p gateway G :
  storable x -> resolvable x -> pending_of x p ->
  call_spec gateway (fun d d' _ => G d d') (fun d d' => d' = d) ->
  call_spec (executeWithRevert p (EX_Status x) gateway) (fun d d' _ => G d d')
    (fun d d' => exceptions_ok d -> row_of d id p -> d' = d \/ exists r, reverted_of x r /\ d' = put r d).
Proof.
  intros Hs Hr Hp Hg. unfold executeWithRevert.
  eapply call_weaken; [eapply (call_try _ _ _ _ (fun _ _ _ => False)); [exact Hg|intros e]|..].
  - eapply call_weaken; [eapply call_bind; [by apply revert_spec|intros ? ? ? _; apply call_read, (ro_fail e (fun _ _ => False))]|..].
    + by intros d d' y (d1 & u & _ & _ & []).
    + intros d d' [[]|(d1 & u & H & ->)]. exact H.
  - intros d d' [] [H|(d1 & _ & [])]. done.
  - intros d d' (d1 & -> & H). exact H.
Qed.

(** Finishing: the row is resolved and the audit event is in the outbox. *)
Definition finished (audit : Exception -> Time -> AuditEvent) (x' : Exception) (d d' : DB) (y : Exception) : Prop :=
  exceptions_ok d -> exists d1 now entry, stored d d1 x' y /\
    audit_entry (audit y now) entry /\ d' = set_outbox (fun l => l ++ [entry]) d1.

Lemma resolveBody_spec x' audit : storable x' -> tx_spec (resolveBody uc x' audit) (finished audit x').
Proof.
  intros Hx. unfold resolveBody, emitExceptionCritical. eapply tx_weaken.
  { eapply tx_bind; [apply tx_existing, executeUpdate_spec, Hx|intros y]. eapply tx_bind; [apply tx_now|intros now].
    eapply tx_bind; [apply PublishExceptionEventWithTx_spec|intros ?]. eapply tx_bind; [|intros ?; apply tx_ret].
    unfold Emit. instantiate (1 := fun d d' _ => d' = d). destruct (XU_emitter uc); cbn [negb].
    - eapply tx_weaken; [eapply tx_bind; [apply tx_lift|intros ?; apply tx_roundtrip]|]. naive_solver.
    - apply tx_fail. }
  intros d d' y (d1 & z & Hst & d2 & now & -> & d3 & [] & (entry & He & ->) & d4 & [] & -> & -> & ->) Hd. eauto 10.
Qed.

Lemma finish_spec id x p notes opts audit :
  storable x -> strings_TrimSpace notes <> "" -> pending_of x p ->
  call_spec (finishResolution uc p notes opts audit)
    (fun d d' y => exceptions_ok d -> row_of d id p -> exists now entry, resolved_of notes opts x y /\
       audit_entry (audit y now) entry /\ d' = set_outbox (fun l => l ++ [entry]) (put y d))
    (fun d d' => d' = d).
Proof.
  intros [Hs [W1 W2 W3]] Hn (now & ->). set (p := set_exception_updated _ _). unfold finishResolution.
  eapply call_weaken;
    [eapply (call_after_read _ _ _ (finished audit) (fun _ d d' => d' = d)); [apply exception_call_spec|]|..]; [|..|naive_solver].
  - intros d x' (t & H). apply Exception_Resolve_effect in H as (_ & _ & _ & ->). apply call_tx, resolveBody_spec.
    split; [done|]. by split; [..|intros _; eexists].
  - intros d d' y (x' & (t & H) & Hst) Hd Hx. apply Exception_Resolve_effect in H as (_ & _ & _ & ->).
    destruct (Hst Hd) as (d1 & now' & entry & Hst' & He & ->).
    eapply stored_row in Hst' as (now2 & Hy & Hd1); [|done..]. exists now', entry.
    split; [exists t, now2; subst y; by destruct x|]. split; [exact He|by rewrite Hd1].
Qed.

(** ** What a call leaves behind *)
Record resolution_done (G : uuid -> DB -> DB -> Prop) (notes : string) (opts : list ResolveOption)
    (audit : ExceptionStatus -> Exception -> Time -> AuditEvent) (id : uuid) (x : Exception) (d d' : DB) (y : Exception) : Prop := {
  rd_row : row_of d id x;
  rd_status : resolvable x;
  rd_resolved : resolved_of notes opts x y;
  rd_tables : exists p d1 now entry, pending_of x p /\ G id (put p d) d1 /\ audit_entry (audit (EX_Status x) y now) entry /\
    d' = set_outbox (fun l => l ++ [entry]) (put y d1);
}.

Inductive resolution_left (G : uuid -> DB -> DB -> Prop) (id : uuid) (d d' : DB) : Prop :=
| left_unchanged : d' = d -> resolution_left G id d d'
| left_reverted x r : row_of d id x -> resolvable x -> reverted_of x r -> d' = put r d -> resolution_left G id d d'
| left_pending x p : row_of d id x -> resolvable x -> pending_of x p -> d' = put p d -> resolution_left G id d d'
| left_applied x p : row_of d id x -> resolvable x -> pending_of x p -> G id (put p d) d' -> resolution_left G id d d'.

Lemma exceptions_ok_ext d d' : DB_exceptions d' = DB_exceptions d -> exceptions_ok d -> exceptions_ok d'.
Proof. intros E [H1 H2 H3]. by split; rewrite E. Qed.

Lemma bind_unfold {X Y} (m : io X) (f : X -> io Y) w :
  (m ≫= f) w = match m w with (w', Ok x) => f x w' | (w', Err e) => (w', Err e) end.
Proof. done. Qed.

Section process.
  Context (G : uuid -> DB -> DB -> Prop) (gatewayFn : uuid -> io unit).
  Hypothesis gateway_ok : forall id, call_spec (gatewayFn id) (fun d d' _ => exceptions_ok d -> G id d d') (fun d d' => d' = d).
  Hypothesis gateway_exceptions : forall id d d', G id d d' -> DB_exceptions d' = DB_exceptions d.

(** After the exception is pending. *)
Lemma resolve_pending id x p notes opts audit :
  storable x -> resolvable x -> strings_TrimSpace notes <> "" -> pending_of x p ->
  call_spec (_ ← executeWithRevert p (EX_Status x) (gatewayFn (EX_ID p)); finishResolution uc p notes opts audit)
    (fun d d' y => exceptions_ok d -> row_of d id p -> exists d1 now entry, G id d d1 /\ resolved_of notes opts x y /\
       audit_entry (audit y now) entry /\ d' = set_outbox (fun l => l ++ [entry]) (put y d1))
    (fun d d' => exceptions_ok d -> row_of d id p ->
       d' = d \/ (exists r, reverted_of x r /\ d' = put r d) \/ G id d d').
Proof.
  intros Hs Hr Hn Hp.
  eapply call_weaken; [eapply call_bind; [by eapply (executeWithRevert_spec id), gateway_ok|intros ? ? ? _; by eapply (finish_spec id)]|..].
  - intros d d' y (d1 & [] & Hg & Hf) Hd Hrow. specialize (Hg Hd). pose proof (gateway_exceptions _ _ _ Hg) as E. destruct Hrow as [Hrow Hid].
    destruct Hf as (now & entry & H1 & H2 & H3); [by eapply exceptions_ok_ext|by split; [rewrite E|]|]. rewrite Hid in Hg. eauto 10.
  - intros d d' [H|(d1 & [] & Hg & ->)] Hd Hrow; [destruct (H Hd Hrow); eauto|]. specialize (Hg Hd). destruct Hrow as [_ <-]. eauto.
Qed.

Lemma processResolution_spec id notes opts audit w :
  strings_TrimSpace notes <> "" -> W_tx w = None -> exceptions_ok (W_db w) ->
  let '(w', r) := processResolution uc id gatewayFn notes opts audit w in
  W_tx w' = None /\
  match r with
  | Ok y => exists x, resolution_done G notes opts audit id x (W_db w) (W_db w') y
  | Err _ => resolution_left G id (W_db w) (W_db w')
  end.
Proof.
  intros Hn Hw Hd. unfold processResolution. rewrite bind_unfold. pose proof (FindByID_spec id w) as Hf.
  destruct (exceptionRepo_FindByID id w) as [w1 [x|e]]; destruct Hf as ((D1 & _) & T1 & Hf);
    [|split; [congruence|by apply left_unchanged]].
  specialize (Hf Hd). pose proof (row_of_storable _ _ _ Hd Hf) as Hs. rewrite bind_unfold. cbn [st_lift].
  destruct (map_err _ _) as [[]|e]; [|split; [congruence|by apply left_unchanged]].
  rewrite bind_unfold. pose proof (exception_call_spec Exception_StartResolution x w1) as Hc.
  destruct (exception_call _ x w1) as [w2 [x'|e]]; destruct Hc as ((D2 & _) & T2 & Hc);
    [|split; [congruence|apply left_unchanged; congruence]].
  destruct Hc as [now Hc]. assert (resolvable x) as Hres by (by apply Exception_StartResolution_effect in Hc as [? _]).
  rewrite D1 in D2. assert (W_tx w2 = None) as T2' by congruence.
  rewrite bind_unfold. pose proof (start_spec id x now x' Hs Hc w2 T2') as Hu.
  destruct (exceptionRepo_Update x' w2) as [w3 [p|e]]; destruct Hu as [T3 Hu]; rewrite D2 in Hu; [|split; [done|by apply left_unchanged]].
  destruct (Hu Hd Hf) as [Hp Hd3]. destruct (pending_row _ _ _ _ Hd Hf Hp) as [Hok Hrow]. rewrite <-Hd3 in Hok, Hrow.
  pose proof (resolve_pending id x p notes opts (audit (EX_Status x)) Hs Hres Hn Hp w3 T3) as Hfin.
  destruct ((_ ← executeWithRevert _ _ _; _) w3) as [w4 [y|e]]; destruct Hfin as [T4 Hfin]; specialize (Hfin Hok Hrow); (split; [done|]);
    rewrite Hd3 in Hfin.
  - destruct Hfin as (d1 & now' & entry & H1 & H2 & H3 & H4). exists x. split; eauto 10.
  - destruct Hfin as [E|[(r & Hr & E)|Hg]]; [by eapply left_pending|eapply left_reverted; eauto|by eapply left_applied].
    rewrite E. apply put_put. destruct Hp as (? & ->), Hr as (? & ->). done.
Qed.
End process.

(** ** What matching does on behalf of a resolution *)
Definition context_of (d : DB) (t : Transaction) (contextID : uuid) : Prop :=
  DB_jobContext d !! TX_IngestionJobID t = Some contextID \/ DB_sourceContext d !! TX_SourceID t = Some contextID.

Definition transaction_context (d : DB) (transactionID contextID : uuid) : Prop :=
  exists t, DB_txs d !! transactionID = Some t /\ context_of d t contextID.

Lemma GetContextIDByTransactionID_spec transactionID :
  ro_spec (GetContextIDByTransactionID uc transactionID) (fun d c => transaction_context d transactionID c).
Proof.
  unfold GetContextIDByTransactionID. eapply ro_weaken.
  { eapply ro_bind; [eapply (ro_try _ _ _ (fun _ _ => False)); [apply ro_sql_read|intros e; apply ro_fail]|intros t].
    eapply (ro_try _ _ _ (fun d c => DB_sourceContext d !! TX_SourceID t = Some c)); [apply ro_sql_read|intros jobErr].
    destruct (_ || _); [apply ro_fail|]. eapply ro_weaken.
    { eapply (ro_try _ _ _ (fun _ _ => False)); [apply ro_sql_read|intros e; apply ro_fail]. }
    intros d c [H|[]]. cbn in H. destruct (_ !! _) eqn:E; [|done]. by injection H as ->. }
  intros d c (t & [Ht|[]] & Hc). cbn in Ht. destruct (DB_txs d !! _) as [t'|] eqn:E; [|done]. injection Ht as ->.
  exists t. split; [done|]. destruct Hc as [Hc|Hc]; [left|by right].
  destruct (DB_jobContext d !! _) eqn:E'; [|done]. congruence.
Qed.

(** The transaction of the exception is marked as matched. *)
Definition marked_matched (contextID transactionID : uuid) (now : Time) (t : Transaction) (d : DB) : Transaction :=
  if source_in_context d contextID t then set_status "MATCHED" now t else t.

Definition force_matched (id : uuid) (d d' : DB) : Prop :=
  exists x c now t, row_of d id x /\ DB_txs d !! EX_TransactionID x = Some t /\ context_of d t c /\
    d' = set_txs <[EX_TransactionID x := marked_matched c (EX_TransactionID x) now t d]> d.

Lemma mark_one contextID transactionID now t d d' :
  DB_txs d !! transactionID = Some t -> BuildMarkStatusQuery contextID [transactionID] "MATCHED" now d = Ok (d', tt) ->
  d' = set_txs <[transactionID := marked_matched contextID transactionID now t d]> d.
Proof.
  intros Ht [= <-]. destruct d. unfold set_txs. cbn in *. f_equal. apply map_eq. intros id. rewrite map_lookup_imap.
  unfold marked_matched, source_in_context. cbn. rewrite union_empty_r_L.
  destruct (decide (id = transactionID)) as [->|Hn].
  - rewrite lookup_insert_eq, Ht. cbn. by rewrite bool_decide_eq_true_2 by set_solver.
  - rewrite lookup_insert_ne by done. destruct (_ !! id); [|done]. cbn. by rewrite bool_decide_eq_false_2 by set_solver.
Qed.

Lemma MarkMatched_spec contextID transactionID :
  call_spec (transactionRepo_MarkMatched contextID [transactionID])
    (fun d d' _ => exists now, BuildMarkStatusQuery contextID [transactionID] "MATCHED" now d = Ok (d', tt)) (fun d d' => d' = d).
Proof.
  unfold transactionRepo_MarkMatched. eapply call_weaken; [eapply call_after_read; [apply ro_lift|intros d u Hu]|..].
  { rewrite bool_decide_eq_false_2 by done. apply call_tx. eapply tx_bind; [apply tx_now|intros now; apply tx_sql]. }
  - intros d d' [] (u & _ & d1 & now & -> & H). eauto.
  - intros d d' [->|(u & _ & ->)]; done.
Qed.

Lemma executor_ForceMatch_spec id :
  call_spec (executor_ForceMatch uc id) (fun d d' _ => exceptions_ok d -> force_matched id d d') (fun d d' => d' = d).
Proof.
  unfold executor_ForceMatch, CreateForceMatch. eapply call_weaken.
  { eapply call_read_then; [apply FindByID_spec|intros d x _].
    eapply call_read_then; [apply GetContextIDByTransactionID_spec|intros d1 c _; apply MarkMatched_spec]. }
  - intros d d' u (x & Hx & c & (t & Ht & Hc) & now & H) Hd. exists x, c, now, t. split_and!; eauto. by apply mark_one.
  - done.
Qed.

(** An adjustment of the transaction is stored: a debit, since the amount is
    positive. *)
Record adjusted_entry (cmd : AdjustEntryCommand) (currency reason notes : string) (id : uuid) (d d' : DB) : Prop := {
  ae_row : exists x adj, row_of d id x /\ transaction_context d (EX_TransactionID x) (ADJ_ContextID adj) /\
    ADJ_TransactionID adj = Some (EX_TransactionID x) /\ ADJ_Type adj = mapReasonToAdjustmentType reason /\
    ADJ_Direction adj = AdjustmentDirectionDebit /\ ADJ_Amount adj = AEC_Amount cmd /\ ADJ_Currency adj = currency /\
    ADJ_Description adj = notes /\ ADJ_Reason adj = reason /\ ADJ_CreatedBy adj = XU_actor uc /\
    (0 < dec_Rat (ADJ_Amount adj))%Q /\ DB_adjustments d !! ADJ_ID adj = None /\
    d' = set_adjustments <[ADJ_ID adj := adj]> d;
}.

Lemma gateway_CreateAdjustment_spec transactionID direction amount currency reason notes actor :
  call_spec (gateway_CreateAdjustment uc transactionID direction amount currency reason notes actor)
    (fun d d' _ => exists c id adj, transaction_context d transactionID c /\
       NewAdjustment id.1 id.2 c None (Some transactionID) (mapReasonToAdjustmentType reason) direction amount currency
         notes reason actor = Ok adj /\ DB_adjustments d !! ADJ_ID adj = None /\
       d' = set_adjustments <[ADJ_ID adj := adj]> d) (fun d d' => d' = d).
Proof.
  unfold gateway_CreateAdjustment. eapply call_weaken.
  { eapply call_read_then; [apply GetContextIDByTransactionID_spec|intros d c _]. eapply call_read_then; [apply ro_lift|intros ? u _].
    eapply call_read_then; [apply ro_fresh|intros ? id _]. eapply call_read_then; [apply ro_lift|intros ? adj _].
    eapply call_weaken; [eapply call_bind; [apply call_tx, adjustmentRepo_insertWithTx_spec|intros ? ? ? _; apply call_ret]|..].
    - intros e1 e2 y H. exact H.
    - by intros e1 e2 [->|(e3 & y & _ & [])]. }
  - intros d d' y (c & Hc & _ & _ & id & _ & adj & Ha & d1 & z & (-> & Hn & ->) & -> & _).
    exists c, id, adj. destruct (NewAdjustment _ _ _ _ _ _ _ _ _ _ _ _) eqn:E; [|done]. injection Ha as ->. done.
  - done.
Qed.

Lemma executor_AdjustEntry_spec id cmd currency reason notes :
  dec_IsNegative (AEC_Amount cmd) = false ->
  call_spec (executor_AdjustEntry uc id (mkAdjustmentInput (AEC_Amount cmd) currency reason notes))
    (fun d d' _ => exceptions_ok d -> adjusted_entry cmd currency reason notes id d d') (fun d d' => d' = d).
Proof.
  intros Hneg. unfold executor_AdjustEntry. cbn [AI_Amount AI_Currency AI_Reason AI_Notes].
  eapply call_weaken.
  { eapply call_read_then; [apply ro_lift|intros ? u _]. eapply call_read_then; [apply FindByID_spec|intros ? x _].
    apply gateway_CreateAdjustment_spec. }
  - intros d d' y (_ & _ & x & Hx & c & fresh & adj & Hc & Ha & Hn & ->) Hd. rewrite Hneg in Ha.
    pose proof (NewAdjustment_signed _ _ _ _ _ _ _ _ _ _ _ _ _ Ha) as (Hpos & _).
    split. exists x, adj. unfold NewAdjustment in Ha. res_inv. cbn in *. split_and!; try done; by apply Hx.
  - done.
Qed.

(** ** The two commands *)
Inductive resolution_command : Type :=
| CForceMatch (cmd : ForceMatchCommand)
| CAdjustEntry (cmd : AdjustEntryCommand).

Definition resolve_exception (c : resolution_command) : io Exception :=
  match c with CForceMatch cmd => ForceMatch uc cmd | CAdjustEntry cmd => AdjustEntry uc cmd end.

Definition command_exception (c : resolution_command) : uuid :=
  match c with CForceMatch cmd => FMC_ExceptionID cmd | CAdjustEntry cmd => AEC_ExceptionID cmd end.

(** What a valid command asks for. *)
Record resolution_plan : Type := mkResolutionPlan {
  RP_notes : string;
  RP_opts : list ResolveOption;
  RP_audit : ExceptionStatus -> Exception -> Time -> AuditEvent;
  RP_effect : uuid -> DB -> DB -> Prop;
}.

Definition plan_of (c : resolution_command) : res CmdError resolution_plan :=
  match c with
  | CForceMatch cmd =>
      '(actor, notes, overrideReason) ← validateForceMatch uc cmd;
      Ok (mkResolutionPlan notes [WithResolutionType "FORCE_MATCH"; WithResolutionReason overrideReason]
            (forceMatchAudit actor notes overrideReason) force_matched)
  | CAdjustEntry cmd =>
      '(actor, notes, currency, reason) ← validateAdjustEntry uc cmd;
      Ok (mkResolutionPlan notes [WithResolutionType "ADJUST_ENTRY"; WithResolutionReason reason]
            (adjustEntryAudit actor notes currency reason) (adjusted_entry cmd currency reason notes))
  end.

Definition resolution_result (plan : resolution_plan) (id : uuid) (w w' : World) (r : res CmdError Exception) : Prop :=
  match r with
  | Ok y => exists x, resolution_done (RP_effect plan) (RP_notes plan) (RP_opts plan) (RP_audit plan) id x (W_db w) (W_db w') y
  | Err _ => resolution_left (RP_effect plan) id (W_db w) (W_db w')
  end.

Lemma trimmed_nonempty s : negb (string_empty (strings_TrimSpace s)) = true ->
  strings_TrimSpace (strings_TrimSpace s) <> "".
Proof. rewrite strings_TrimSpace_idem. unfold string_empty. by rewrite negb_true_iff, bool_decide_eq_false. Qed.

Lemma resolve_exception_spec c w : W_tx w = None -> exceptions_ok (W_db w) ->
  let '(w', r) := resolve_exception c w in
  W_tx w' = None /\
  match plan_of c with
  | Ok plan => resolution_result plan (command_exception c) w w' r
  | Err e => r = Err e /\ W_db w' = W_db w
  end.
Proof.
  intros Hw Hd. destruct c as [cmd|cmd]; cbn [resolve_exception plan_of command_exception].
  - unfold ForceMatch. rewrite bind_unfold. cbn [st_lift].
    destruct (validateForceMatch uc cmd) as [[[actor notes] reason]|e] eqn:E; cbn [mbind res_bind]; [|done].
    unfold validateForceMatch in E. res_inv.
    apply (processResolution_spec force_matched); try done; [apply executor_ForceMatch_spec| |by apply trimmed_nonempty].
    by intros id d d' (x & c & now & t & _ & _ & _ & ->).
  - unfold AdjustEntry. rewrite bind_unfold. cbn [st_lift].
    destruct (validateAdjustEntry uc cmd) as [[[[actor notes] currency] reason]|e] eqn:E; cbn [mbind res_bind]; [|done].
    unfold validateAdjustEntry in E. res_inv.
    apply (processResolution_spec (adjusted_entry cmd currency reason _)); try done; [intros id; apply executor_AdjustEntry_spec| |by apply trimmed_nonempty].
    + by apply negb_true_iff.
    + by intros id d d' [(x & adj & _ & _ & _ & _ & _ & _ & _ & _ & _ & _ & _ & _ & ->)].
Qed.

(** *** The table stays well formed *)
Lemma plan_frame c plan id d d' :
  plan_of c = Ok plan -> RP_effect plan id d d' -> DB_exceptions d' = DB_exceptions d.
Proof.
  destruct c as [cmd|cmd]; cbn [plan_of].
  - destruct (validateForceMatch uc cmd) as [[[actor notes] reason]|e]; cbn [mbind res_bind]; [|done].
    intros [= <-] (x & c & now & t & _ & _ & _ & ->). done.
  - destruct (validateAdjustEntry uc cmd) as [[[[actor notes] currency] reason]|e]; cbn [mbind res_bind]; [|done].
    intros [= <-] [(x & adj & _ & _ & _ & _ & _ & _ & _ & _ & _ & _ & _ & _ & ->)]. done.
Qed.

Lemma plan_notes c plan : plan_of c = Ok plan -> strings_TrimSpace (RP_notes plan) <> "".
Proof.
  destruct c as [cmd|cmd]; cbn [plan_of].
  - destruct (validateForceMatch uc cmd) as [[[actor notes] reason]|e] eqn:E; cbn [mbind res_bind]; [|done]. intros [= <-].
    unfold validateForceMatch in E. res_inv. by apply trimmed_nonempty.
  - destruct (validateAdjustEntry uc cmd) as [[[[actor notes] currency] reason]|e] eqn:E; cbn [mbind res_bind]; [|done].
    intros [= <-]. unfold validateAdjustEntry in E. res_inv. by apply trimmed_nonempty.
Qed.

Lemma put_ok d id x y :
  exceptions_ok d -> row_of d id x -> EX_TransactionID y = EX_TransactionID x -> EX_ID y = EX_ID x -> storable y ->
  exceptions_ok (put y d).
Proof. intros Hd [Hx _] Ht Hid [Hs Hw]. unfold put. rewrite Ht. by eapply exceptions_ok_insert. Qed.

Lemma left_ok c plan id d d' :
  plan_of c = Ok plan -> exceptions_ok d -> resolution_left (RP_effect plan) id d d' -> exceptions_ok d'.
Proof.
  intros Hp Hd [->|x r Hx Hres (now & ->) ->|x p Hx _ Hpe ->|x p Hx _ Hpe Hg]; [done|..].
  - eapply put_ok; try done. apply (row_of_storable _ _ _ Hd) in Hx as [Hs [H1 H2 H3]]. by split.
  - by apply (pending_row _ id x).
  - eapply exceptions_ok_ext; [by eapply plan_frame|]. by apply (pending_row _ id x).
Qed.

Lemma done_ok c plan id x d d' y :
  plan_of c = Ok plan -> exceptions_ok d ->
  resolution_done (RP_effect plan) (RP_notes plan) (RP_opts plan) (RP_audit plan) id x d d' y -> exceptions_ok d'.
Proof.
  intros Hp Hd [Hx Hres (now & now' & ->) (p & d1 & t & entry & Hpe & Hg & _ & ->)].
  destruct (pending_row _ _ _ _ Hd Hx Hpe) as [Hok Hrow]. apply (plan_frame c) in Hg as E; [|done].
  eapply exceptions_ok_ext; [|eapply (put_ok d1 id p)]; [done|by eapply exceptions_ok_ext|..].
  - destruct Hrow. by split; [rewrite E|].
  - by destruct Hpe as (? & ->).
  - by destruct Hpe as (? & ->).
  - apply (row_of_storable _ _ _ Hd) in Hx as [Hs [H1 H2 H3]]. split; [done|split; [done..|]].
    intros _. eexists. split; [done|]. by eapply plan_notes.
Qed.

(** The transaction is there and has become matched. *)
Definition matched_now (id : uuid) (d d' : DB) : Prop := exists t now,
  DB_txs d !! id = Some t /\ DB_txs d' !! id = Some (set_status "MATCHED" now t).

(** A force match that succeeds has done so to the transaction of its exception
    when jobs and sources agree on their contexts. *)
Definition force_match_marks (c : resolution_command) (d d' : DB) (r : res CmdError Exception) : Prop :=
  match c, r with
  | CForceMatch _, Ok y => contexts_agree d -> matched_now (EX_TransactionID y) d d'
  | _, _ => True
  end.

Lemma row_of_unique d id x x' : exceptions_ok d -> row_of d id x -> row_of d id x' -> EX_TransactionID x = EX_TransactionID x'.
Proof. intros Hd [Hx Hi] [Hx' Hi']. eapply (xo_ids _ Hd); [exact Hx|exact Hx'|congruence]. Qed.

Lemma context_of_source d id t c : contexts_agree d -> DB_txs d !! id = Some t -> context_of d t c -> source_in_context d c t = true.
Proof.
  intros Hc Ht H. unfold source_in_context. apply bool_decide_eq_true. destruct H as [H|H]; [by eapply Hc|exact H].
Qed.

Lemma force_matched_marks notes opts audit id x d d' y : exceptions_ok d -> contexts_agree d ->
  resolution_done force_matched notes opts audit id x d d' y -> matched_now (EX_TransactionID y) d d'.
Proof.
  intros Hd Hc [Hx _ Hy (p & d1 & now & entry & Hp & (x' & c & now3 & t & Hx' & Ht & Hctx & ->) & _ & ->)].
  destruct (pending_row _ _ _ _ Hd Hx Hp) as [Hok Hrow]. pose proof (row_of_unique _ _ _ _ Hok Hrow Hx') as E.
  assert (EX_TransactionID p = EX_TransactionID x) as Ep by (by destruct Hp as (? & ->)). rewrite Ep in E.
  assert (EX_TransactionID y = EX_TransactionID x) as Ey by (by destruct Hy as (? & ? & ->)). rewrite Ey, E.
  exists t, now3. split; [exact Ht|]. cbn. rewrite lookup_insert_eq.
  f_equal. unfold marked_matched. by rewrite (context_of_source _ (EX_TransactionID x')).
Qed.

(** C5: A force match or an adjustment entry either returns the exception
    resolved, with the work of matching done and exactly one audit event added
    in the transaction that resolved it; or it fails and leaves the tables
    unchanged, the exception back at its status (two versions later), the
    exception pending, or the exception pending with the work of matching done.
    That work is one stored adjustment of the transaction, or, for a force
    match, the transaction marked as matched if its source belongs to the
    context found for it and nothing otherwise; so a force match that succeeds
    has marked the transaction whenever the job and the source of a transaction
    are of one context.  A command that does not validate changes nothing.  The
    table of exceptions stays well formed on every path. *)
Theorem resolution_outcome c w : W_tx w = None -> exceptions_ok (W_db w) ->
  let '(w', r) := resolve_exception c w in
  W_tx w' = None /\ exceptions_ok (W_db w') /\
  match plan_of c with
  | Ok plan => resolution_result plan (command_exception c) w w' r
  | Err e => r = Err e /\ W_db w' = W_db w
  end /\ force_match_marks c (W_db w) (W_db w') r.
Proof.
  intros Hw Hd. pose proof (resolve_exception_spec c w Hw Hd) as H. destruct (resolve_exception c w) as [w' r].
  destruct H as [Ht H]. split; [done|]. split; [|split; [done|]].
  - destruct (plan_of c) as [plan|e] eqn:Hp; [|by destruct H as [_ ->]].
    destruct r as [y|e]; [destruct H as (x & H); by eapply done_ok|by eapply left_ok].
  - destruct c as [cmd|cmd], r as [y|e]; try done. intros Hc. cbn [plan_of] in H.
    destruct (validateForceMatch uc cmd) as [[[actor notes] reason]|e]; cbn [mbind res_bind] in H; [|by destruct H].
    destruct H as (x & H). by eapply force_matched_marks.
Qed.
End outcome.

(** ** A sample call *)
Definition resolution_uc : ExceptionUseCase :=
  mkExceptionUseCase "tenant" "" "ana" "salt" true "stream" true.
Definition open_exception : @Exception model_uuid :=
  mkException (U:=model_uuid) "e1" "l1" "LOW" "OPEN" None None None None None None None (Some "UNMATCHED") 1 5 5.
Definition resolution_world : @World model_uuid model_decimal :=
  mkWorld (U:=model_uuid) (D:=model_decimal) (set_exceptions (fun _ => {["l1" := open_exception]}) manual_db) None 0 0 None.
Definition force_command : @ForceMatchCommand model_uuid :=
  mkForceMatchCommand (U:=model_uuid) "e1" "POLICY_EXCEPTION" " checked ".
Definition force_call (env : Env model_uuid) : @io model_uuid model_decimal (@Exception model_uuid) :=
  resolve_exception (A:=model_assert) (N:=model_unicode) (V:=env) (O:=model_outbox) resolution_uc
    (CForceMatch force_command).

Lemma resolution_world_ok : exceptions_ok (W_db resolution_world).
Proof.
  split; cbn.
  - by intros k y [<- <-]%lookup_singleton_Some.
  - by intros k k' y y' [<- <-]%lookup_singleton_Some [<- <-]%lookup_singleton_Some.
  - by intros k y [<- <-]%lookup_singleton_Some.
Qed.

Definition resolution_summary (out : @World model_uuid model_decimal * res CmdError (@Exception model_uuid)) :=
  (is_Ok out.2, (fun x => (EX_Status x, EX_Version x)) <$> (map_to_list (DB_exceptions (W_db out.1))).*2,
   TX_Status <$> DB_txs (W_db out.1) !! ("l1" : @uuid model_uuid), OE_EventType <$> DB_outbox (W_db out.1)).

Lemma force_call_result : resolution_summary (force_call quiet_env resolution_world) =
  (true, [("RESOLVED", 3%Z)], Some "MATCHED", [EventTypeAuditLogCreated]).
Proof. vm_compute. reflexivity. Qed.

Lemma resolution_outcome_witness :
  exists w' y x, force_call quiet_env resolution_world = (w', Ok y) /\
    resolution_done force_matched "checked" [WithResolutionType "FORCE_MATCH"; WithResolutionReason "POLICY_EXCEPTION"]
      (forceMatchAudit "ana" "checked" "POLICY_EXCEPTION") "e1" x (W_db resolution_world) (W_db w') y /\
    matched_now "l1" (W_db resolution_world) (W_db w').
Proof.
  pose proof force_call_result as Hs. unfold force_call in *.
  pose proof (resolution_outcome (DL:=model_decimal_laws) (A:=model_assert) (AL:=model_assert_laws) (N:=model_unicode)
    (NL:=model_unicode_laws) (V:=quiet_env) (O:=model_outbox) resolution_uc
    (CForceMatch force_command) resolution_world eq_refl resolution_world_ok) as H.
  destruct (resolve_exception _ _ resolution_world) as [w' [y|e]]; [|discriminate Hs].
  destruct H as (_ & _ & (x & H) & Hm). exists w', y, x. split; [reflexivity|]. split; [exact H|].
  destruct H as [[Hx _] _ (t & t' & ->) _]. cbn in Hx. apply lookup_singleton_Some in Hx as [Hx <-].
  apply Hm. exact (proj1 (proj2 manual_db_wf)).
Defined.
