(* ===== verification/Bulk.v ===== *)
(** * Bulk changes of exceptions

    Models internal/exception/services/command/bulk_commands.go (assign and
    resolve) and [FindByIDs] of
    internal/exception/adapters/postgres/exception/exception_queries.postgresql.go.

    The exceptions are read once and changed one by one, each in a transaction
    of its own.  [bulk_outcome]: every identifier is reported exactly once, and
    the rows changed are those reported as succeeded, each with its audit
    event.  [resolution_stuck]: an exception a failed resolution left pending is
    refused by every later command. *)
From S2P Require Import GoLib GoLibModel FeeStructure MatchTypes MatchEntities Transaction RunPrepare RunExecute.
From S2P Require Import Severity Exceptions Sha256 AuditChain AuditEvent Store RunMatch RunOutcome Calls ManualMatch Adjust ExceptionRepo Resolution.

Section commands.
  Context {U : UUIDLib} {D : DecimalLib} {A : AssertLib} {N : UnicodeLib} {V : Env U} {O : OutboxLib U}.
  Context (uc : ExceptionUseCase).

Definition maxBulkIDs : nat := 100.

(** The identifiers without repetitions, in the order of their first
    occurrence. *)
Fixpoint dedup_ids (seen : gset uuid) (ids : list uuid) : list uuid :=
  match ids with
  | [] => []
  | id :: ids' => if bool_decide (id ∈ seen) then dedup_ids seen ids' else id :: dedup_ids ({[id]} ∪ seen) ids'
  end.

Definition validateBulkIDs (ids : list uuid) : res CmdError (list uuid) :=
  _ ← ensure (negb (bool_decide (ids = []))) (ErrExceptionCmd ErrBulkEmptyIDs);
  _ ← ensure (length ids <=? maxBulkIDs)%nat (ErrExceptionCmd ErrBulkTooManyIDs);
  Ok (dedup_ids ∅ ids).

(** [SELECT ... WHERE id IN (...)]: one row that cannot be scanned fails the
    query. *)
Definition select_exceptions (ids : list uuid) (d : DB) : res CmdError (list Exception) :=
  res_mapM scanInto (filter (fun x => EX_ID x ∈ ids) (map_to_list (DB_exceptions d)).*2).

Definition exceptionRepo_FindByIDs (ids : list uuid) : io (list Exception) :=
  if bool_decide (ids = []) then mret [] else sql_read (select_exceptions ids).

Definition preloadExceptions (ids : list uuid) : io (gmap uuid Exception) :=
  found ← exceptionRepo_FindByIDs ids;
  mret (foldl (fun byID ex => <[EX_ID ex := ex]> byID) ∅ found).

Definition resolvePreloaded (preloaded : gmap uuid Exception) (exceptionID : uuid) : res CmdError Exception :=
  match preloaded !! exceptionID with Some ex => Ok ex | None => Err (ErrException ErrExceptionNotFound) end.

Record BulkActionResult : Type := mkBulkActionResult {
  BR_Succeeded : list uuid;
  BR_Failed : list (uuid * CmdError);
}.

(** The emission after the commit is best effort. *)
Definition emitExceptionImportant : io unit := io_try (Emit uc false) (fun _ => mret tt).

Definition assignAudit (exceptionID : uuid) (assignee actor : string) (now : Time) : AuditEvent :=
  mkAuditEvent exceptionID "BULK_ASSIGN" actor "" ("Assigned to " +:+ assignee +:+ " via bulk action") None now
    {["assignee" := assignee]}.

Definition assignBody (exception : Exception) (audit : Time -> AuditEvent) : io unit :=
  _ ← exceptionRepo_UpdateWithTx exception;
  now ← io_now;
  PublishExceptionEventWithTx uc (audit now).

Definition assignSingle (preloaded : gmap uuid Exception) (assignee actor : string) (exceptionID : uuid) : io unit :=
  exception ← st_lift (resolvePreloaded preloaded exceptionID);
  exception ← exception_call (Exception_Assign assignee None) exception;
  _ ← WithTx false (assignBody exception (assignAudit exceptionID assignee actor));
  emitExceptionImportant.

Definition resolveAudit (exceptionID : uuid) (resolution reason actor : string) (now : Time) : AuditEvent :=
  mkAuditEvent exceptionID "BULK_RESOLVE" actor "" resolution None now {["reason" := reason]}.

Definition resolveSingle (preloaded : gmap uuid Exception) (resolution reason actor : string) (exceptionID : uuid) : io unit :=
  exception ← st_lift (resolvePreloaded preloaded exceptionID);
  _ ← st_ensure (negb (bool_decide (EX_Status exception = ExceptionStatusPendingResolution)))
        (ErrException ErrExceptionPendingResolution);
  _ ← st_lift (map_err ErrException (ValidateResolutionTransition (EX_Status exception) ExceptionStatusResolved));
  let opts := if negb (string_empty reason) then [WithResolutionReason reason] else [] in
  exception ← exception_call (Exception_Resolve resolution opts) exception;
  _ ← WithTx false (resolveBody uc exception (fun _ => resolveAudit exceptionID resolution reason actor));
  mret tt.

(** The loop over the identifiers. *)
Fixpoint bulk_items (single : uuid -> io unit) (ids : list uuid) (result : BulkActionResult) : io BulkActionResult := fun w =>
  match ids with
  | [] => (w, Ok result)
  | id :: ids' =>
      match single id w with
      | (w', Ok _) => bulk_items single ids' (mkBulkActionResult (BR_Succeeded result ++ [id]) (BR_Failed result)) w'
      | (w', Err e) => bulk_items single ids' (mkBulkActionResult (BR_Succeeded result) (BR_Failed result ++ [(id, e)])) w'
      end
  end.

Definition BulkAssign (exceptionIDs : list uuid) (assignee : string) : io BulkActionResult :=
  dedupedIDs ← st_lift (validateBulkIDs exceptionIDs);
  let assignee := strings_TrimSpace assignee in
  _ ← st_ensure (negb (string_empty assignee)) (ErrExceptionCmd ErrBulkAssigneeEmpty);
  let actor := strings_TrimSpace (XU_actor uc) in
  _ ← st_ensure (negb (string_empty actor)) (ErrExceptionCmd ErrActorRequired);
  preloaded ← preloadExceptions dedupedIDs;
  bulk_items (assignSingle preloaded assignee actor) dedupedIDs (mkBulkActionResult [] []).

Definition BulkResolve (exceptionIDs : list uuid) (resolution reason : string) : io BulkActionResult :=
  dedupedIDs ← st_lift (validateBulkIDs exceptionIDs);
  let resolution := strings_TrimSpace resolution in
  _ ← st_ensure (negb (string_empty resolution)) (ErrExceptionCmd ErrBulkResolutionEmpty);
  let actor := strings_TrimSpace (XU_actor uc) in
  _ ← st_ensure (negb (string_empty actor)) (ErrExceptionCmd ErrActorRequired);
  preloaded ← preloadExceptions dedupedIDs;
  let reason := strings_TrimSpace reason in
  bulk_items (resolveSingle preloaded resolution reason actor) dedupedIDs (mkBulkActionResult [] []).
End commands.

(** ** What a bulk command does *)
Section outcome.
  Context {U : UUIDLib} {D : DecimalLib} {DL : DecimalLaws D} {A : AssertLib} {AL : AssertLaws A} {N : UnicodeLib}
    {NL : UnicodeLaws N} {V : Env U} {O : OutboxLib U}.
  Variable uc : ExceptionUseCase.

Section items.
  Context (change : Exception -> Exception -> Prop) (audit : uuid -> Time -> AuditEvent).
  Hypothesis change_ids : forall x y, change x y -> EX_ID y = EX_ID x /\ EX_TransactionID y = EX_TransactionID x.
  Hypothesis change_storable : forall x y, storable x -> change x y -> storable y.

Definition item_done (id : uuid) (d d' : DB) : Prop :=
  exists x y now entry, row_of d id x /\ change x y /\ audit_entry (audit id now) entry /\
    d' = set_outbox (fun l => l ++ [entry]) (put y d).

(** Succeeded and failed identifiers, in the order they were processed. *)
Inductive split_ids : list uuid -> list uuid -> list uuid -> Prop :=
| split_nil : split_ids [] [] []
| split_ok id ids s f : split_ids ids s f -> split_ids (id :: ids) (id :: s) f
| split_failed id ids s f : split_ids ids s f -> split_ids (id :: ids) s (id :: f).

Record bulk_done (s : list uuid) (d d' : DB) : Prop := {
  bd_rows : forall k x, DB_exceptions d !! k = Some x -> exists y, DB_exceptions d' !! k = Some y /\
    (EX_ID x ∈ s -> change x y) /\ (EX_ID x ∉ s -> y = x);
  bd_new : forall k, DB_exceptions d !! k = None -> DB_exceptions d' !! k = None;
  bd_outbox : exists entries, Forall2 (fun id entry => exists now, audit_entry (audit id now) entry) s entries /\
    d' = set_outbox (fun l => l ++ entries) (set_exceptions (fun _ => DB_exceptions d') d);
}.

Lemma bulk_done_refl d : bulk_done [] d d.
Proof.
  split; [|done|].
  - intros k x Hx. exists x. split_and!; [done|by intros ?%not_elem_of_nil|done].
  - exists []. split; [done|]. destruct d. unfold set_outbox, set_exceptions. cbn. by rewrite app_nil_r.
Qed.

Lemma item_done_other id id' d d' x : item_done id d d' -> id' <> id -> row_of d id' x -> row_of d' id' x.
Proof.
  intros (x0 & y & now & entry & [H0 <-] & Hc & _ & ->) Hn [Hx <-]. destruct (change_ids _ _ Hc) as [_ Ht].
  split; [|done]. unfold put. cbn. rewrite lookup_insert_ne; [done|]. rewrite Ht. intros E. rewrite E in H0. congruence.
Qed.

Lemma item_done_ok id d d' : exceptions_ok d -> item_done id d d' -> exceptions_ok d'.
Proof.
  intros Hd (x & y & now & entry & Hx & Hc & _ & ->). destruct (change_ids _ _ Hc) as [Hi Ht].
  apply (exceptions_ok_ext (put y d)); [done|]. eapply (put_ok d id x); try done. eapply change_storable; [|done]. by eapply row_of_storable.
Qed.

Lemma bulk_done_cons id s d d1 d2 :
  exceptions_ok d -> item_done id d d1 -> id ∉ s -> bulk_done s d1 d2 -> bulk_done (id :: s) d d2.
Proof.
  intros Hd (x0 & y0 & now & entry & [H0 Hid] & Hc & He & ->) Hn [Hrows Hnew (entries & Hf & Hd2)].
  destruct (change_ids _ _ Hc) as [Hi Ht]. unfold put in *. cbn in *. rewrite Ht in *. split.
  - intros k x Hx. destruct (decide (k = EX_TransactionID x0)) as [->|Hk].
    + destruct (Hrows _ _ (lookup_insert_eq _ _ _)) as (y & Hy & _ & Hsame). rewrite Hx in H0. injection H0 as ->.
      exists y. split; [done|]. rewrite Hsame by congruence. split; [done|]. intros Hni. destruct Hni. rewrite Hid. by left.
    + destruct (Hrows k x) as (y & Hy & H1 & H2); [by rewrite lookup_insert_ne|]. exists y. split; [done|].
      assert (EX_ID x <> id) as Hne.
      { intros E. apply Hk. eapply (xo_ids d Hd); [exact Hx|exact H0|congruence]. }
      split; [intros [?|?]%elem_of_cons; [done|auto]|]. intros Hni. apply H2. set_solver.
  - intros k Hk. apply Hnew. rewrite lookup_insert_ne; [done|congruence].
  - exists (entry :: entries). split; [constructor; eauto|]. rewrite Hd2 at 1. destruct d. unfold set_outbox, set_exceptions. cbn.
    by rewrite <-app_assoc.
Qed.

Lemma bulk_items_spec single (preloaded : gmap uuid Exception) :
  (forall id w, W_tx w = None -> exceptions_ok (W_db w) ->
     (forall x, preloaded !! id = Some x -> row_of (W_db w) id x) ->
     let '(w', r) := single id w in
     W_tx w' = None /\ match r with Ok _ => item_done id (W_db w) (W_db w') | Err _ => W_db w' = W_db w end) ->
  forall ids result w, NoDup ids -> W_tx w = None -> exceptions_ok (W_db w) ->
  (forall id x, id ∈ ids -> preloaded !! id = Some x -> row_of (W_db w) id x) ->
  let '(w', r) := bulk_items single ids result w in
  W_tx w' = None /\ exceptions_ok (W_db w') /\
  exists s f, r = Ok (mkBulkActionResult (BR_Succeeded result ++ s) (BR_Failed result ++ f)) /\ split_ids ids s f.*1 /\
    bulk_done s (W_db w) (W_db w').
Proof.
  intros Hone. induction ids as [|id ids IH]; intros result w Hnd Hw Hd Hpre.
  { cbn. split_and!; [done..|]. exists [], []. rewrite !app_nil_r. split_and!; [by destruct result|constructor|apply bulk_done_refl]. }
  apply NoDup_cons in Hnd as [Hni Hnd]. cbn [bulk_items].
  pose proof (Hone id w Hw Hd (fun x => Hpre id x ltac:(left))) as H1. destruct (single id w) as [w1 [u|e]]; destruct H1 as [T1 H1].
  - specialize (IH (mkBulkActionResult (BR_Succeeded result ++ [id]) (BR_Failed result)) w1 Hnd T1 (item_done_ok _ _ _ Hd H1)).
    destruct (bulk_items _ _ _ w1) as [w2 r]. destruct IH as (T2 & Hd2 & s & f & -> & Hs & Hb).
    { intros id' x Hin Hx. eapply item_done_other; [done|by intros ->|]. apply Hpre; [by right|done]. }
    split_and!; [done..|]. exists (id :: s), f. cbn. rewrite <-app_assoc. split_and!; [done|by constructor|].
    eapply bulk_done_cons; try done. intros Hin. apply Hni. clear -Hin Hs. induction Hs; set_solver.
  - rewrite <-H1 in Hd, Hpre. specialize (IH (mkBulkActionResult (BR_Succeeded result) (BR_Failed result ++ [(id, e)])) w1 Hnd T1 Hd).
    destruct (bulk_items _ _ _ w1) as [w2 r]. destruct IH as (T2 & Hd2 & s & f & -> & Hs & Hb).
    { intros id' x Hin Hx. apply Hpre; [by right|done]. }
    split_and!; [done..|]. exists s, ((id, e) :: f). cbn. rewrite <-app_assoc. split_and!; [done|by constructor|]. by rewrite <-H1.
Qed.
End items.

(** ** The two commands *)
Definition assigned_of (assignee : string) (x y : Exception) : Prop :=
  EX_Status x = ExceptionStatusOpen /\ exists now now', y = set_exception_updated now' (bump (set_exception_updated now
    (set_assignment (Some (strings_TrimSpace assignee)) None (set_exception_status ExceptionStatusAssigned x)))).

Definition bulk_resolved_of (resolution : string) (opts : list ResolveOption) (x y : Exception) : Prop :=
  resolvable x /\ exists now now', y = set_exception_updated now' (bump (resolved resolution opts now x)).

Lemma select_exceptions_sound ids d xs x :
  exceptions_ok d -> select_exceptions ids d = Ok xs -> x ∈ xs -> row_of d (EX_ID x) x.
Proof.
  intros Hd H Hx. unfold select_exceptions in H. apply res_mapM_Ok in H.
  destruct (Forall2_elem_of_r _ _ _ _ H Hx) as (row & Hrow & Hs). apply list_elem_of_filter in Hrow as [_ Hrow].
  apply list_elem_of_fmap in Hrow as ([k r] & -> & Hr). apply elem_of_map_to_list in Hr. cbn in Hs.
  destruct (xo_rows d Hd _ _ Hr). rewrite scanInto_valid in Hs by done. injection Hs as ->.
  split; [|done]. by rewrite (xo_key d Hd _ _ Hr).
Qed.

Lemma foldl_insert_lookup (xs : list Exception) (m : gmap uuid Exception) id x :
  foldl (fun byID ex => <[EX_ID ex := ex]> byID) m xs !! id = Some x -> m !! id = Some x \/ (x ∈ xs /\ EX_ID x = id).
Proof.
  revert m. induction xs as [|y xs IH]; intros m; cbn; [auto|]. intros [H|[H ?]]%IH; [|right; split; [by right|done]].
  apply lookup_insert_Some in H as [[<- <-]|[_ H]]; [right; split; [by left|done]|by left].
Qed.

Lemma preloadExceptions_spec ids :
  ro_spec (preloadExceptions ids) (fun d m => exceptions_ok d -> forall id x, m !! id = Some x -> row_of d id x).
Proof.
  unfold preloadExceptions, exceptionRepo_FindByIDs.
  assert (ro_spec (if bool_decide (ids = []) then mret [] else sql_read (select_exceptions ids))
    (fun d xs => exceptions_ok d -> forall x, x ∈ xs -> row_of d (EX_ID x) x)) as Hf.
  { case_bool_decide.
    - eapply ro_weaken; [apply ro_ret|]. intros d xs -> _ x Hx. by apply not_elem_of_nil in Hx.
    - eapply ro_weaken; [apply ro_sql_read|]. intros d xs H' Hd x Hx. exact (select_exceptions_sound _ _ _ _ Hd H' Hx). }
  eapply ro_weaken; [eapply ro_bind; [exact Hf|intros xs; apply ro_ret]|]. intros d m (xs & Hx & ->) Hd id x H.
  apply foldl_insert_lookup in H as [H|[Hin <-]]; [done|]. by apply Hx.
Qed.

Lemma Emit_spec b : ro_spec (Emit uc b) (fun _ _ => True).
Proof.
  unfold Emit. destruct (XU_emitter uc), b; cbn [negb].
  1-2: eapply ro_weaken; [eapply ro_bind; [apply ro_lift|intros ?; apply ro_roundtrip]|done].
  - apply ro_fail.
  - eapply ro_weaken; [apply ro_ret|done].
Qed.

Lemma emitExceptionImportant_spec : call_spec (emitExceptionImportant uc) (fun d d' _ => d' = d) (fun _ _ => False).
Proof.
  unfold emitExceptionImportant. eapply call_weaken; [eapply call_try; [apply call_read, Emit_spec|intros e; apply call_ret]|..].
  - intros d d' u [[-> _]|(d1 & -> & -> & _)]; done.
  - intros d d' (d1 & _ & []).
Qed.

(** A call that changes one object and stores it with its audit event. *)
Definition single_result (x : Exception) (id : uuid) (x' : Exception) (audit : Time -> AuditEvent) (d d' : DB) : Prop :=
  exceptions_ok d -> row_of d id x -> EX_ID x' = EX_ID x -> exists now now' entry,
    audit_entry (audit now') entry /\ d' = set_outbox (fun l => l ++ [entry]) (put (updated_exception now x' x) d).

Lemma assignBody_spec x' audit id x : storable x' ->
  tx_spec (assignBody uc x' audit) (fun d d' _ => single_result x id x' audit d d').
Proof.
  intros Hx. unfold assignBody. eapply tx_weaken.
  { eapply tx_bind; [apply tx_existing, executeUpdate_spec, Hx|intros y]. eapply tx_bind; [apply tx_now|intros now].
    apply PublishExceptionEventWithTx_spec. }
  intros d d' [] (d1 & y & Hst & d2 & now & -> & entry & He & ->) Hd Hrow Hid.
  specialize (Hst Hd). eapply stored_row in Hst as (t & -> & ->); [eauto 10|done..].
Qed.

Lemma resolveSingle_body x' audit id x : storable x' ->
  tx_spec (resolveBody uc x' (fun _ => audit)) (fun d d' _ => single_result x id x' audit d d').
Proof.
  intros Hx. eapply tx_weaken; [by apply resolveBody_spec|]. intros d d' y Hf Hd Hrow Hid.
  destruct (Hf Hd) as (d1 & now & entry & Hst & He & ->). eapply stored_row in Hst as (t & -> & ->); [eauto 10|done..].
Qed.

Definition single_ok (change : Exception -> Exception -> Prop) (audit : uuid -> Time -> AuditEvent)
    (preloaded : gmap uuid Exception) (single : uuid -> io unit) : Prop :=
  forall id w, W_tx w = None -> exceptions_ok (W_db w) ->
  (forall x, preloaded !! id = Some x -> row_of (W_db w) id x) ->
  let '(w', r) := single id w in
  W_tx w' = None /\ match r with Ok _ => item_done change audit id (W_db w) (W_db w') | Err _ => W_db w' = W_db w end.

Lemma assignSingle_ok preloaded assignee actor :
  single_ok (assigned_of assignee) (fun id => assignAudit id assignee actor) preloaded
    (assignSingle uc preloaded assignee actor).
Proof.
  intros id w Hw Hd Hpre. unfold assignSingle, resolvePreloaded. rewrite bind_unfold. cbn [st_lift].
  destruct (preloaded !! id) as [x|]; [|done]. specialize (Hpre x eq_refl).
  pose proof (row_of_storable _ _ _ Hd Hpre) as [Hs [W1 W2 W3]].
  eassert (call_spec (exception ← exception_call (Exception_Assign assignee None) x;
    _ ← WithTx false (assignBody uc exception (assignAudit id assignee actor)); emitExceptionImportant uc) _ (fun d d' => d' = d)) as Hc.
  { eapply (call_read_then _ _ _ (fun x' d d' _ => single_result x id x' (assignAudit id assignee actor) d d'));
      [apply exception_call_spec|intros d x' (now & Hx')].
    apply Exception_Assign_effect in Hx' as (_ & Hne & ->).
    eapply call_weaken; [eapply call_bind; [apply call_tx, (assignBody_spec _ _ id x)|intros ? ? ? _; apply emitExceptionImportant_spec]|..].
    - split; [done|]. split; [done|intros _; by eexists|done].
    - intros d1 d' u (d2 & v & H & ->). exact H.
    - by intros d1 d' [->|(d2 & v & _ & [])]. }
  specialize (Hc w Hw). match type of Hc with let '(_, _) := ?m in _ => destruct m as [w' [u|e]] end; destruct Hc as [Hw' Hc]; [|done].
  split; [done|].
  destruct Hc as (x' & (now & Hx') & Hr). apply Exception_Assign_effect in Hx' as (Ho & Hne & ->).
  destruct (Hr Hd Hpre eq_refl) as (t & t' & entry & He & ->). eexists x, _, _, entry. split_and!; try done.
  split; [done|]. exists now, t. by destruct x.
Qed.

Lemma resolveSingle_ok preloaded resolution reason actor :
  single_ok (bulk_resolved_of resolution (if negb (string_empty reason) then [WithResolutionReason reason] else []))
    (fun id => resolveAudit id resolution reason actor) preloaded (resolveSingle uc preloaded resolution reason actor).
Proof.
  intros id w Hw Hd Hpre. unfold resolveSingle, resolvePreloaded. rewrite bind_unfold. cbn [st_lift].
  destruct (preloaded !! id) as [x|]; [|done]. specialize (Hpre x eq_refl).
  pose proof (row_of_storable _ _ _ Hd Hpre) as [Hs [W1 W2 W3]]. set (opts := if negb _ then _ else _).
  rewrite !bind_unfold. unfold st_ensure. cbn [st_lift]. destruct (ensure _ _) as [[]|e] eqn:Ep; [|done].
  apply ensure_Ok in Ep. bool_inv. rewrite bind_unfold. cbn [st_lift]. destruct (map_err _ _) as [[]|e]; [|done].
  eassert (call_spec (exception ← exception_call (Exception_Resolve resolution opts) x;
    _ ← WithTx false (resolveBody uc exception (fun _ => resolveAudit id resolution reason actor)); mret tt) _ (fun d d' => d' = d)) as Hc.
  { eapply (call_read_then _ _ _ (fun x' d d' _ => single_result x id x' (resolveAudit id resolution reason actor) d d'));
      [apply exception_call_spec|intros d x' (now & Hx')].
    apply Exception_Resolve_effect in Hx' as (_ & Hne & _ & ->).
    eapply call_weaken; [eapply call_bind; [apply call_tx, (resolveSingle_body _ _ id x)|intros ? ? ? _; apply call_ret]|..].
    - split; [done|]. split; [done..|intros _; by eexists].
    - intros d1 d' u (d2 & v & H & -> & _). exact H.
    - by intros d1 d' [->|(d2 & v & _ & [])]. }
  specialize (Hc w Hw). match type of Hc with let '(_, _) := ?m in _ => destruct m as [w' [u|e]] end; destruct Hc as [Hw' Hc]; [|done].
  split; [done|].
  destruct Hc as (x' & (now & Hx') & Hr). apply Exception_Resolve_effect in Hx' as (Ho & Hne & _ & ->).
  destruct (Hr Hd Hpre eq_refl) as (t & t' & entry & He & ->). eexists x, _, _, entry. split_and!; try done.
  split; [unfold resolvable; naive_solver|]. exists now, t. by destruct x.
Qed.

Lemma assigned_ids assignee x y :
  assigned_of assignee x y -> EX_ID y = EX_ID x /\ EX_TransactionID y = EX_TransactionID x.
Proof. by intros (_ & now & now' & ->). Qed.
Lemma bulk_resolved_ids resolution opts x y :
  bulk_resolved_of resolution opts x y -> EX_ID y = EX_ID x /\ EX_TransactionID y = EX_TransactionID x.
Proof. by intros (_ & now & now' & ->). Qed.
Lemma assigned_storable assignee x y : strings_TrimSpace assignee <> "" ->
  storable x -> assigned_of assignee x y -> storable y.
Proof. intros Hn [Hs [W1 W2 W3]] (_ & now & now' & ->). split; [done|]. split; [done|intros _; by eexists|done]. Qed.
Lemma bulk_resolved_storable resolution opts x y : strings_TrimSpace resolution <> "" ->
  storable x -> bulk_resolved_of resolution opts x y -> storable y.
Proof. intros Hn [Hs [W1 W2 W3]] (_ & now & now' & ->). split; [done|]. split; [done..|intros _; by eexists]. Qed.

Lemma dedup_ids_elem seen ids id : id ∈ dedup_ids seen ids <-> id ∈ ids /\ id ∉ seen.
Proof.
  revert seen. induction ids as [|i ids IH]; intros seen; cbn; [set_solver|]. case_bool_decide; rewrite ?elem_of_cons, IH; [set_solver|].
  destruct (decide (id = i)) as [->|]; set_solver.
Qed.

Lemma dedup_ids_NoDup seen ids : NoDup (dedup_ids seen ids).
Proof.
  revert seen. induction ids as [|i ids IH]; intros seen; cbn; [constructor|]. case_bool_decide; [done|].
  apply NoDup_cons. split; [|done]. rewrite dedup_ids_elem. set_solver.
Qed.

Inductive bulk_command : Type :=
| BAssign (ids : list uuid) (assignee : string)
| BResolve (ids : list uuid) (resolution reason : string).

Definition bulk_call (c : bulk_command) : io BulkActionResult :=
  match c with
  | BAssign ids assignee => BulkAssign uc ids assignee
  | BResolve ids resolution reason => BulkResolve uc ids resolution reason
  end.

Definition bulk_ids (c : bulk_command) : list uuid := match c with BAssign ids _ | BResolve ids _ _ => ids end.

Definition bulk_change (c : bulk_command) : Exception -> Exception -> Prop :=
  match c with
  | BAssign _ assignee => assigned_of (strings_TrimSpace assignee)
  | BResolve _ resolution reason => bulk_resolved_of (strings_TrimSpace resolution)
      (if negb (string_empty (strings_TrimSpace reason)) then [WithResolutionReason (strings_TrimSpace reason)] else [])
  end.

Definition bulk_audit (c : bulk_command) (id : uuid) : Time -> AuditEvent :=
  let actor := strings_TrimSpace (XU_actor uc) in
  match c with
  | BAssign _ assignee => assignAudit id (strings_TrimSpace assignee) actor
  | BResolve _ resolution reason => resolveAudit id (strings_TrimSpace resolution) (strings_TrimSpace reason) actor
  end.

Lemma bulk_tail change audit single ids w :
  (forall x y, change x y -> EX_ID y = EX_ID x /\ EX_TransactionID y = EX_TransactionID x) ->
  (forall x y, storable x -> change x y -> storable y) -> (forall preloaded, single_ok change audit preloaded (single preloaded)) ->
  NoDup ids -> W_tx w = None -> exceptions_ok (W_db w) ->
  let '(w', r) := (preloaded ← preloadExceptions ids; bulk_items (single preloaded) ids (mkBulkActionResult [] [])) w in
  W_tx w' = None /\ exceptions_ok (W_db w') /\
  match r with
  | Ok result => split_ids ids (BR_Succeeded result) (BR_Failed result).*1 /\
      bulk_done change audit (BR_Succeeded result) (W_db w) (W_db w')
  | Err _ => W_db w' = W_db w
  end.
Proof.
  intros Hi Hs Hone Hnd Hw Hd. rewrite bind_unfold. pose proof (preloadExceptions_spec ids w) as Hp.
  destruct (preloadExceptions ids w) as [w1 [m|e]]; destruct Hp as ((D1 & _) & T1 & Hp).
  2:{ rewrite D1. split_and!; [congruence|done..]. }
  specialize (Hp Hd). rewrite <-D1 in Hd, Hp |- *.
  pose proof (bulk_items_spec change audit Hi Hs (single m) m (Hone m) ids (mkBulkActionResult [] []) w1 Hnd
    ltac:(congruence) Hd (fun id x _ => Hp id x)) as H.
  destruct (bulk_items _ _ _ w1) as [w2 r]. destruct H as (T2 & Hd2 & s & f & -> & Hsp & Hb). done.
Qed.

Definition bulk_result (c : bulk_command) (d d' : DB) (r : res CmdError BulkActionResult) : Prop :=
  match r with
  | Ok result => exists ids, NoDup ids /\ (forall id, id ∈ ids <-> id ∈ bulk_ids c) /\
      split_ids ids (BR_Succeeded result) (BR_Failed result).*1 /\
      bulk_done (bulk_change c) (bulk_audit c) (BR_Succeeded result) d d'
  | Err _ => d' = d
  end.

Lemma validateBulkIDs_Ok ids ids' :
  validateBulkIDs ids = Ok ids' -> NoDup ids' /\ (forall id, id ∈ ids' <-> id ∈ ids).
Proof.
  unfold validateBulkIDs. intros H. res_inv. split; [apply dedup_ids_NoDup|]. intros id. rewrite dedup_ids_elem. set_solver.
Qed.

Lemma bulk_call_spec c w : W_tx w = None -> exceptions_ok (W_db w) ->
  let '(w', r) := bulk_call c w in
  W_tx w' = None /\ exceptions_ok (W_db w') /\ bulk_result c (W_db w) (W_db w') r.
Proof.
  intros Hw Hd. destruct c as [ids assignee|ids resolution reason]; cbn [bulk_call]; unfold BulkAssign, BulkResolve;
    rewrite bind_unfold; cbn [st_lift]; (destruct (validateBulkIDs ids) as [ids'|e] eqn:E; [|done]);
    apply validateBulkIDs_Ok in E as [Hnd Hel]; rewrite bind_unfold; unfold st_ensure; cbn [st_lift];
    (destruct (ensure _ _) as [[]|e] eqn:E1; [|done]); apply ensure_Ok in E1; rewrite bind_unfold; cbn [st_lift];
    (destruct (ensure _ _) as [[]|e] eqn:E2; [|done]); apply trimmed_nonempty in E1.
  - pose proof (bulk_tail _ _ (fun m => assignSingle uc m (strings_TrimSpace assignee) (strings_TrimSpace (XU_actor uc))) ids' w
      (assigned_ids _) (fun x y => assigned_storable _ x y E1)
      (fun m => assignSingle_ok m (strings_TrimSpace assignee) (strings_TrimSpace (XU_actor uc))) Hnd Hw Hd) as H.
    destruct ((_ ← preloadExceptions ids'; _) w) as [w' [result|e]]; destruct H as (? & ? & H); split_and!; try done.
    exists ids'. split_and!; try done; by destruct H.
  - pose proof (bulk_tail _ _ (fun m => resolveSingle uc m (strings_TrimSpace resolution) (strings_TrimSpace reason)
      (strings_TrimSpace (XU_actor uc))) ids' w (bulk_resolved_ids _ _) (fun x y => bulk_resolved_storable _ _ x y E1)
      (fun m => resolveSingle_ok m (strings_TrimSpace resolution) (strings_TrimSpace reason) (strings_TrimSpace (XU_actor uc)))
      Hnd Hw Hd) as H.
    destruct ((_ ← preloadExceptions ids'; _) w) as [w' [result|e]]; destruct H as (? & ? & H); split_and!; try done.
    exists ids'. split_and!; try done; by destruct H.
Qed.

(** C14: A bulk assignment or resolution that returns reports every requested
    identifier exactly once, as succeeded or as failed, in the order of the
    request; the rows it changed are those of the succeeded ones, each moved
    from an allowed status with its version raised by one, with one audit event
    per success in the outbox in the same order; every other row is as before.
    A call that fails as a whole changes nothing. *)
Theorem bulk_outcome c w : W_tx w = None -> exceptions_ok (W_db w) ->
  let '(w', r) := bulk_call c w in
  W_tx w' = None /\ exceptions_ok (W_db w') /\ bulk_result c (W_db w) (W_db w') r.
Proof. apply bulk_call_spec. Qed.

(** ** Exceptions left pending *)
Lemma pending_refused c w p : W_tx w = None -> exceptions_ok (W_db w) ->
  row_of (W_db w) (command_exception c) p -> EX_Status p = ExceptionStatusPendingResolution ->
  let '(w', r) := resolve_exception uc c w in W_tx w' = None /\ W_db w' = W_db w /\ is_Ok r = false.
Proof.
  intros Hw Hd [Hp Hid] Hs. pose proof (resolve_exception_spec uc c w Hw Hd) as H. destruct (resolve_exception uc c w) as [w' r].
  destruct H as [Ht H]. split; [done|]. destruct (plan_of uc c) as [plan|e]; [|by destruct H as [-> ->]].
  assert (forall x, row_of (W_db w) (command_exception c) x -> resolvable x -> False) as Hno.
  { intros x [Hx Hxid] Hr. assert (EX_TransactionID x = EX_TransactionID p) as E
      by (eapply (xo_ids _ Hd); [exact Hx|exact Hp|congruence]).
    assert (x = p) as -> by congruence. destruct Hr as [E'|E']; by rewrite Hs in E'. }
  destruct r as [y|e]; cbn in H.
  - destruct H as (x & [H1 H2 _ _]). by destruct (Hno x).
  - destruct H as [->|x r Hx Hr|x q Hx Hr|x q Hx Hr]; [done|by destruct (Hno x)..].
Qed.

Lemma pending_bulk c w p id : W_tx w = None -> exceptions_ok (W_db w) ->
  row_of (W_db w) id p -> EX_Status p = ExceptionStatusPendingResolution ->
  let '(w', r) := bulk_call c w in W_tx w' = None /\ exceptions_ok (W_db w') /\ row_of (W_db w') id p.
Proof.
  intros Hw Hd Hp Hs. pose proof (bulk_call_spec c w Hw Hd) as H. destruct (bulk_call c w) as [w' r].
  destruct H as (Ht & Hd' & H). split_and!; try done. destruct r as [result|e]; [|by cbn in H; rewrite H].
  destruct H as (ids & _ & _ & _ & [Hrows _ _]), Hp as [Hp Hid]. destruct (Hrows _ _ Hp) as (y & Hy & H1 & H2). split; [|done].
  destruct (decide (EX_ID p ∈ BR_Succeeded result)) as [Hin|Hin]; [|by rewrite (H2 Hin) in Hy].
  specialize (H1 Hin). destruct c; destruct H1 as [H1 _]; [by rewrite Hs in H1|destruct H1 as [H1|H1]; by rewrite Hs in H1].
Qed.
End outcome.

Section stuck.
  Context {U : UUIDLib} {D : DecimalLib} {DL : DecimalLaws D} {A : AssertLib} {AL : AssertLaws A} {N : UnicodeLib}
    {NL : UnicodeLaws N} {O : OutboxLib U}.

(** A later call, by any user and under any behaviour of the environment. *)
Inductive later_call (id : uuid) : World -> World -> Prop :=
| later_resolve V uc c w w' r :
    command_exception c = id -> resolve_exception (V:=V) uc c w = (w', r) -> later_call id w w'
| later_bulk V uc c w w' r : bulk_call (V:=V) uc c w = (w', r) -> later_call id w w'.

Definition pending_world (id : uuid) (p : Exception) (w : World) : Prop :=
  W_tx w = None /\ exceptions_ok (W_db w) /\ row_of (W_db w) id p.

Lemma later_call_pending id p w w' : EX_Status p = ExceptionStatusPendingResolution ->
  later_call id w w' -> pending_world id p w -> pending_world id p w'.
Proof.
  intros Hs H (Hw & Hd & Hp). destruct H as [V uc c w w' r Hc E|V uc c w w' r E].
  - subst id. pose proof (pending_refused (V:=V) uc c w p Hw Hd Hp Hs) as H. rewrite E in H. destruct H as (? & Hdb & _).
    split_and!; by rewrite ?Hdb.
  - pose proof (pending_bulk (V:=V) uc c w p id Hw Hd Hp Hs) as H. rewrite E in H. done.
Qed.

(** C30: A force match or adjustment entry that fails after matching has done
    its work, the transaction marked as matched or the adjustment stored, leaves
    the exception pending for good: after any number of later force matches,
    adjustment entries, bulk assignments and bulk resolutions, by any user and
    under any environment, the row is still the pending one. *)
Theorem resolution_stuck {V : Env U} uc c plan w w' e x p w2 :
  W_tx w = None -> exceptions_ok (W_db w) -> resolve_exception uc c w = (w', Err e) -> plan_of uc c = Ok plan ->
  row_of (W_db w) (command_exception c) x -> pending_of x p ->
  RP_effect plan (command_exception c) (put p (W_db w)) (W_db w') ->
  rtc (later_call (command_exception c)) w' w2 -> row_of (W_db w2) (command_exception c) p.
Proof.
  intros Hw Hd Hc Hplan Hx Hp Hg Hl. pose proof (resolve_exception_spec uc c w Hw Hd) as H. rewrite Hc, Hplan in H.
  destruct H as [Hw' Hr]. pose proof (left_ok uc c plan _ _ _ Hplan Hd Hr) as Hd'.
  pose proof (plan_frame uc c plan _ _ _ Hplan Hg) as E. destruct (pending_row _ _ _ _ Hd Hx Hp) as [_ [Hrow Hid]].
  assert (EX_Status p = ExceptionStatusPendingResolution) as Hs by (by destruct Hp as (? & ->)).
  assert (pending_world (command_exception c) p w') as Hpw by (split_and!; [done..|split; [by rewrite E|done]]).
  assert (pending_world (command_exception c) p w2) as (_ & _ & ?); [|done]. clear -DL AL NL Hl Hpw Hs.
  induction Hl as [|w1 w2 w3 H1 _ IH]; [done|]. by eapply IH, later_call_pending.
Qed.
End stuck.

Lemma left_applied_or_same {U : UUIDLib} {D : DecimalLib} (G : uuid -> DB -> DB -> Prop) id d d' :
  resolution_left G id d d' -> DB_txs d' = DB_txs d \/ exists x p, row_of d id x /\ pending_of x p /\ G id (put p d) d'.
Proof. intros [->|x r _ _ _ ->|x p _ _ _ ->|x p H1 _ H2 H3]; eauto 10. Qed.

(** ** Sample calls *)
Definition commit_fails : Env model_uuid := model_env (fun n => n =? 17)%nat never never.
Definition l1_status (w : @World model_uuid model_decimal) := TX_Status <$> DB_txs (W_db w) !! ("l1" : @uuid model_uuid).
Definition bulk_sample (w : @World model_uuid model_decimal) :=
  bulk_call (A:=model_assert) (N:=model_unicode) (V:=quiet_env) (O:=model_outbox) resolution_uc
    (BResolve ["e1"; "e2"; "e1"] "done" "") w.

Lemma commit_fails_result :
  let w' := (force_call commit_fails resolution_world).1 in
  is_Ok (force_call commit_fails resolution_world).2 = false /\ l1_status w' = Some "MATCHED" /\
  l1_status resolution_world = Some "UNMATCHED".
Proof. vm_compute. split_and!; reflexivity. Qed.

Lemma bulk_sample_result : match bulk_sample resolution_world with
  | (w', Ok r) => BR_Succeeded r = ["e1"] /\ BR_Failed r = [("e2", ErrException ErrExceptionNotFound)] /\
      (fun x => (EX_Status x, EX_Version x)) <$> (map_to_list (DB_exceptions (W_db w'))).*2 = [("RESOLVED", 2%Z)]
  | (_, Err _) => False
  end.
Proof. vm_compute. split_and!; reflexivity. Qed.

Lemma bulk_outcome_witness :
  exists w' r, bulk_sample resolution_world = (w', Ok r) /\
    bulk_done (bulk_change (BResolve ["e1"; "e2"; "e1"] "done" ""))
      (bulk_audit resolution_uc (BResolve ["e1"; "e2"; "e1"] "done" "")) ["e1"] (W_db resolution_world) (W_db w').
Proof.
  pose proof bulk_sample_result as Hs. unfold bulk_sample in *.
  pose proof (bulk_outcome (DL:=model_decimal_laws) (A:=model_assert) (AL:=model_assert_laws) (N:=model_unicode)
    (NL:=model_unicode_laws) (V:=quiet_env) (O:=model_outbox) resolution_uc
    (BResolve ["e1"; "e2"; "e1"] "done" "") resolution_world eq_refl resolution_world_ok) as H.
  destruct (bulk_call _ _ resolution_world) as [w' [r|e]]; [|destruct Hs]. destruct Hs as (Hsucc & _).
  destruct H as (_ & _ & ids & _ & _ & _ & H). rewrite Hsucc in H. exists w', r. split; [reflexivity|exact H].
Defined.

Lemma resolution_stuck_witness :
  exists w' e w2 p, force_call commit_fails resolution_world = (w', Err e) /\ l1_status w' = Some "MATCHED" /\
    w2 = (bulk_sample w').1 /\ row_of (W_db w2) "e1" p /\ EX_Status p = "PENDING_RESOLUTION".
Proof.
  pose proof commit_fails_result as Hs. unfold force_call in *. cbv zeta in Hs.
  pose proof (resolve_exception_spec (DL:=model_decimal_laws) (A:=model_assert) (AL:=model_assert_laws) (N:=model_unicode)
    (NL:=model_unicode_laws) (V:=commit_fails) (O:=model_outbox) resolution_uc
    (CForceMatch force_command) resolution_world eq_refl resolution_world_ok) as H.
  destruct (resolve_exception _ _ resolution_world) as [w' [y|e]] eqn:E; [destruct Hs as [Hs _]; discriminate Hs|].
  destruct Hs as (_ & Hm & Hu). destruct H as (_ & [Hsame|(x & p & H1 & H2 & H3)]%left_applied_or_same).
  { unfold l1_status in *. cbn [fst] in Hm. rewrite Hsame, Hu in Hm. discriminate Hm. }
  destruct (bulk_sample w') as [w2 r] eqn:Eb. exists w', e, w2, p.
  split; [reflexivity|]. split; [exact Hm|]. split; [by rewrite Eb|]. split; [|by destruct H2 as (now & ->)].
  eapply (resolution_stuck (DL:=model_decimal_laws) (A:=model_assert) (AL:=model_assert_laws) (N:=model_unicode)
    (NL:=model_unicode_laws) (V:=commit_fails) (O:=model_outbox) resolution_uc
    (CForceMatch force_command) _ resolution_world w' e x p w2 eq_refl resolution_world_ok E eq_refl H1 H2 H3).
  eapply rtc_l; [|apply rtc_refl]. exact (later_bulk _ _ _ _ _ _ _ Eb).
Defined.
