(* ===== verification/DisputeCommands.v ===== *)
(** * Disputes and comments: repositories and commands

    Models internal/exception/services/command/{dispute_commands,
    comment_commands}.go and
    internal/exception/adapters/postgres/{dispute,comment}/*.go, the parts the
    commands use.

    [dispute_outcome]: a command changes one dispute by one step of its
    aggregate, together with one audit event, or nothing.
    [comment_outcome]: comments are added to exceptions that are not resolved
    and removed by their author only.  [SELECT ... FOR UPDATE] has no effect
    of its own here: transactions run one after another. *)
From S2P Require Import GoLib GoLibModel FeeStructure MatchTypes MatchEntities Transaction RunPrepare RunExecute.
From S2P Require Import Severity Exceptions Disputes Sha256 AuditChain AuditEvent Store RunMatch RunOutcome Calls ManualMatch Adjust ExceptionRepo Resolution Bulk.

Section commands.
  Context {U : UUIDLib} {D : DecimalLib} {A : AssertLib} {N : UnicodeLib} {L : UrlLib} {V : Env U} {O : OutboxLib U}.
  Context (uc : ExceptionUseCase).

(** ** [postgres/dispute] *)
Definition scanDispute (row : Dispute) : res CmdError Dispute :=
  parsedCategory ← map_err ErrDispute (ParseDisputeCategory (DI_Category row));
  parsedState ← map_err ErrDispute (ParseDisputeState (DI_State row));
  Ok (mkDispute (DI_ID row) (DI_ExceptionID row) parsedCategory parsedState (DI_Description row) (DI_OpenedBy row)
        (DI_Resolution row) (DI_ReopenReason row) (DI_Evidence row) (DI_CreatedAt row) (DI_UpdatedAt row)).

Definition select_dispute (id : uuid) (d : DB) : res CmdError Dispute :=
  match DB_disputes d !! id with Some row => scanDispute row | None => Err (ErrDispute ErrDisputeNotFound) end.

(** The key of the table and its reference to the exception. *)
Definition insert_dispute (x : Dispute) (d : DB) : res CmdError (DB * unit) :=
  match DB_disputes d !! DI_ID x with
  | Some _ => Err (ErrDatabase "disputes_pkey")
  | None =>
      _ ← ensure (bool_decide (is_Some (exception_at (DI_ExceptionID x) d))) (ErrDatabase "disputes_exception_id_fkey");
      Ok (set_disputes <[DI_ID x := x]> d, tt)
  end.

Definition updated_dispute (x row : Dispute) : Dispute :=
  mkDispute (DI_ID row) (DI_ExceptionID row) (DI_Category x) (DI_State x) (DI_Description x) (DI_OpenedBy x)
    (DI_Resolution x) (DI_ReopenReason x) (DI_Evidence x) (DI_CreatedAt row) (DI_UpdatedAt x).

Definition update_dispute (x : Dispute) (d : DB) : res CmdError (DB * bool) :=
  match DB_disputes d !! DI_ID x with
  | Some row => Ok (set_disputes <[DI_ID x := updated_dispute x row]> d, true)
  | None => Ok (d, false)
  end.

Definition disputeRepo_executeCreate (x : Dispute) : io Dispute :=
  _ ← sql false (insert_dispute x);
  sql false (fun d => y ← select_dispute (DI_ID x) d; Ok (d, y)).

Definition disputeRepo_executeUpdate (x : Dispute) : io Dispute :=
  affected ← sql false (update_dispute x);
  if (affected : bool) then sql false (fun d => y ← select_dispute (DI_ID x) d; Ok (d, y))
  else io_fail (ErrDispute ErrDisputeNotFound).

Definition disputeRepo_CreateWithTx (x : Dispute) : io Dispute := ExistingTx (disputeRepo_executeCreate x).
Definition disputeRepo_UpdateWithTx (x : Dispute) : io Dispute := ExistingTx (disputeRepo_executeUpdate x).
Definition disputeRepo_FindByIDWithTx (id : uuid) : io Dispute :=
  ExistingTx (sql false (fun d => y ← select_dispute id d; Ok (d, y))).

(** ** [dispute_commands.go] *)
Definition dispute_call (method : st Dispute DisputeError unit) (x : Dispute) : io Dispute :=
  st_lift (match method x with (x', Ok _) => Ok x' | (_, Err e) => Err (ErrDispute e) end).

(** What the three commands do last, in their transaction. *)
Definition publishDispute (exceptionID : uuid) (action actor notes : string) (metadata : gmap string string) : io unit :=
  now ← io_now;
  _ ← PublishExceptionEventWithTx uc (mkAuditEvent exceptionID action actor "" notes None now metadata);
  Emit uc true.

Record OpenDisputeCommand : Type := mkOpenDisputeCommand {
  OD_ExceptionID : uuid;
  OD_Category : string;
  OD_Description : string;
}.

Definition validateOpenDispute (cmd : OpenDisputeCommand) : res CmdError (string * DisputeCategory * string) :=
  _ ← ensure (negb (bool_decide (OD_ExceptionID cmd = uuid_Nil))) (ErrExceptionCmd ErrExceptionIDRequired);
  let actor := strings_TrimSpace (XU_actor uc) in
  _ ← ensure (negb (string_empty actor)) (ErrExceptionCmd ErrActorRequired);
  let trimmedCategory := strings_TrimSpace (OD_Category cmd) in
  _ ← ensure (negb (string_empty trimmedCategory)) (ErrDispute ErrDisputeCategoryRequired);
  category ← map_err ErrDispute (ParseDisputeCategory trimmedCategory);
  let description := strings_TrimSpace (OD_Description cmd) in
  _ ← ensure (negb (string_empty description)) (ErrDispute ErrDisputeDescriptionRequired);
  Ok (actor, category, description).

Definition openDisputeTx (newDispute : Dispute) (actor description : string) (category : DisputeCategory) : io Dispute :=
  created ← disputeRepo_CreateWithTx newDispute;
  _ ← publishDispute (DI_ExceptionID newDispute) "DISPUTE_OPENED" actor description
        (list_to_map [("dispute_id", uuid_String (DI_ID created)); ("category", category)]);
  mret created.

Definition OpenDispute (cmd : OpenDisputeCommand) : io Dispute :=
  '(actor, category, description) ← st_lift (validateOpenDispute cmd);
  _ ← exceptionRepo_FindByID (OD_ExceptionID cmd);
  id ← io_fresh;
  newDispute ← st_lift (map_err ErrDispute (NewDispute id.1 id.2 (OD_ExceptionID cmd) category description actor));
  now ← io_now;
  newDispute ← dispute_call (Dispute_Open now) newDispute;
  WithTx false (openDisputeTx newDispute actor description category).

Record CloseDisputeCommand : Type := mkCloseDisputeCommand {
  CD_DisputeID : uuid;
  CD_Resolution : string;
  CD_Won : bool;
}.

Definition validateCloseDispute (cmd : CloseDisputeCommand) : res CmdError (string * string) :=
  _ ← ensure (negb (bool_decide (CD_DisputeID cmd = uuid_Nil))) (ErrDispute ErrDisputeIDRequired);
  let actor := strings_TrimSpace (XU_actor uc) in
  _ ← ensure (negb (string_empty actor)) (ErrExceptionCmd ErrActorRequired);
  let resolution := strings_TrimSpace (CD_Resolution cmd) in
  _ ← ensure (negb (string_empty resolution)) (ErrDispute ErrDisputeResolutionRequired);
  Ok (actor, resolution).

Definition closeDisputeTx (cmd : CloseDisputeCommand) (actor resolution : string) : io Dispute :=
  existingDispute ← disputeRepo_FindByIDWithTx (CD_DisputeID cmd);
  now ← io_now;
  existingDispute ← dispute_call (if CD_Won cmd then Dispute_Win resolution now else Dispute_Lose resolution now) existingDispute;
  updated ← disputeRepo_UpdateWithTx existingDispute;
  _ ← publishDispute (DI_ExceptionID updated) (if CD_Won cmd then "DISPUTE_WON" else "DISPUTE_LOST") actor resolution
        {["dispute_id" := uuid_String (DI_ID updated)]};
  mret updated.

Definition CloseDispute (cmd : CloseDisputeCommand) : io Dispute :=
  '(actor, resolution) ← st_lift (validateCloseDispute cmd);
  WithTx false (closeDisputeTx cmd actor resolution).

Record SubmitEvidenceCommand : Type := mkSubmitEvidenceCommand {
  SE_DisputeID : uuid;
  SE_Comment : string;
  SE_FileURL : option string;
}.

Definition parseOptionalFileURL (fileURL : option string) : option string :=
  match fileURL with
  | None => None
  | Some url => let trimmed := strings_TrimSpace url in if string_empty trimmed then None else Some trimmed
  end.

Definition validateSubmitEvidence (cmd : SubmitEvidenceCommand) : res CmdError (string * string * option string) :=
  _ ← ensure (negb (bool_decide (SE_DisputeID cmd = uuid_Nil))) (ErrDispute ErrDisputeIDRequired);
  let actor := strings_TrimSpace (XU_actor uc) in
  _ ← ensure (negb (string_empty actor)) (ErrExceptionCmd ErrActorRequired);
  let comment := strings_TrimSpace (SE_Comment cmd) in
  _ ← ensure (negb (string_empty comment)) (ErrDispute ErrDisputeCommentRequired);
  Ok (actor, comment, parseOptionalFileURL (SE_FileURL cmd)).

Definition evidenceMetadata (disputeID : uuid) (fileURL : option string) : gmap string string :=
  let metadata := {["dispute_id" := uuid_String disputeID]} in
  match fileURL with Some url => <["file_url" := url]> metadata | None => metadata end.

Definition submitEvidenceTx (cmd : SubmitEvidenceCommand) (actor comment : string) (fileURL : option string) : io Dispute :=
  existingDispute ← disputeRepo_FindByIDWithTx (SE_DisputeID cmd);
  id ← io_fresh;
  now ← io_now;
  existingDispute ← dispute_call (Dispute_AddEvidence comment actor fileURL id.1 id.2 now) existingDispute;
  updated ← disputeRepo_UpdateWithTx existingDispute;
  now ← io_now;
  _ ← PublishExceptionEventWithTx uc (mkAuditEvent (DI_ExceptionID updated) "EVIDENCE_SUBMITTED" actor "" comment None now
        (evidenceMetadata (DI_ID updated) fileURL));
  _ ← (if bool_decide (DI_Evidence updated = []) then mret tt else Emit uc true);
  mret updated.

Definition SubmitEvidence (cmd : SubmitEvidenceCommand) : io Dispute :=
  '(actor, comment, fileURL) ← st_lift (validateSubmitEvidence cmd);
  WithTx false (submitEvidenceTx cmd actor comment fileURL).

(** ** [postgres/comment] and [comment_commands.go] *)
Definition insert_comment (c : ExceptionComment) (d : DB) : res CmdError (DB * unit) :=
  match DB_comments d !! EC_ID c with
  | Some _ => Err (ErrDatabase "exception_comments_pkey")
  | None =>
      _ ← ensure (bool_decide (is_Some (exception_at (EC_ExceptionID c) d))) (ErrDatabase "exception_comments_exception_id_fkey");
      Ok (set_comments <[EC_ID c := c]> d, tt)
  end.

Definition select_comment (id : uuid) (d : DB) : res CmdError ExceptionComment :=
  match DB_comments d !! id with Some c => Ok c | None => Err ErrNoRows end.

Definition commentRepo_executeCreate (c : ExceptionComment) : io ExceptionComment :=
  _ ← sql false (insert_comment c);
  sql false (fun d => y ← select_comment (EC_ID c) d; Ok (d, y)).

Definition commentRepo_Create (c : ExceptionComment) : io ExceptionComment := WithTx false (commentRepo_executeCreate c).
Definition commentRepo_FindByID (id : uuid) : io ExceptionComment := sql_read (select_comment id).

(** [DELETE ... WHERE id = $1 AND exception_id = $2]. *)
Definition delete_comment (exceptionID commentID : uuid) (d : DB) : res CmdError (DB * unit) :=
  match DB_comments d !! commentID with
  | Some c =>
      if bool_decide (EC_ExceptionID c = exceptionID) then Ok (set_comments (delete commentID) d, tt)
      else Err (ErrException ErrCommentNotFound)
  | None => Err (ErrException ErrCommentNotFound)
  end.

Definition commentRepo_DeleteByExceptionAndID (exceptionID commentID : uuid) : io unit :=
  WithTx false (sql false (delete_comment exceptionID commentID)).

Definition AddComment (exceptionID : uuid) (content : string) : io ExceptionComment :=
  _ ← st_ensure (negb (bool_decide (exceptionID = uuid_Nil))) (ErrExceptionCmd ErrExceptionIDRequired);
  let author := XU_actor uc in
  _ ← st_ensure (negb (string_empty author)) (ErrExceptionCmd ErrActorRequired);
  _ ← st_ensure (negb (string_empty (strings_TrimSpace content))) (ErrExceptionCmd ErrCommentContentEmpty);
  exception ← exceptionRepo_FindByID exceptionID;
  _ ← st_ensure (negb (bool_decide (EX_Status exception = ExceptionStatusResolved))) (ErrExceptionCmd ErrExceptionAlreadyResolved);
  id ← io_fresh;
  comment ← st_lift (map_err ErrException (NewExceptionComment id.1 id.2 exceptionID author content));
  result ← commentRepo_Create comment;
  _ ← emitExceptionImportant uc;
  mret result.

Definition DeleteComment (exceptionID commentID : uuid) : io unit :=
  _ ← st_ensure (negb (bool_decide (exceptionID = uuid_Nil))) (ErrExceptionCmd ErrExceptionIDRequired);
  _ ← st_ensure (negb (bool_decide (commentID = uuid_Nil))) (ErrExceptionCmd ErrCommentIDRequired);
  let actor := XU_actor uc in
  _ ← st_ensure (negb (string_empty actor)) (ErrExceptionCmd ErrActorRequired);
  comment ← commentRepo_FindByID commentID;
  _ ← st_ensure (bool_decide (EC_ExceptionID comment = exceptionID)) (ErrException ErrCommentNotFound);
  _ ← st_ensure (bool_decide (EC_Author comment = actor)) (ErrExceptionCmd ErrNotCommentAuthor);
  _ ← commentRepo_DeleteByExceptionAndID exceptionID commentID;
  emitExceptionImportant uc.
End commands.

(** ** What the commands do *)
Section outcome.
  Context {U : UUIDLib} {D : DecimalLib} {A : AssertLib} {AL : AssertLaws A} {N : UnicodeLib}
    {NL : UnicodeLaws N} {L : UrlLib} {V : Env U} {O : OutboxLib U}.
  Variable uc : ExceptionUseCase.

Record disputes_ok (d : DB) : Prop := {
  do_key : forall id x, DB_disputes d !! id = Some x -> DI_ID x = id;
  do_rows : forall id x, DB_disputes d !! id = Some x -> dispute_wf x;
}.

Lemma ParseDisputeState_valid s : DisputeState_IsValid s = true -> ParseDisputeState s = Ok s.
Proof.
  unfold DisputeState_IsValid. rewrite bool_decide_eq_true. intros H. unfold ParseDisputeState.
  rewrite !elem_of_cons in H. destruct H as [-> |[-> |[-> |[-> |[-> |H]]]]]; [..|by apply not_elem_of_nil in H];
    rewrite ToUpper_ascii by (by vm_compute); by vm_compute.
Qed.

Lemma ParseDisputeCategory_valid s : DisputeCategory_IsValid s = true -> ParseDisputeCategory s = Ok s.
Proof.
  unfold DisputeCategory_IsValid. rewrite bool_decide_eq_true. intros H. unfold ParseDisputeCategory.
  rewrite !elem_of_cons in H. destruct H as [-> |[-> |[-> |[-> |[-> |H]]]]]; [..|by apply not_elem_of_nil in H];
    rewrite ToUpper_ascii by (by vm_compute); by vm_compute.
Qed.

Lemma scanDispute_valid x : dispute_wf x -> scanDispute x = Ok x.
Proof.
  intros [H1 H2 _ _]. unfold scanDispute. rewrite ParseDisputeCategory_valid, ParseDisputeState_valid by done. by destruct x.
Qed.

(** A dispute written to the table is read back as it is. *)
Lemma createDispute_spec x : dispute_wf x ->
  tx_spec (disputeRepo_executeCreate x) (fun d d' y => y = x /\ DB_disputes d !! DI_ID x = None /\
    is_Some (exception_at (DI_ExceptionID x) d) /\ d' = set_disputes <[DI_ID x := x]> d).
Proof.
  intros Hx. unfold disputeRepo_executeCreate. eapply tx_weaken; [eapply tx_bind; [apply tx_sql|intros u; apply tx_sql]|].
  intros d d' y (d1 & u & H1 & H2). unfold insert_dispute in H1. destruct (DB_disputes d !! DI_ID x) eqn:E; [done|].
  res_inv. bool_inv. unfold select_dispute in *. cbn in *. rewrite lookup_insert_eq, scanDispute_valid in * by done.
  by simplify_eq.
Qed.

Lemma executeUpdate_dispute x :
  tx_spec (disputeRepo_executeUpdate x) (fun d d' y => forall row, dispute_wf x -> DB_disputes d !! DI_ID x = Some row ->
    DI_ID row = DI_ID x -> DI_ExceptionID row = DI_ExceptionID x -> DI_CreatedAt row = DI_CreatedAt x ->
    y = x /\ d' = set_disputes <[DI_ID x := x]> d).
Proof.
  unfold disputeRepo_executeUpdate.
  assert (forall b : bool, tx_spec (if b then sql false (fun d => y ← select_dispute (DI_ID x) d; Ok (d, y))
    else io_fail (ErrDispute ErrDisputeNotFound)) (fun d d' y => b = true /\ d' = d /\ select_dispute (DI_ID x) d = Ok y)) as Hsel.
  { intros []; [|apply tx_fail]. eapply tx_weaken; [apply tx_sql|]. intros d d' y H. cbn in H.
    destruct (select_dispute _ d); [|done]. by injection H as <- <-. }
  eapply tx_weaken; [eapply tx_bind; [apply tx_sql|intros b; apply Hsel]|].
  intros d d' y (d1 & b & Hu & -> & -> & Hy) row Hx Hrow H1 H2 H3. unfold update_dispute in Hu. rewrite Hrow in Hu. injection Hu as <-.
  assert (updated_dispute x row = x) as E by (destruct x, row; cbn in *; by subst). rewrite E in *.
  unfold select_dispute in Hy. cbn in Hy. rewrite lookup_insert_eq, scanDispute_valid in Hy by done. by injection Hy as ->.
Qed.

Lemma findByID_dispute id :
  tx_spec (disputeRepo_FindByIDWithTx id) (fun d d' x => d' = d /\ (disputes_ok d -> DB_disputes d !! id = Some x)).
Proof.
  apply tx_existing. eapply tx_weaken; [apply tx_sql|]. intros d d' x H. cbn in H. unfold select_dispute in H.
  destruct (DB_disputes d !! id) as [row|] eqn:E; [|done]. apply res_bind_Ok in H as (y & Hy & [= <- <-]). split; [done|].
  intros Hd. rewrite scanDispute_valid in Hy by (by eapply do_rows). by injection Hy as ->.
Qed.

Lemma dispute_call_spec method x : ro_spec (dispute_call method x) (fun _ x' => method x = (x', Ok tt)).
Proof.
  eapply ro_weaken; [apply ro_lift|]. intros d x' H. destruct (method x) as [y [[]|e]]; [|done]. by injection H as ->.
Qed.

Lemma tx_dispute_call method x : tx_spec (dispute_call method x) (fun d d' x' => d' = d /\ method x = (x', Ok tt)).
Proof.
  eapply tx_weaken; [apply tx_lift|]. intros d d' x' [-> H]. split; [done|]. destruct (method x) as [y [[]|e]]; [|done].
  by injection H as ->.
Qed.

Lemma tx_Emit b : tx_spec (Emit uc b) (fun d d' _ => d' = d).
Proof.
  unfold Emit. destruct (XU_emitter uc), b; cbn [negb].
  1-2: eapply tx_weaken; [eapply tx_bind; [apply tx_lift|intros ?; apply tx_roundtrip]|naive_solver].
  - apply tx_fail.
  - eapply tx_weaken; [apply tx_ret|naive_solver].
Qed.

Lemma publishDispute_spec exceptionID action actor notes metadata :
  tx_spec (publishDispute uc exceptionID action actor notes metadata) (fun d d' _ => exists now entry,
    audit_entry (mkAuditEvent exceptionID action actor "" notes None now metadata) entry /\
    d' = set_outbox (fun l => l ++ [entry]) d).
Proof.
  unfold publishDispute. eapply tx_weaken.
  { eapply tx_bind; [apply tx_now|intros now]. eapply tx_bind; [apply PublishExceptionEventWithTx_spec|intros ?; apply tx_Emit]. }
  intros d d' [] (d1 & now & -> & d2 & [] & (entry & He & ->) & ->). eauto.
Qed.

(** ** Disputes *)
Inductive dispute_command : Type :=
| KOpen (cmd : OpenDisputeCommand)
| KClose (cmd : CloseDisputeCommand)
| KSubmit (cmd : SubmitEvidenceCommand).

Definition dispute_exec (c : dispute_command) : io Dispute :=
  match c with
  | KOpen cmd => OpenDispute uc cmd
  | KClose cmd => CloseDispute uc cmd
  | KSubmit cmd => SubmitEvidence uc cmd
  end.

Definition command_action (c : dispute_command) : string :=
  match c with
  | KOpen _ => "DISPUTE_OPENED"
  | KClose cmd => if CD_Won cmd then "DISPUTE_WON" else "DISPUTE_LOST"
  | KSubmit _ => "EVIDENCE_SUBMITTED"
  end.

(** The step of the aggregate a command makes. *)
Definition dispute_moves (c : dispute_command) (d : DB) (y : Dispute) : Prop :=
  match c with
  | KOpen cmd => DB_disputes d !! DI_ID y = None /\ is_Some (exception_at (OD_ExceptionID cmd) d) /\
      DI_ExceptionID y = OD_ExceptionID cmd /\ DI_State y = DisputeStateOpen /\ DI_Evidence y = [] /\ DI_Resolution y = None
  | KClose cmd => exists x now, DB_disputes d !! CD_DisputeID cmd = Some x /\
      dispute_moved ((if CD_Won cmd then DWin else DLose) (strings_TrimSpace (CD_Resolution cmd))) now x y
  | KSubmit cmd => exists x id submitted now, DB_disputes d !! SE_DisputeID cmd = Some x /\
      dispute_moved (DAddEvidence (strings_TrimSpace (SE_Comment cmd)) (strings_TrimSpace (XU_actor uc))
        (parseOptionalFileURL (SE_FileURL cmd)) id submitted) now x y
  end.

Record dispute_changed (c : dispute_command) (d d' : DB) (y : Dispute) : Prop := {
  dc_wf : dispute_wf y;
  dc_moves : dispute_moves c d y;
  dc_tables : exists event entry, AV_ExceptionID event = DI_ExceptionID y /\ AV_Action event = command_action c /\
    AV_Actor event = strings_TrimSpace (XU_actor uc) /\ audit_entry event entry /\
    d' = set_outbox (fun l => l ++ [entry]) (set_disputes <[DI_ID y := y]> d);
}.

Lemma openDisputeTx_spec x actor description category : dispute_wf x ->
  tx_spec (openDisputeTx uc x actor description category) (fun d d' y => y = x /\ DB_disputes d !! DI_ID x = None /\
    is_Some (exception_at (DI_ExceptionID x) d) /\ exists now metadata entry,
    audit_entry (mkAuditEvent (DI_ExceptionID x) "DISPUTE_OPENED" actor "" description None now metadata) entry /\
    d' = set_outbox (fun l => l ++ [entry]) (set_disputes <[DI_ID x := x]> d)).
Proof.
  intros Hx. unfold openDisputeTx. eapply tx_weaken.
  { eapply tx_bind; [apply tx_existing, createDispute_spec, Hx|intros y]. eapply tx_bind; [apply publishDispute_spec|intros ?; apply tx_ret]. }
  intros d d' y (d1 & z & (-> & Hn & He & ->) & d2 & [] & (now & entry & Ha & ->) & -> & ->). split_and!; eauto 10.
Qed.

(** One step of the aggregate on the row of a dispute. *)
Lemma stepped op now id x x' : dispute_step op now x = (x', Ok tt) -> DI_ID x = id -> dispute_wf x ->
  (op = DOpen -> DI_State x <> DisputeStateLost) ->
  dispute_moved op now x x' /\ dispute_wf x' /\ DI_ID x' = id.
Proof.
  intros H Hid Hwf Hop. pose proof (dispute_step_moved _ _ _ _ H) as Hm. split_and!; [done|by eapply dispute_step_wf|].
  destruct Hm as [_ _ _ (? & _) _]. congruence.
Qed.

(** Reading the row, one step, writing it back. *)
Lemma step_and_update op now id x x' y d d' :
  disputes_ok d -> DB_disputes d !! id = Some x -> dispute_step op now x = (x', Ok tt) -> op <> DOpen ->
  (forall row, dispute_wf x' -> DB_disputes d !! DI_ID x' = Some row -> DI_ID row = DI_ID x' ->
     DI_ExceptionID row = DI_ExceptionID x' -> DI_CreatedAt row = DI_CreatedAt x' ->
     y = x' /\ d' = set_disputes <[DI_ID x' := x']> d) ->
  dispute_moved op now x y /\ dispute_wf y /\ d' = set_disputes <[DI_ID y := y]> d.
Proof.
  intros Hd Hx Hs Hop Hu. pose proof (do_key d Hd _ _ Hx) as Hid. pose proof (do_rows d Hd _ _ Hx) as Hwf.
  destruct (stepped _ _ _ _ _ Hs Hid Hwf) as (Hm & Hwf' & Hid'); [done|].
  destruct Hm as [M1 M2 M3 (I1 & I2 & I3 & I4 & I5 & I6) M5] eqn:Em. destruct (Hu x Hwf') as [-> ->]; try done; congruence.
Qed.

Lemma closeDisputeTx_spec cmd actor resolution :
  tx_spec (closeDisputeTx uc cmd actor resolution) (fun d d' y => disputes_ok d -> exists x now now' metadata entry,
    DB_disputes d !! CD_DisputeID cmd = Some x /\ dispute_moved ((if CD_Won cmd then DWin else DLose) resolution) now x y /\ dispute_wf y /\
    audit_entry (mkAuditEvent (DI_ExceptionID y) (if CD_Won cmd then "DISPUTE_WON" else "DISPUTE_LOST") actor "" resolution None
      now' metadata) entry /\ d' = set_outbox (fun l => l ++ [entry]) (set_disputes <[DI_ID y := y]> d)).
Proof.
  unfold closeDisputeTx. eapply tx_weaken.
  { eapply tx_bind; [apply findByID_dispute|intros x]. eapply tx_bind; [apply tx_now|intros now].
    eapply tx_bind; [apply tx_dispute_call|intros x']. eapply tx_bind; [apply tx_existing, executeUpdate_dispute|intros y].
    eapply tx_bind; [apply publishDispute_spec|intros ?; apply tx_ret]. }
  intros d d' y (d1 & x & (-> & Hx) & d2 & now & -> & d3 & x' & (-> & Hs) & d4 & z & Hu & d5 & [] & (now' & entry & He & ->) & -> & ->) Hd.
  specialize (Hx Hd).
  assert (dispute_step ((if CD_Won cmd then DWin else DLose) resolution) now x = (x', Ok tt)) as Hs' by (by destruct (CD_Won cmd)).
  destruct (step_and_update _ _ _ _ _ _ _ _ Hd Hx Hs' ltac:(by destruct (CD_Won cmd)) Hu) as (Hm & Hwf & ->).
  eauto 20.
Qed.

Lemma submitEvidenceTx_spec cmd actor comment fileURL :
  tx_spec (submitEvidenceTx uc cmd actor comment fileURL) (fun d d' y => disputes_ok d -> exists x id submitted now now' metadata entry,
    DB_disputes d !! SE_DisputeID cmd = Some x /\ dispute_moved (DAddEvidence comment actor fileURL id submitted) now x y /\ dispute_wf y /\
    audit_entry (mkAuditEvent (DI_ExceptionID y) "EVIDENCE_SUBMITTED" actor "" comment None now' metadata) entry /\
    d' = set_outbox (fun l => l ++ [entry]) (set_disputes <[DI_ID y := y]> d)).
Proof.
  unfold submitEvidenceTx.
  assert (forall b : bool, tx_spec (if b then mret tt else Emit uc true) (fun d d' _ => d' = d)) as Hemit.
  { intros []; [|apply tx_Emit]. eapply tx_weaken; [apply tx_ret|naive_solver]. }
  eapply tx_weaken.
  { eapply tx_bind; [apply findByID_dispute|intros x]. eapply tx_bind; [apply tx_fresh|intros id].
    eapply tx_bind; [apply tx_now|intros now].
    eapply tx_bind; [apply tx_dispute_call|intros x']. eapply tx_bind; [apply tx_existing, executeUpdate_dispute|intros y].
    eapply tx_bind; [apply tx_now|intros now']. eapply tx_bind; [apply PublishExceptionEventWithTx_spec|intros ?].
    eapply tx_bind; [apply Hemit|intros ?; apply tx_ret]. }
  intros d d' y (d1 & x & (-> & Hx) & d2 & id & -> & d3 & now & -> & d4 & x' & (-> & Hs) & d5 & z & Hu & d6 & now' & -> &
    d7 & [] & (entry & He & ->) & d8 & [] & -> & -> & ->) Hd.
  specialize (Hx Hd).
  destruct (step_and_update (DAddEvidence comment actor fileURL id.1 id.2) _ _ _ _ _ _ _ Hd Hx Hs ltac:(done) Hu) as (Hm & Hwf & ->).
  eauto 20.
Qed.

Lemma lift_Ok_bind {X Y} (x : X) (f : X -> io Y) : (st_lift (Ok x) ≫= f) = f x.
Proof. done. Qed.

Lemma OpenDispute_spec cmd :
  call_spec (OpenDispute uc cmd) (fun d d' y => dispute_changed (KOpen cmd) d d' y) (fun d d' => d' = d).
Proof.
  unfold OpenDispute. destruct (validateOpenDispute uc cmd) as [[[actor category] description]|e] eqn:E; [|by intros w Hw].
  rewrite lift_Ok_bind. unfold validateOpenDispute in E. res_inv.
  eapply call_weaken.
  { eapply call_read_then; [apply FindByID_spec|intros ? ? _]. eapply call_read_then; [apply ro_fresh|intros ? id _].
    eapply call_read_then; [apply ro_lift|intros ? nd Hnd].
    eapply call_read_then; [apply ro_now|intros ? now _]. eapply call_read_then; [apply dispute_call_spec|intros ? nd' Hnd'].
    apply call_tx, openDisputeTx_spec.
    destruct (NewDispute _ _ _ _ _ _) eqn:En; [|done]. injection Hnd as ->. apply NewDispute_wf in En as (Hwf & _ & _ & Hs & _).
    apply (stepped DOpen now (DI_ID nd) nd nd' Hnd' eq_refl Hwf). by rewrite Hs. }
  2: done.
  intros d d' y (_ & _ & id & _ & nd & Hnd & now & _ & nd' & Hs & -> & Hn & He & now' & metadata & entry & Ha & ->).
  destruct (NewDispute _ _ _ _ _ _) eqn:En; [|done]. injection Hnd as ->. apply NewDispute_wf in En as (Hwf & Hid & Hex & Hst & Hev).
  destruct (stepped DOpen now (DI_ID nd) nd nd' Hs eq_refl Hwf) as (Hm & Hwf' & _); [by rewrite Hst|].
  destruct Hm as [_ M2 [_ M3] (I1 & I2 & _) _]. pose proof (dw_resolution _ Hwf) as Hr. rewrite Hst in Hr. cbn in Hr.
  split; [done| |].
  - cbn. split_and!; [done|congruence|congruence|by eapply Dispute_Open_state|congruence|congruence].
  - eexists _, entry. split_and!; [| | |exact Ha|done]; done.
Qed.

Lemma CloseDispute_spec cmd :
  call_spec (CloseDispute uc cmd) (fun d d' y => disputes_ok d -> dispute_changed (KClose cmd) d d' y) (fun d d' => d' = d).
Proof.
  unfold CloseDispute. destruct (validateCloseDispute uc cmd) as [[actor resolution]|e] eqn:E; [|by intros w Hw].
  rewrite lift_Ok_bind. unfold validateCloseDispute in E. res_inv.
  eapply call_weaken; [apply (call_tx false _ _ (closeDisputeTx_spec cmd _ _))|..]; [|done].
  intros d d' y H Hd. destruct (H Hd) as (z & now & now' & metadata & entry & Hz & Hm & Hwf & Ha & ->). split; [done|cbn; eauto|].
  eexists _, entry. split_and!; [| | |exact Ha|done]; done.
Qed.

Lemma SubmitEvidence_spec cmd :
  call_spec (SubmitEvidence uc cmd) (fun d d' y => disputes_ok d -> dispute_changed (KSubmit cmd) d d' y) (fun d d' => d' = d).
Proof.
  unfold SubmitEvidence. destruct (validateSubmitEvidence uc cmd) as [[[actor comment] url]|e] eqn:E; [|by intros w Hw].
  rewrite lift_Ok_bind. unfold validateSubmitEvidence in E. res_inv.
  eapply call_weaken; [apply (call_tx false _ _ (submitEvidenceTx_spec cmd _ _ _))|..]; [|done].
  intros d d' y H Hd. destruct (H Hd) as (z & id & sub & now & now' & metadata & entry & Hz & Hm & Hwf & Ha & ->). split; [done|cbn; eauto 10|].
  eexists _, entry. split_and!; [| | |exact Ha|done]; done.
Qed.

Lemma dispute_changed_ok c d d' y : disputes_ok d -> dispute_changed c d d' y -> disputes_ok d'.
Proof.
  intros [Hk Hr] [Hwf _ (event & entry & _ & _ & _ & _ & ->)]. split; cbn.
  - intros id x [[<- <-]|[_ Hx]]%lookup_insert_Some; eauto.
  - intros id x [[<- <-]|[_ Hx]]%lookup_insert_Some; eauto.
Qed.

(** C15: A command on disputes that returns has changed exactly one dispute by
    one step of its aggregate and added one audit event of that action, actor
    and exception; opening makes an open dispute of an existing exception
    without evidence, closing a won or lost one with the given resolution from
    an open one or one waiting for evidence, and submitting appends one piece
    of evidence and keeps the earlier ones.  Every stored dispute stays well
    formed: it has a resolution exactly when it is closed, and its evidence is
    its own and linked by https only.  A command that fails changes nothing. *)
Theorem dispute_outcome c w : W_tx w = None -> disputes_ok (W_db w) ->
  let '(w', r) := dispute_exec c w in
  W_tx w' = None /\ disputes_ok (W_db w') /\
  match r with Ok y => dispute_changed c (W_db w) (W_db w') y | Err _ => W_db w' = W_db w end.
Proof.
  intros Hw Hd.
  assert (call_spec (dispute_exec c) (fun d d' y => disputes_ok d -> dispute_changed c d d' y) (fun d d' => d' = d)) as H.
  { destruct c; cbn [dispute_exec]; [|apply CloseDispute_spec|apply SubmitEvidence_spec].
    eapply call_weaken; [apply OpenDispute_spec|done|done]. }
  specialize (H w Hw). destruct (dispute_exec c w) as [w' [y|e]]; destruct H as [Ht H]; split_and!; try done.
  - by eapply dispute_changed_ok, H.
  - by apply H.
  - by rewrite H.
Qed.
End outcome.

(** ** Comments *)
Section comments.
  Context {U : UUIDLib} {D : DecimalLib} {A : AssertLib} {AL : AssertLaws A} {N : UnicodeLib}
    {NL : UnicodeLaws N} {V : Env U} {O : OutboxLib U}.
  Variable uc : ExceptionUseCase.

(** [handleCommentError] of handlers_comment.go: the status of the response. *)
Definition handleCommentError (e : CmdError) : Z :=
  match e with
  | ErrException ErrExceptionNotFound | ErrException ErrCommentNotFound => 404
  | ErrExceptionCmd ErrExceptionIDRequired | ErrExceptionCmd ErrActorRequired | ErrExceptionCmd ErrCommentContentEmpty
  | ErrExceptionCmd ErrCommentIDRequired | ErrException ErrCommentContentRequired | ErrException ErrCommentAuthorRequired => 400
  | _ => 500
  end.

Definition comment_added (exceptionID : uuid) (content : string) (d d' : DB) (c : ExceptionComment) : Prop :=
  EC_ExceptionID c = exceptionID /\ EC_Author c = strings_TrimSpace (XU_actor uc) /\ EC_Content c = strings_TrimSpace content /\
  EC_Author c <> "" /\ EC_Content c <> "" /\ DB_comments d !! EC_ID c = None /\
  (exceptions_ok d -> exists x, row_of d exceptionID x /\ EX_Status x <> ExceptionStatusResolved) /\
  d' = set_comments <[EC_ID c := c]> d.

Lemma createComment_spec c :
  tx_spec (commentRepo_executeCreate c) (fun d d' y => y = c /\ DB_comments d !! EC_ID c = None /\
    d' = set_comments <[EC_ID c := c]> d).
Proof.
  unfold commentRepo_executeCreate. eapply tx_weaken; [eapply tx_bind; [apply tx_sql|intros u; apply tx_sql]|].
  intros d d' y (d1 & u & H1 & H2). unfold insert_comment in H1. destruct (DB_comments d !! EC_ID c) eqn:E; [done|].
  res_inv. unfold select_comment in *. cbn in *. rewrite lookup_insert_eq in *. by simplify_eq.
Qed.

Lemma AddComment_spec exceptionID content :
  call_spec (AddComment uc exceptionID content) (fun d d' c => comment_added exceptionID content d d' c) (fun d d' => d' = d).
Proof.
  unfold AddComment. eapply call_weaken.
  { eapply call_read_then; [apply ro_lift|intros ? ? _]. eapply call_read_then; [apply ro_lift|intros ? ? _].
    eapply call_read_then; [apply ro_lift|intros ? ? _]. eapply call_read_then; [apply FindByID_spec|intros ? ex _].
    eapply call_read_then; [apply ro_lift|intros ? ? _]. eapply call_read_then; [apply ro_fresh|intros ? id _].
    eapply call_read_then; [apply ro_lift|intros ? c _].
    eapply call_weaken; [eapply call_bind; [apply call_tx, createComment_spec|intros ? ? y _; eapply call_bind;
      [apply emitExceptionImportant_spec|intros ? ? ? _; apply call_ret]]|..].
    - intros e1 e2 z H. exact H.
    - intros e1 e2 [->|(e3 & y & _ & [[]|(e4 & u & _ & [])])]. done. }
  2: done.
  intros d d' c (_ & _ & _ & _ & _ & _ & x & Hx & _ & Hr%ensure_Ok & id & _ & c0 & Hc & d1 & c1 & (-> & Hn & ->) & d2 & [] & -> & -> & ->).
  destruct (NewExceptionComment _ _ _ _ _) eqn:E; [|done]. injection Hc as ->. unfold NewExceptionComment in E. res_inv. assert_inv.
  unfold string_empty in *. bool_inv. unfold comment_added. cbn. split_and!; try done. eauto.
Qed.

Definition comment_deleted (exceptionID commentID : uuid) (d d' : DB) : Prop :=
  exists c, DB_comments d !! commentID = Some c /\ EC_ExceptionID c = exceptionID /\ EC_Author c = XU_actor uc /\
    d' = set_comments (delete commentID) d.

Lemma DeleteComment_spec exceptionID commentID :
  call_spec (DeleteComment uc exceptionID commentID) (fun d d' _ => comment_deleted exceptionID commentID d d') (fun d d' => d' = d).
Proof.
  unfold DeleteComment. eapply call_weaken.
  { eapply call_read_then; [apply ro_lift|intros ? ? _]. eapply call_read_then; [apply ro_lift|intros ? ? _].
    eapply call_read_then; [apply ro_lift|intros ? ? _]. eapply call_read_then; [apply ro_sql_read|intros ? c _].
    eapply call_read_then; [apply ro_lift|intros ? ? _]. eapply call_read_then; [apply ro_lift|intros ? ? _].
    eapply call_weaken; [eapply call_bind; [apply call_tx, tx_sql|intros ? ? ? _; apply emitExceptionImportant_spec]|..].
    - intros e1 e2 z H. exact H.
    - intros e1 e2 [->|(e3 & y & _ & [])]. done. }
  2: done.
  intros d d' [] (_ & _ & _ & _ & _ & _ & c & Hc & _ & H1%ensure_Ok & _ & H2%ensure_Ok & d1 & [] & Hd & ->). bool_inv.
  unfold select_comment in Hc. destruct (DB_comments d !! commentID) as [c'|] eqn:E; [|done]. injection Hc as ->.
  unfold delete_comment in Hd. rewrite E, bool_decide_eq_true_2 in Hd by done. injection Hd as <-. unfold comment_deleted. eauto.
Qed.

(** The answer to a request to delete, when the database answers. *)
Lemma DeleteComment_refused exceptionID commentID w :
  exceptionID <> uuid_Nil -> commentID <> uuid_Nil -> XU_actor uc <> "" ->
  env_dbFails (W_step w) = false -> env_ctxDone (W_step w) = false ->
  (DeleteComment uc exceptionID commentID w).2 =
  match DB_comments (W_db w) !! commentID with
  | None => Err ErrNoRows
  | Some c => if bool_decide (EC_ExceptionID c = exceptionID) then
      if bool_decide (EC_Author c = XU_actor uc) then (DeleteComment uc exceptionID commentID w).2
      else Err (ErrExceptionCmd ErrNotCommentAuthor)
    else Err (ErrException ErrCommentNotFound)
  end.
Proof.
  intros H1 H2 H3 H4 H5. unfold DeleteComment, string_empty. rewrite !bool_decide_eq_false_2 by done.
  unfold commentRepo_FindByID, sql_read, io_roundtrip, io_step, select_comment, mbind, st_bind, st_ensure, ensure, st_lift, st_get.
  cbn -[commentRepo_DeleteByExceptionAndID emitExceptionImportant]. rewrite H4, H5.
  cbn -[commentRepo_DeleteByExceptionAndID emitExceptionImportant].
  destruct (DB_comments (W_db w) !! commentID) as [c|]; [|done]. cbn -[commentRepo_DeleteByExceptionAndID emitExceptionImportant].
  case_bool_decide; cbn -[commentRepo_DeleteByExceptionAndID emitExceptionImportant]; [|done].
  case_bool_decide; cbn -[commentRepo_DeleteByExceptionAndID emitExceptionImportant]; done.
Qed.

(** Adding a comment stores exactly one comment of the actor on an
    exception that is not resolved; deleting removes exactly the given comment
    of that exception, when the actor wrote it; a call that fails changes
    nothing. *)
Theorem comment_outcome exceptionID commentID content w : W_tx w = None ->
  (let '(w', r) := AddComment uc exceptionID content w in W_tx w' = None /\
   match r with Ok c => comment_added exceptionID content (W_db w) (W_db w') c | Err _ => W_db w' = W_db w end) /\
  (let '(w', r) := DeleteComment uc exceptionID commentID w in W_tx w' = None /\
   match r with Ok _ => comment_deleted exceptionID commentID (W_db w) (W_db w') | Err _ => W_db w' = W_db w end).
Proof. intros Hw. split; [by apply AddComment_spec|by apply DeleteComment_spec]. Qed.

(** C33: The API documents 404 for a comment that does not exist and 403 for a
    request that is not allowed.  The repository reports a missing row as it gets it from
    the driver, and no case of the handler knows the two errors: both requests
    are answered with 500, and only a comment of another exception with 404. *)
Theorem DeleteComment_statuses exceptionID commentID w :
  exceptionID <> uuid_Nil -> commentID <> uuid_Nil -> XU_actor uc <> "" ->
  env_dbFails (W_step w) = false -> env_ctxDone (W_step w) = false ->
  let status := match (DeleteComment uc exceptionID commentID w).2 with Ok _ => 204%Z | Err e => handleCommentError e end in
  (DB_comments (W_db w) !! commentID = None -> status = 500%Z) /\
  (forall c, DB_comments (W_db w) !! commentID = Some c -> EC_ExceptionID c = exceptionID -> EC_Author c <> XU_actor uc ->
     status = 500%Z) /\
  (forall c, DB_comments (W_db w) !! commentID = Some c -> EC_ExceptionID c <> exceptionID -> status = 404%Z).
Proof.
  intros H1 H2 H3 H4 H5. rewrite (DeleteComment_refused _ _ _ H1 H2 H3 H4 H5). cbn zeta. split_and!.
  - by intros ->.
  - intros c -> He Ha. by rewrite bool_decide_eq_true_2, bool_decide_eq_false_2.
  - intros c -> He. by rewrite bool_decide_eq_false_2.
Qed.
End comments.

(** ** Sample calls *)
#[export] Instance model_url : UrlLib := {|
  url_Parse s := if bool_decide (String.prefix "https://" s = true)
    then Some ("https", String.substring 8 (String.length s) s) else Some ("", s);
|}.

Definition dispute_world : @World model_uuid model_decimal := resolution_world.
Definition open_dispute : @OpenDisputeCommand model_uuid := mkOpenDisputeCommand (U:=model_uuid) "e1" "other" " wrong fee ".
Definition dispute_sample (c : @dispute_command model_uuid) (w : @World model_uuid model_decimal) :=
  dispute_exec (A:=model_assert) (N:=model_unicode) (L:=model_url) (V:=quiet_env) (O:=model_outbox) resolution_uc c w.

Lemma dispute_world_ok : disputes_ok (W_db dispute_world).
Proof. split; by intros id x H. Qed.

Lemma dispute_sample_result : match dispute_sample (KOpen open_dispute) dispute_world with
  | (w', Ok y) => (DI_State y, DI_Category y, DI_Description y) = ("OPEN", "OTHER", "wrong fee") /\
      match dispute_sample (KSubmit (mkSubmitEvidenceCommand (DI_ID y) "receipt" (Some "https://files/1"))) w' with
      | (w'', Ok z) => EV_Comment <$> DI_Evidence z = ["receipt"] /\ length (DB_outbox (W_db w'')) = 2%nat
      | (_, Err _) => False
      end
  | (_, Err _) => False
  end.
Proof. vm_compute. split_and!; reflexivity. Qed.

Lemma dispute_outcome_witness :
  exists w' y, dispute_sample (KOpen open_dispute) dispute_world = (w', Ok y) /\
    dispute_changed resolution_uc (KOpen open_dispute) (W_db dispute_world) (W_db w') y.
Proof.
  pose proof dispute_sample_result as Hs. unfold dispute_sample at 1 in Hs. unfold dispute_sample.
  pose proof (dispute_outcome (A:=model_assert) (AL:=model_assert_laws) (N:=model_unicode) (NL:=model_unicode_laws)
    (L:=model_url) (V:=quiet_env) (O:=model_outbox) resolution_uc (KOpen open_dispute) dispute_world eq_refl dispute_world_ok) as H.
  destruct (dispute_exec _ _ dispute_world) as [w' [y|e]]; [|destruct Hs]. exists w', y. split; [reflexivity|apply H].
Defined.

Definition comment_world : @World model_uuid model_decimal :=
  mkWorld (U:=model_uuid) (D:=model_decimal)
    (set_comments (fun _ => {["c1" := mkExceptionComment (U:=model_uuid) "c1" "e1" "bob" "seen" 1 1]}) (W_db resolution_world))
    None 0 0 None.

Lemma comment_outcome_witness :
  exists w' c, AddComment (A:=model_assert) (N:=model_unicode) (V:=quiet_env) resolution_uc ("e1" : @uuid model_uuid) " ok "
      comment_world = (w', Ok c) /\ comment_added resolution_uc "e1" " ok " (W_db comment_world) (W_db w') c.
Proof.
  pose proof (comment_outcome (A:=model_assert) (AL:=model_assert_laws) (N:=model_unicode) (NL:=model_unicode_laws)
    (V:=quiet_env) resolution_uc "e1" "c1" " ok " comment_world eq_refl) as H.
  destruct H as [H _].
  assert (is_Ok (AddComment (A:=model_assert) (N:=model_unicode) (V:=quiet_env) resolution_uc ("e1" : @uuid model_uuid) " ok "
      comment_world).2 = true) as Hok by (vm_compute; reflexivity).
  destruct (AddComment _ _ _ comment_world) as [w' [c|e]]; [|discriminate Hok]. exists w', c. split; [reflexivity|apply H].
Defined.

Lemma DeleteComment_statuses_witness :
  match (DeleteComment (V:=quiet_env) resolution_uc ("e1" : @uuid model_uuid) "c1" comment_world).2 with
  | Ok _ => 204%Z | Err e => handleCommentError e
  end = 500%Z.
Proof.
  pose proof (DeleteComment_statuses (V:=quiet_env) resolution_uc ("e1" : @uuid model_uuid) "c1" comment_world
    ltac:(discriminate) ltac:(discriminate) ltac:(discriminate) eq_refl eq_refl) as H.
  cbv zeta in H. destruct H as (_ & H & _).
  exact (H (mkExceptionComment (U:=model_uuid) "c1" "e1" "bob" "seen" 1 1) eq_refl eq_refl ltac:(discriminate)).
Defined.
