(* ===== verification/AuditConsumer.v ===== *)
(** * The consumer of audit events

    Models internal/governance/adapters/audit/consumer.go and [ListByEntity] of
    internal/governance/adapters/postgres/audit_log_queries.postgresql.go.

    The outbox hands every audit event to [PublishAuditLogCreated], possibly
    more than once.  [consumer_outcome]: the stored chains keep verifying, and
    an event is appended as one record or taken for a repetition of a recent
    record.  [consumer_drops]: an event for whose entity and action there is a
    recent record is dropped, although it may be another event. *)
From S2P Require Import GoLib GoLibModel FeeStructure MatchTypes MatchEntities Transaction RunPrepare RunExecute.
From S2P Require Import Severity Exceptions Sha256 GoTime GoJson AuditChain AuditEvent Store AuditRepo RunMatch RunOutcome Calls ManualMatch.
From S2P Require Import Adjust ExceptionRepo Resolution.
Local Open Scope Z_scope.

Section consumer.
  Context {U : UUIDLib} {D : DecimalLib} {A : AssertLib} {N : UnicodeLib} {V : Env U}.

Definition defaultDedupWindow : Duration := 5 * nanos_per_second.
Definition dedupScanLimit : nat := 10.

(** The consumer with the tenant of the dispatch; [AC_streaming]: a live
    emitter is wired, neither nil nor the no-op one. *)
Record Consumer : Type := mkConsumer {
  AC_dedupWindow : Duration;
  AC_infra : bool;
  AC_streaming : bool;
  AC_tenant : string;
}.

Definition NewConsumer (dedupWindow : Duration) (infra streaming : bool) (tenant : string) : Consumer :=
  mkConsumer (if dedupWindow <=? 0 then defaultDedupWindow else dedupWindow) infra streaming tenant.

Context (consumer : Consumer).

(** [ORDER BY created_at DESC, id DESC]. *)
Definition newest_first (a b : AuditLog) : bool :=
  if AL_CreatedAt a =? AL_CreatedAt b then string_lt (uuid_String (AL_ID b)) (uuid_String (AL_ID a))
  else AL_CreatedAt b <? AL_CreatedAt a.

Definition select_by_entity (tenantID : uuid) (entityType : string) (entityID : uuid) (limit : nat) (d : DB)
    : res CmdError (list AuditLog) :=
  Ok (take limit (stable_sort newest_first (filter (fun log => AL_TenantID log = tenantID /\
        AL_EntityType log = entityType /\ AL_EntityID log = entityID) (DB_auditLogs d)))).

Definition ListByEntity (ctxTenant : option uuid) (entityType : string) (entityID : uuid) (limit : nat) : io (list AuditLog) :=
  let trimmedEntityType := strings_TrimSpace entityType in
  _ ← st_ensure (negb (string_empty trimmedEntityType)) (ErrAudit ErrAuditEntityTypeRequired);
  _ ← st_ensure (negb (bool_decide (entityID = uuid_Nil))) (ErrAudit ErrAuditEntityIDRequired);
  match ctxTenant with
  | None => io_fail (ErrAudit ErrAuditTenantIDRequired)
  | Some tenantID => sql_read (select_by_entity tenantID trimmedEntityType entityID limit)
  end.

(** The loop over the recent records. *)
Fixpoint duplicate_of (now : Time) (action : string) (recent : list AuditLog) : bool :=
  match recent with
  | [] => false
  | candidate :: recent' =>
      if AC_dedupWindow consumer <=? time_Sub now (AL_CreatedAt candidate) then false
      else if bool_decide (AL_Action candidate = action) then true
      else duplicate_of now action recent'
  end.

Definition isDuplicateDelivery (ctxTenant : option uuid) (event : AuditLogCreatedEvent) : io bool :=
  io_try
    (recent ← ListByEntity ctxTenant (AE_EntityType event) (AE_EntityID event) dedupScanLimit;
     if bool_decide (recent = []) then mret false
     else now ← io_now; mret (duplicate_of now (AE_Action event) recent))
    (fun _ => mret false).

(** [json.Marshal] of a map writes its keys in order. *)
Definition buildChangesPayload (event : AuditLogCreatedEvent) : res CmdError bytes :=
  match marshal_time (AE_OccurredAt event), marshal_changes (AE_Changes event) with
  | Some occurred, Some changes =>
      Ok (json_object
        ([("action", marshal_string (AE_Action event))]
         ++ (match AE_Actor event with
             | Some actor => if string_empty actor then [] else [("actor", marshal_string actor)]
             | None => []
             end)
         ++ (if bool_decide (AE_Changes event = ∅) then [] else [("changes", changes)])
         ++ [("entity_id", marshal_string (uuid_String (AE_EntityID event)));
             ("entity_type", marshal_string (AE_EntityType event)); ("occurred_at", occurred)]))
  | _, _ => Err (ErrExceptionCmd ErrMarshalAuditEvent)
  end.

Definition auditTenantContext (event : AuditLogCreatedEvent) : res CmdError (option uuid) :=
  _ ← ensure (negb (string_empty (AC_tenant consumer))) (ErrExceptionCmd ErrAuditTenantContextMissing);
  _ ← ensure (bool_decide (AC_tenant consumer = uuid_String (AE_TenantID event))) (ErrExceptionCmd ErrAuditTenantMismatch);
  Ok (uuid_Parse (AC_tenant consumer)).

Definition emitAuditLogCreated : io unit := io_roundtrip false.

Definition createAuditLogAndEmit (ctxTenant : option uuid) (auditLog : AuditLog) : io unit :=
  WithTx false (_ ← auditLogRepo_CreateWithTx ctxTenant auditLog; emitAuditLogCreated).

Definition persistAuditLogAutocommit (ctxTenant : option uuid) (auditLog : AuditLog) : io unit :=
  _ ← auditLogRepo_Create ctxTenant auditLog; mret tt.

Definition PublishAuditLogCreated (event : AuditLogCreatedEvent) : io unit :=
  ctxTenant ← st_lift (auditTenantContext event);
  duplicate ← isDuplicateDelivery ctxTenant event;
  if (duplicate : bool) then mret tt
  else
    changes ← st_lift (buildChangesPayload event);
    id ← io_fresh;
    auditLog ← st_lift (map_err ErrAudit (NewAuditLog id.1 id.2 (AE_TenantID event) (AE_EntityType event) (AE_EntityID event)
                 (AE_Action event) (AE_Actor event) changes));
    if negb (AC_streaming consumer) then persistAuditLogAutocommit ctxTenant auditLog
    else if negb (AC_infra consumer) then io_fail (ErrExceptionCmd ErrNilInfrastructureProvider)
    else createAuditLogAndEmit ctxTenant auditLog.
End consumer.

Section outcome.
  Context {U : UUIDLib} {UL : UUIDLaws U} {D : DecimalLib} {A : AssertLib} {AL : AssertLaws A} {N : UnicodeLib} {V : Env U}.
  Variable consumer : Consumer.

Definition about (event : AuditLogCreatedEvent) (log : AuditLog) : Prop :=
  AL_TenantID log = AE_TenantID event /\ AL_EntityType log = strings_TrimSpace (AE_EntityType event) /\
  AL_EntityID log = AE_EntityID event.

(** One more record, at the end of its tenant's chain. *)
Record recorded (event : AuditLogCreatedEvent) (d d' : DB) : Prop := {
  rc_row : exists row next, about event row /\ AL_Action row = strings_TrimSpace (AE_Action event) /\
    AL_EntityType row <> "" /\ AL_EntityID row <> uuid_Nil /\ normalizedActorID (AE_Actor event) = Ok (AL_ActorID row) /\ buildChangesPayload event = Ok (AL_Changes row) /\
    d' = set_chainState (fun _ => next) (set_auditLogs (fun rows => rows ++ [row]) d);
}.

(** A record of the same entity and action, younger than the window when the
    event is consumed. *)
Definition repeated (event : AuditLogCreatedEvent) (w : World) : Prop :=
  exists row, row ∈ DB_auditLogs (W_db w) /\ about event row /\ AL_Action row = AE_Action event /\
    time_Sub (env_now (W_next w)) (AL_CreatedAt row) < AC_dedupWindow consumer.

Lemma duplicate_of_true now action recent : duplicate_of consumer now action recent = true ->
  exists row, row ∈ recent /\ AL_Action row = action /\ time_Sub now (AL_CreatedAt row) < AC_dedupWindow consumer.
Proof.
  induction recent as [|c recent IH]; cbn; [done|]. destruct (Z.leb_spec (AC_dedupWindow consumer) (time_Sub now (AL_CreatedAt c))); [done|].
  case_bool_decide; [intros _; exists c; split_and!; [left|done..]|]. intros (row & Hin & ?)%IH. exists row. split; [by right|done].
Qed.

Lemma select_by_entity_elem t ty id limit d rows row :
  select_by_entity t ty id limit d = Ok rows -> row ∈ rows ->
  row ∈ DB_auditLogs d /\ AL_TenantID row = t /\ AL_EntityType row = ty /\ AL_EntityID row = id.
Proof.
  intros [= <-] Hin. apply elem_of_take in Hin as (i & Hi & _). apply list_elem_of_lookup_2 in Hi.
  apply stable_sort_elem_of, list_elem_of_filter in Hi as [(? & ? & ?) ?]. done.
Qed.

Lemma ListByEntity_spec t event :
  ro_spec (ListByEntity (Some t) (AE_EntityType event) (AE_EntityID event) dedupScanLimit) (fun d rows =>
    forall row, row ∈ rows -> row ∈ DB_auditLogs d /\ AL_TenantID row = t /\
      AL_EntityType row = strings_TrimSpace (AE_EntityType event) /\ AL_EntityID row = AE_EntityID event).
Proof.
  unfold ListByEntity. eapply ro_weaken.
  { eapply ro_bind; [apply ro_lift|intros ?]. eapply ro_bind; [apply ro_lift|intros ?; apply ro_sql_read]. }
  intros d rows (_ & _ & _ & _ & H) row Hin. by eapply select_by_entity_elem.
Qed.

Lemma ListByEntity_next t entityType entityID limit w :
  W_next (ListByEntity t entityType entityID limit w).1 = W_next w.
Proof.
  unfold ListByEntity, sql_read, io_roundtrip, io_step, st_ensure, ensure, st_lift, mbind, st_bind, st_get.
  destruct (negb _); [|done]. destruct (negb _); [|done]. destruct t; [|done]. cbn. by destruct (negb _).
Qed.

Lemma isDuplicateDelivery_spec event w :
  let '(w', r) := isDuplicateDelivery consumer (Some (AE_TenantID event)) event w in
  W_db w' = W_db w /\ W_tx w' = W_tx w /\ (r = Ok true -> repeated event w).
Proof.
  unfold isDuplicateDelivery, io_try. rewrite bind_unfold. pose proof (ListByEntity_spec (AE_TenantID event) event w) as H.
  pose proof (ListByEntity_next (Some (AE_TenantID event)) (AE_EntityType event) (AE_EntityID event) dedupScanLimit w) as Hn.
  destruct (ListByEntity _ _ _ _ w) as [w1 [recent|e]]; destruct H as ((D1 & _) & T1 & Hrec); [|by split_and!].
  cbn [fst] in Hn. case_bool_decide; [by split_and!|]. rewrite bind_unfold. unfold io_now. cbn [mret st_ret]. rewrite Hn.
  split_and!; [done..|]. intros [= Hd]. apply duplicate_of_true in Hd as (row & Hin & Ha & Hw).
  destruct (Hrec _ Hin) as (H1 & H2 & H3 & H4). exists row. by split_and!.
Qed.

Definition chains_ok (d : DB) : Prop := chains_wf (DB_auditLogs d) (DB_chainState d).

Lemma persist_spec t log :
  call_spec (if negb (AC_streaming consumer) then persistAuditLogAutocommit (Some t) log
    else if negb (AC_infra consumer) then io_fail (ErrExceptionCmd ErrNilInfrastructureProvider)
    else createAuditLogAndEmit (Some t) log)
    (fun d d' _ => chains_ok d -> chains_ok d' /\ exists row, appended (Some t) log d d' row) (fun d d' => d' = d).
Proof.
  destruct (AC_streaming consumer), (AC_infra consumer); cbn [negb].
  2: by intros w Hw.
  1: { apply call_tx. eapply tx_weaken; [eapply tx_bind; [apply tx_existing, executeCreate_spec|intros row; apply tx_roundtrip]|].
    intros d d' [] (d1 & row & H & ->) Hd. destruct (H Hd). eauto. }
  all: eapply call_weaken; [eapply call_bind; [apply call_tx, executeCreate_spec|intros ? ? row _; apply call_ret]|..];
    [intros d d' [] (d1 & row & H & -> & _) Hd; destruct (H Hd); eauto|by intros d d' [->|(d1 & row & _ & [])]].
Qed.

Lemma auditTenantContext_Ok event t : auditTenantContext consumer event = Ok t -> t = Some (AE_TenantID event).
Proof. unfold auditTenantContext. intros H. res_inv. bool_inv. rewrite Hx0. apply uuid_Parse_String. Qed.

Lemma publish_spec event w : W_tx w = None -> chains_ok (W_db w) ->
  let '(w', r) := PublishAuditLogCreated consumer event w in
  W_tx w' = None /\ chains_ok (W_db w') /\
  match r with
  | Ok _ => recorded event (W_db w) (W_db w') \/ (W_db w' = W_db w /\ repeated event w)
  | Err _ => W_db w' = W_db w
  end.
Proof.
  intros Hw Hd. unfold PublishAuditLogCreated. rewrite bind_unfold. cbn [st_lift].
  destruct (auditTenantContext consumer event) as [t|e] eqn:Et; [|done]. apply auditTenantContext_Ok in Et as ->.
  rewrite bind_unfold. pose proof (isDuplicateDelivery_spec event w) as Hdup.
  destruct (isDuplicateDelivery _ _ _ w) as [w1 [b|e]]; destruct Hdup as (D1 & T1 & Hb);
    [|rewrite D1; split_and!; [congruence|done..]].
  assert (W_tx w1 = None) as Hw1 by congruence. destruct b; [cbn; rewrite D1; split_and!; [done|done|right; auto]|].
  rewrite bind_unfold. cbn [st_lift]. destruct (buildChangesPayload event) as [changes|e] eqn:Ec; [|cbn; by rewrite D1].
  rewrite bind_unfold. unfold io_fresh. rewrite bind_unfold. cbn [st_lift fst snd].
  set (w2 := mkWorld (W_db w1) _ _ _ _). assert (W_db w2 = W_db w) as D2 by done. assert (W_tx w2 = None) as Hw2 by done.
  destruct (NewAuditLog _ _ _ _ _ _ _ _) as [log|e] eqn:El; cbn [map_err]; [|by rewrite D2].
  pose proof (persist_spec (AE_TenantID event) log w2 Hw2) as Hp.
  match type of Hp with let '(_, _) := ?m in _ => destruct m as [w3 [u|e]] end; destruct Hp as [T3 Hp]; rewrite D2 in Hp;
    [|rewrite Hp; done].
  destruct (Hp Hd) as (Hd3 & row & (next & Hn) & seq & prev & hash & Hrow). split_and!; [done..|]. left. split.
  exists row, next. unfold NewAuditLog in El. res_inv. assert_inv. unfold string_empty in *.
  bool_inv. by split_and!.
Qed.
(** C16: Whatever the environment does, after an audit event is consumed every
    tenant's chain still verifies.  A call that returns either appended exactly
    one record, with the tenant, entity, action, actor and payload of the
    event, or changed nothing because a record of the same entity and action is
    younger than the window; a call that fails changed nothing. *)
Theorem consumer_outcome event w : W_tx w = None -> chains_ok (W_db w) ->
  let '(w', r) := PublishAuditLogCreated consumer event w in
  W_tx w' = None /\ chains_ok (W_db w') /\
  match r with
  | Ok _ => recorded event (W_db w) (W_db w') \/ (W_db w' = W_db w /\ repeated event w)
  | Err _ => W_db w' = W_db w
  end.
Proof. apply publish_spec. Qed.

(** The records of an entity come newest first. *)
Lemma newest_first_sorted (l : list AuditLog) :
  StronglySorted (fun a b => AL_CreatedAt b <= AL_CreatedAt a) (stable_sort newest_first l).
Proof.
  assert (forall a b, if newest_first a b then AL_CreatedAt b <= AL_CreatedAt a else AL_CreatedAt a <= AL_CreatedAt b) as Hn.
  { intros a b. unfold newest_first. destruct (Z.eqb_spec (AL_CreatedAt a) (AL_CreatedAt b)); [case_match; lia|].
    destruct (Z.ltb_spec (AL_CreatedAt b) (AL_CreatedAt a)); lia. }
  induction l as [|x l IH]; cbn; [constructor|]. induction (stable_sort newest_first l) as [|y k IHk]; cbn; [repeat constructor|].
  apply StronglySorted_cons in IH as [Hy Hk]. pose proof (Hn y x) as Hyx. destruct (newest_first y x).
  - constructor; [by apply IHk|]. rewrite insert_sorted_perm. by constructor.
  - constructor; [by constructor|]. constructor; [done|]. eapply Forall_impl; [exact Hy|]. cbn. lia.
Qed.

(** A recent record of the action is found whatever newer records precede it. *)
Lemma duplicate_of_found now action row l1 l2 :
  AL_Action row = action -> time_Sub now (AL_CreatedAt row) < AC_dedupWindow consumer ->
  Forall (fun r => AL_CreatedAt row <= AL_CreatedAt r) l1 -> duplicate_of consumer now action (l1 ++ row :: l2) = true.
Proof.
  intros Ha Hw Hl. induction Hl as [|r l1 Hr _ IH]; cbn.
  - rewrite (proj2 (Z.leb_gt _ _)) by done. by rewrite bool_decide_eq_true_2.
  - rewrite (proj2 (Z.leb_gt _ _)); [by case_bool_decide|]. revert Hw. unfold time_Sub, saturate_int64. lia.
Qed.

Lemma filter_keeps {X} (P : X -> Prop) `{!forall x, Decision (P x)} l : Forall P l -> filter P l = l.
Proof. induction 1 as [|x l Hx _ IH]; [done|]. by rewrite filter_cons_True, IH. Qed.

#[local] Instance about_dec event log : Decision (about event log).
Proof. unfold about. apply _. Defined.

Lemma among_newest event d row limit :
  row ∈ DB_auditLogs d -> about event row ->
  (length (filter (fun r => about event r /\ (AL_CreatedAt row <= AL_CreatedAt r)%Z) (DB_auditLogs d)) <= limit)%nat ->
  exists l1 l2, select_by_entity (AE_TenantID event) (strings_TrimSpace (AE_EntityType event)) (AE_EntityID event) limit d =
    Ok (l1 ++ row :: l2) /\ Forall (fun r => AL_CreatedAt row <= AL_CreatedAt r) l1.
Proof.
  intros Hin Hab Hlen. unfold select_by_entity. set (l := filter _ (DB_auditLogs d)).
  assert (row ∈ stable_sort newest_first l) as Hs by (apply stable_sort_elem_of, list_elem_of_filter; by split).
  pose proof (newest_first_sorted l) as Hsort. pose proof (stable_sort_perm newest_first l) as Hp.
  apply list_elem_of_split in Hs as (l1 & l2 & E). rewrite E in *.
  assert (Forall (fun r => AL_CreatedAt row <= AL_CreatedAt r) l1) as H1.
  { clear -Hsort. induction l1 as [|x l1 IH]; [constructor|]. apply StronglySorted_cons in Hsort as [Hx Hsort].
    constructor; [|by apply IH]. apply Forall_app in Hx as [_ Hx]. by apply Forall_cons in Hx as [Hx _]. }
  assert (length (l1 ++ [row]) <= limit)%nat as Hle.
  { etrans; [|exact Hlen]. transitivity (length (filter (fun r => AL_CreatedAt row <= AL_CreatedAt r) (l1 ++ row :: l2))).
    - rewrite (cons_middle row l1 l2), app_assoc, filter_app.
      rewrite (filter_keeps (fun r => AL_CreatedAt row <= AL_CreatedAt r) (l1 ++ [row])); [rewrite (length_app (l1 ++ [row])); lia|].
      apply Forall_app. split; [done|]. by repeat constructor.
    - rewrite Hp. unfold l. rewrite list_filter_filter. apply Nat.eq_le_incl. f_equal.
      apply list_filter_iff. intros r. unfold about. tauto. }
  exists l1, (take (limit - length (l1 ++ [row])) l2). split; [|done]. f_equal.
  rewrite (cons_middle row l1 l2), app_assoc, take_app_ge by done. by rewrite <-app_assoc.
Qed.

Lemma sql_read_quiet {X} (f : DB -> res CmdError X) w : ~ fault false (W_step w) -> sql_read f w = (tick w, f (W_db w)).
Proof. intros Hf. unfold sql_read, mbind, st_bind. by rewrite io_roundtrip_quiet. Qed.

(** A lookup that is answered finds the duplicate among the records it reads. *)
Lemma isDuplicateDelivery_found event w recent : env_dbFails (W_step w) = false -> env_ctxDone (W_step w) = false ->
  strings_TrimSpace (AE_EntityType event) <> "" -> AE_EntityID event <> uuid_Nil ->
  select_by_entity (AE_TenantID event) (strings_TrimSpace (AE_EntityType event)) (AE_EntityID event) dedupScanLimit (W_db w) =
    Ok recent -> duplicate_of consumer (env_now (W_next w)) (AE_Action event) recent = true ->
  exists w', isDuplicateDelivery consumer (Some (AE_TenantID event)) event w = (w', Ok true) /\ W_db w' = W_db w.
Proof.
  intros Hdb Hctx Hty Hid Hsel Hdup. unfold isDuplicateDelivery, io_try, ListByEntity, string_empty, st_ensure.
  rewrite !bind_unfold, !bool_decide_eq_false_2 by done. cbn [st_lift ensure negb].
  rewrite bind_unfold. cbn [st_lift]. rewrite sql_read_quiet by (intros [Hf|[_ Hf]]; congruence).
  rewrite Hsel. rewrite bool_decide_eq_false_2 by (intros ->; discriminate Hdup).
  rewrite bind_unfold. unfold io_now. cbn [mret st_ret tick W_next]. rewrite Hdup. by eexists.
Qed.

(** C32: An event is dropped as a repetition although it is another event.
    Suppose the log holds a record of the tenant, entity and action of the
    event, younger than the window and among the ten newest of its entity, the
    event names its entity, the tenant of the dispatch is that of the event and
    the lookup is answered (one that fails lets the event through).  Then the call returns without an error
    and records nothing, whatever the identifier, the actor, the changes and
    the instant of the event are. *)
Theorem consumer_drops event w row :
  AC_tenant consumer = uuid_String (AE_TenantID event) -> AC_tenant consumer <> "" ->
  env_dbFails (W_step w) = false -> env_ctxDone (W_step w) = false ->
  strings_TrimSpace (AE_EntityType event) <> "" -> AE_EntityID event <> uuid_Nil ->
  row ∈ DB_auditLogs (W_db w) -> about event row -> AL_Action row = AE_Action event ->
  time_Sub (env_now (W_next w)) (AL_CreatedAt row) < AC_dedupWindow consumer ->
  (length (filter (fun r => about event r /\ (AL_CreatedAt row <= AL_CreatedAt r)%Z) (DB_auditLogs (W_db w)))
     <= dedupScanLimit)%nat ->
  exists w', PublishAuditLogCreated consumer event w = (w', Ok tt) /\ W_db w' = W_db w.
Proof.
  intros Ht Hne Hdb Hctx Hty Hid Hin Hab Ha Hwin Hlen. destruct (among_newest _ _ _ _ Hin Hab Hlen) as (l1 & l2 & Hsel & Hl1).
  unfold PublishAuditLogCreated, auditTenantContext, string_empty. rewrite bind_unfold, (bool_decide_eq_false_2 (_ = "")) by done.
  rewrite bool_decide_eq_true_2 by done. cbn [st_lift ensure negb mbind res_bind]. rewrite Ht, uuid_Parse_String, bind_unfold.
  destruct (isDuplicateDelivery_found _ w _ Hdb Hctx Hty Hid Hsel) as (w1 & -> & Hd1); [|by eexists].
  by apply duplicate_of_found.
Qed.
End outcome.

(** ** Sample deliveries: two pieces of evidence for one exception *)
Definition sample_consumer : Consumer := NewConsumer 0 true true "tenant".
Definition evidence_event (id url : string) : @AuditLogCreatedEvent model_uuid :=
  mkAuditLogCreatedEvent (U:=model_uuid) id EventTypeAuditLogCreated "tenant" "exception" "e1" "EVIDENCE_SUBMITTED" (Some "ana")
    {["file_url" := ChangeString url]} 7 8.
Definition deliver (event : @AuditLogCreatedEvent model_uuid) (w : @World model_uuid model_decimal) :=
  PublishAuditLogCreated (A:=model_assert) (V:=quiet_env) sample_consumer event w.

Definition delivered := deliver (evidence_event "u1" "https://a") resolution_world.

Lemma deliver_result :
  (is_Ok delivered.2, AL_Action <$> DB_auditLogs (W_db delivered.1),
   forallb (fun row => time_Sub (Z.of_nat (W_next delivered.1)) (AL_CreatedAt row) <? defaultDedupWindow)
     (DB_auditLogs (W_db delivered.1))) = (true, ["EVIDENCE_SUBMITTED"], true).
Proof. vm_compute. reflexivity. Qed.

Lemma resolution_chains : chains_ok (W_db resolution_world).
Proof. exact chains_wf_empty. Qed.

Lemma consumer_outcome_witness :
  exists w', deliver (evidence_event "u1" "https://a") resolution_world = (w', Ok tt) /\
    recorded (evidence_event "u1" "https://a") (W_db resolution_world) (W_db w').
Proof.
  pose proof deliver_result as Hs. unfold delivered, deliver in *.
  pose proof (consumer_outcome (UL:=model_uuid_laws) (A:=model_assert) (AL:=model_assert_laws) (V:=quiet_env)
    sample_consumer (evidence_event "u1" "https://a") resolution_world eq_refl resolution_chains) as H.
  destruct (PublishAuditLogCreated _ _ resolution_world) as [w' [[]|e]]; [|discriminate Hs].
  exists w'. split; [reflexivity|]. destruct H as (_ & _ & [H|[_ (row & Hin & _)]]); [exact H|]. by apply not_elem_of_nil in Hin.
Defined.

(** Two pieces of evidence of one exception leave one record. *)
Lemma consumer_drops_witness :
  exists w1 w2, deliver (evidence_event "u1" "https://a") resolution_world = (w1, Ok tt) /\
    deliver (evidence_event "u2" "https://b") w1 = (w2, Ok tt) /\ AL_Action <$> DB_auditLogs (W_db w2) = ["EVIDENCE_SUBMITTED"].
Proof.
  pose proof deliver_result as Hs. unfold delivered in Hs.
  pose proof (publish_spec (UL:=model_uuid_laws) (A:=model_assert) (AL:=model_assert_laws) (V:=quiet_env)
    sample_consumer (evidence_event "u1" "https://a") resolution_world eq_refl resolution_chains) as Hp. fold deliver in Hp.
  unfold deliver in *. destruct (PublishAuditLogCreated _ (evidence_event "u1" "https://a") resolution_world) as [w1 [[]|e]];
    [|discriminate Hs]. injection Hs as Hact Hs. cbn [fst] in Hact, Hs.
  destruct Hp as (_ & _ & [[(row & next & Hab & Ha & _ & _ & _ & _ & Hd)]|[_ (row & Hin & _)]]); [|by apply not_elem_of_nil in Hin].
  assert (DB_auditLogs (W_db w1) = [row]) as Hl by (rewrite Hd; reflexivity). rewrite Hl in Hs. cbn [forallb] in Hs.
  apply andb_true_iff in Hs as [Hs _]. apply Z.ltb_lt in Hs.
  destruct (consumer_drops (UL:=model_uuid_laws) (A:=model_assert) (V:=quiet_env) sample_consumer
    (evidence_event "u2" "https://b") w1 row eq_refl ltac:(discriminate) eq_refl eq_refl ltac:(discriminate) ltac:(discriminate)
    ltac:(rewrite Hl; by left) Hab Ha Hs) as (w2 & H1 & H2).
  { rewrite Hl. etrans; [apply length_filter|]. cbn. unfold dedupScanLimit. lia. }
  exists w1, w2. split; [reflexivity|]. split; [exact H1|]. rewrite H2. exact Hact.
Defined.
