(* ===== verification/Idempotency.v ===== *)
(** * Idempotency keys and rate limits in Redis

    Models internal/shared/domain/idempotency.go and
    internal/exception/adapters/redis/{idempotency_repository,
    callback_rate_limiter}.go over a Redis server.  An entry is a value with
    the instant, in milliseconds, at which it expires; a command and a Lua
    script run atomically.  The repository stores the plain text "pending" or
    the JSON of a cache entry, which the model keeps as a value; connections
    are left out, and the key of a rate limit comes from a library.

    [rate_limit_bound]: the counter lets less than twice its limit through in
    any stretch as long as its window.  The protocol of the idempotency keys is
    in Callback.v. *)
From S2P Require Import GoLib GoLibModel Exceptions Sha256 AuditEvent.
Local Open Scope Z_scope.

(** ** [idempotency.go] *)
Definition idempotencyKeyMaxLength : nat := 128.

Definition IdempotencyKey : Type := string.

(** One byte of the pattern: a letter, a digit, a colon, an underscore or a
    hyphen. *)
Definition idempotencyKeyPattern (c : ascii) : bool :=
  let z := code c in
  ((65 <=? z) && (z <=? 90)) || ((97 <=? z) && (z <=? 122)) || ((48 <=? z) && (z <=? 58)) || (z =? 95) || (z =? 45).

Definition IdempotencyKey_IsValid (key : IdempotencyKey) : bool :=
  if string_empty key || (idempotencyKeyMaxLength <? String.length key)%nat then false
  else forallb idempotencyKeyPattern (String.list_ascii_of_string key).

Definition SignKey (key : IdempotencyKey) (secret : string) : string :=
  if string_empty secret then key else hex_EncodeToString (hmac_sha256 (bytes_of secret) (bytes_of key)).

Definition CompareSignedKey (signed : string) (clientKey : IdempotencyKey) (secret : string) : bool :=
  bool_decide (signed = SignKey clientKey secret).

Definition ParseIdempotencyKey (value : string) : res ExceptionCmdError IdempotencyKey :=
  let trimmed := strings_TrimSpace value in
  _ ← ensure (negb (string_empty trimmed)) ErrEmptyIdempotencyKey;
  _ ← ensure (IdempotencyKey_IsValid trimmed) ErrInvalidIdempotencyKey;
  Ok trimmed.

Definition IdempotencyStatus : Type := string.
Definition IdempotencyStatusUnknown : IdempotencyStatus := "unknown".
Definition IdempotencyStatusPending : IdempotencyStatus := "pending".
Definition IdempotencyStatusComplete : IdempotencyStatus := "complete".
Definition IdempotencyStatusFailed : IdempotencyStatus := "failed".

Record IdempotencyResult : Type := mkIdempotencyResult {
  IS_Status : IdempotencyStatus;
  IS_Response : bytes;
  IS_HTTPStatus : Z;
}.

(** ** Redis *)
Record idempotencyCacheEntry : Type := mkIdempotencyCacheEntry {
  CE_Status : string;
  CE_Response : bytes;
  CE_HTTPStatus : Z;
}.

Inductive cached : Type :=
| CachedPending
| CachedEntry (entry : idempotencyCacheEntry)
| CachedCount (n : Z).

#[export] Instance idempotencyCacheEntry_eq_dec : EqDecision idempotencyCacheEntry.
Proof. solve_decision. Defined.
#[export] Instance cached_eq_dec : EqDecision cached.
Proof. solve_decision. Defined.

Abbreviation cache := (gmap string (cached * Z)).

Definition cache_Get (now : Z) (key : string) (c : cache) : option cached :=
  match c !! key with
  | Some (v, expires) => if now <? expires then Some v else None
  | None => None
  end.

Definition duration_Milliseconds (d : Duration) : Z := Z.quot d 1000000.

(** What a positive time to live becomes on the wire: at least a millisecond. *)
Definition ttl_ms (ttl : Duration) : Z := Z.max 1 (duration_Milliseconds ttl).

Definition cache_Set (now : Z) (key : string) (v : cached) (ttl : Duration) (c : cache) : cache :=
  <[key := (v, now + ttl_ms ttl)]> c.

Definition cache_SetNX (now : Z) (key : string) (v : cached) (ttl : Duration) (c : cache) : cache * bool :=
  match cache_Get now key c with
  | Some _ => (c, false)
  | None => (cache_Set now key v ttl c, true)
  end.

(** ** [idempotency_repository.go] *)
Definition idempotencyKeyPrefix : string := "matcher:idempotency:".
Definition DefaultSuccessTTL : Duration := 7 * 24 * nanos_per_hour.
Definition DefaultFailedRetryWindow : Duration := 5 * 60 * nanos_per_second.
Definition auth_DefaultTenantID : string := "11111111-1111-1111-1111-111111111111".

(** A resolver is given by what it returns for the request. *)
Record IdempotencyRepository : Type := mkIdempotencyRepository {
  IR_failedRetryWindow : Duration;
  IR_successTTL : Duration;
  IR_hmacSecret : string;
  IR_failedRetryWindowResolver : option Duration;
  IR_successTTLResolver : option Duration;
  IR_hmacSecretResolver : option string;
}.

Definition NewIdempotencyRepositoryWithConfig (failedRetryWindow successTTL : Duration) (hmacSecret : string)
    : IdempotencyRepository :=
  mkIdempotencyRepository (if failedRetryWindow <=? 0 then DefaultFailedRetryWindow else failedRetryWindow)
    (if successTTL <=? 0 then DefaultSuccessTTL else successTTL) hmacSecret None None None.

(** The first positive one of the resolved, the configured and the default. *)
Definition positive_or (resolved : option Duration) (configured fallback : Duration) : Duration :=
  let configured := if 0 <? configured then configured else fallback in
  match resolved with
  | Some d => if 0 <? d then d else configured
  | None => configured
  end.

Definition currentFailedRetryWindow (repo : IdempotencyRepository) : Duration :=
  positive_or (IR_failedRetryWindowResolver repo) (IR_failedRetryWindow repo) DefaultFailedRetryWindow.
Definition currentSuccessTTL (repo : IdempotencyRepository) : Duration :=
  positive_or (IR_successTTLResolver repo) (IR_successTTL repo) DefaultSuccessTTL.
Definition currentHMACSecret (repo : IdempotencyRepository) : string :=
  default (IR_hmacSecret repo) (IR_hmacSecretResolver repo).

Section repository.
  Context (repo : IdempotencyRepository) (tenant : string).

Definition storageKey (key : IdempotencyKey) : string :=
  let tenantID := strings_TrimSpace tenant in
  let signedKey := SignKey key (currentHMACSecret repo) in
  let tenantID := if string_empty tenantID then auth_DefaultTenantID else tenantID in
  idempotencyKeyPrefix +:+ tenantID +:+ ":" +:+ signedKey.

Definition TryAcquire (key : IdempotencyKey) (now : Z) (c : cache) : cache * bool :=
  cache_SetNX now (storageKey key) CachedPending (currentFailedRetryWindow repo) c.

Definition retryTTLSeconds : Z :=
  let seconds := Z.quot (currentFailedRetryWindow repo) nanos_per_second in
  if seconds <=? 0 then Z.quot DefaultFailedRetryWindow nanos_per_second else seconds.

(** The script; a counter decodes to a number, which is no table. *)
Definition TryReacquireFromFailed (key : IdempotencyKey) (now : Z) (c : cache) : cache * bool :=
  match cache_Get now (storageKey key) c with
  | Some (CachedEntry entry) =>
      if bool_decide (CE_Status entry = IdempotencyStatusFailed)
      then (<[storageKey key := (CachedPending, now + 1000 * retryTTLSeconds)]> c, true)
      else (c, false)
  | _ => (c, false)
  end.

Definition MarkComplete (key : IdempotencyKey) (response : bytes) (httpStatus : Z) (now : Z) (c : cache) : cache * unit :=
  (cache_Set now (storageKey key) (CachedEntry (mkIdempotencyCacheEntry IdempotencyStatusComplete response httpStatus))
     (currentSuccessTTL repo) c, tt).

Definition MarkFailed (key : IdempotencyKey) (now : Z) (c : cache) : cache * unit :=
  (cache_Set now (storageKey key) (CachedEntry (mkIdempotencyCacheEntry IdempotencyStatusFailed [] 0))
     (currentFailedRetryWindow repo) c, tt).

(** A counter is no cache entry: unmarshalling it fails. *)
Definition GetCachedResult (key : IdempotencyKey) (now : Z) (c : cache) : cache * res ExceptionCmdError IdempotencyResult :=
  (c, match cache_Get now (storageKey key) c with
      | None => Ok (mkIdempotencyResult IdempotencyStatusUnknown [] 0)
      | Some CachedPending => Ok (mkIdempotencyResult IdempotencyStatusPending [] 0)
      | Some (CachedEntry entry) =>
          if string_empty (CE_Status entry) then Err ErrCacheEntryNoStatus
          else Ok (mkIdempotencyResult (CE_Status entry) (CE_Response entry) (CE_HTTPStatus entry))
      | Some (CachedCount _) => Err ErrRedis
      end).
End repository.

(** ** [callback_rate_limiter.go] *)
Definition callbackRateLimitKeyPrefix : string := "matcher:callback:ratelimit".
Definition DefaultCallbackRateLimitPerMin : Z := 60.

Record CallbackRateLimiter : Type := mkCallbackRateLimiter {
  RL_limit : Z;
  RL_window : Duration;
  RL_limitResolver : option Z;
}.

Definition NewCallbackRateLimiter (limitPerWindow : Z) (window : Duration) : CallbackRateLimiter :=
  mkCallbackRateLimiter (if limitPerWindow <=? 0 then DefaultCallbackRateLimitPerMin else limitPerWindow)
    (if window <=? 0 then 60 * nanos_per_second else window) None.

Definition currentLimit (rl : CallbackRateLimiter) : Z :=
  let configured := if 0 <? RL_limit rl then RL_limit rl else DefaultCallbackRateLimitPerMin in
  match RL_limitResolver rl with
  | Some limit => if 0 <? limit then limit else configured
  | None => configured
  end.

(** The script: INCR, and PEXPIRE for the first request of a window, which
    deletes the entry when the window is shorter than a millisecond.  The
    counter is unbounded, where INCR fails past the largest 64-bit integer. *)
Definition Allow (rl : CallbackRateLimiter) (redisKey : string) (now : Z) (c : cache) : cache * res ExceptionCmdError bool :=
  match cache_Get now redisKey c with
  | None =>
      let window := duration_Milliseconds (RL_window rl) in
      (if window <=? 0 then delete redisKey c else <[redisKey := (CachedCount 1, now + window)]> c,
       Ok (1 <=? currentLimit rl))
  | Some (CachedCount n) =>
      let expires := match c !! redisKey with Some (_, e) => e | None => now end in
      (<[redisKey := (CachedCount (n + 1), expires)]> c, Ok (n + 1 <=? currentLimit rl))
  | Some _ => (c, Err ErrRedis)
  end.

(** ** The rate limit *)
Section rate_limit.
  Context (rl : CallbackRateLimiter) (key : string).

(** The calls let through among calls at the given instants. *)
Fixpoint allowed (times : list Z) (c : cache) : Z :=
  match times with
  | [] => 0
  | now :: times' =>
      let '(c', r) := Allow rl key now c in
      (match r with Ok true => 1 | _ => 0 end) + allowed times' c'
  end.

Definition window : Z := duration_Milliseconds (RL_window rl).

(** The entry of the limiter is free or counts at least one call. *)
Definition counter (c : cache) : Prop := forall v e, c !! key = Some (v, e) -> exists n, v = CachedCount n /\ 1 <= n.

Lemma currentLimit_pos : 1 <= currentLimit rl.
Proof. unfold currentLimit, DefaultCallbackRateLimitPerMin. repeat case_match; bool_inv; lia. Qed.

Lemma Allow_counting c n e now :
  c !! key = Some (CachedCount n, e) -> now < e ->
  Allow rl key now c = (<[key := (CachedCount (n + 1), e)]> c, Ok (n + 1 <=? currentLimit rl)).
Proof. intros H Hlt. unfold Allow, cache_Get. rewrite H. by rewrite (proj2 (Z.ltb_lt _ _) Hlt). Qed.

Lemma Allow_opening c now :
  0 < window -> cache_Get now key c = None ->
  Allow rl key now c = (<[key := (CachedCount 1, now + window)]> c, Ok true).
Proof.
  intros Hw H. unfold Allow. rewrite H. fold window. rewrite (proj2 (Z.leb_gt _ _) Hw). pose proof currentLimit_pos.
  by rewrite (proj2 (Z.leb_le _ _)).
Qed.

(** Before the entry expires only the rest of the limit is left. *)
Lemma allowed_before c n e times :
  c !! key = Some (CachedCount n, e) -> Forall (fun t => t < e) times -> allowed times c <= Z.max 0 (currentLimit rl - n).
Proof.
  revert c n. induction times as [|t times IH]; intros c n H Hts; cbn [allowed]; [lia|].
  apply Forall_cons in Hts as [Ht Hts]. rewrite (Allow_counting _ n e) by done.
  specialize (IH (<[key := (CachedCount (n + 1), e)]> c) (n + 1) ltac:(by rewrite lookup_insert_eq) Hts).
  destruct (Z.leb_spec (n + 1) (currentLimit rl)); lia.
Qed.

Lemma allowed_opening c now times :
  0 < window -> cache_Get now key c = None -> Forall (fun t => t < now + window) times ->
  allowed (now :: times) c <= currentLimit rl.
Proof.
  intros Hw H Hts. cbn [allowed]. rewrite Allow_opening by done.
  pose proof (allowed_before (<[key := (CachedCount 1, now + window)]> c) 1 _ times ltac:(by rewrite lookup_insert_eq) Hts).
  pose proof currentLimit_pos. lia.
Qed.

Lemma allowed_counting lo c n e times :
  0 < window -> c !! key = Some (CachedCount n, e) -> Forall (fun t => lo <= t < lo + window) times ->
  allowed times c <= currentLimit rl + Z.max 0 (currentLimit rl - n).
Proof.
  intros Hw. revert c n. induction times as [|t times IH]; intros c n H Hts; [cbn; pose proof currentLimit_pos; lia|].
  apply Forall_cons in Hts as [Ht Hts]. destruct (Z.ltb_spec t e) as [Hlt|Hge].
  - cbn [allowed]. rewrite (Allow_counting _ n e) by done.
    specialize (IH (<[key := (CachedCount (n + 1), e)]> c) (n + 1) ltac:(by rewrite lookup_insert_eq) Hts).
    destruct (Z.leb_spec (n + 1) (currentLimit rl)); lia.
  - assert (cache_Get t key c = None) as Hg by (unfold cache_Get; rewrite H; by rewrite (proj2 (Z.ltb_ge _ _))).
    pose proof (allowed_opening c t times Hw Hg ltac:(eapply Forall_impl; [exact Hts|cbn; lia])). lia.
Qed.

(** C35: In any stretch of time as long as the window, the rate limiter lets
    less than twice its limit through, the limit being the same throughout; the
    calls may come at any instants of the stretch.  The documented sliding window would let the limit through:
    the witness reaches the bound with a limit of three. *)
Theorem rate_limit_bound lo c times :
  0 < window -> counter c -> Forall (fun t => lo <= t < lo + window) times ->
  allowed times c <= 2 * currentLimit rl - 1.
Proof.
  intros Hw Hc Hts. pose proof currentLimit_pos. destruct (c !! key) as [[v e]|] eqn:E.
  - destruct (Hc _ _ E) as (n & -> & Hn). pose proof (allowed_counting lo c n e times Hw E Hts). lia.
  - destruct times as [|t times]; [cbn; lia|]. apply Forall_cons in Hts as [Ht Hts].
    assert (cache_Get t key c = None) as Hg by (unfold cache_Get; by rewrite E).
    pose proof (allowed_opening c t times Hw Hg ltac:(eapply Forall_impl; [exact Hts|cbn; lia])). lia.
Qed.
End rate_limit.

(** A limiter of three calls a minute, its entry opened at 0, and calls two
    milliseconds before and just after it expires. *)
Definition sample_limiter : CallbackRateLimiter := NewCallbackRateLimiter 3 0.
Definition opened_cache : cache := (Allow sample_limiter "k" 0 ∅).1.
Definition burst : list Z := [59998; 59998; 59998; 60000; 60000; 60000; 60000].

Lemma rate_limit_bound_witness :
  allowed sample_limiter "k" burst opened_cache = 5 /\ allowed sample_limiter "k" burst opened_cache <= 2 * 3 - 1.
Proof.
  split; [vm_compute; reflexivity|]. apply (rate_limit_bound sample_limiter "k" 59998 opened_cache burst).
  - vm_compute. reflexivity.
  - intros v e H. vm_compute in H. injection H as <- <-. exists 1. split; [reflexivity|lia].
  - apply (bool_decide_unpack _). vm_compute. exact I.
Defined.
