(* ===== verification/CallbackOnce.v ===== *)
(** * Concurrent attempts of one callback

    An external system repeats a callback until it is accepted, and several
    instances of the service may handle the repetitions at once.  The attempts
    of Callback.v interleave here call by call: [callback_step] runs a call of
    [ProcessCallback] on the shared Redis server and database, lets time pass,
    loses replies and stops attempts.  The replies it loses are those of Redis;
    a commit whose reply is lost is excluded as in Store.v, and a [MarkFailed]
    that the client sends twice is not a step.

    A marker carries no owner, so an attempt that outlives its pending marker
    overwrites whatever another one has put there.  [callback_once] is the
    guarantee that remains: unless an attempt acts after its marker has
    expired, or stops between its commit and the record of its completion, two
    commits of one callback are at least the lifetime of a completion apart.
    [callback_repeats] is a run with a late attempt and two commits. *)
From S2P Require Import GoLib GoLibModel FeeStructure MatchTypes MatchEntities Transaction RunPrepare RunExecute.
From S2P Require Import Severity Exceptions Sha256 GoTime AuditChain AuditEvent Store RunMatch RunOutcome Calls ManualMatch.
From S2P Require Import Adjust ExceptionRepo Resolution DisputeCommands Idempotency Callback.
Local Open Scope Z_scope.

Section protocol.
  Context {U : UUIDLib} {D : DecimalLib} {A : AssertLib} {N : UnicodeLib} {V : Env U} {O : OutboxLib U}.
  Context (uc : ExceptionUseCase) (repo : IdempotencyRepository).

(** Where an attempt that holds the marker is: before reading the exception,
    with the changed exception in memory, or after its commit. *)
Inductive phase : Type :=
| PhaseAcquired
| PhaseLoaded (exception : Exception)
| PhaseCommitted (at_ : Z).

(** [AT_valid] is when the marker the attempt has set expires. *)
Record attempt : Type := mkAttempt {
  AT_cmd : ProcessCallbackCommand;
  AT_clientKey : IdempotencyKey;
  AT_params : callbackParams;
  AT_valid : Z;
  AT_phase : phase;
}.

Definition set_phase (p : phase) (a : attempt) : attempt :=
  mkAttempt (AT_cmd a) (AT_clientKey a) (AT_params a) (AT_valid a) p.

Definition attempt_dedupe (a : attempt) : IdempotencyKey := dedupe (AT_cmd a) (AT_clientKey a) (AT_params a).
Definition attempt_key (a : attempt) : string := storageKey repo (XU_tenant uc) (attempt_dedupe a).

Definition committed (a : attempt) : Prop := match AT_phase a with PhaseCommitted _ => True | _ => False end.

(** [PR_commits] lists the commits, the last one first, with their markers;
    [PR_lapsed] the markers for which an attempt acted too late. *)
Record protocol : Type := mkProtocol {
  PR_cache : cache;
  PR_now : Z;
  PR_world : World;
  PR_attempts : gmap nat attempt;
  PR_commits : list (string * Z);
  PR_lapsed : gset string;
}.

(** An action at [now] is in time, or its marker counts as lapsed. *)
Definition in_time (now : Z) (a : attempt) (lapsed : gset string) : Prop := now < AT_valid a \/ attempt_key a ∈ lapsed.

Inductive callback_step : protocol -> protocol -> Prop :=
| cs_time c now w ats cms lp now' lp' :
    now <= now' -> lp ⊆ lp' ->
    (forall i a, ats !! i = Some a -> committed a -> in_time now' a lp') ->
    callback_step (mkProtocol c now w ats cms lp) (mkProtocol c now' w ats cms lp')
| cs_acquire c now w ats cms lp i cmd key params c' :
    ats !! i = None -> validateCallback cmd = Ok (key, params) ->
    TryAcquire repo (XU_tenant uc) (dedupe cmd key params) now c = (c', true) ->
    callback_step (mkProtocol c now w ats cms lp)
      (mkProtocol c' now w (<[i := mkAttempt cmd key params (now + ttl_ms (currentFailedRetryWindow repo)) PhaseAcquired]> ats) cms lp)
| cs_reacquire c now w ats cms lp i cmd key params c' :
    ats !! i = None -> validateCallback cmd = Ok (key, params) ->
    TryReacquireFromFailed repo (XU_tenant uc) (dedupe cmd key params) now c = (c', true) ->
    callback_step (mkProtocol c now w ats cms lp)
      (mkProtocol c' now w (<[i := mkAttempt cmd key params (now + 1000 * retryTTLSeconds repo) PhaseAcquired]> ats) cms lp)
| cs_acquire_lost c now w ats cms lp dk :
    callback_step (mkProtocol c now w ats cms lp) (mkProtocol (TryAcquire repo (XU_tenant uc) dk now c).1 now w ats cms lp)
| cs_reacquire_lost c now w ats cms lp dk :
    callback_step (mkProtocol c now w ats cms lp)
      (mkProtocol (TryReacquireFromFailed repo (XU_tenant uc) dk now c).1 now w ats cms lp)
| cs_others c now w ats cms lp w' :
    callback_step (mkProtocol c now w ats cms lp) (mkProtocol c now w' ats cms lp)
| cs_load c now w ats cms lp i a x w' :
    ats !! i = Some a -> AT_phase a = PhaseAcquired -> loadCallback (AT_cmd a) (AT_params a) w = (w', Ok x) ->
    callback_step (mkProtocol c now w ats cms lp) (mkProtocol c now w' (<[i := set_phase (PhaseLoaded x) a]> ats) cms lp)
| cs_commit c now w ats cms lp i a x y w' lp' :
    ats !! i = Some a -> AT_phase a = PhaseLoaded x -> lp ⊆ lp' -> in_time now a lp' ->
    commitCallback uc (AT_cmd a) (AT_clientKey a) (AT_params a) x w = (w', Ok y) ->
    callback_step (mkProtocol c now w ats cms lp)
      (mkProtocol c now w' (<[i := set_phase (PhaseCommitted now) a]> ats) ((attempt_key a, now) :: cms) lp')
| cs_fail c now w ats cms lp i a lp' :
    ats !! i = Some a -> ~ committed a -> lp ⊆ lp' -> in_time now a lp' ->
    callback_step (mkProtocol c now w ats cms lp)
      (mkProtocol (MarkFailed repo (XU_tenant uc) (attempt_dedupe a) now c).1 now w (delete i ats) cms lp')
| cs_complete c now w ats cms lp i a lp' :
    ats !! i = Some a -> committed a -> lp ⊆ lp' -> in_time now a lp' ->
    callback_step (mkProtocol c now w ats cms lp)
      (mkProtocol (MarkComplete repo (XU_tenant uc) (attempt_dedupe a) [] 0 now c).1 now w (delete i ats) cms lp')
| cs_stop c now w ats cms lp i a lp' :
    ats !! i = Some a -> lp ⊆ lp' -> (committed a -> attempt_key a ∈ lp') ->
    callback_step (mkProtocol c now w ats cms lp) (mkProtocol c now w (delete i ats) cms lp').

Definition protocol_init (c : cache) (now : Z) (w : World) : protocol := mkProtocol c now w ∅ [] ∅.
End protocol.

Section once.
  Context {U : UUIDLib} {D : DecimalLib} {A : AssertLib} {N : UnicodeLib} {V : Env U} {O : OutboxLib U}.
  Context (uc : ExceptionUseCase) (repo : IdempotencyRepository).
  Local Abbreviation key_of := (attempt_key uc repo).

(** The lifetime of a completion, in milliseconds. *)
Definition completion_ms : Z := ttl_ms (currentSuccessTTL repo).

Definition commits_of (k : string) (cms : list (string * Z)) : list Z := snd <$> filter (fun c => c.1 = k) cms.

Lemma commits_of_elem k cms t : t ∈ commits_of k cms <-> (k, t) ∈ cms.
Proof.
  unfold commits_of. rewrite list_elem_of_fmap. split.
  - intros ([k' t'] & -> & [E Hin]%list_elem_of_filter). cbn in *. by subst.
  - intros H. exists (k, t). split; [done|]. by apply list_elem_of_filter.
Qed.

Lemma commits_of_cons k t cms : commits_of k ((k, t) :: cms) = t :: commits_of k cms.
Proof. unfold commits_of. by rewrite filter_cons_True. Qed.

Lemma commits_of_other k k' t cms : k' <> k -> commits_of k ((k', t) :: cms) = commits_of k cms.
Proof. intros. unfold commits_of. by rewrite filter_cons_False. Qed.

(** What holds for a marker no attempt was late for: a valid attempt owns the
    pending marker, alone; a committed one is valid; and every commit is kept
    by its attempt, by a completion that outlives it, or is old. *)
Record key_ok (k : string) (s : protocol) : Prop := {
  ko_pending : forall i a, PR_attempts s !! i = Some a -> key_of a = k -> PR_now s < AT_valid a ->
    exists e, PR_cache s !! k = Some (CachedPending, e) /\ AT_valid a <= e;
  ko_one : forall i j a b, PR_attempts s !! i = Some a -> PR_attempts s !! j = Some b -> key_of a = k -> key_of b = k ->
    PR_now s < AT_valid a -> PR_now s < AT_valid b -> i = j;
  ko_timely : forall i a, PR_attempts s !! i = Some a -> key_of a = k -> committed a -> PR_now s < AT_valid a;
  ko_commits : forall t, (k, t) ∈ PR_commits s -> t <= PR_now s /\
    ((exists i a, PR_attempts s !! i = Some a /\ key_of a = k /\ AT_phase a = PhaseCommitted t) \/
     (exists entry e, PR_cache s !! k = Some (CachedEntry entry, e) /\ CE_Status entry = IdempotencyStatusComplete /\
        t + completion_ms <= e) \/
     t + completion_ms <= PR_now s);
  ko_gap : StronglySorted (fun t t' => t' + completion_ms <= t) (commits_of k (PR_commits s));
}.

Definition protocol_ok (s : protocol) : Prop := forall k, k ∉ PR_lapsed s -> key_ok k s.

Definition old_commits (k : string) (s : protocol) : Prop := forall t, (k, t) ∈ PR_commits s -> t + completion_ms <= PR_now s.

Lemma committed_phase (a : attempt) t : AT_phase a = PhaseCommitted t -> committed a.
Proof. intros E. unfold committed. by rewrite E. Qed.

Lemma uncommitted (a : attempt) : (forall t, AT_phase a <> PhaseCommitted t) -> ~ committed a.
Proof. unfold committed. destruct (AT_phase a); [intros _ []|intros _ []|]. intros H _. by eapply H. Qed.

(** A free or failed marker: no attempt is valid, every commit is old. *)
Lemma free_settled k s :
  key_ok k s -> (forall v, cache_Get (PR_now s) k (PR_cache s) = Some v ->
    exists entry, v = CachedEntry entry /\ CE_Status entry <> IdempotencyStatusComplete) ->
  old_commits k s /\ (forall i a, PR_attempts s !! i = Some a -> key_of a = k -> AT_valid a <= PR_now s).
Proof.
  intros [H1 H2 H3 H4 _] Hg.
  assert (forall i a, PR_attempts s !! i = Some a -> key_of a = k -> AT_valid a <= PR_now s) as Hinv.
  { intros i a Hi Hk. destruct (Z.leb_spec (AT_valid a) (PR_now s)) as [|Hlt]; [done|].
    destruct (H1 i a Hi Hk Hlt) as (e & He & Hle). unfold cache_Get in Hg. rewrite He in Hg.
    rewrite (proj2 (Z.ltb_lt _ _)) in Hg by lia. destruct (Hg _ eq_refl) as (? & ? & _). done. }
  split; [|done]. intros t Ht. destruct (H4 t Ht) as (_ & [(i & a & Hi & Hk & Hp)|[(entry & e & He & Hs & Hle)|]]); [..|done].
  - apply committed_phase in Hp. pose proof (H3 i a Hi Hk Hp). specialize (Hinv i a Hi Hk). lia.
  - unfold cache_Get in Hg. rewrite He in Hg. destruct (Z.ltb_spec (PR_now s) e); [|lia].
    destruct (Hg _ eq_refl) as (? & [= <-] & ?). done.
Qed.

(** Under a valid attempt that has not committed every commit is old. *)
Lemma holder_settled k s i a :
  key_ok k s -> PR_attempts s !! i = Some a -> key_of a = k -> PR_now s < AT_valid a -> ~ committed a -> old_commits k s.
Proof.
  intros [H1 H2 H3 H4 _] Hi Hk Hv Hn t Ht.
  destruct (H4 t Ht) as (_ & [(j & b & Hj & Hkb & Hp)|[(entry & e & He & _)|]]); [..|done].
  - apply committed_phase in Hp as Hc. assert (j = i) as ->; [|congruence].
    eapply (H2 j i b a); try done. by eapply H3.
  - destruct (H1 i a Hi Hk Hv) as (e' & He' & _). congruence.
Qed.

(** ** Steps on other markers *)
Definition same_attempts (k : string) (ats ats' : gmap nat (attempt)) : Prop :=
  forall i a, key_of a = k -> (ats' !! i = Some a <-> ats !! i = Some a).

Lemma key_frame k s s' :
  key_ok k s -> PR_cache s' !! k = PR_cache s !! k -> PR_now s' = PR_now s ->
  same_attempts k (PR_attempts s) (PR_attempts s') -> commits_of k (PR_commits s') = commits_of k (PR_commits s) -> key_ok k s'.
Proof.
  intros [H1 H2 H3 H4 H5] Ec En Ha Ek. split; rewrite ?Ec, ?En, ?Ek; try done.
  - intros i a Hi Hk. apply Ha in Hi; [|done]. by apply (H1 i).
  - intros i j a b Hi Hj Hk Hkb. apply Ha in Hi; [|done]. apply Ha in Hj; [|done]. by apply H2.
  - intros i a Hi Hk. apply Ha in Hi; [|done]. by apply (H3 i).
  - intros t Ht. apply commits_of_elem in Ht. rewrite Ek in Ht. apply commits_of_elem, H4 in Ht as (Hle & Ht). split; [done|].
    destruct Ht as [(i & a & Hi & Hk & Hp)|Ht]; [left|by right]. exists i, a. split; [by apply Ha|done].
Qed.

Lemma same_insert k (ats : gmap nat (attempt)) i a :
  (forall b, ats !! i = Some b -> key_of b <> k) -> key_of a <> k -> same_attempts k ats (<[i := a]> ats).
Proof.
  intros Hi Ha j b Hk. rewrite lookup_insert_Some. split; [intros [[-> ->]|[_ ?]]; [done|done]|].
  intros Hj. right. split; [|done]. intros ->. by apply (Hi b).
Qed.

Lemma same_delete k (ats : gmap nat (attempt)) i :
  (forall b, ats !! i = Some b -> key_of b <> k) -> same_attempts k ats (delete i ats).
Proof.
  intros Hi j b Hk. rewrite lookup_delete_Some. split; [by intros [_ ?]|]. intros Hj. split; [|done]. intros ->. by apply (Hi b).
Qed.

(** ** Steps on the marker itself *)
Lemma taken_ok k c now w ats cms lp e :
  key_ok k (mkProtocol c now w ats cms lp) ->
  (forall v, cache_Get now k c = Some v -> exists entry, v = CachedEntry entry /\ CE_Status entry <> IdempotencyStatusComplete) ->
  key_ok k (mkProtocol (<[k := (CachedPending, e)]> c) now w ats cms lp).
Proof.
  intros Hok Hg. destruct (free_settled _ _ Hok Hg) as [Hold Hinv]. destruct Hok as [H1 H2 H3 H4 H5]. cbn in *.
  split; cbn; try done.
  - intros i a Hi Hk Hv. specialize (Hinv i a Hi Hk). lia.
  - intros t Ht. destruct (H4 t Ht) as [Hle _]. auto.
Qed.

Lemma owned_ok k c now w ats cms lp i a :
  key_ok k (mkProtocol c now w ats cms lp) -> (forall j b, ats !! j = Some b -> key_of b = k -> AT_valid b <= now) ->
  ats !! i = None -> ~ committed a -> c !! k = Some (CachedPending, AT_valid a) ->
  key_ok k (mkProtocol c now w (<[i := a]> ats) cms lp).
Proof.
  intros [H1 H2 H3 H4 H5] Hinv Hi Hn Hc. cbn in *.
  split; cbn; [intros j b|intros j1 j2 b1 b2|intros j b|intros t Ht|done]; rewrite ?lookup_insert_Some.
  - intros [[<- <-]|[_ Hj]] Hk Hv; [by exists (AT_valid a)|by apply (H1 j)].
  - intros [[<- <-]|[? Hj1]] [[<- <-]|[? Hj2]] Hk1 Hk2 Hv1 Hv2; [done|..|by apply (H2 j1 j2 b1 b2)].
    + specialize (Hinv _ _ Hj2 Hk2). lia.
    + specialize (Hinv _ _ Hj1 Hk1). lia.
  - intros [[<- <-]|[_ Hj]] Hk Hcm; [done|by apply (H3 j)].
  - destruct (H4 t Ht) as (Hle & Hal). split; [done|]. destruct Hal as [(j & b & Hj & Hk & Hp)|]; [|by right].
    left. exists j, b. split; [|done]. rewrite lookup_insert_ne; [done|congruence].
Qed.

Lemma loaded_ok k c now w ats cms lp i a x :
  key_ok k (mkProtocol c now w ats cms lp) -> ats !! i = Some a -> ~ committed a ->
  key_ok k (mkProtocol c now w (<[i := set_phase (PhaseLoaded x) a]> ats) cms lp).
Proof.
  intros [H1 H2 H3 H4 H5] Hi Hn. cbn in *.
  split; cbn; [intros j b|intros j1 j2 b1 b2|intros j b|intros t Ht|done]; rewrite ?lookup_insert_Some.
  - intros [[<- <-]|[_ Hj]]; [by apply (H1 i a)|by apply (H1 j)].
  - intros [[<- <-]|[? Hj1]] [[<- <-]|[? Hj2]]; [done|by apply (H2 i j2 a b2)|by apply (H2 j1 i b1 a)|by apply (H2 j1 j2 b1 b2)].
  - intros [[<- <-]|[_ Hj]] Hk Hcm; [done|by apply (H3 j)].
  - destruct (H4 t Ht) as (Hle & Hal). split; [done|]. destruct Hal as [(j & b & Hj & Hk & Hp)|]; [|by right].
    left. exists j, b. split; [|done]. rewrite lookup_insert_ne; [done|]. intros <-. apply Hn. apply committed_phase in Hp. congruence.
Qed.

Lemma committed_ok k c now w ats cms lp i a :
  key_ok k (mkProtocol c now w ats cms lp) -> ats !! i = Some a -> key_of a = k -> ~ committed a -> now < AT_valid a ->
  key_ok k (mkProtocol c now w (<[i := set_phase (PhaseCommitted now) a]> ats) ((k, now) :: cms) lp).
Proof.
  intros Hok Hi Hka Hn Hv. pose proof (holder_settled _ _ i a Hok Hi Hka Hv Hn) as Hold. destruct Hok as [H1 H2 H3 H4 H5]. cbn in *.
  split; cbn; [intros j b|intros j1 j2 b1 b2|intros j b|intros t Ht|]; rewrite ?lookup_insert_Some.
  - intros [[<- <-]|[_ Hj]]; [by apply (H1 i a)|by apply (H1 j)].
  - intros [[<- <-]|[? Hj1]] [[<- <-]|[? Hj2]]; [done|by apply (H2 i j2 a b2)|by apply (H2 j1 i b1 a)|by apply (H2 j1 j2 b1 b2)].
  - intros [[<- <-]|[_ Hj]] Hk Hcm; [done|by apply (H3 j)].
  - apply elem_of_cons in Ht as [[= ->]|Ht]; [split; [lia|left]|by destruct (H4 t Ht) as [? _]; auto].
    exists i. eexists. split; [apply lookup_insert_eq|done].
  - change (StronglySorted (fun t t' => t' + completion_ms <= t) (commits_of k ((k, now) :: cms))).
    rewrite commits_of_cons. constructor; [done|]. apply Forall_forall.
    intros t Ht. apply Hold. by apply commits_of_elem.
Qed.

(** The last act of a valid attempt. *)
Lemma others_gone k c now w ats cms lp i a j b :
  key_ok k (mkProtocol c now w ats cms lp) -> ats !! i = Some a -> key_of a = k -> now < AT_valid a ->
  delete i ats !! j = Some b -> key_of b = k -> now < AT_valid b -> False.
Proof.
  intros [_ H2 _ _ _] Hi Hk Hv [Hne Hj]%lookup_delete_Some Hkb Hvb. apply Hne. by eapply (H2 i j a b).
Qed.

Lemma failed_ok k c now w ats cms lp i a v e :
  key_ok k (mkProtocol c now w ats cms lp) -> ats !! i = Some a -> key_of a = k -> now < AT_valid a -> ~ committed a ->
  key_ok k (mkProtocol (<[k := (v, e)]> c) now w (delete i ats) cms lp).
Proof.
  intros Hok Hi Hka Hv Hn. pose proof (holder_settled _ _ i a Hok Hi Hka Hv Hn) as Hold.
  pose proof (fun j b => others_gone _ _ _ _ _ _ _ i a j b Hok Hi Hka Hv) as Hgone. destruct Hok as [H1 H2 H3 H4 H5]. cbn in *.
  split; cbn; [..|done].
  - intros j b Hj Hk Hvb. by destruct (Hgone j b).
  - intros j1 j2 b1 b2 Hj1 Hj2 Hk1 Hk2 Hv1 Hv2. by destruct (Hgone j1 b1).
  - intros j b Hj Hk Hcm. apply lookup_delete_Some in Hj as [_ Hj]. by apply (H3 j).
  - intros t Ht. destruct (H4 t Ht) as [? _]. auto.
Qed.

Lemma completed_ok k c now w ats cms lp i a entry :
  key_ok k (mkProtocol c now w ats cms lp) -> ats !! i = Some a -> key_of a = k -> now < AT_valid a ->
  CE_Status entry = IdempotencyStatusComplete ->
  key_ok k (mkProtocol (<[k := (CachedEntry entry, now + completion_ms)]> c) now w (delete i ats) cms lp).
Proof.
  intros Hok Hi Hka Hv Hs. pose proof (fun j b => others_gone _ _ _ _ _ _ _ i a j b Hok Hi Hka Hv) as Hgone.
  destruct Hok as [H1 H2 H3 H4 H5]. cbn in *. split; cbn; [..|done].
  - intros j b Hj Hk Hvb. by destruct (Hgone j b).
  - intros j1 j2 b1 b2 Hj1 Hj2 Hk1 Hk2 Hv1 Hv2. by destruct (Hgone j1 b1).
  - intros j b Hj Hk Hcm. apply lookup_delete_Some in Hj as [_ Hj]. by apply (H3 j).
  - intros t Ht. destruct (H4 t Ht) as [Hle _]. split; [done|]. right. left. exists entry, (now + completion_ms).
    rewrite lookup_insert_eq. split_and!; [done..|lia].
Qed.

Lemma stopped_ok k c now w ats cms lp i a :
  key_ok k (mkProtocol c now w ats cms lp) -> ats !! i = Some a -> ~ committed a ->
  key_ok k (mkProtocol c now w (delete i ats) cms lp).
Proof.
  intros [H1 H2 H3 H4 H5] Hi Hn. cbn in *.
  split; cbn; [intros j b|intros j1 j2 b1 b2|intros j b|intros t Ht|done]; rewrite ?lookup_delete_Some.
  - intros [_ Hj]. by apply (H1 j).
  - intros [_ Hj1] [_ Hj2]. by apply (H2 j1 j2 b1 b2).
  - intros [_ Hj]. by apply (H3 j).
  - destruct (H4 t Ht) as (Hle & Hal). split; [done|]. destruct Hal as [(j & b & Hj & Hk & Hp)|]; [|by right].
    left. exists j, b. split; [|done]. apply lookup_delete_Some. split; [|done]. intros ->. apply Hn. apply committed_phase in Hp. congruence.
Qed.

Lemma later_ok k c now w ats cms lp now' :
  key_ok k (mkProtocol c now w ats cms lp) -> now <= now' ->
  (forall i a, ats !! i = Some a -> key_of a = k -> committed a -> now' < AT_valid a) ->
  key_ok k (mkProtocol c now' w ats cms lp).
Proof.
  intros [H1 H2 H3 H4 H5] Hle Ht. cbn in *. split; cbn; try done.
  - intros i a Hi Hk Hv. apply (H1 i); [done..|lia].
  - intros i j a b Hi Hj Hk Hkb Hv Hvb. apply (H2 i j a b); try done; lia.
  - intros t Hin. destruct (H4 t Hin) as (Hp & Hal). split; [lia|]. destruct Hal as [|[|]]; [by left|by right; left|right; right; lia].
Qed.
(** ** The calls *)
Definition free_marker (now : Z) (k : string) (c : cache) : Prop :=
  forall v, cache_Get now k c = Some v -> exists entry, v = CachedEntry entry /\ CE_Status entry <> IdempotencyStatusComplete.

Lemma TryAcquire_cases dk now c :
  let k := storageKey repo (XU_tenant uc) dk in
  (free_marker now k c /\
   TryAcquire repo (XU_tenant uc) dk now c = (<[k := (CachedPending, now + ttl_ms (currentFailedRetryWindow repo))]> c, true)) \/
  TryAcquire repo (XU_tenant uc) dk now c = (c, false).
Proof.
  unfold TryAcquire, cache_SetNX, cache_Set, free_marker. cbn zeta. destruct (cache_Get _ _ _); [by right|left]. by split.
Qed.

Lemma TryReacquireFromFailed_cases dk now c :
  let k := storageKey repo (XU_tenant uc) dk in
  (free_marker now k c /\
   TryReacquireFromFailed repo (XU_tenant uc) dk now c = (<[k := (CachedPending, now + 1000 * retryTTLSeconds repo)]> c, true)) \/
  TryReacquireFromFailed repo (XU_tenant uc) dk now c = (c, false).
Proof.
  unfold TryReacquireFromFailed, free_marker. cbn zeta. destruct (cache_Get _ _ _) as [[|entry|n]|] eqn:E; try by right.
  case_bool_decide as Hs; [left|by right]. split; [|done]. intros v [= <-]. exists entry. by rewrite Hs.
Qed.

Lemma taking_ok k k' c now w ats cms lp e :
  key_ok k (mkProtocol c now w ats cms lp) -> free_marker now k' c ->
  key_ok k (mkProtocol (<[k' := (CachedPending, e)]> c) now w ats cms lp).
Proof.
  intros Hok Hf. destruct (decide (k' = k)) as [->|Hne]; [by apply taken_ok|].
  eapply key_frame; [exact Hok|by apply lookup_insert_ne|done..].
Qed.

Lemma owning_ok k c now w ats cms lp i a :
  key_ok k (mkProtocol c now w ats cms lp) -> free_marker now (key_of a) c -> ats !! i = None -> AT_phase a = PhaseAcquired ->
  key_ok k (mkProtocol (<[key_of a := (CachedPending, AT_valid a)]> c) now w (<[i := a]> ats) cms lp).
Proof.
  intros Hok Hf Hi Hp. destruct (decide (key_of a = k)) as [E|Hne].
  - rewrite E in *. apply owned_ok; [by apply taken_ok| |done| |apply lookup_insert_eq].
    + by destruct (free_settled _ _ Hok Hf) as [_ ?].
    + by apply uncommitted; rewrite Hp.
  - eapply key_frame; [exact Hok|by apply lookup_insert_ne|done| |done]. apply same_insert; [|done]. intros b. cbn. by rewrite Hi.
Qed.

Lemma key_lapsed k c now w ats cms lp w' lp' :
  key_ok k (mkProtocol c now w ats cms lp) -> key_ok k (mkProtocol c now w' ats cms lp').
Proof. intros Hok. by eapply key_frame. Qed.

Lemma in_time_valid now a lp k : in_time uc repo now a lp -> key_of a = k -> k ∉ lp -> now < AT_valid a.
Proof. intros [?|?] <- ?; done. Qed.

(** A step of an attempt on the marker of another callback. *)
Lemma ending_frame k c now w ats cms lp i a v :
  key_ok k (mkProtocol c now w ats cms lp) -> ats !! i = Some a -> key_of a <> k ->
  key_ok k (mkProtocol (<[key_of a := v]> c) now w (delete i ats) cms lp).
Proof.
  intros Hok Hi Hne. eapply key_frame; [exact Hok|by apply lookup_insert_ne|done| |done]. apply same_delete. cbn. intros b Hb. congruence.
Qed.

Lemma callback_step_ok s s' : callback_step uc repo s s' -> protocol_ok s -> protocol_ok s'.
Proof.
  intros Hs Hok k Hk.
  destruct Hs as [c now w ats cms lp now' lp' Hle Hlp Ht|c now w ats cms lp i cmd key params c' Hi Hv Hc|
    c now w ats cms lp i cmd key params c' Hi Hv Hc|c now w ats cms lp dk|c now w ats cms lp dk|c now w ats cms lp w'|
    c now w ats cms lp i a x w' Hi Hp Hl|c now w ats cms lp i a x y w' lp' Hi Hp Hlp Ht Hc|
    c now w ats cms lp i a lp' Hi Hn Hlp Ht|c now w ats cms lp i a lp' Hi Hn Hlp Ht|c now w ats cms lp i a lp' Hi Hlp Hn];
    cbn in Hk; assert (k ∉ lp) as Hk0 by set_solver; specialize (Hok k Hk0).
  - eapply key_lapsed, later_ok; [exact Hok|done|]. intros i a Hi Hka Hcm. by eapply in_time_valid; [eapply Ht|..].
  - destruct (TryAcquire_cases (dedupe cmd key params) now c) as [[Hf E]|E]; rewrite Hc in E; [injection E as ->|done].
    by apply (owning_ok k c now w ats cms lp i (mkAttempt cmd key params _ PhaseAcquired)).
  - destruct (TryReacquireFromFailed_cases (dedupe cmd key params) now c) as [[Hf E]|E]; rewrite Hc in E; [injection E as ->|done].
    by apply (owning_ok k c now w ats cms lp i (mkAttempt cmd key params _ PhaseAcquired)).
  - destruct (TryAcquire_cases dk now c) as [[Hf ->]| ->]; [by apply taking_ok|done].
  - destruct (TryReacquireFromFailed_cases dk now c) as [[Hf ->]| ->]; [by apply taking_ok|done].
  - by eapply key_lapsed.
  - eapply key_lapsed, loaded_ok; [exact Hok|done|]. by apply uncommitted; rewrite Hp.
  - assert (~ committed a) as Hn by (apply uncommitted; by rewrite Hp). destruct (decide (key_of a = k)) as [E|Hne].
    + rewrite E. eapply key_lapsed, committed_ok; [exact Hok|done..|]. by eapply in_time_valid.
    + eapply key_frame; [exact Hok|done|done| |by apply commits_of_other]. apply same_insert; [|done]. cbn. intros b Hb. congruence.
  - destruct (decide (key_of a = k)) as [E|Hne]; [|eapply key_lapsed; by eapply (ending_frame k c now w ats cms lp i a)].
    subst k. eapply key_lapsed; eapply (failed_ok _ c now w ats cms lp i a); try done. by eapply in_time_valid.
  - destruct (decide (key_of a = k)) as [E|Hne]; [|eapply key_lapsed; by eapply (ending_frame k c now w ats cms lp i a)].
    subst k. eapply key_lapsed; eapply (completed_ok _ c now w ats cms lp i a); try done. by eapply in_time_valid.
  - destruct (decide (key_of a = k)) as [E|Hne].
    + eapply key_lapsed, stopped_ok; [exact Hok|done|]. intros Hcm. apply Hk. rewrite <-E. by apply Hn.
    + eapply key_frame; [exact Hok|done|done| |done]. apply same_delete. cbn. intros b Hb. congruence.
Qed.

Lemma callback_steps_ok s s' : rtc (callback_step uc repo) s s' -> protocol_ok s -> protocol_ok s'.
Proof. induction 1; eauto using callback_step_ok. Qed.

Lemma protocol_init_ok c now w : protocol_ok (protocol_init c now w).
Proof. intros k _. split; cbn; try done; [by intros ? ? ?%lookup_empty_Some..|by intros t ?%not_elem_of_nil|constructor]. Qed.

(** C12: Whatever the interleaving of attempts, lost replies, stops and other
    writers of the database, and whatever Redis holds at first: for a callback
    none of whose attempts acted after its marker expired or stopped between
    its commit and the record of its completion, the commits are at least the
    lifetime of a completion (seven days by default) apart, and at any time at
    most one attempt holds the marker. *)
Theorem callback_once c now w s k :
  rtc (callback_step uc repo) (protocol_init c now w) s -> k ∉ PR_lapsed s ->
  StronglySorted (fun t t' => t' + completion_ms <= t) (commits_of k (PR_commits s)) /\
  (forall i j a b, PR_attempts s !! i = Some a -> PR_attempts s !! j = Some b -> key_of a = k -> key_of b = k ->
     PR_now s < AT_valid a -> PR_now s < AT_valid b -> i = j).
Proof.
  intros Hs Hk. destruct (callback_steps_ok _ _ Hs (protocol_init_ok c now w) k Hk) as [_ H2 _ _ H5]. done.
Qed.
End once.

Section runs.
  Context {U : UUIDLib} {D : DecimalLib} {A : AssertLib} {N : UnicodeLib} {V : Env U} {O : OutboxLib U}.
  Context (uc : ExceptionUseCase) (repo : IdempotencyRepository).
  Local Abbreviation key_of := (attempt_key uc repo).

Lemma retryTTLSeconds_pos : 0 < retryTTLSeconds repo.
Proof. unfold retryTTLSeconds. destruct (Z.leb_spec (Z.quot (currentFailedRetryWindow repo) nanos_per_second) 0); [done|lia]. Qed.

(** An attempt that holds the marker reads, commits and completes. *)
Lemma attempt_finishes c now w ats cms lp i a x y w1 w2 :
  ats !! i = Some a -> AT_phase a = PhaseAcquired -> now < AT_valid a ->
  loadCallback (AT_cmd a) (AT_params a) w = (w1, Ok x) ->
  commitCallback uc (AT_cmd a) (AT_clientKey a) (AT_params a) x w1 = (w2, Ok y) ->
  rtc (callback_step uc repo) (mkProtocol c now w ats cms lp)
    (mkProtocol (MarkComplete repo (XU_tenant uc) (attempt_dedupe a) [] 0 now c).1 now w2 (delete i ats)
       ((key_of a, now) :: cms) lp).
Proof.
  intros Hi Hp Hv Hl Hc. eapply rtc_l; [by eapply (cs_load _ _ c now w ats cms lp i a x)|].
  eapply rtc_l; [eapply (cs_commit _ _ c now w1 _ cms lp i (set_phase (PhaseLoaded x) a) x y w2 lp);
    [apply lookup_insert_eq|done|done|by left|done]|].
  rewrite insert_insert_eq. eapply rtc_l; [eapply (cs_complete _ _ c now w2 _ _ lp i (set_phase (PhaseCommitted now) a) lp);
    [apply lookup_insert_eq|done|done|by left]|].
  rewrite delete_insert_eq. done.
Qed.

Lemma attempt_runs c now w ats cms lp i cmd key params c' x y w1 w2 :
  ats !! i = None -> validateCallback cmd = Ok (key, params) ->
  TryAcquire repo (XU_tenant uc) (dedupe cmd key params) now c = (c', true) ->
  loadCallback cmd params w = (w1, Ok x) -> commitCallback uc cmd key params x w1 = (w2, Ok y) ->
  rtc (callback_step uc repo) (mkProtocol c now w ats cms lp)
    (mkProtocol (MarkComplete repo (XU_tenant uc) (dedupe cmd key params) [] 0 now c').1 now w2 ats
       ((storageKey repo (XU_tenant uc) (dedupe cmd key params), now) :: cms) lp).
Proof.
  intros Hi Hv Ha Hl Hc. eapply rtc_l; [by eapply (cs_acquire _ _ c now w ats cms lp i cmd key params c')|].
  set (a := mkAttempt cmd key params _ _). rewrite <-(delete_insert_id ats i a) at 2 by done.
  apply (attempt_finishes c' now w _ cms lp i a x y w1 w2); try done; [apply lookup_insert_eq|].
  cbn. unfold ttl_ms. lia.
Qed.

(** C34: An attempt that outlives its pending marker and then fails makes the
    callback repeatable at once, whatever the marker says by then, even that
    the callback is complete: the next attempt commits again. *)
Theorem callback_repeats c now w ats cms lp i j a x y w1 w2 :
  ats !! i = Some a -> ~ committed a -> AT_valid a <= now -> ats !! j = None ->
  validateCallback (AT_cmd a) = Ok (AT_clientKey a, AT_params a) ->
  loadCallback (AT_cmd a) (AT_params a) w = (w1, Ok x) ->
  commitCallback uc (AT_cmd a) (AT_clientKey a) (AT_params a) x w1 = (w2, Ok y) ->
  exists s, rtc (callback_step uc repo) (mkProtocol c now w ats cms lp) s /\
    PR_commits s = (key_of a, now) :: cms /\ PR_now s = now /\ PR_world s = w2.
Proof.
  intros Hi Hn Hlate Hj Hv Hl Hc. eexists (mkProtocol _ now w2 _ ((key_of a, now) :: cms) _). split; [|done].
  eapply rtc_l; [eapply (cs_fail _ _ c now w ats cms lp i a ({[key_of a]} ∪ lp)); [done|done|set_solver|right; set_solver]|].
  set (c1 := (MarkFailed _ _ _ _ _).1).
  assert (TryReacquireFromFailed repo (XU_tenant uc) (dedupe (AT_cmd a) (AT_clientKey a) (AT_params a)) now c1 =
    (<[key_of a := (CachedPending, now + 1000 * retryTTLSeconds repo)]> c1, true)) as Hr.
  { unfold TryReacquireFromFailed, cache_Get, c1. cbn [fst MarkFailed]. unfold cache_Set. rewrite lookup_insert_eq.
    assert (0 < ttl_ms (currentFailedRetryWindow repo)) by (unfold ttl_ms; lia). by rewrite (proj2 (Z.ltb_lt _ _)) by lia. }
  eapply rtc_l; [eapply (cs_reacquire _ _ c1 now w (delete i ats) cms _ j); [|exact Hv|exact Hr]|].
  { apply lookup_delete_None. by right. }
  set (b := mkAttempt _ _ _ _ _).
  apply (attempt_finishes _ now w _ cms _ j b x y w1 w2); try done; [apply lookup_insert_eq|].
  cbn. pose proof retryTTLSeconds_pos. lia.
Qed.

Lemma callbackWork_split cmd key params w w' y :
  callbackWork uc cmd key params w = (w', Ok y) ->
  exists w1 x, loadCallback cmd params w = (w1, Ok x) /\ commitCallback uc cmd key params x w1 = (w', Ok y).
Proof. unfold callbackWork. rewrite bind_unfold. destruct (loadCallback cmd params w) as [w1 [x|e]]; [eauto|done]. Qed.
End runs.

(** ** Sample runs *)
Definition callback_key : string := storageKey callback_repo (XU_tenant resolution_uc) (dedupe callback_cmd "k-1" callback_params).

Lemma callback_works :
  let o1 := callback_work resolution_world in
  let o2 := callback_work o1.1 in
  (is_Ok o1.2, is_Ok o2.2, length (DB_outbox (W_db o2.1))) = (true, true, 2%nat).
Proof. vm_compute. reflexivity. Qed.

Lemma cache_Get_Set now t k v ttl c :
  cache_Get now k (cache_Set t k v ttl c) = if now <? t + ttl_ms ttl then Some v else None.
Proof. unfold cache_Get, cache_Set. by rewrite lookup_insert_eq. Qed.

Lemma cache_Get_empty now k : cache_Get now k ∅ = None.
Proof. unfold cache_Get. by rewrite lookup_empty. Qed.

Lemma TryAcquire_free repo tenant dk now c :
  cache_Get now (storageKey repo tenant dk) c = None ->
  TryAcquire repo tenant dk now c =
  (cache_Set now (storageKey repo tenant dk) CachedPending (currentFailedRetryWindow repo) c, true).
Proof. intros H. unfold TryAcquire, cache_SetNX. by rewrite H. Qed.

Abbreviation sample_step :=
  (callback_step (A:=model_assert) (N:=model_unicode) (V:=quiet_env) (O:=model_outbox) resolution_uc callback_repo).

(** One attempt from beginning to end, at an instant at which the marker is
    free. *)
Lemma sample_runs c now w w' y ats cms lp i :
  cache_Get now callback_key c = None -> ats !! i = None -> callback_work w = (w', Ok y) ->
  exists c', rtc sample_step (mkProtocol c now w ats cms lp) (mkProtocol c' now w' ats ((callback_key, now) :: cms) lp) /\
    (forall now', now + ttl_ms (currentSuccessTTL callback_repo) <= now' -> cache_Get now' callback_key c' = None).
Proof.
  intros Hg Hi Hw. apply callbackWork_split in Hw as (w1 & x & Hl & Hc). eexists. split.
  - eapply attempt_runs; [exact Hi|exact callback_validates|by apply TryAcquire_free|exact Hl|exact Hc].
  - intros now' Hle. cbn [fst MarkComplete]. fold callback_key. rewrite cache_Get_Set. by rewrite (proj2 (Z.ltb_ge _ _)).
Qed.

#[local] Opaque callback_key.

Lemma callback_once_witness :
  exists s, rtc sample_step (protocol_init ∅ 0 resolution_world) s /\
    commits_of callback_key (PR_commits s) = [604800000; 0] /\
    StronglySorted (fun t t' => t' + completion_ms callback_repo <= t) (commits_of callback_key (PR_commits s)).
Proof.
  pose proof callback_works as Hw. cbn zeta in Hw. destruct (callback_work resolution_world) as [w1 [y1|e]] eqn:E1; [|discriminate Hw].
  cbn [fst] in Hw. destruct (callback_work w1) as [w2 [y2|e]] eqn:E2; [|discriminate Hw].
  destruct (sample_runs ∅ 0 resolution_world w1 y1 ∅ [] ∅ 0 (cache_Get_empty _ _) (lookup_empty _) E1) as (c1 & H1 & Hf1).
  destruct (sample_runs c1 604800000 w1 w2 y2 ∅ [(callback_key, 0)] ∅ 0 (Hf1 604800000 ltac:(apply Z.leb_le; reflexivity)) (lookup_empty _) E2)
    as (c2 & H2 & _).
  assert (rtc sample_step (protocol_init ∅ 0 resolution_world)
    (mkProtocol c2 604800000 w2 ∅ [(callback_key, 604800000); (callback_key, 0)] ∅)) as Hrun.
  { etrans; [exact H1|]. eapply rtc_l; [|exact H2].
    apply (cs_time _ _ c1 0 w1 ∅ [(callback_key, 0)] ∅ 604800000 ∅); [lia|done|]. intros i a Hi. rewrite lookup_empty in Hi. discriminate Hi. }
  eexists. split; [exact Hrun|]. split; [cbn [PR_commits]; by rewrite !commits_of_cons|].
  destruct (callback_once resolution_uc callback_repo ∅ 0 resolution_world _ callback_key Hrun (not_elem_of_empty _)) as [Hs _]. exact Hs.
Defined.

(** The first attempt outlives its marker, the second completes, the first
    fails, the third commits again. *)
Lemma callback_repeats_witness :
  exists s, rtc sample_step (protocol_init ∅ 0 resolution_world) s /\
    commits_of callback_key (PR_commits s) = [300000; 300000] /\ length (DB_outbox (W_db (PR_world s))) = 2%nat.
Proof.
  pose proof callback_works as Hw. cbn zeta in Hw. destruct (callback_work resolution_world) as [w1 [y1|e]] eqn:E1; [|discriminate Hw].
  cbn [fst] in Hw. destruct (callback_work w1) as [w2 [y2|e]] eqn:E2; [|discriminate Hw]. injection Hw as Hlen.
  set (late := mkAttempt callback_cmd "k-1" callback_params (0 + ttl_ms (currentFailedRetryWindow callback_repo)) PhaseAcquired).
  set (c0 := cache_Set 0 callback_key CachedPending (currentFailedRetryWindow callback_repo) ∅).
  destruct (sample_runs c0 300000 resolution_world w1 y1 {[0%nat := late]} [] ∅ 1) as (c1 & H1 & _);
    [unfold c0; rewrite cache_Get_Set; reflexivity|by rewrite lookup_singleton_ne|exact E1|].
  apply callbackWork_split in E2 as (w3 & x & Hl & Hc).
  destruct (callback_repeats resolution_uc callback_repo c1 300000 w1 {[0%nat := late]} [(callback_key, 300000)] ∅ 0 1 late x y2 w3 w2
    ltac:(by rewrite lookup_singleton_eq) ltac:(intros []) ltac:(apply Z.leb_le; reflexivity) ltac:(by rewrite lookup_singleton_ne) callback_validates Hl Hc) as (s & Hs & Hcm & _ & Hww).
  exists s. split; [|split; [rewrite Hcm; by rewrite !commits_of_cons|by rewrite Hww]].
  eapply rtc_l; [eapply (cs_acquire _ _ ∅ 0 resolution_world ∅ [] ∅ 0 callback_cmd "k-1" callback_params c0); [done|exact callback_validates|apply TryAcquire_free, cache_Get_empty]|].
  eapply rtc_l; [apply (cs_time _ _ c0 0 resolution_world _ [] ∅ 300000 ∅); [lia|done|]|].
  { intros i a Hi Hcmt. apply lookup_insert_Some in Hi as [[_ <-]|[_ Hi]]; [destruct Hcmt|rewrite lookup_empty in Hi; discriminate Hi]. }
  etrans; [exact H1|exact Hs].
Defined.
